(** * liblightdm-gobject: the greeter side of the LightDM login protocol

    A shallow embedding of [src/liblightdm-gobject/greeter.c]: the wire
    codec ([write_int], [write_string], [read_int], [read_string]), the
    dispatcher [from_server_cb] with its handlers, the authentication
    entry points ([ldm_greeter_login] and friends) and the user list
    synchronisation [load_users].

    Conventions of the embedding.
    - C integers are [Z] with the wrap-around of their type written out:
      [u8], [u32] (guint32), [s32] (gint) and [usize] (gsize, 64 bits).
    - [guint8] buffers are [list byte]; a [gchar *] is a [string] and
      [None] stands for the NULL pointer where the code allows it.
    - The greeter object is the record [LdmGreeter]: its private struct,
      the heap of [LdmUser] objects it points into, the messages written
      to the daemon and the signals it has emitted so far.
    - A signal handler is an observer: every emission is logged together
      with the private state the handler would see through the getters. *)

From Stdlib Require Import ZArith Lia List Bool Ascii String Sorted Permutation.
From Stdlib.Strings Require Import Byte.
From stdpp Require Import base option list gmap strings.
From coqutil Require Import Z.bitblast Z.prove_Zeq_bitwise.

Local Open Scope Z_scope.

(** ** Machine integers *)

Definition u8 (z : Z) : Z := z mod 2 ^ 8.
Definition u32 (z : Z) : Z := z mod 2 ^ 32.
Definition usize (z : Z) : Z := z mod 2 ^ 64.
Definition s32 (z : Z) : Z := (z + 2 ^ 31) mod 2 ^ 32 - 2 ^ 31.

Definition byte_to_Z (b : byte) : Z := Z.of_N (Byte.to_N b).

Definition byte_of_Z (z : Z) : byte :=
  match Byte.of_N (Z.to_N (u8 z)) with
  | Some b => b
  | None => x00
  end.

(** ** C strings *)

(** The bytes before the first NUL. *)
Fixpoint until_nul (bytes : list byte) : list byte :=
  match bytes with
  | [] => []
  | b :: rest => if Byte.eqb b x00 then [] else b :: until_nul rest
  end.

(** The bytes of a [gchar *] up to, and without, the terminating NUL. *)
Definition c_bytes (value : string) : list byte :=
  until_nul (list_byte_of_string value).

Definition strlen (value : string) : Z := Z.of_nat (length (c_bytes value)).

(** What a reader of a NUL terminated copy of [bytes] sees. *)
Definition c_string (bytes : list byte) : string :=
  string_of_list_byte (until_nul bytes).

(** A string as C can hold it: no NUL inside. *)
Definition nul_free (value : string) : Prop :=
  Forall (fun b => b <> x00) (list_byte_of_string value).

(** [strcmp]: the sign of the first differing unsigned byte. *)
Definition strcmp (a b : string) : Z :=
  match String.compare a b with
  | Lt => -1
  | Eq => 0
  | Gt => 1
  end.

(** ** Data model *)

(** Modelled from the spec: user.c, which declares [LdmUser], is not
    among the sources.  A user is its name (the key), an optional real
    name, a home directory, an optional image URI and the logged-in
    flag: the arguments of [ldm_user_new] in [load_users]. *)
Record LdmUser := mkUser {
  user_name : string;
  user_real_name : option string;
  user_home_directory : string;
  user_image : option string;
  user_logged_in : bool
}.

(** A pointer to an [LdmUser]: its index in the heap. *)
Abbreviation ptr := nat (only parsing).

Record LdmGreeterPrivate := mkPriv {
  read_buffer : list byte;
  n_read : Z;
  have_users : bool;
  users : list ptr;
  authentication_user : option string;
  in_authentication : bool;
  is_authenticated : bool;
  authenticate_sequence_number : Z;
  cancelling_authentication : bool;
  hints : gmap string string;
  login_timeout : Z
}.

Inductive LdmPromptType := LDM_PROMPT_TYPE_QUESTION | LDM_PROMPT_TYPE_SECRET.
Inductive LdmMessageType := LDM_MESSAGE_TYPE_INFO | LDM_MESSAGE_TYPE_ERROR.

(** The signals of the object, with the arguments of their emission. *)
Inductive Signal :=
| CONNECTED
| SHOW_PROMPT (text : string) (type : LdmPromptType)
| SHOW_MESSAGE (text : string) (type : LdmMessageType)
| AUTHENTICATION_COMPLETE
| SESSION_FAILED
| AUTOLOGIN_TIMER_EXPIRED
| USER_ADDED (info : ptr)
| USER_CHANGED (info : ptr)
| USER_REMOVED (info : ptr)
| QUIT.

(** One emission: the signal and the private state at that moment. *)
Record Emission := mkEmission {
  signal : Signal;
  seen : LdmGreeterPrivate
}.

Record LdmGreeter := mkGreeter {
  priv : LdmGreeterPrivate;
  heap : list LdmUser;
  to_server : list (list byte);
  timeouts : list Z;
  emitted : list Emission
}.

Definition HEADER_SIZE : Z := 8.
Definition MAX_MESSAGE_LENGTH : Z := 1024.

Definition GREETER_MESSAGE_LOGIN : Z := 1.
Definition GREETER_MESSAGE_LOGIN_AS_GUEST : Z := 2.
Definition GREETER_MESSAGE_CONTINUE_AUTHENTICATION : Z := 3.
Definition GREETER_MESSAGE_START_SESSION : Z := 4.
Definition GREETER_MESSAGE_CANCEL_AUTHENTICATION : Z := 5.

(** Messages from the server to the greeter *)
Definition SERVER_MESSAGE_CONNECTED : Z := 0.
Definition SERVER_MESSAGE_QUIT : Z := 1.
Definition SERVER_MESSAGE_PROMPT_AUTHENTICATION : Z := 2.
Definition SERVER_MESSAGE_END_AUTHENTICATION : Z := 3.
Definition SERVER_MESSAGE_SESSION_FAILED : Z := 4.

(** The message styles of <security/pam_appl.h> (Linux-PAM). *)
Definition PAM_PROMPT_ECHO_OFF : Z := 1.
Definition PAM_PROMPT_ECHO_ON : Z := 2.
Definition PAM_ERROR_MSG : Z := 3.
Definition PAM_TEXT_INFO : Z := 4.

(** *** Field updates of the private struct *)

Definition set_read (buffer : list byte) (n : Z) (p : LdmGreeterPrivate) : LdmGreeterPrivate :=
  mkPriv buffer n (have_users p) (users p) (authentication_user p) (in_authentication p)
         (is_authenticated p) (authenticate_sequence_number p) (cancelling_authentication p)
         (hints p) (login_timeout p).

Definition set_n_read (n : Z) (p : LdmGreeterPrivate) : LdmGreeterPrivate :=
  set_read (read_buffer p) n p.

Definition set_have_users (b : bool) (p : LdmGreeterPrivate) : LdmGreeterPrivate :=
  mkPriv (read_buffer p) (n_read p) b (users p) (authentication_user p) (in_authentication p)
         (is_authenticated p) (authenticate_sequence_number p) (cancelling_authentication p)
         (hints p) (login_timeout p).

Definition set_users (l : list ptr) (p : LdmGreeterPrivate) : LdmGreeterPrivate :=
  mkPriv (read_buffer p) (n_read p) (have_users p) l (authentication_user p) (in_authentication p)
         (is_authenticated p) (authenticate_sequence_number p) (cancelling_authentication p)
         (hints p) (login_timeout p).

Definition set_authentication_user (u : option string) (p : LdmGreeterPrivate) : LdmGreeterPrivate :=
  mkPriv (read_buffer p) (n_read p) (have_users p) (users p) u (in_authentication p)
         (is_authenticated p) (authenticate_sequence_number p) (cancelling_authentication p)
         (hints p) (login_timeout p).

Definition set_in_authentication (b : bool) (p : LdmGreeterPrivate) : LdmGreeterPrivate :=
  mkPriv (read_buffer p) (n_read p) (have_users p) (users p) (authentication_user p) b
         (is_authenticated p) (authenticate_sequence_number p) (cancelling_authentication p)
         (hints p) (login_timeout p).

Definition set_is_authenticated (b : bool) (p : LdmGreeterPrivate) : LdmGreeterPrivate :=
  mkPriv (read_buffer p) (n_read p) (have_users p) (users p) (authentication_user p)
         (in_authentication p) b (authenticate_sequence_number p) (cancelling_authentication p)
         (hints p) (login_timeout p).

Definition set_authenticate_sequence_number (n : Z) (p : LdmGreeterPrivate) : LdmGreeterPrivate :=
  mkPriv (read_buffer p) (n_read p) (have_users p) (users p) (authentication_user p)
         (in_authentication p) (is_authenticated p) n (cancelling_authentication p)
         (hints p) (login_timeout p).

Definition set_cancelling_authentication (b : bool) (p : LdmGreeterPrivate) : LdmGreeterPrivate :=
  mkPriv (read_buffer p) (n_read p) (have_users p) (users p) (authentication_user p)
         (in_authentication p) (is_authenticated p) (authenticate_sequence_number p) b
         (hints p) (login_timeout p).

Definition set_hints (h : gmap string string) (p : LdmGreeterPrivate) : LdmGreeterPrivate :=
  mkPriv (read_buffer p) (n_read p) (have_users p) (users p) (authentication_user p)
         (in_authentication p) (is_authenticated p) (authenticate_sequence_number p)
         (cancelling_authentication p) h (login_timeout p).

Definition set_login_timeout (t : Z) (p : LdmGreeterPrivate) : LdmGreeterPrivate :=
  mkPriv (read_buffer p) (n_read p) (have_users p) (users p) (authentication_user p)
         (in_authentication p) (is_authenticated p) (authenticate_sequence_number p)
         (cancelling_authentication p) (hints p) t.

(** Apply a field update to [greeter->priv]. *)
Definition with_priv (f : LdmGreeterPrivate -> LdmGreeterPrivate) (greeter : LdmGreeter) : LdmGreeter :=
  mkGreeter (f (priv greeter)) (heap greeter) (to_server greeter) (timeouts greeter) (emitted greeter).

Definition with_heap (h : list LdmUser) (greeter : LdmGreeter) : LdmGreeter :=
  mkGreeter (priv greeter) h (to_server greeter) (timeouts greeter) (emitted greeter).

(** [g_signal_emit]: the handlers run now, on the state as it is now. *)
Definition g_signal_emit (greeter : LdmGreeter) (s : Signal) : LdmGreeter :=
  mkGreeter (priv greeter) (heap greeter) (to_server greeter) (timeouts greeter)
            (emitted greeter ++ [mkEmission s (priv greeter)]).

(** [g_timeout_add]: registers a source and returns its (non zero) id. *)
Definition g_timeout_add (interval : Z) (greeter : LdmGreeter) : LdmGreeter * Z :=
  (mkGreeter (priv greeter) (heap greeter) (to_server greeter)
             (timeouts greeter ++ [interval]) (emitted greeter),
   Z.of_nat (length (timeouts greeter)) + 1).

(** [timed_login_cb]: the autologin timer has expired. *)
Definition timed_login_cb (greeter : LdmGreeter) : LdmGreeter :=
  let greeter := with_priv (set_login_timeout 0) greeter in
  g_signal_emit greeter AUTOLOGIN_TIMER_EXPIRED.

(** ** Wire codec *)

Definition int_length : Z := 4.

(** [write_message] when [g_io_channel_write_chars] returns
    G_IO_STATUS_NORMAL: the first [message_length] bytes have gone to
    the daemon.  With any other status the code reads [error->message]
    of an error that is NULL and does not return;
    [Channel.write_message] has both branches. *)
Definition write_message (greeter : LdmGreeter) (message : list byte) (message_length : Z) : LdmGreeter :=
  mkGreeter (priv greeter) (heap greeter)
            (to_server greeter ++ [take (Z.to_nat message_length) message])
            (timeouts greeter) (emitted greeter).

(** [buffer[i] = v] for a [guint8] buffer. *)
Definition poke (buffer : list byte) (i : Z) (v : Z) : list byte :=
  <[Z.to_nat i := byte_of_Z v]> buffer.

Definition write_int (buffer : list byte) (buffer_length : Z) (value : Z) (offset : Z) : list byte * Z :=
  if usize buffer_length <=? usize (offset + 4) then (buffer, offset)
  else
    let buffer := poke buffer offset (Z.shiftr value 24) in
    let buffer := poke buffer (offset + 1) (Z.land (Z.shiftr value 16) 255) in
    let buffer := poke buffer (offset + 2) (Z.land (Z.shiftr value 8) 255) in
    let buffer := poke buffer (offset + 3) (Z.land value 255) in
    (buffer, usize (offset + 4)).

(** [memcpy (buffer + offset, src, n)] *)
Definition memcpy (buffer : list byte) (offset : Z) (src : list byte) (n : Z) : list byte :=
  list_inserts (Z.to_nat offset) (take (Z.to_nat n) src) buffer.

Definition write_string (buffer : list byte) (buffer_length : Z) (value : string) (offset : Z) : list byte * Z :=
  let length := s32 (strlen value) in
  let '(buffer, offset) := write_int buffer buffer_length (u32 length) offset in
  if usize buffer_length <=? usize (offset + length) then (buffer, offset)
  else (memcpy buffer offset (c_bytes value) length, usize (offset + length)).

(** [buffer[i]] of the read buffer, promoted to [int]. *)
Definition peek (buffer : list byte) (i : Z) : Z :=
  byte_to_Z (nth (Z.to_nat i) buffer x00).

(** [read_int] returns the value, the new [*offset] and the indices of
    the read buffer it loaded. *)
Definition read_int (greeter : LdmGreeter) (offset : Z) : Z * Z * list Z :=
  let p := priv greeter in
  if usize (n_read p - offset) <? int_length then (0, offset, [])
  else
    let buffer i := peek (read_buffer p) (offset + i) in
    let value :=
      u32 (Z.lor (Z.lor (Z.lor (Z.shiftl (buffer 0) 24) (Z.shiftl (buffer 1) 16))
                        (Z.shiftl (buffer 2) 8)) (buffer 3)) in
    (value, usize (offset + int_length), [offset; offset + 1; offset + 2; offset + 3]).

(** The indices [memcpy] loads from: [offset .. offset + n - 1]. *)
Definition span (offset n : Z) : list Z :=
  map (fun k => offset + Z.of_nat k) (seq 0 (Z.to_nat n)).

Definition read_string (greeter : LdmGreeter) (offset : Z) : string * Z * list Z :=
  let '(length, offset, loads) := read_int greeter offset in
  if usize (n_read (priv greeter) - offset) <? length then (EmptyString, offset, loads)
  else
    let value := c_string (take (Z.to_nat length) (drop (Z.to_nat offset) (read_buffer (priv greeter)))) in
    (value, usize (offset + length), loads ++ span offset length).

Definition string_length (value : string) : Z := u32 (int_length + strlen value).

Definition write_header (buffer : list byte) (buffer_length : Z) (id length : Z) (offset : Z) : list byte * Z :=
  let '(buffer, offset) := write_int buffer buffer_length id offset in
  write_int buffer buffer_length length offset.

Definition get_packet_length (greeter : LdmGreeter) : Z :=
  let '(value, _, _) := read_int greeter 4 in value.

(** ** Hints *)

Definition ldm_greeter_get_hint (greeter : LdmGreeter) (name : string) : option string :=
  hints (priv greeter) !! name.

Definition is_space (c : ascii) : bool :=
  let n := N_of_ascii c in ((n =? 32) || ((9 <=? n) && (n <=? 13)))%N.

Fixpoint skip_spaces (s : string) : string :=
  match s with
  | String c rest => if is_space c then skip_spaces rest else s
  | EmptyString => s
  end.

Fixpoint digits (s : string) (acc : Z) : Z :=
  match s with
  | String c rest =>
      let n := Z.of_N (N_of_ascii c) in
      if (48 <=? n) && (n <=? 57) then digits rest (acc * 10 + (n - 48)) else acc
  | EmptyString => acc
  end.

Definition LONG_MAX : Z := 2 ^ 63 - 1.
Definition LONG_MIN : Z := - 2 ^ 63.

(** [strtol (s, NULL, 10)] of the C library: blanks, an optional sign,
    decimal digits; a number outside the range of [long] gives LONG_MAX
    or LONG_MIN. *)
Definition strtol (s : string) : Z :=
  match skip_spaces s with
  | String "-"%char rest => Z.max LONG_MIN (- digits rest 0)
  | String "+"%char rest => Z.min LONG_MAX (digits rest 0)
  | rest => Z.min LONG_MAX (digits rest 0)
  end.

(** [atoi] of the C library, [(int) strtol (s, NULL, 10)]: the [long]
    is cut to its low 32 bits. *)
Definition atoi (s : string) : Z := s32 (strtol s).

Definition ldm_greeter_get_autologin_timeout_hint (greeter : LdmGreeter) : Z :=
  let timeout :=
    match ldm_greeter_get_hint greeter "autologin-timeout" with
    | Some value => atoi value
    | None => 0
    end in
  if timeout <? 0 then 0 else timeout.

(** ** Handlers of the messages from the server *)

(** The [while] loop of [handle_connected], run while the offset is
    below [length].  An
    iteration that does not return moves the offset by 4 bytes or more,
    or not at all (and then the C loop spins for ever): [None] is the
    loop that does not end within [fuel] iterations. *)
Fixpoint read_hints (fuel : nat) (greeter : LdmGreeter) (length offset : Z) : option (LdmGreeter * Z) :=
  if negb (offset <? length) then Some (greeter, offset)
  else
    match fuel with
    | O => None
    | S fuel =>
        let '(name, offset, _) := read_string greeter offset in
        let '(value, offset, _) := read_string greeter offset in
        let greeter := with_priv (fun p => set_hints (<[name := value]> (hints p)) p) greeter in
        read_hints fuel greeter length offset
    end.

Definition handle_connected (greeter : LdmGreeter) (length offset : Z) : option (LdmGreeter * Z) :=
  let '(version, offset, _) := read_string greeter offset in
  match read_hints (Z.to_nat length) greeter length offset with
  | None => None
  | Some (greeter, offset) =>
      (* Set timeout for default login *)
      let timeout := ldm_greeter_get_autologin_timeout_hint greeter in
      let greeter :=
        if timeout =? 0 then greeter
        else
          let '(greeter, id) := g_timeout_add (u32 (s32 (timeout * 1000))) greeter in
          with_priv (set_login_timeout id) greeter in
      Some (g_signal_emit greeter CONNECTED, offset)
  end.

(** The [for (i = 0; i < n_messages; i++)] loop, [n] iterations to go. *)
Fixpoint prompt_messages (n : nat) (greeter : LdmGreeter) (offset : Z) : LdmGreeter * Z :=
  match n with
  | O => (greeter, offset)
  | S n =>
      let '(style, offset, _) := read_int greeter offset in
      let msg_style := s32 style in
      let '(msg, offset, _) := read_string greeter offset in
      let greeter :=
        if msg_style =? PAM_PROMPT_ECHO_OFF then
          g_signal_emit greeter (SHOW_PROMPT msg LDM_PROMPT_TYPE_SECRET)
        else if msg_style =? PAM_PROMPT_ECHO_ON then
          g_signal_emit greeter (SHOW_PROMPT msg LDM_PROMPT_TYPE_QUESTION)
        else if msg_style =? PAM_ERROR_MSG then
          g_signal_emit greeter (SHOW_MESSAGE msg LDM_MESSAGE_TYPE_ERROR)
        else if msg_style =? PAM_TEXT_INFO then
          g_signal_emit greeter (SHOW_MESSAGE msg LDM_MESSAGE_TYPE_INFO)
        else greeter in
      prompt_messages n greeter offset
  end.

Definition handle_prompt_authentication (greeter : LdmGreeter) (offset : Z) : LdmGreeter * Z :=
  let '(sequence_number, offset, _) := read_int greeter offset in
  if negb (sequence_number =? authenticate_sequence_number (priv greeter)) then
    (greeter, offset)
  else if cancelling_authentication (priv greeter) then
    (greeter, offset)
  else
    let '(n_messages, offset, _) := read_int greeter offset in
    prompt_messages (Z.to_nat n_messages) greeter offset.

Definition handle_end_authentication (greeter : LdmGreeter) (offset : Z) : LdmGreeter * Z :=
  let '(sequence_number, offset, _) := read_int greeter offset in
  let '(return_code, offset, _) := read_int greeter offset in
  if negb (sequence_number =? authenticate_sequence_number (priv greeter)) then
    (greeter, offset)
  else
    let greeter := with_priv (set_cancelling_authentication false) greeter in
    let greeter := with_priv (set_is_authenticated (return_code =? 0)) greeter in
    let greeter :=
      if negb (is_authenticated (priv greeter)) then
        with_priv (set_authentication_user None) greeter
      else greeter in
    let greeter := g_signal_emit greeter AUTHENTICATION_COMPLETE in
    (with_priv (set_in_authentication false) greeter, offset).

Definition handle_session_failed (greeter : LdmGreeter) (offset : Z) : LdmGreeter * Z :=
  (g_signal_emit greeter SESSION_FAILED, offset).

Definition handle_quit (greeter : LdmGreeter) (offset : Z) : LdmGreeter * Z :=
  (g_signal_emit greeter QUIT, offset).

(** The greeter when [read_packet] returns TRUE: the read buffer holds
    one packet, the header and the payload it announces, and [n_read]
    is its length.  (The reads from the channel that lead there are not
    modelled; when [read_packet] returns FALSE, [from_server_cb] returns
    at once.) *)
Definition receive (packet : list byte) (greeter : LdmGreeter) : LdmGreeter :=
  with_priv (set_read packet (Z.of_nat (length packet))) greeter.

(** The body of [from_server_cb] after [read_packet] has returned TRUE. *)
Definition dispatch (greeter : LdmGreeter) : option LdmGreeter :=
  let offset := 0 in
  let '(id, offset, _) := read_int greeter offset in
  let '(length, offset, _) := read_int greeter offset in
  let handled :=
    if id =? SERVER_MESSAGE_CONNECTED then
      fst <$> handle_connected greeter length offset
    else if id =? SERVER_MESSAGE_PROMPT_AUTHENTICATION then
      Some (fst (handle_prompt_authentication greeter offset))
    else if id =? SERVER_MESSAGE_END_AUTHENTICATION then
      Some (fst (handle_end_authentication greeter offset))
    else if id =? SERVER_MESSAGE_SESSION_FAILED then
      Some (fst (handle_session_failed greeter offset))
    else if id =? SERVER_MESSAGE_QUIT then
      Some (fst (handle_quit greeter offset))
    else Some greeter in
  with_priv (set_n_read 0) <$> handled.

(** [from_server_cb] for the call in which [read_packet] completes
    [packet]. *)
Definition from_server_cb (packet : list byte) (greeter : LdmGreeter) : option LdmGreeter :=
  dispatch (receive packet greeter).

(** ** Authentication entry points *)

(** Each entry point writes one message, as its last action.  The
    definitions here are the calls whose write succeeds; module
    [Channel] has the entry points for every status of the write. *)

(** [guint8 message[MAX_MESSAGE_LENGTH]] on the stack.  Only bytes that
    were written are ever sent, so its initial content does not matter. *)
Definition message_buffer : list byte := replicate (Z.to_nat MAX_MESSAGE_LENGTH) x00.

Definition ldm_greeter_login (greeter : LdmGreeter) (username : option string) : LdmGreeter :=
  let message := message_buffer in
  let offset := 0 in
  let username := match username with Some u => u | None => EmptyString end in
  let greeter := with_priv (set_cancelling_authentication false) greeter in
  let greeter :=
    with_priv (fun p => set_authenticate_sequence_number (u32 (authenticate_sequence_number p + 1)) p) greeter in
  let greeter := with_priv (set_in_authentication true) greeter in
  let greeter := with_priv (set_is_authenticated false) greeter in
  let greeter := with_priv (set_authentication_user (Some username)) greeter in
  let '(message, offset) :=
    write_header message MAX_MESSAGE_LENGTH GREETER_MESSAGE_LOGIN
                 (u32 (int_length + string_length username)) offset in
  let '(message, offset) :=
    write_int message MAX_MESSAGE_LENGTH (authenticate_sequence_number (priv greeter)) offset in
  let '(message, offset) := write_string message MAX_MESSAGE_LENGTH username offset in
  write_message greeter message offset.

Definition ldm_greeter_login_with_user_prompt (greeter : LdmGreeter) : LdmGreeter :=
  ldm_greeter_login greeter None.

Definition ldm_greeter_login_as_guest (greeter : LdmGreeter) : LdmGreeter :=
  let message := message_buffer in
  let offset := 0 in
  let greeter := with_priv (set_cancelling_authentication false) greeter in
  let greeter :=
    with_priv (fun p => set_authenticate_sequence_number (u32 (authenticate_sequence_number p + 1)) p) greeter in
  let greeter := with_priv (set_in_authentication true) greeter in
  let greeter := with_priv (set_is_authenticated false) greeter in
  let greeter := with_priv (set_authentication_user None) greeter in
  let '(message, offset) :=
    write_header message MAX_MESSAGE_LENGTH GREETER_MESSAGE_LOGIN_AS_GUEST int_length offset in
  let '(message, offset) :=
    write_int message MAX_MESSAGE_LENGTH (authenticate_sequence_number (priv greeter)) offset in
  write_message greeter message offset.

Definition ldm_greeter_respond (greeter : LdmGreeter) (response : string) : LdmGreeter :=
  let message := message_buffer in
  let offset := 0 in
  let '(message, offset) :=
    write_header message MAX_MESSAGE_LENGTH GREETER_MESSAGE_CONTINUE_AUTHENTICATION
                 (u32 (int_length + string_length response)) offset in
  let '(message, offset) := write_int message MAX_MESSAGE_LENGTH 1 offset in
  let '(message, offset) := write_string message MAX_MESSAGE_LENGTH response offset in
  write_message greeter message offset.

Definition ldm_greeter_cancel_authentication (greeter : LdmGreeter) : LdmGreeter :=
  let message := message_buffer in
  let offset := 0 in
  let greeter := with_priv (set_cancelling_authentication true) greeter in
  let '(message, offset) :=
    write_header message MAX_MESSAGE_LENGTH GREETER_MESSAGE_CANCEL_AUTHENTICATION 0 offset in
  write_message greeter message offset.

Definition ldm_greeter_start_session (greeter : LdmGreeter) (session : option string) : LdmGreeter :=
  let message := message_buffer in
  let offset := 0 in
  let session := match session with Some s => s | None => EmptyString end in
  let '(message, offset) :=
    write_header message MAX_MESSAGE_LENGTH GREETER_MESSAGE_START_SESSION
                 (string_length session) offset in
  let '(message, offset) := write_string message MAX_MESSAGE_LENGTH session offset in
  write_message greeter message offset.

(** [ldm_greeter_cancel_timed_login]: the source is removed from the main
    loop, so that [timed_login_cb] is not called for it. *)
Definition ldm_greeter_cancel_timed_login (greeter : LdmGreeter) : LdmGreeter :=
  with_priv (set_login_timeout 0) greeter.

Definition ldm_greeter_get_in_authentication (greeter : LdmGreeter) : bool :=
  in_authentication (priv greeter).

Definition ldm_greeter_get_is_authenticated (greeter : LdmGreeter) : bool :=
  is_authenticated (priv greeter).

Definition ldm_greeter_get_authentication_user (greeter : LdmGreeter) : option string :=
  authentication_user (priv greeter).

(** [ldm_greeter_init] on the zeroed instance: an 8 byte read buffer and
    an empty hint table. *)
Definition ldm_greeter_init : LdmGreeter :=
  mkGreeter (mkPriv (replicate (Z.to_nat HEADER_SIZE) x00) 0 false [] None false false 0 false ∅ 0)
            [] [] [] [].

(** ** The user list *)

(** *** User objects *)

#[global] Instance LdmUser_inhabited : Inhabited LdmUser :=
  populate (mkUser EmptyString None EmptyString None false).

Definition option_string_eqb (a b : option string) : bool :=
  match a, b with
  | Some x, Some y => String.eqb x y
  | None, None => true
  | _, _ => false
  end.

(** Modelled from the spec: [ldm_user_new] of user.c (not among the
    sources) makes a new object from the fields of the record.  Objects
    are never reclaimed here, so that no address is used twice. *)
Definition ldm_user_new (greeter : LdmGreeter) (name : string) (real_name : option string)
    (home_directory : string) (image : option string) (logged_in : bool) : LdmGreeter * ptr :=
  (with_heap (heap greeter ++ [mkUser name real_name home_directory image logged_in]) greeter,
   length (heap greeter)).

(** Modelled from the spec: the getters of user.c (not among the
    sources) return the fields of the record. *)
Definition ldm_user_get_name (greeter : LdmGreeter) (user : ptr) : string :=
  user_name (heap greeter !!! user).

Definition ldm_user_get_real_name (greeter : LdmGreeter) (user : ptr) : option string :=
  user_real_name (heap greeter !!! user).

Definition ldm_user_get_home_directory (greeter : LdmGreeter) (user : ptr) : string :=
  user_home_directory (heap greeter !!! user).

Definition ldm_user_get_image (greeter : LdmGreeter) (user : ptr) : option string :=
  user_image (heap greeter !!! user).

Definition ldm_user_get_logged_in (greeter : LdmGreeter) (user : ptr) : bool :=
  user_logged_in (heap greeter !!! user).

(** Modelled from the spec: [ldm_user_get_display_name] of user.c (not
    among the sources) is the display name, falling back to the account
    name when no display (real) name is set. *)
Definition ldm_user_get_display_name (greeter : LdmGreeter) (user : ptr) : string :=
  match user_real_name (heap greeter !!! user) with
  | Some real_name => real_name
  | None => user_name (heap greeter !!! user)
  end.

(** No observable field of [u] differs from the arguments. *)
Definition unchanged (u : LdmUser) (real_name : option string) (home_directory : string)
    (image : option string) (logged_in : bool) : bool :=
  option_string_eqb (user_real_name u) real_name
  && String.eqb (user_home_directory u) home_directory
  && option_string_eqb (user_image u) image
  && Bool.eqb (user_logged_in u) logged_in.

(** Modelled from the spec: [ldm_user_update] of user.c (not among the
    sources).  If any observable field differs, the update is applied in
    place, the object and its name staying what they are, and TRUE is
    returned; otherwise nothing changes and FALSE is returned. *)
Definition ldm_user_update (greeter : LdmGreeter) (user : ptr) (real_name : option string)
    (home_directory : string) (image : option string) (logged_in : bool) : LdmGreeter * bool :=
  let u := heap greeter !!! user in
  if unchanged u real_name home_directory image logged_in then (greeter, false)
  else
    (with_heap (<[user := mkUser (user_name u) real_name home_directory image logged_in]> (heap greeter))
               greeter,
     true).

(** *** GLib lists *)

(** [g_list_insert_sorted]: before the first element that does not
    compare below [data]. *)
Fixpoint g_list_insert_sorted (l : list ptr) (data : ptr) (func : ptr -> ptr -> Z) : list ptr :=
  match l with
  | [] => [data]
  | x :: rest =>
      if 0 <? func data x then x :: g_list_insert_sorted rest data func
      else data :: l
  end.

(** [g_strsplit (s, delimiter, -1)] for a one character delimiter: the
    empty string gives no token at all. *)
Fixpoint split_tokens (delimiter : ascii) (s : string) (token : string) : list string :=
  match s with
  | EmptyString => [token]
  | String c rest =>
      if Ascii.eqb c delimiter then token :: split_tokens delimiter rest EmptyString
      else split_tokens delimiter rest (token ++ String c EmptyString)
  end.

Definition g_strsplit (s : string) (delimiter : ascii) : list string :=
  match s with
  | EmptyString => []
  | _ => split_tokens delimiter s EmptyString
  end.

(** *** The system as [load_users] sees it *)

(** [struct passwd], the fields in use. *)
Record passwd := mkPasswd {
  pw_name : string;
  pw_uid : Z;
  pw_gecos : string;
  pw_dir : string;
  pw_shell : option string
}.

(** The [UserAccounts] group of /etc/lightdm/users.conf, the account
    database as [getpwent] enumerates it, and the file system calls. *)
Record System := mkSystem {
  minimum_uid_key : option Z;
  hidden_users_key : option string;
  hidden_shells_key : option string;
  getpwent : list passwd;
  g_build_filename : string -> string -> string;
  g_file_test : string -> bool;
  g_filename_to_uri : string -> option string
}.

Definition get_user_by_name (greeter : LdmGreeter) (username : string) : option ptr :=
  List.find (fun user => strcmp (ldm_user_get_name greeter user) username =? 0)
            (users (priv greeter)).

Definition compare_user (greeter : LdmGreeter) (a b : ptr) : Z :=
  strcmp (ldm_user_get_display_name greeter a) (ldm_user_get_display_name greeter b).

(** The locals of [load_users] that live across the [getpwent] loop. *)
Record Loaded := mkLoaded {
  ld_greeter : LdmGreeter;
  ld_users : list ptr;
  ld_new_users : list ptr;
  ld_changed_users : list ptr
}.

(** The three [continue] tests at the head of the loop body: system
    users, users disabled by shell, hidden users. *)
Definition hidden_entry (minimum_uid : Z) (hidden_users hidden_shells : list string)
    (entry : passwd) : bool :=
  (u32 (pw_uid entry) <? u32 minimum_uid)
  || match pw_shell entry with
     | Some shell => existsb (fun h => strcmp shell h =? 0) hidden_shells
     | None => false
     end
  || existsb (fun h => strcmp (pw_name entry) h =? 0) hidden_users.

(** [real_name]: the first field of the GECOS entry, unless empty. *)
Definition entry_real_name (entry : passwd) : option string :=
  match g_strsplit (pw_gecos entry) ","%char with
  | String c rest :: _ => Some (String c rest)
  | _ => None
  end.

(** [image]: the URI of ~/.face, else of ~/.face.icon, else NULL. *)
Definition entry_image (sys : System) (entry : passwd) : option string :=
  let image_path :=
    let face := g_build_filename sys (pw_dir entry) ".face" in
    if g_file_test sys face then Some face
    else
      let icon := g_build_filename sys (pw_dir entry) ".face.icon" in
      if g_file_test sys icon then Some icon else None in
  match image_path with
  | Some path => g_filename_to_uri sys path
  | None => None
  end.

(** One turn of the [while (TRUE)] loop, for the entry [getpwent] gave. *)
Definition load_entry (sys : System) (minimum_uid : Z) (hidden_users hidden_shells : list string)
    (st : Loaded) (entry : passwd) : Loaded :=
  if hidden_entry minimum_uid hidden_users hidden_shells entry then st
  else
    let '(greeter, user) :=
      ldm_user_new (ld_greeter st) (pw_name entry) (entry_real_name entry) (pw_dir entry)
                   (entry_image sys entry) false in
    (* Update existing users if have them *)
    match List.find (fun info => strcmp (ldm_user_get_name greeter info)
                                        (ldm_user_get_name greeter user) =? 0)
                    (users (priv greeter)) with
    | Some info =>
        let '(greeter, changed) :=
          ldm_user_update greeter info (ldm_user_get_real_name greeter user)
                          (ldm_user_get_home_directory greeter user)
                          (ldm_user_get_image greeter user)
                          (ldm_user_get_logged_in greeter user) in
        let changed_users :=
          if changed then g_list_insert_sorted (ld_changed_users st) info (compare_user greeter)
          else ld_changed_users st in
        mkLoaded greeter (g_list_insert_sorted (ld_users st) info (compare_user greeter))
                 (ld_new_users st) changed_users
    | None =>
        (* Only notify once we have loaded the user list *)
        let new_users :=
          if have_users (priv greeter)
          then g_list_insert_sorted (ld_new_users st) user (compare_user greeter)
          else ld_new_users st in
        mkLoaded greeter (g_list_insert_sorted (ld_users st) user (compare_user greeter))
                 new_users (ld_changed_users st)
    end.

(** [for (link = list; link; link = link->next)] emitting one signal
    per element. *)
Definition notify_each (mk : ptr -> Signal) (l : list ptr) (greeter : LdmGreeter) : LdmGreeter :=
  fold_left (fun greeter info => g_signal_emit greeter (mk info)) l greeter.

(** The last loop of [load_users]: an old user whose object is not in
    the current list is reported as removed. *)
Definition notify_removed (old_users : list ptr) (greeter : LdmGreeter) : LdmGreeter :=
  fold_left (fun greeter info =>
               if existsb (Nat.eqb info) (users (priv greeter)) then greeter
               else g_signal_emit greeter (USER_REMOVED info))
            old_users greeter.

Definition minimum_uid (sys : System) : Z := default 500 (minimum_uid_key sys).

Definition hidden_users (sys : System) : list string :=
  g_strsplit (default "nobody nobody4 noaccess"%string (hidden_users_key sys)) " "%char.

Definition hidden_shells (sys : System) : list string :=
  g_strsplit (default "/bin/false /usr/sbin/nologin"%string (hidden_shells_key sys)) " "%char.

(** The [while (TRUE)] loop over the entries [getpwent] returns. *)
Definition load_entries (sys : System) (greeter : LdmGreeter) : Loaded :=
  fold_left (load_entry sys (minimum_uid sys) (hidden_users sys) (hidden_shells sys))
            (getpwent sys) (mkLoaded greeter [] [] []).

Definition load_users (sys : System) (greeter : LdmGreeter) : LdmGreeter :=
  let st := load_entries sys greeter in
  let greeter := ld_greeter st in
  (* Use new user list *)
  let old_users := users (priv greeter) in
  let greeter := with_priv (set_users (ld_users st)) greeter in
  (* Notify of changes *)
  let greeter := notify_each USER_ADDED (ld_new_users st) greeter in
  let greeter := notify_each USER_CHANGED (ld_changed_users st) greeter in
  notify_removed old_users greeter.

Definition G_FILE_MONITOR_EVENT_CHANGES_DONE_HINT : Z := 1.

Definition passwd_changed_cb (sys : System) (event_type : Z) (greeter : LdmGreeter) : LdmGreeter :=
  if event_type =? G_FILE_MONITOR_EVENT_CHANGES_DONE_HINT then load_users sys greeter
  else greeter.

Definition update_users (sys : System) (greeter : LdmGreeter) : LdmGreeter :=
  if have_users (priv greeter) then greeter
  else
    let greeter := load_users sys greeter in
    with_priv (set_have_users true) greeter.

Definition ldm_greeter_get_users (sys : System) (greeter : LdmGreeter) : LdmGreeter * list ptr :=
  let greeter := update_users sys greeter in
  (greeter, users (priv greeter)).

(** ** Reading the wire format back

    The frames of the claims below are described with [be32], the four
    bytes of a 32 bit value, most significant first. *)

Definition be32 (value : Z) : list byte :=
  [byte_of_Z (Z.shiftr value 24); byte_of_Z (Z.land (Z.shiftr value 16) 255);
   byte_of_Z (Z.land (Z.shiftr value 8) 255); byte_of_Z (Z.land value 255)].

(** A field of a received packet, as [read_int] decodes it. *)
Definition packet_field (packet : list byte) (offset : Z) : Z :=
  fst (fst (read_int (receive packet ldm_greeter_init) offset)).

Definition packet_id (packet : list byte) : Z := packet_field packet 0.
Definition packet_sequence_number (packet : list byte) : Z := packet_field packet 8.


(** A packet as [read_packet] hands it over: the header and exactly the
    payload the header announces. *)
Definition complete_packet (packet : list byte) : Prop :=
  Z.of_nat (length packet) = HEADER_SIZE + packet_field packet 4.

(** The frame layout of the protocol, for the packets of the examples: a
    length prefixed string, and a header in front of a payload. *)
Definition wire_string (value : string) : list byte :=
  be32 (strlen value) ++ c_bytes value.

Definition frame (id : Z) (payload : list byte) : list byte :=
  be32 id ++ be32 (Z.of_nat (length payload)) ++ payload.

(** The message a call wrote last. *)
Definition last_message (greeter : LdmGreeter) : list byte :=
  List.last (to_server greeter) [].

(** Decoding a LOGIN frame with the reader of this file: the header id
    and length, then the sequence number and the user name. *)
Definition decode_login (message : list byte) : Z * Z * Z * string :=
  let greeter := receive message ldm_greeter_init in
  let '(id, offset, _) := read_int greeter 0 in
  let '(length, offset, _) := read_int greeter offset in
  let '(sequence_number, offset, _) := read_int greeter offset in
  let '(username, offset, _) := read_string greeter offset in
  (id, length, sequence_number, username).

(** The LOGIN frame of the protocol: header (id, payload length), the
    sequence number, the length prefixed user name. *)
Definition login_frame (sequence_number : Z) (username : string) : list byte :=
  be32 GREETER_MESSAGE_LOGIN ++ be32 (8 + strlen username) ++ be32 sequence_number
  ++ be32 (strlen username) ++ c_bytes username.

(** The round trip of a LOGIN message with sequence number
    [sequence_number] and user name [username]: the frame that
    [ldm_greeter_login] writes decodes to the LOGIN id, the payload
    length, and back to that number and that name. *)
Definition login_round_trips (sequence_number : Z) (username : string) : Prop :=
  forall greeter : LdmGreeter,
    authenticate_sequence_number (priv greeter) = u32 (sequence_number - 1) ->
    decode_login (last_message (ldm_greeter_login greeter (Some username)))
    = (GREETER_MESSAGE_LOGIN, 8 + strlen username, sequence_number, username).

Fixpoint string_repeat (c : ascii) (n : nat) : string :=
  match n with
  | O => EmptyString
  | S n => String c (string_repeat c n)
  end.

(** A user name of 1008 bytes: with the 16 bytes before it, it reaches
    [MAX_MESSAGE_LENGTH]. *)
Definition long_username : string := string_repeat "a"%char 1008.

(** The index [i] is one of the bytes received so far. *)
Definition received (greeter : LdmGreeter) (i : Z) : Prop :=
  0 <= i < n_read (priv greeter).

(** The bytes not yet consumed at [offset]. *)
Definition remaining (greeter : LdmGreeter) (offset : Z) : Z :=
  n_read (priv greeter) - offset.

(** ** Runs of the greeter *)

(** The packets of the daemon, one [from_server_cb] each. *)
Fixpoint process (packets : list (list byte)) (greeter : LdmGreeter) : option LdmGreeter :=
  match packets with
  | [] => Some greeter
  | packet :: rest =>
      match from_server_cb packet greeter with
      | Some greeter => process rest greeter
      | None => None
      end
  end.

(** The states a greeter gets into: calls of the application and
    complete packets from the daemon, from [ldm_greeter_init] on. *)
Inductive reachable : LdmGreeter -> Prop :=
| reachable_init : reachable ldm_greeter_init
| reachable_login greeter username :
    reachable greeter -> reachable (ldm_greeter_login greeter username)
| reachable_login_with_user_prompt greeter :
    reachable greeter -> reachable (ldm_greeter_login_with_user_prompt greeter)
| reachable_login_as_guest greeter :
    reachable greeter -> reachable (ldm_greeter_login_as_guest greeter)
| reachable_respond greeter response :
    reachable greeter -> reachable (ldm_greeter_respond greeter response)
| reachable_cancel_authentication greeter :
    reachable greeter -> reachable (ldm_greeter_cancel_authentication greeter)
| reachable_start_session greeter session :
    reachable greeter -> reachable (ldm_greeter_start_session greeter session)
| reachable_cancel_timed_login greeter :
    reachable greeter -> reachable (ldm_greeter_cancel_timed_login greeter)
| reachable_timed_login greeter :
    reachable greeter -> login_timeout (priv greeter) <> 0 ->
    reachable (timed_login_cb greeter)
| reachable_from_server greeter packet greeter' :
    reachable greeter -> complete_packet packet ->
    from_server_cb packet greeter = Some greeter' -> reachable greeter'
| reachable_get_users greeter sys :
    reachable greeter -> reachable (fst (ldm_greeter_get_users sys greeter))
| reachable_passwd_changed greeter sys event_type :
    reachable greeter -> have_users (priv greeter) = true ->
    reachable (passwd_changed_cb sys event_type greeter).

(** The fields of the authentication session. *)
Definition same_session (p q : LdmGreeterPrivate) : Prop :=
  in_authentication p = in_authentication q
  /\ is_authenticated p = is_authenticated q
  /\ authentication_user p = authentication_user q
  /\ cancelling_authentication p = cancelling_authentication q
  /\ authenticate_sequence_number p = authenticate_sequence_number q.

(** Packets of the examples. *)
Definition prompt_packet (sequence_number : Z) : list byte :=
  frame SERVER_MESSAGE_PROMPT_AUTHENTICATION
        (be32 sequence_number ++ be32 1 ++ be32 PAM_PROMPT_ECHO_OFF ++ wire_string "Password: ").

Definition end_packet (sequence_number return_code : Z) : list byte :=
  frame SERVER_MESSAGE_END_AUTHENTICATION (be32 sequence_number ++ be32 return_code).

Definition connected_packet (session : string) : list byte :=
  frame SERVER_MESSAGE_CONNECTED
        (wire_string "0.3.2" ++ wire_string "default-session" ++ wire_string session).

(** The claim of C6 as stated: once the first CONNECTED packet has
    filled the hint table, no later packet changes it. *)
Definition hints_never_mutated : Prop :=
  forall (handshake : list byte) (later : list (list byte)) (greeter greeter' : LdmGreeter),
    packet_id handshake = SERVER_MESSAGE_CONNECTED ->
    from_server_cb handshake ldm_greeter_init = Some greeter ->
    process later greeter = Some greeter' ->
    hints (priv greeter') = hints (priv greeter).

(** The greeter after the handshake of the examples, and after a second
    CONNECTED packet. *)
Definition after_handshake : LdmGreeter :=
  default ldm_greeter_init (from_server_cb (connected_packet "gnome") ldm_greeter_init).

Definition after_second_handshake : LdmGreeter :=
  default ldm_greeter_init (from_server_cb (connected_packet "kde") after_handshake).

(** A session with a cancel requested while the login of the example is
    in progress. *)
Definition cancelled_login : LdmGreeter :=
  ldm_greeter_cancel_authentication (ldm_greeter_login ldm_greeter_init (Some "bob"%string)).

(** ** Sequences of login calls *)

Inductive LoginCall :=
| Login (username : option string)
| LoginAsGuest.

Definition login_call (call : LoginCall) (greeter : LdmGreeter) : LdmGreeter :=
  match call with
  | Login username => ldm_greeter_login greeter username
  | LoginAsGuest => ldm_greeter_login_as_guest greeter
  end.

(** The sequence numbers carried by the messages of successive calls:
    the integer after the header of the message each call wrote. *)
Fixpoint call_numbers (calls : list LoginCall) (greeter : LdmGreeter) : list Z :=
  match calls with
  | [] => []
  | call :: rest =>
      let greeter := login_call call greeter in
      packet_sequence_number (last_message greeter) :: call_numbers rest greeter
  end.

Definition strictly_increasing (numbers : list Z) : Prop :=
  forall (i j : nat) (a b : Z),
    (i < j)%nat -> numbers !! i = Some a -> numbers !! j = Some b -> a < b.

(** User names a C program can hold: shorter than 2^31 bytes. *)
Definition short_name (call : LoginCall) : Prop :=
  match call with
  | Login (Some username) => strlen username < 2 ^ 31
  | _ => True
  end.

(** The claim of C7 as stated, for the calls of a fresh session. *)
Definition sequence_numbers_always_increase : Prop :=
  forall calls : list LoginCall,
    Forall short_name calls ->
    strictly_increasing (call_numbers calls ldm_greeter_init).

(** A greeter that has received six bytes: a length prefix announcing
    five bytes, and two bytes. *)
Definition short_read : LdmGreeter :=
  receive (be32 5 ++ ["a"%byte; "b"%byte]) ldm_greeter_init.

(** The claim of C8 as stated, for every read offset: with fewer than
    4 bytes remaining [read_int] returns 0, and no byte it loads lies
    beyond the bytes received. *)
Definition reads_fail_closed_at_every_offset : Prop :=
  forall (greeter : LdmGreeter) (offset : Z),
    0 <= offset < 2 ^ 64 ->
    0 <= n_read (priv greeter) < 2 ^ 64 ->
    remaining greeter offset < 4 ->
    forall value offset' loads,
      read_int greeter offset = (value, offset', loads) ->
      value = 0 /\ Forall (received greeter) loads.

(** A greeter that has received the first two bytes of a header; the
    8 bytes of its read buffer are those of the packet before. *)
Definition two_bytes_read : LdmGreeter :=
  with_priv (set_read [x00; x00; x00; x05; x00; x00; x00; x07] 2) ldm_greeter_init.

(** ** Statements about the user list *)

(** The record [load_entry] builds for an entry. *)
Definition candidate (sys : System) (entry : passwd) : LdmUser :=
  mkUser (pw_name entry) (entry_real_name entry) (pw_dir entry) (entry_image sys entry) false.

(** The entries of the account database that pass the three filters,
    in the order of the enumeration. *)
Definition visible_entries (sys : System) : list passwd :=
  List.filter (fun entry => negb (hidden_entry (minimum_uid sys) (hidden_users sys)
                                               (hidden_shells sys) entry))
              (getpwent sys).

(** [a] does not come after [b] in the ordering of the list: the
    [compare_user] of the two is not positive. *)
Definition display_le (greeter : LdmGreeter) (a b : ptr) : Prop :=
  compare_user greeter a b <= 0.

Definition sorted_by_display_name (greeter : LdmGreeter) (l : list ptr) : Prop :=
  Sorted (display_le greeter) l.

(** Every user of the cached list is an object of the heap. *)
Definition users_valid (greeter : LdmGreeter) : Prop :=
  Forall (fun user => (user < length (heap greeter))%nat) (users (priv greeter)).

(** The signals emitted so far, without the state seen. *)
Definition signals (greeter : LdmGreeter) : list Signal :=
  map signal (emitted greeter).

(** The old users that one run of [load_users] reports as removed:
    those whose object is not in the new list, in the order of the old
    list. *)
Definition removed_users (old_users new_users : list ptr) : list ptr :=
  List.filter (fun info => negb (existsb (Nat.eqb info) new_users)) old_users.

(** The display name and [compare_user] as functions of the heap. *)
Definition display_name (h : list LdmUser) (user : ptr) : string :=
  match user_real_name (h !!! user) with
  | Some real_name => real_name
  | None => user_name (h !!! user)
  end.

Definition compare_display (h : list LdmUser) (a b : ptr) : Z :=
  strcmp (display_name h a) (display_name h b).

(** [u] after [ldm_user_update] with the fields of [c], and the test
    that finds nothing to update. *)
Definition updated (u c : LdmUser) : LdmUser :=
  mkUser (user_name u) (user_real_name c) (user_home_directory c) (user_image c)
         (user_logged_in c).

Definition same_fields (u c : LdmUser) : bool :=
  unchanged u (user_real_name c) (user_home_directory c) (user_image c) (user_logged_in c).

(** The loop body for an entry that passes the filters, with the
    getters unfolded; [load_entry_visible] below shows that this is
    what [load_entry] computes. *)
Definition load_visible (sys : System) (st : Loaded) (entry : passwd) : Loaded :=
  let g := ld_greeter st in
  let user := length (heap g) in
  let h1 := heap g ++ [candidate sys entry] in
  match List.find (fun info => String.eqb (user_name (h1 !!! info)) (pw_name entry))
                  (users (priv g)) with
  | Some info =>
      if same_fields (h1 !!! info) (candidate sys entry) then
        mkLoaded (with_heap h1 g)
                 (g_list_insert_sorted (ld_users st) info (compare_display h1))
                 (ld_new_users st) (ld_changed_users st)
      else
        let h2 := <[info := updated (h1 !!! info) (candidate sys entry)]> h1 in
        mkLoaded (with_heap h2 g)
                 (g_list_insert_sorted (ld_users st) info (compare_display h2))
                 (ld_new_users st)
                 (g_list_insert_sorted (ld_changed_users st) info (compare_display h2))
  | None =>
      mkLoaded (with_heap h1 g)
               (g_list_insert_sorted (ld_users st) user (compare_display h1))
               (if have_users (priv g)
                then g_list_insert_sorted (ld_new_users st) user (compare_display h1)
                else ld_new_users st)
               (ld_changed_users st)
  end.

(** The cached user that an entry updates, when it changes a field. *)
Definition changed_entry (sys : System) (greeter : LdmGreeter) (entry : passwd) : option ptr :=
  match get_user_by_name greeter (pw_name entry) with
  | Some info =>
      if same_fields (heap greeter !!! info) (candidate sys entry) then None else Some info
  | None => None
  end.

(** The entry names no cached user. *)
Definition new_entry (greeter : LdmGreeter) (entry : passwd) : bool :=
  match get_user_by_name greeter (pw_name entry) with
  | Some _ => false
  | None => true
  end.

(** No entry of [entries] has the name of the cached user [info]. *)
Definition gone (greeter : LdmGreeter) (entries : list passwd) (info : ptr) : bool :=
  negb (existsb (fun entry => String.eqb (pw_name entry) (ldm_user_get_name greeter info)) entries).

(** What holds of the locals of [load_users] all along the loop that
    started from [g0], whatever the account database holds. *)
Record scan_ok (g0 : LdmGreeter) (st : Loaded) : Prop := mkScanOk {
  ok_frame : ld_greeter st = with_heap (heap (ld_greeter st)) g0;
  ok_grow : (length (heap g0) <= length (heap (ld_greeter st)))%nat;
  ok_names : forall p, (p < length (heap g0))%nat ->
             user_name (heap (ld_greeter st) !!! p) = user_name (heap g0 !!! p);
  ok_users : Forall (fun p => (p < length (heap (ld_greeter st)))%nat) (ld_users st);
  ok_new_fresh : Forall (fun p => (length (heap g0) <= p < length (heap (ld_greeter st)))%nat)
                        (ld_new_users st);
  ok_new_silent : have_users (priv g0) = false -> ld_new_users st = [];
  ok_new_sorted : Sorted (fun a b => compare_display (heap (ld_greeter st)) a b <= 0)
                         (ld_new_users st);
  ok_changed_old : Forall (fun p => In p (users (priv g0))) (ld_changed_users st)
}.

(** What holds in addition when the entries processed so far, [done],
    have pairwise distinct names: every cached user was updated at most
    once, by the entry of its name. *)
Record scan_exact (sys : System) (g0 : LdmGreeter) (done : list passwd) (st : Loaded) : Prop :=
  mkScanExact {
  ex_untouched : forall p, In p (users (priv g0)) ->
                 ~ In (user_name (heap g0 !!! p)) (map pw_name done) ->
                 heap (ld_greeter st) !!! p = heap g0 !!! p;
  ex_changed_named : Forall (fun p => In (user_name (heap g0 !!! p)) (map pw_name done))
                            (ld_changed_users st);
  ex_changed_sorted : Sorted (fun a b => compare_display (heap (ld_greeter st)) a b <= 0)
                             (ld_changed_users st);
  ex_new : have_users (priv g0) = true ->
           Permutation (map (fun p => heap (ld_greeter st) !!! p) (ld_new_users st))
                       (map (candidate sys) (List.filter (new_entry g0) done));
  ex_changed : Permutation (ld_changed_users st) (omap (changed_entry sys g0) done);
  ex_users : forall q, (q < length (heap g0))%nat ->
             (In q (ld_users st) <->
              exists e, In e done /\ get_user_by_name g0 (pw_name e) = Some q);
  ex_updated : forall e q, In e done -> get_user_by_name g0 (pw_name e) = Some q ->
               heap (ld_greeter st) !!! q = updated (heap g0 !!! q) (candidate sys e)
}.

(** The notifications of one run of [load_users], as C4 orders them:
    the users added (sorted by display name), then the users changed
    (sorted likewise), then the users removed (in the order of the list
    cached before the run). *)
Definition notifications_ordered (sys : System) (greeter : LdmGreeter) : Prop :=
  let greeter' := load_users sys greeter in
  exists added changed removed : list ptr,
    signals greeter'
    = signals greeter ++ map USER_ADDED added ++ map USER_CHANGED changed
      ++ map USER_REMOVED removed
    /\ sorted_by_display_name greeter' added
    /\ sorted_by_display_name greeter' changed
    /\ removed = removed_users (users (priv greeter)) (users (priv greeter')).

(** The claim of C4 as stated, for the runs after the baseline load. *)
Definition resynchronisation_always_ordered : Prop :=
  forall (sys : System) (greeter : LdmGreeter),
    reachable greeter -> have_users (priv greeter) = true ->
    notifications_ordered sys greeter.

(** An account database for the examples: no configuration file, no
    face images. *)
Definition accounts (entries : list passwd) : System :=
  mkSystem None None None entries
           (fun directory file => (directory ++ "/" ++ file)%string)
           (fun _ => false)
           (fun path => Some ("file://" ++ path)%string).

Definition account (name : string) (uid : Z) (gecos home : string) : passwd :=
  mkPasswd name uid gecos home (Some "/bin/bash"%string).

(** Two accounts, and a later enumeration that returns the account bob
    twice, with two real names. *)
Definition two_accounts : System :=
  accounts [account "alice" 1000 "A" "/home/alice"; account "bob" 1001 "M" "/home/bob"].

Definition bob_twice : System :=
  accounts [account "bob" 1001 "B" "/home/bob"; account "alice" 1000 "C" "/home/alice";
            account "bob" 1001 "Z" "/home/bob"].

Definition two_cached : LdmGreeter := fst (ldm_greeter_get_users two_accounts ldm_greeter_init).

(** The scenario of C5: a baseline of three accounts; later alice has
    another home directory, bob is gone and dave is new. *)
Definition baseline_accounts : System :=
  accounts [account "alice" 1000 "Alice,,," "/home/alice"; account "bob" 1001 "" "/home/bob";
            account "carol" 1002 "Carol" "/home/carol"].

Definition alice_moved : passwd := account "alice" 1000 "Alice,,," "/srv/alice".
Definition dave : passwd := account "dave" 1003 "Dave" "/home/dave".

Definition later_accounts : System :=
  accounts [dave; alice_moved; account "carol" 1002 "Carol" "/home/carol"].

(** The scenario in general: [baseline] is loaded first by a greeter
    that has no user list yet; in [later], no account name is
    enumerated twice, exactly one entry, [added], names no cached
    user; exactly one cached user, [changed], is named by an entry
    that differs from its record, and that entry, [changed_to], has
    another home directory; exactly one cached user, [removed], is
    named by no entry. *)
Definition resynchronisation_scenario (baseline later : System) (g0 : LdmGreeter)
    (added changed_to : passwd) (changed removed : ptr) : Prop :=
  let g1 := update_users baseline g0 in
  let entries := visible_entries later in
  have_users (priv g0) = false
  /\ users (priv g0) = []
  /\ List.NoDup (map (ldm_user_get_name g1) (users (priv g1)))
  /\ List.NoDup (map pw_name entries)
  /\ List.filter (new_entry g1) entries = [added]
  /\ omap (changed_entry later g1) entries = [changed]
  /\ (In changed_to entries
      /\ get_user_by_name g1 (pw_name changed_to) = Some changed
      /\ ldm_user_get_home_directory g1 changed <> pw_dir changed_to)
  /\ List.filter (gone g1 entries) (users (priv g1)) = [removed].

(** The claim of C5 as stated: nothing for the baseline load, then
    changed, added, removed. *)
Definition changed_before_added : Prop :=
  forall (baseline later : System) (g0 : LdmGreeter) (added changed_to : passwd)
         (changed removed : ptr),
    resynchronisation_scenario baseline later g0 added changed_to changed removed ->
    let g1 := update_users baseline g0 in
    let g2 := passwd_changed_cb later G_FILE_MONITOR_EVENT_CHANGES_DONE_HINT g1 in
    emitted g1 = emitted g0
    /\ exists new_user : ptr,
         signals g2
         = signals g1 ++ [USER_CHANGED changed; USER_ADDED new_user; USER_REMOVED removed].

(** ** The hints of the daemon *)

(** [g_strcmp0]: [strcmp] that takes NULL, which sorts before any
    string. *)
Definition g_strcmp0 (a b : option string) : Z :=
  match a, b with
  | None, None => 0
  | None, Some _ => -1
  | Some _, None => 1
  | Some a, Some b => strcmp a b
  end.

Definition ldm_greeter_get_default_session_hint (greeter : LdmGreeter) : option string :=
  ldm_greeter_get_hint greeter "default-session".

Definition ldm_greeter_get_hide_users_hint (greeter : LdmGreeter) : bool :=
  let value := ldm_greeter_get_hint greeter "hide-users" in
  g_strcmp0 value (Some "true"%string) =? 0.

Definition ldm_greeter_get_has_guest_account_hint (greeter : LdmGreeter) : bool :=
  let value := ldm_greeter_get_hint greeter "has-guest-account" in
  g_strcmp0 value (Some "true"%string) =? 0.

Definition ldm_greeter_get_select_user_hint (greeter : LdmGreeter) : option string :=
  ldm_greeter_get_hint greeter "select-user".

Definition ldm_greeter_get_select_guest_hint (greeter : LdmGreeter) : bool :=
  let value := ldm_greeter_get_hint greeter "select-guest" in
  g_strcmp0 value (Some "true"%string) =? 0.

Definition ldm_greeter_get_autologin_user_hint (greeter : LdmGreeter) : option string :=
  ldm_greeter_get_hint greeter "autologin-user".

Definition ldm_greeter_get_autologin_guest_hint (greeter : LdmGreeter) : bool :=
  let value := ldm_greeter_get_hint greeter "autologin-guest" in
  g_strcmp0 value (Some "true"%string) =? 0.

(** ** Packets of the daemon in general *)

(** One message of a PROMPT_AUTHENTICATION packet, a PAM style and a
    text, on the wire, and the signal the greeter raises for it. *)
Definition wire_prompt (message : Z * string) : list byte :=
  be32 (fst message) ++ wire_string (snd message).

Definition prompt_frame (sequence_number n_messages : Z) (messages : list (Z * string)) :
    list byte :=
  frame SERVER_MESSAGE_PROMPT_AUTHENTICATION
        (be32 sequence_number ++ be32 n_messages ++ concat (map wire_prompt messages)).

Definition prompt_signal (message : Z * string) : option Signal :=
  let '(style, text) := message in
  if style =? PAM_PROMPT_ECHO_OFF then Some (SHOW_PROMPT text LDM_PROMPT_TYPE_SECRET)
  else if style =? PAM_PROMPT_ECHO_ON then Some (SHOW_PROMPT text LDM_PROMPT_TYPE_QUESTION)
  else if style =? PAM_ERROR_MSG then Some (SHOW_MESSAGE text LDM_MESSAGE_TYPE_ERROR)
  else if style =? PAM_TEXT_INFO then Some (SHOW_MESSAGE text LDM_MESSAGE_TYPE_INFO)
  else None.

(** A message as the wire can carry it: a 32 bit style, a text without
    NUL. *)
Definition prompt_ok (message : Z * string) : Prop :=
  0 <= fst message < 2 ^ 32 /\ nul_free (snd message).

(** One hint of a CONNECTED packet, a name and a value, on the wire. *)
Definition wire_hint (hint : string * string) : list byte :=
  wire_string (fst hint) ++ wire_string (snd hint).

Definition connected_frame (version : string) (pairs : list (string * string)) : list byte :=
  frame SERVER_MESSAGE_CONNECTED (wire_string version ++ concat (map wire_hint pairs)).

Definition set_hint (table : gmap string string) (hint : string * string) : gmap string string :=
  <[fst hint := snd hint]> table.

(** A hint as the wire can carry it; the name is not empty. *)
Definition hint_ok (hint : string * string) : Prop :=
  nul_free (fst hint) /\ nul_free (snd hint) /\ fst hint <> EmptyString.

(** What every call and every packet keeps of the session: the
    sequence number is a 32 bit number, and a session that is
    authenticated is not in authentication. *)
Definition session_ok (p : LdmGreeterPrivate) : Prop :=
  0 <= authenticate_sequence_number p < 2 ^ 32
  /\ (is_authenticated p = true -> in_authentication p = false).

(** ** The other getters of the user list *)

(** [g_list_length] is a [guint]; the function returns it as a [gint]. *)
Definition ldm_greeter_get_num_users (sys : System) (greeter : LdmGreeter) : LdmGreeter * Z :=
  let greeter := update_users sys greeter in
  (greeter, s32 (u32 (Z.of_nat (length (users (priv greeter)))))).

(** A NULL [username] fails the precondition check: NULL is returned
    before the user list is looked at. *)
Definition ldm_greeter_get_user_by_name (sys : System) (greeter : LdmGreeter)
    (username : option string) : LdmGreeter * option ptr :=
  match username with
  | None => (greeter, None)
  | Some username =>
      let greeter := update_users sys greeter in
      (greeter, get_user_by_name greeter username)
  end.

(** ** Reading packets from the channel *)

Inductive GIOStatus :=
| G_IO_STATUS_ERROR
| G_IO_STATUS_NORMAL
| G_IO_STATUS_EOF
| G_IO_STATUS_AGAIN.

(** [greeter->priv->from_server_channel], the pipe from the daemon, as
    the reads of the greeter find it: for each read in turn, a status
    and, with G_IO_STATUS_NORMAL, the bytes that are ready.  The channel
    is passed beside the greeter. *)
Definition GIOChannel : Type := list (GIOStatus * list byte).

(** [g_io_channel_read_chars (channel, buf, count, &bytes_read, &error)]
    of GLib: at most [count] of the bytes that are ready are returned,
    the others stay for the next read; any other status comes with no
    byte.  A channel with nothing more to say answers
    G_IO_STATUS_AGAIN. *)
Definition g_io_channel_read_chars (channel : GIOChannel) (count : Z) :
    GIOChannel * GIOStatus * list byte :=
  match channel with
  | [] => ([], G_IO_STATUS_AGAIN, [])
  | (G_IO_STATUS_NORMAL, ready) :: rest =>
      let n := Z.to_nat count in
      (if (length ready <=? n)%nat then rest else (G_IO_STATUS_NORMAL, drop n ready) :: rest,
       G_IO_STATUS_NORMAL, take n ready)
  | (status, _) :: rest => (rest, status, [])
  end.

(** [g_realloc (mem, n_bytes)]: the first bytes are kept. *)
Definition g_realloc (mem : list byte) (n_bytes : Z) : list byte :=
  take (Z.to_nat n_bytes) mem ++ replicate (Z.to_nat n_bytes - length mem) x00.

(** The [do ... while] loop of [read_packet]; [None] is the loop that
    does not end within [fuel] reads. *)
Fixpoint read_chars (fuel : nat) (channel : GIOChannel) (greeter : LdmGreeter)
    (n_to_read : Z) (block : bool) : option (GIOChannel * LdmGreeter) :=
  match fuel with
  | O => None
  | S fuel =>
      let p := priv greeter in
      let '(channel, status, bytes) :=
        g_io_channel_read_chars channel (usize (n_to_read - n_read p)) in
      match status with
      | G_IO_STATUS_NORMAL =>
          let n_read_now := Z.of_nat (length bytes) in
          let greeter :=
            with_priv (set_read (memcpy (read_buffer p) (n_read p) bytes n_read_now)
                                (usize (n_read p + n_read_now)))
                      greeter in
          if (n_read (priv greeter) <? n_to_read) && block
          then read_chars fuel channel greeter n_to_read block
          else Some (channel, greeter)
      | _ => Some (channel, greeter)
      end
  end.

(** [read_packet]: the channel and the greeter after the reads, and the
    result; [None] when [fuel] does not cover the reads and the
    recursive call. *)
Fixpoint read_packet (fuel : nat) (channel : GIOChannel) (greeter : LdmGreeter) (block : bool) :
    option (GIOChannel * LdmGreeter * bool) :=
  match fuel with
  | O => None
  | S fuel' =>
      (* Read the header, or the whole packet if we already have that *)
      let n_to_read := HEADER_SIZE in
      let n_to_read :=
        if HEADER_SIZE <=? n_read (priv greeter)
        then usize (n_to_read + get_packet_length greeter)
        else n_to_read in
      match read_chars fuel channel greeter n_to_read block with
      | None => None
      | Some (channel, greeter) =>
          (* Stop if haven't got all the data we want *)
          if negb (n_read (priv greeter) =? n_to_read) then Some (channel, greeter, false)
          else if n_read (priv greeter) =? HEADER_SIZE then
            (* If have header, rerun for content *)
            let n_to_read := get_packet_length greeter in
            if 0 <? n_to_read then
              let greeter :=
                with_priv (fun p => set_read (g_realloc (read_buffer p)
                                                        (usize (HEADER_SIZE + n_to_read)))
                                             (n_read p) p)
                          greeter in
              read_packet fuel' channel greeter block
            else Some (channel, greeter, true)
          else Some (channel, greeter, true)
      end
  end.

(** [from_server_cb] as the main loop calls it when the channel is
    readable: [read_packet], without blocking, and then, when a packet
    is complete, the dispatch to its handler. *)
Definition from_server_cb_channel (channel : GIOChannel) (greeter : LdmGreeter) :
    option (GIOChannel * LdmGreeter) :=
  match read_packet (2 + length channel) channel greeter false with
  | None => None
  | Some (channel, greeter, false) => Some (channel, greeter)
  | Some (channel, greeter, true) =>
      match dispatch greeter with
      | None => None
      | Some greeter => Some (channel, greeter)
      end
  end.

(** The bytes the channel still holds, in the order of the reads. *)
Definition pending (channel : GIOChannel) : list byte :=
  concat (map (fun entry : GIOStatus * list byte =>
                 match fst entry with
                 | G_IO_STATUS_NORMAL => snd entry
                 | _ => []
                 end) channel).

(** The bytes received so far: the first [n_read] bytes of the read
    buffer. *)
Definition received_bytes (greeter : LdmGreeter) : list byte :=
  take (Z.to_nat (n_read (priv greeter))) (read_buffer (priv greeter)).

(** The read buffer between two calls of [from_server_cb]: it has room
    for a header, and once the header is there, for the packet the
    header announces, which is not complete yet. *)
Definition transport_ok (greeter : LdmGreeter) : Prop :=
  0 <= n_read (priv greeter)
  /\ HEADER_SIZE <= Z.of_nat (length (read_buffer (priv greeter))) < 2 ^ 63
  /\ (HEADER_SIZE <= n_read (priv greeter) ->
      n_read (priv greeter) < HEADER_SIZE + get_packet_length greeter
      /\ HEADER_SIZE + get_packet_length greeter
         <= Z.of_nat (length (read_buffer (priv greeter)))).

(** The greeter without its read buffer: what the application can
    observe of it, now and in the signals it was sent. *)
Definition forget_read (p : LdmGreeterPrivate) : LdmGreeterPrivate := set_read [] 0 p.

Definition observable (greeter : LdmGreeter) : LdmGreeter :=
  mkGreeter (forget_read (priv greeter)) (heap greeter) (to_server greeter) (timeouts greeter)
            (map (fun e => mkEmission (signal e) (forget_read (seen e))) (emitted greeter)).

(** Two greeters that differ at most in the bytes of the read buffer
    that were not received. *)
Definition same_received (a b : LdmGreeter) : Prop :=
  observable a = observable b
  /\ n_read (priv a) = n_read (priv b)
  /\ received_bytes a = received_bytes b.

(** [n] calls of [from_server_cb] in a row. *)
Fixpoint callbacks (n : nat) (channel : GIOChannel) (greeter : LdmGreeter) :
    option (GIOChannel * LdmGreeter) :=
  match n with
  | O => Some (channel, greeter)
  | S n =>
      match from_server_cb_channel channel greeter with
      | Some (channel, greeter) => callbacks n channel greeter
      | None => None
      end
  end.

(** ** The environment of the greeter *)



(** ** Languages and sessions *)

(** Modelled from the spec: session.c, which declares [LdmSession], is
    not among the sources.  A session is its key, its name and its
    comment: the arguments of [ldm_session_new] in [update_sessions]. *)
Record LdmSession := mkSession {
  session_key : string;
  session_name : string;
  session_comment : string
}.

(** The fields of the private struct that hold the two catalogues.
    Modelled from the spec: language.c is not among the sources; an
    [LdmLanguage] is its code, the argument of [ldm_language_new]. *)
Record Catalogues := mkCatalogues {
  have_languages : bool;
  languages : list string;
  have_sessions : bool;
  sessions : list LdmSession
}.

(** [g_strsplit_set (string, delimiters, -1)]: the tokens between the
    characters of [delimiters]; the empty string gives no token. *)
Fixpoint split_tokens_set (delimiters : list ascii) (s : string) (token : string) : list string :=
  match s with
  | EmptyString => [token]
  | String c rest =>
      if existsb (Ascii.eqb c) delimiters
      then token :: split_tokens_set delimiters rest EmptyString
      else split_tokens_set delimiters rest (token ++ String c EmptyString)
  end.

Definition g_strsplit_set (s : string) (delimiters : list ascii) : list string :=
  match s with
  | EmptyString => []
  | _ => split_tokens_set delimiters s EmptyString
  end.

(** [g_ascii_isspace]: space, tab, line feed, form feed and carriage
    return; unlike [isspace], not the vertical tab. *)
Definition g_ascii_isspace (c : ascii) : bool :=
  let n := N_of_ascii c in
  ((n =? 32) || (n =? 9) || (n =? 10) || (n =? 12) || (n =? 13))%N.

(** [g_strchug]: the string without its leading white space. *)
Fixpoint g_strchug (s : string) : string :=
  match s with
  | String c rest => if g_ascii_isspace c then g_strchug rest else s
  | EmptyString => s
  end.

(** What [g_spawn_command_line_sync] reports: the command could not be
    run, or it ran and left an exit status and its output. *)
Inductive Spawned :=
| SpawnFailed
| SpawnExited (exit_status : Z) (stdout_text : string).

(** The body of the [for] loop over the tokens. *)
Definition add_language (languages : list string) (token : string) : list string :=
  let code := g_strchug token in
  match code with
  | EmptyString => languages
  | _ =>
      (* Ignore the non-interesting languages *)
      if (strcmp code "C" =? 0) || (strcmp code "POSIX" =? 0) then languages
      else languages ++ [code]
  end.

(** [update_languages], for the outcome of running "locale -a".  When
    the command ran and failed, the warning reads the message of an
    error that is NULL: [None]. *)
Definition update_languages (locale_a : Spawned) (c : Catalogues) : option Catalogues :=
  if have_languages c then Some c
  else
    match locale_a with
    | SpawnFailed => Some (mkCatalogues true (languages c) (have_sessions c) (sessions c))
    | SpawnExited exit_status stdout_text =>
        if negb (exit_status =? 0) then None
        else
          let tokens := g_strsplit_set stdout_text ["010"%char; "013"%char] in
          Some (mkCatalogues true (fold_left add_language tokens (languages c))
                             (have_sessions c) (sessions c))
    end.

Definition ldm_greeter_get_languages (locale_a : Spawned) (c : Catalogues) :
    option (Catalogues * list string) :=
  match update_languages locale_a c with
  | Some c => Some (c, languages c)
  | None => None
  end.

(** A desktop entry, as the key file functions return it: the NoDisplay
    flag (FALSE when the key is missing), the Name and the Comment. *)
Record DesktopEntry := mkDesktopEntry {
  NoDisplay : bool;
  Name : option string;
  Comment : option string
}.

(** The session directory: the names [g_dir_read_name] returns after
    [g_dir_open], or NULL, and the key file of each name, when it
    loads. *)
Record SessionDirectory := mkSessionDirectory {
  g_dir_open : option (list string);
  g_key_file_load_from_file : string -> option DesktopEntry
}.

Definition g_str_has_suffix (str suffix : string) : bool :=
  let str := list_ascii_of_string str in
  let suffix := list_ascii_of_string suffix in
  (length suffix <=? length str)%nat
  && bool_decide (drop (length str - length suffix) str = suffix).

Definition g_strndup (str : string) (n : nat) : string :=
  string_of_list_ascii (take n (list_ascii_of_string str)).

(** One turn of the [while (TRUE)] loop of [update_sessions], for the
    name [g_dir_read_name] gave.  A visible entry without a name makes
    the warning read the message of an error that is NULL: [None]. *)
Definition load_session (directory : SessionDirectory) (sessions : list LdmSession)
    (filename : string) : option (list LdmSession) :=
  if negb (g_str_has_suffix filename ".desktop") then Some sessions
  else
    let key := g_strndup filename (String.length filename - String.length ".desktop") in
    match g_key_file_load_from_file directory filename with
    | Some key_file =>
        if negb (NoDisplay key_file) then
          let comment := default EmptyString (Comment key_file) in
          match Name key_file with
          | Some name => Some (sessions ++ [mkSession key name comment])
          | None => None
          end
        else Some sessions
    | None => Some sessions
    end.

Fixpoint load_sessions (directory : SessionDirectory) (sessions : list LdmSession)
    (filenames : list string) : option (list LdmSession) :=
  match filenames with
  | [] => Some sessions
  | filename :: rest =>
      match load_session directory sessions filename with
      | Some sessions => load_sessions directory sessions rest
      | None => None
      end
  end.

Definition update_sessions (directory : SessionDirectory) (c : Catalogues) : option Catalogues :=
  if have_sessions c then Some c
  else
    match g_dir_open directory with
    | None => Some c
    | Some filenames =>
        match load_sessions directory (sessions c) filenames with
        | Some sessions => Some (mkCatalogues (have_languages c) (languages c) true sessions)
        | None => None
        end
    end.

Definition ldm_greeter_get_sessions (directory : SessionDirectory) (c : Catalogues) :
    option (Catalogues * list LdmSession) :=
  match update_sessions directory c with
  | Some c => Some (c, sessions c)
  | None => None
  end.

(** The output of a command that prints one line for each of [lines]. *)
Definition unlines (lines : list string) : string :=
  fold_right (fun line text => (line ++ String "010"%char text)%string) EmptyString lines.

(** A locale name as "locale -a" prints it: not empty, no white space
    in front, no line break inside. *)
Definition locale_name (code : string) : Prop :=
  code <> EmptyString
  /\ g_strchug code = code
  /\ Forall (fun c => c <> "010"%char /\ c <> "013"%char) (list_ascii_of_string code).

Definition interesting (code : string) : bool :=
  negb (String.eqb code "C" || String.eqb code "POSIX").

(** The session [update_sessions] makes of a file name, if any. *)
Definition session_of (directory : SessionDirectory) (filename : string) : option LdmSession :=
  if g_str_has_suffix filename ".desktop" then
    match g_key_file_load_from_file directory filename with
    | Some key_file =>
        if NoDisplay key_file then None
        else
          match Name key_file with
          | Some name =>
              Some (mkSession (g_strndup filename (String.length filename
                                                   - String.length ".desktop"))
                              name (default EmptyString (Comment key_file)))
          | None => None
          end
    | None => None
    end
  else None.

(** No visible desktop entry of the directory lacks a name. *)
Definition names_given (directory : SessionDirectory) (filenames : list string) : Prop :=
  forall filename key_file,
    In filename filenames ->
    g_str_has_suffix filename ".desktop" = true ->
    g_key_file_load_from_file directory filename = Some key_file ->
    NoDisplay key_file = false ->
    is_Some (Name key_file).

(** ** The entry points and the write to the daemon *)

(** [write_message] passes NULL for the error of
    [g_io_channel_write_chars] and keeps its own [error] NULL.  When the
    status of the write is not G_IO_STATUS_NORMAL, the warning reads
    [error->message]: the call does not return, [None] here.  The
    entry points take the status of their one write. *)
Module Channel.

Definition write_message (status : GIOStatus) (greeter : LdmGreeter) (message : list byte)
    (message_length : Z) : option LdmGreeter :=
  match status with
  | G_IO_STATUS_NORMAL =>
      Some (mkGreeter (priv greeter) (heap greeter)
                      (to_server greeter ++ [take (Z.to_nat message_length) message])
                      (timeouts greeter) (emitted greeter))
  | _ => None
  end.


Definition ldm_greeter_login (status : GIOStatus) (greeter : LdmGreeter)
    (username : option string) : option LdmGreeter :=
  let message := message_buffer in
  let offset := 0 in
  let username := match username with Some u => u | None => EmptyString end in
  let greeter := with_priv (set_cancelling_authentication false) greeter in
  let greeter :=
    with_priv (fun p => set_authenticate_sequence_number (u32 (authenticate_sequence_number p + 1)) p) greeter in
  let greeter := with_priv (set_in_authentication true) greeter in
  let greeter := with_priv (set_is_authenticated false) greeter in
  let greeter := with_priv (set_authentication_user (Some username)) greeter in
  let '(message, offset) :=
    write_header message MAX_MESSAGE_LENGTH GREETER_MESSAGE_LOGIN
                 (u32 (int_length + string_length username)) offset in
  let '(message, offset) :=
    write_int message MAX_MESSAGE_LENGTH (authenticate_sequence_number (priv greeter)) offset in
  let '(message, offset) := write_string message MAX_MESSAGE_LENGTH username offset in
  write_message status greeter message offset.

Definition ldm_greeter_login_with_user_prompt (status : GIOStatus) (greeter : LdmGreeter) :
    option LdmGreeter :=
  ldm_greeter_login status greeter None.

Definition ldm_greeter_login_as_guest (status : GIOStatus) (greeter : LdmGreeter) :
    option LdmGreeter :=
  let message := message_buffer in
  let offset := 0 in
  let greeter := with_priv (set_cancelling_authentication false) greeter in
  let greeter :=
    with_priv (fun p => set_authenticate_sequence_number (u32 (authenticate_sequence_number p + 1)) p) greeter in
  let greeter := with_priv (set_in_authentication true) greeter in
  let greeter := with_priv (set_is_authenticated false) greeter in
  let greeter := with_priv (set_authentication_user None) greeter in
  let '(message, offset) :=
    write_header message MAX_MESSAGE_LENGTH GREETER_MESSAGE_LOGIN_AS_GUEST int_length offset in
  let '(message, offset) :=
    write_int message MAX_MESSAGE_LENGTH (authenticate_sequence_number (priv greeter)) offset in
  write_message status greeter message offset.

Definition ldm_greeter_respond (status : GIOStatus) (greeter : LdmGreeter) (response : string) :
    option LdmGreeter :=
  let message := message_buffer in
  let offset := 0 in
  let '(message, offset) :=
    write_header message MAX_MESSAGE_LENGTH GREETER_MESSAGE_CONTINUE_AUTHENTICATION
                 (u32 (int_length + string_length response)) offset in
  let '(message, offset) := write_int message MAX_MESSAGE_LENGTH 1 offset in
  let '(message, offset) := write_string message MAX_MESSAGE_LENGTH response offset in
  write_message status greeter message offset.

Definition ldm_greeter_cancel_authentication (status : GIOStatus) (greeter : LdmGreeter) :
    option LdmGreeter :=
  let message := message_buffer in
  let offset := 0 in
  let greeter := with_priv (set_cancelling_authentication true) greeter in
  let '(message, offset) :=
    write_header message MAX_MESSAGE_LENGTH GREETER_MESSAGE_CANCEL_AUTHENTICATION 0 offset in
  write_message status greeter message offset.

Definition ldm_greeter_start_session (status : GIOStatus) (greeter : LdmGreeter)
    (session : option string) : option LdmGreeter :=
  let message := message_buffer in
  let offset := 0 in
  let session := match session with Some s => s | None => EmptyString end in
  let '(message, offset) :=
    write_header message MAX_MESSAGE_LENGTH GREETER_MESSAGE_START_SESSION
                 (string_length session) offset in
  let '(message, offset) := write_string message MAX_MESSAGE_LENGTH session offset in
  write_message status greeter message offset.

Definition ldm_greeter_start_default_session (status : GIOStatus) (greeter : LdmGreeter) :
    option LdmGreeter :=
  ldm_greeter_start_session status greeter None.

End Channel.

(** * Properties *)

(** ** Machine integers and bytes *)

Lemma byte_to_Z_range (b : byte) : 0 <= byte_to_Z b < 256.
Proof.
  unfold byte_to_Z. pose proof (Byte.to_N_bounded b). lia.
Qed.

Lemma byte_to_of_Z (z : Z) : byte_to_Z (byte_of_Z z) = u8 z.
Proof.
  unfold byte_to_Z, byte_of_Z.
  assert (Hr : 0 <= u8 z < 256) by (unfold u8; apply Z.mod_pos_bound; lia).
  destruct (Byte.of_N (Z.to_N (u8 z))) as [b|] eqn:Hb.
  - apply Byte.to_of_N in Hb. rewrite Hb. lia.
  - apply Byte.of_N_None_iff in Hb. lia.
Qed.

Lemma byte_of_to_Z (b : byte) : byte_of_Z (byte_to_Z b) = b.
Proof.
  unfold byte_of_Z, byte_to_Z, u8.
  pose proof (Byte.to_N_bounded b).
  rewrite Z.mod_small by lia.
  rewrite N2Z.id, Byte.of_to_N. reflexivity.
Qed.

Lemma usize_small (z : Z) : 0 <= z < 2 ^ 64 -> usize z = z.
Proof. intros. unfold usize. apply Z.mod_small. assumption. Qed.

Lemma u32_small (z : Z) : 0 <= z < 2 ^ 32 -> u32 z = z.
Proof. intros. unfold u32. apply Z.mod_small. assumption. Qed.

Lemma s32_small (z : Z) : - 2 ^ 31 <= z < 2 ^ 31 -> s32 z = z.
Proof. intros. unfold s32. rewrite Z.mod_small; lia. Qed.

Lemma u32_range (z : Z) : 0 <= u32 z < 2 ^ 32.
Proof. unfold u32. apply Z.mod_pos_bound. lia. Qed.

(** The four bytes [write_int] stores are read back by [read_int]. *)
Lemma be32_combine (v : Z) :
  0 <= v < 2 ^ 32 ->
  Z.lor (Z.lor (Z.lor (Z.shiftl (u8 (Z.shiftr v 24)) 24)
                      (Z.shiftl (u8 (Z.land (Z.shiftr v 16) 255)) 16))
               (Z.shiftl (u8 (Z.land (Z.shiftr v 8) 255)) 8))
        (u8 (Z.land v 255)) = v.
Proof.
  intros Hv. unfold u8.
  rewrite <- !Z.land_ones by lia.
  rewrite <- (Z.mod_small v (2 ^ 32)) at 5 by lia.
  rewrite <- (Z.land_ones v 32) by lia.
  change 255 with (Z.ones 8).
  prove_Zeq_bitwise.
Qed.

(** ** The wire codec *)

Lemma write_int_app (pre mid post : list byte) (buffer_length value offset : Z) :
  offset = Z.of_nat (length pre) ->
  length mid = 4%nat ->
  offset + 4 < buffer_length < 2 ^ 64 ->
  write_int (pre ++ mid ++ post) buffer_length value offset
  = (pre ++ be32 value ++ post, offset + 4).
Proof.
  intros -> Hmid Hlen.
  destruct mid as [|a [|b [|c [|d [|]]]]]; try discriminate.
  unfold write_int, poke.
  rewrite !usize_small by lia.
  destruct (Z.leb_spec buffer_length (Z.of_nat (length pre) + 4)); [lia|].
  f_equal.
  replace (Z.to_nat (Z.of_nat (length pre))) with (length pre + 0)%nat by lia.
  replace (Z.to_nat (Z.of_nat (length pre) + 1)) with (length pre + 1)%nat by lia.
  replace (Z.to_nat (Z.of_nat (length pre) + 2)) with (length pre + 2)%nat by lia.
  replace (Z.to_nat (Z.of_nat (length pre) + 3)) with (length pre + 3)%nat by lia.
  rewrite !insert_app_r. reflexivity.
Qed.

Lemma write_int_0 (mid post : list byte) (buffer_length value : Z) :
  length mid = 4%nat ->
  4 < buffer_length < 2 ^ 64 ->
  write_int (mid ++ post) buffer_length value 0 = (be32 value ++ post, 4).
Proof.
  intros Hmid Hlen.
  apply (write_int_app [] mid post buffer_length value 0); [reflexivity|assumption|lia].
Qed.

Lemma peek_app (pre rest : list byte) (offset i : Z) :
  offset = Z.of_nat (length pre) -> 0 <= i ->
  peek (pre ++ rest) (offset + i) = byte_to_Z (nth (Z.to_nat i) rest x00).
Proof.
  intros -> Hi. unfold peek.
  replace (Z.to_nat (Z.of_nat (length pre) + i)) with (length pre + Z.to_nat i)%nat by lia.
  rewrite app_nth2_plus. reflexivity.
Qed.

Lemma read_int_app (greeter : LdmGreeter) (pre post : list byte) (value offset : Z) :
  read_buffer (priv greeter) = pre ++ be32 value ++ post ->
  offset = Z.of_nat (length pre) ->
  offset + 4 <= n_read (priv greeter) < 2 ^ 64 ->
  0 <= value < 2 ^ 32 ->
  read_int greeter offset
  = (value, offset + 4, [offset; offset + 1; offset + 2; offset + 3]).
Proof.
  intros Hbuf Hoff Hn Hv. unfold read_int, int_length.
  rewrite !usize_small by lia.
  destruct (Z.ltb_spec (n_read (priv greeter) - offset) 4); [lia|].
  rewrite Hbuf, !(peek_app pre _ offset) by lia.
  change (Z.to_nat 0) with 0%nat. change (Z.to_nat 1) with 1%nat.
  change (Z.to_nat 2) with 2%nat. change (Z.to_nat 3) with 3%nat.
  cbn [be32 app nth].
  rewrite !byte_to_of_Z, be32_combine, u32_small by lia.
  reflexivity.
Qed.

Lemma until_nul_id (bytes : list byte) :
  Forall (fun b => b <> x00) bytes -> until_nul bytes = bytes.
Proof.
  induction 1 as [|b rest Hb _ IH]; [reflexivity|].
  cbn [until_nul]. destruct (Byte.eqb b x00) eqn:E.
  - apply Byte.byte_dec_bl in E. contradiction.
  - rewrite IH. reflexivity.
Qed.

Lemma c_bytes_nul_free (value : string) :
  nul_free value -> c_bytes value = list_byte_of_string value.
Proof. apply until_nul_id. Qed.

Lemma c_string_c_bytes (value : string) :
  nul_free value -> c_string (c_bytes value) = value.
Proof.
  intros H. unfold c_string. rewrite (c_bytes_nul_free _ H), (until_nul_id _ H).
  apply string_of_list_byte_of_string.
Qed.

Lemma read_string_app (greeter : LdmGreeter) (pre bytes post : list byte) (offset : Z) :
  read_buffer (priv greeter) = pre ++ be32 (Z.of_nat (length bytes)) ++ bytes ++ post ->
  offset = Z.of_nat (length pre) ->
  offset + 4 + Z.of_nat (length bytes) <= n_read (priv greeter) < 2 ^ 64 ->
  Z.of_nat (length bytes) < 2 ^ 32 ->
  fst (read_string greeter offset)
  = (c_string bytes, offset + 4 + Z.of_nat (length bytes)).
Proof.
  intros Hbuf Hoff Hn Hlen. unfold read_string.
  rewrite (read_int_app greeter pre (bytes ++ post) (Z.of_nat (length bytes)) offset)
    by (assumption || lia).
  rewrite !usize_small by lia.
  destruct (Z.ltb_spec (n_read (priv greeter) - (offset + 4)) (Z.of_nat (length bytes))); [lia|].
  cbn [fst]. f_equal. f_equal.
  rewrite Hbuf, Nat2Z.id.
  replace (pre ++ be32 (Z.of_nat (length bytes)) ++ bytes ++ post)
    with ((pre ++ be32 (Z.of_nat (length bytes))) ++ bytes ++ post)
    by (rewrite <- app_assoc; reflexivity).
  rewrite drop_app_length' by (rewrite length_app; cbn [be32 length]; lia).
  apply take_app_length.
Qed.

Lemma length_be32 (value : Z) : length (be32 value) = 4%nat.
Proof. reflexivity. Qed.

Lemma strlen_nonneg (value : string) : 0 <= strlen value.
Proof. unfold strlen. lia. Qed.

Lemma message_buffer_split (n : nat) :
  (16 + n <= 1024)%nat ->
  message_buffer
  = replicate 4 x00 ++ replicate 4 x00 ++ replicate 4 x00 ++ replicate 4 x00
    ++ replicate n x00 ++ replicate (1024 - 16 - n) x00.
Proof.
  intros Hn. unfold message_buffer, MAX_MESSAGE_LENGTH.
  rewrite <- !replicate_add. f_equal. lia.
Qed.

(** What [write_string] appends when the string fits. *)
Lemma write_string_app (pre mid room post : list byte) (buffer_length offset : Z) (value : string) :
  offset = Z.of_nat (length pre) ->
  length mid = 4%nat ->
  Z.of_nat (length room) = strlen value ->
  offset + 4 + strlen value < buffer_length < 2 ^ 31 ->
  write_string (pre ++ mid ++ room ++ post) buffer_length value offset
  = (pre ++ be32 (strlen value) ++ c_bytes value ++ post, offset + 4 + strlen value).
Proof.
  intros Hoff Hmid Hroom Hlen. pose proof (strlen_nonneg value) as Hs.
  unfold write_string.
  rewrite s32_small, u32_small by lia.
  rewrite (write_int_app pre mid (room ++ post)) by (assumption || lia).
  rewrite !usize_small by lia.
  destruct (Z.leb_spec buffer_length (offset + 4 + strlen value)); [lia|].
  f_equal. unfold memcpy.
  rewrite take_ge by (unfold strlen; lia).
  replace (pre ++ be32 (strlen value) ++ room ++ post)
    with ((pre ++ be32 (strlen value)) ++ room ++ post)
    by (rewrite <- app_assoc; reflexivity).
  replace (Z.to_nat (offset + 4)) with (length (pre ++ be32 (strlen value)) + 0)%nat
    by (rewrite length_app, length_be32; lia).
  rewrite list_inserts_app_r, list_inserts_0_r by (unfold strlen in Hroom; lia).
  rewrite <- app_assoc. reflexivity.
Qed.

(** The frame [ldm_greeter_login] writes for a name that fits the
    message buffer. *)
Lemma ldm_greeter_login_sends (greeter : LdmGreeter) (username : string) :
  16 + strlen username < MAX_MESSAGE_LENGTH ->
  let greeter' := ldm_greeter_login greeter (Some username) in
  to_server greeter'
  = to_server greeter
    ++ [login_frame (authenticate_sequence_number (priv greeter')) username].
Proof.
  intros Hfit. pose proof (strlen_nonneg username) as Hs.
  unfold MAX_MESSAGE_LENGTH in Hfit.
  cbv zeta. unfold ldm_greeter_login, write_header, string_length, int_length.
  cbn [with_priv priv authenticate_sequence_number set_authenticate_sequence_number
       set_in_authentication set_is_authenticated set_authentication_user
       set_cancelling_authentication].
  set (N := u32 (authenticate_sequence_number (priv greeter) + 1)).
  rewrite (message_buffer_split (Z.to_nat (strlen username))) by lia.
  unfold MAX_MESSAGE_LENGTH, GREETER_MESSAGE_LOGIN.
  rewrite !u32_small by (rewrite ?u32_small; lia).
  rewrite (write_int_0 (replicate 4 x00)) by (reflexivity || lia).
  rewrite (write_int_app (be32 1) (replicate 4 x00)) by (reflexivity || cbn; lia).
  replace (be32 1 ++ be32 (4 + (4 + strlen username)) ++ replicate 4 x00 ++ replicate 4 x00
           ++ replicate (Z.to_nat (strlen username)) x00
           ++ replicate (1024 - 16 - Z.to_nat (strlen username)) x00)
    with ((be32 1 ++ be32 (4 + (4 + strlen username))) ++ replicate 4 x00 ++ replicate 4 x00
          ++ replicate (Z.to_nat (strlen username)) x00
          ++ replicate (1024 - 16 - Z.to_nat (strlen username)) x00)
    by (rewrite <- app_assoc; reflexivity).
  rewrite (write_int_app (be32 1 ++ be32 (4 + (4 + strlen username))) (replicate 4 x00))
    by (reflexivity || cbn; lia).
  replace ((be32 1 ++ be32 (4 + (4 + strlen username))) ++ be32 N ++ replicate 4 x00
           ++ replicate (Z.to_nat (strlen username)) x00
           ++ replicate (1024 - 16 - Z.to_nat (strlen username)) x00)
    with ((be32 1 ++ be32 (4 + (4 + strlen username)) ++ be32 N) ++ replicate 4 x00
          ++ replicate (Z.to_nat (strlen username)) x00
          ++ replicate (1024 - 16 - Z.to_nat (strlen username)) x00)
    by (rewrite <- !app_assoc; reflexivity).
  rewrite (write_string_app (be32 1 ++ be32 (4 + (4 + strlen username)) ++ be32 N)
             (replicate 4 x00) (replicate (Z.to_nat (strlen username)) x00))
    by (reflexivity || (rewrite ?length_replicate; cbn; lia)).
  unfold write_message. cbn [to_server]. f_equal. f_equal.
  unfold login_frame, GREETER_MESSAGE_LOGIN.
  replace (8 + strlen username) with (4 + (4 + strlen username)) by lia.
  replace ((be32 1 ++ be32 (4 + (4 + strlen username)) ++ be32 N)
           ++ be32 (strlen username) ++ c_bytes username
           ++ replicate (1024 - 16 - Z.to_nat (strlen username)) x00)
    with ((be32 1 ++ be32 (4 + (4 + strlen username)) ++ be32 N
           ++ be32 (strlen username) ++ c_bytes username)
           ++ replicate (1024 - 16 - Z.to_nat (strlen username)) x00)
    by (rewrite <- !app_assoc; reflexivity).
  apply take_app_length'.
  rewrite !length_app, !length_be32. unfold strlen. lia.
Qed.

Lemma decode_login_frame (sequence_number : Z) (username : string) :
  0 <= sequence_number < 2 ^ 32 ->
  nul_free username ->
  strlen username < 2 ^ 31 ->
  decode_login (login_frame sequence_number username)
  = (GREETER_MESSAGE_LOGIN, 8 + strlen username, sequence_number, username).
Proof.
  intros HN Hnul Hlen. pose proof (strlen_nonneg username) as Hs.
  unfold decode_login.
  set (greeter := receive (login_frame sequence_number username) ldm_greeter_init).
  assert (Hn : n_read (priv greeter) = 16 + strlen username).
  { subst greeter. cbn [receive with_priv priv set_read n_read].
    unfold login_frame. rewrite !length_app, !length_be32. unfold strlen. lia. }
  assert (Hbuf : read_buffer (priv greeter) = login_frame sequence_number username)
    by reflexivity.
  unfold login_frame in Hbuf.
  rewrite (read_int_app greeter [] _ GREETER_MESSAGE_LOGIN 0 Hbuf)
    by (reflexivity || (unfold GREETER_MESSAGE_LOGIN; lia)).
  rewrite (read_int_app greeter (be32 GREETER_MESSAGE_LOGIN)
             (be32 sequence_number ++ be32 (strlen username) ++ c_bytes username)
             (8 + strlen username) (0 + 4) Hbuf)
    by (reflexivity || lia).
  rewrite (read_int_app greeter (be32 GREETER_MESSAGE_LOGIN ++ be32 (8 + strlen username))
             (be32 (strlen username) ++ c_bytes username)
             sequence_number (0 + 4 + 4))
    by (reflexivity || lia || (rewrite Hbuf, <- !app_assoc; reflexivity)).
  pose proof (read_string_app greeter
                (be32 GREETER_MESSAGE_LOGIN ++ be32 (8 + strlen username) ++ be32 sequence_number)
                (c_bytes username) [] (0 + 4 + 4 + 4)) as Hstr.
  destruct (read_string greeter (0 + 4 + 4 + 4)) as [[value offset] loads].
  cbn [fst] in Hstr.
  assert (Hv : (value, offset) = (c_string (c_bytes username),
                                  0 + 4 + 4 + 4 + 4 + Z.of_nat (length (c_bytes username)))).
  { apply Hstr.
    - rewrite Hbuf, app_nil_r, <- !app_assoc. reflexivity.
    - reflexivity.
    - unfold strlen in *. lia.
    - unfold strlen in *. lia. }
  injection Hv as -> _. rewrite c_string_c_bytes by assumption. reflexivity.
Qed.

(** C9, amended: for every 32 bit sequence number N and every user name
    U shorter than 1008 bytes (so that the 16 bytes before it and the
    name fit the 1024 byte message buffer), the LOGIN message that
    [ldm_greeter_login] encodes for N and U decodes, header id and
    length first and then the payload integer and string, to exactly N
    and U. *)
Theorem login_round_trip (sequence_number : Z) (username : string) :
  0 <= sequence_number < 2 ^ 32 ->
  nul_free username ->
  16 + strlen username < MAX_MESSAGE_LENGTH ->
  login_round_trips sequence_number username.
Proof.
  intros HN Hnul Hfit greeter Hseq.
  pose proof (ldm_greeter_login_sends greeter username Hfit) as Hsent.
  cbv zeta in Hsent. unfold last_message. rewrite Hsent, last_last.
  assert (HN' : authenticate_sequence_number (priv (ldm_greeter_login greeter (Some username)))
                = sequence_number).
  { unfold ldm_greeter_login.
    repeat match goal with
           | |- context [let '(_, _) := ?x in _] => destruct x
           end.
    cbn. rewrite Hseq. unfold u32.
    rewrite Zplus_mod_idemp_l. replace (sequence_number - 1 + 1) with sequence_number by lia.
    apply Z.mod_small. assumption. }
  rewrite HN'. apply decode_login_frame; [assumption..|].
  unfold MAX_MESSAGE_LENGTH in Hfit. lia.
Qed.

Lemma login_round_trip_witness : login_round_trips 7 "bob".
Proof.
  apply (login_round_trip 7 "bob").
  - lia.
  - unfold nul_free. cbn. repeat constructor; discriminate.
  - vm_compute. reflexivity.
Defined.

(** The claim of C9 as stated fails for a name of 1008 bytes:
    [write_string] finds no room for it and leaves it out, so the frame
    decodes to the empty name. *)
Lemma login_round_trip_long_username : ~ login_round_trips 1 long_username.
Proof.
  intros H. specialize (H ldm_greeter_init eq_refl).
  vm_compute in H. discriminate H.
Qed.

Lemma read_int_cases (greeter : LdmGreeter) (offset : Z) :
  0 <= offset <= n_read (priv greeter) -> n_read (priv greeter) < 2 ^ 64 ->
  (remaining greeter offset < 4 /\ read_int greeter offset = (0, offset, []))
  \/ (4 <= remaining greeter offset /\
      exists value, 0 <= value < 2 ^ 32 /\
        read_int greeter offset
        = (value, offset + 4, [offset; offset + 1; offset + 2; offset + 3])).
Proof.
  intros Hoff Hn. unfold remaining, read_int, int_length.
  rewrite (usize_small (n_read (priv greeter) - offset)) by lia.
  destruct (Z.ltb_spec (n_read (priv greeter) - offset) 4) as [Hlt|Hge].
  - left. split; [assumption|reflexivity].
  - right. split; [assumption|].
    eexists. split; [apply u32_range|].
    rewrite usize_small by lia. reflexivity.
Qed.

Lemma span_received (greeter : LdmGreeter) (offset n : Z) :
  0 <= offset -> offset + n <= n_read (priv greeter) ->
  Forall (received greeter) (span offset n).
Proof.
  intros Hoff Hn. unfold span. apply List.Forall_forall. intros i Hi.
  apply in_map_iff in Hi as (k & <- & Hk). apply in_seq in Hk.
  unfold received. lia.
Qed.

(** ** The dispatcher *)

Lemma read_int_value_range (greeter : LdmGreeter) (offset : Z) :
  0 <= fst (fst (read_int greeter offset)) < 2 ^ 32.
Proof.
  unfold read_int.
  destruct (usize (n_read (priv greeter) - offset) <? int_length); cbn [fst].
  - lia.
  - apply u32_range.
Qed.

Lemma complete_packet_length (packet : list byte) :
  complete_packet packet -> 8 <= Z.of_nat (length packet) < 2 ^ 64.
Proof.
  unfold complete_packet, HEADER_SIZE, packet_field. intros ->.
  pose proof (read_int_value_range (receive packet ldm_greeter_init) 4). lia.
Qed.

(** The two header fields, read at offsets 0 and 4 of a complete packet. *)
Lemma complete_packet_header (packet : list byte) (greeter : LdmGreeter) :
  complete_packet packet ->
  read_int (receive packet greeter) 0 = (packet_id packet, 4, [0; 1; 2; 3])
  /\ read_int (receive packet greeter) 4 = (packet_field packet 4, 8, [4; 5; 6; 7]).
Proof.
  intros Hc. pose proof (complete_packet_length packet Hc) as Hlen.
  set (g := receive packet greeter).
  assert (Hn : n_read (priv g) = Z.of_nat (length packet)) by reflexivity.
  split.
  - destruct (read_int_cases g 0) as [[Hlt _]|[_ (v & _ & E)]];
      [lia|lia|unfold remaining in Hlt; lia|].
    unfold packet_id, packet_field.
    change (read_int (receive packet ldm_greeter_init) 0) with (read_int g 0).
    rewrite E. reflexivity.
  - destruct (read_int_cases g 4) as [[Hlt _]|[_ (v & _ & E)]];
      [lia|lia|unfold remaining in Hlt; lia|].
    unfold packet_field.
    change (read_int (receive packet ldm_greeter_init) 4) with (read_int g 4).
    rewrite E. reflexivity.
Qed.

(** [from_server_cb] on a complete packet: the handler of the packet id
    runs at offset 8, then the read buffer is emptied. *)
Lemma from_server_cb_complete (packet : list byte) (greeter : LdmGreeter) :
  complete_packet packet ->
  from_server_cb packet greeter
  = with_priv (set_n_read 0) <$>
      (let greeter := receive packet greeter in
       let id := packet_id packet in
       if id =? SERVER_MESSAGE_CONNECTED then
         fst <$> handle_connected greeter (packet_field packet 4) 8
       else if id =? SERVER_MESSAGE_PROMPT_AUTHENTICATION then
         Some (fst (handle_prompt_authentication greeter 8))
       else if id =? SERVER_MESSAGE_END_AUTHENTICATION then
         Some (fst (handle_end_authentication greeter 8))
       else if id =? SERVER_MESSAGE_SESSION_FAILED then
         Some (fst (handle_session_failed greeter 8))
       else if id =? SERVER_MESSAGE_QUIT then
         Some (fst (handle_quit greeter 8))
       else Some greeter).
Proof.
  intros Hc. destruct (complete_packet_header packet greeter Hc) as [H0 H4].
  unfold from_server_cb, dispatch. rewrite H0, H4. reflexivity.
Qed.

(** The prompt loop only emits: the private struct stays as it is. *)
Lemma prompt_messages_priv (n : nat) (greeter : LdmGreeter) (offset : Z) :
  priv (fst (prompt_messages n greeter offset)) = priv greeter.
Proof.
  revert greeter offset. induction n as [|n IH]; intros greeter offset; [reflexivity|].
  cbn [prompt_messages].
  destruct (read_int greeter offset) as [[style offset1] loads1].
  destruct (read_string greeter offset1) as [[msg offset2] loads2].
  rewrite IH.
  repeat match goal with
         | |- context [if ?c then _ else _] => destruct c
         end; reflexivity.
Qed.

Lemma handle_prompt_authentication_priv (greeter : LdmGreeter) (offset : Z) :
  priv (fst (handle_prompt_authentication greeter offset)) = priv greeter.
Proof.
  unfold handle_prompt_authentication.
  destruct (read_int greeter offset) as [[sequence_number offset1] loads1].
  destruct (negb (sequence_number =? authenticate_sequence_number (priv greeter)));
    [reflexivity|].
  destruct (cancelling_authentication (priv greeter)); [reflexivity|].
  destruct (read_int greeter offset1) as [[n_messages offset2] loads2].
  apply prompt_messages_priv.
Qed.

Lemma handle_end_authentication_hints (greeter : LdmGreeter) (offset : Z) :
  hints (priv (fst (handle_end_authentication greeter offset))) = hints (priv greeter).
Proof.
  unfold handle_end_authentication.
  destruct (read_int greeter offset) as [[sequence_number offset1] loads1].
  destruct (read_int greeter offset1) as [[return_code offset2] loads2].
  destruct (negb (sequence_number =? authenticate_sequence_number (priv greeter)));
    [reflexivity|].
  cbn. destruct (return_code =? 0); reflexivity.
Qed.

(** One packet that is not CONNECTED: the callback returns and the hint
    table is the one it found. *)
Lemma from_server_cb_hints (packet : list byte) (greeter : LdmGreeter) :
  packet_id packet <> SERVER_MESSAGE_CONNECTED ->
  exists greeter', from_server_cb packet greeter = Some greeter'
                   /\ hints (priv greeter') = hints (priv greeter).
Proof.
  intros Hid. unfold from_server_cb, dispatch.
  set (g := receive packet greeter).
  assert (Hg : hints (priv g) = hints (priv greeter)) by reflexivity.
  unfold packet_id, packet_field in Hid.
  change (read_int (receive packet ldm_greeter_init) 0) with (read_int g 0) in Hid.
  destruct (read_int g 0) as [[id offset1] loads1]. cbn [fst] in Hid.
  destruct (read_int g offset1) as [[len offset2] loads2].
  destruct (Z.eqb_spec id SERVER_MESSAGE_CONNECTED) as [|_]; [contradiction|].
  repeat match goal with
         | |- context [if ?c then _ else _] => destruct c
         end; eexists; (split; [reflexivity|]); cbn [fmap option_fmap option_map];
    cbn [with_priv priv set_n_read set_read hints]; rewrite <- Hg.
  - rewrite handle_prompt_authentication_priv. reflexivity.
  - apply handle_end_authentication_hints.
  - reflexivity.
  - reflexivity.
  - reflexivity.
Qed.

(** The claim of C6 as stated fails: a second CONNECTED packet naming
    another default session replaces the value of the first. *)
Lemma second_connected_rewrites_hints : ~ hints_never_mutated.
Proof.
  intros H.
  specialize (H (connected_packet "gnome") [connected_packet "kde"]
                after_handshake after_second_handshake).
  assert (E : hints (priv after_second_handshake) = hints (priv after_handshake)).
  { apply H; vm_compute; reflexivity. }
  apply (f_equal (fun m : gmap string string => m !! "default-session"%string)) in E.
  vm_compute in E. discriminate E.
Qed.

(** ** The authentication session *)

(** The reads of a handler do not depend on the session that received
    the packet. *)
Lemma read_int_receive (packet : list byte) (greeter greeter' : LdmGreeter) (offset : Z) :
  read_int (receive packet greeter) offset = read_int (receive packet greeter') offset.
Proof. reflexivity. Qed.

Lemma handle_prompt_authentication_stale (greeter : LdmGreeter) (offset : Z) :
  fst (fst (read_int greeter offset)) <> authenticate_sequence_number (priv greeter) ->
  fst (handle_prompt_authentication greeter offset) = greeter.
Proof.
  intros Hseq. unfold handle_prompt_authentication.
  destruct (read_int greeter offset) as [[sequence_number offset1] loads1]. cbn [fst] in Hseq.
  destruct (Z.eqb_spec sequence_number (authenticate_sequence_number (priv greeter)));
    [contradiction|reflexivity].
Qed.

Lemma handle_prompt_authentication_cancelling (greeter : LdmGreeter) (offset : Z) :
  cancelling_authentication (priv greeter) = true ->
  fst (handle_prompt_authentication greeter offset) = greeter.
Proof.
  intros Hcancel. unfold handle_prompt_authentication.
  destruct (read_int greeter offset) as [[sequence_number offset1] loads1].
  rewrite Hcancel.
  destruct (negb (sequence_number =? authenticate_sequence_number (priv greeter)));
    reflexivity.
Qed.

Lemma handle_end_authentication_stale (greeter : LdmGreeter) (offset : Z) :
  fst (fst (read_int greeter offset)) <> authenticate_sequence_number (priv greeter) ->
  fst (handle_end_authentication greeter offset) = greeter.
Proof.
  intros Hseq. unfold handle_end_authentication.
  destruct (read_int greeter offset) as [[sequence_number offset1] loads1]. cbn [fst] in Hseq.
  destruct (read_int greeter offset1) as [[return_code offset2] loads2].
  destruct (Z.eqb_spec sequence_number (authenticate_sequence_number (priv greeter)));
    [contradiction|reflexivity].
Qed.

(** The state [handle_end_authentication] leaves for a current sequence
    number, and the state its signal handlers saw. *)
Lemma handle_end_authentication_current (greeter : LdmGreeter) (offset : Z)
    (sequence_number offset1 return_code offset2 : Z) (loads1 loads2 : list Z) :
  read_int greeter offset = (sequence_number, offset1, loads1) ->
  read_int greeter offset1 = (return_code, offset2, loads2) ->
  sequence_number = authenticate_sequence_number (priv greeter) ->
  let user := if return_code =? 0 then authentication_user (priv greeter) else None in
  let seen :=
    set_authentication_user user
      (set_is_authenticated (return_code =? 0)
         (set_cancelling_authentication false (priv greeter))) in
  fst (handle_end_authentication greeter offset)
  = mkGreeter (set_in_authentication false seen) (heap greeter) (to_server greeter)
              (timeouts greeter)
              (emitted greeter ++ [mkEmission AUTHENTICATION_COMPLETE seen]).
Proof.
  intros E1 E2 Hseq. unfold handle_end_authentication. rewrite E1, E2, <- Hseq, Z.eqb_refl.
  destruct greeter as [p h ts tm em]. cbn. destruct (return_code =? 0); reflexivity.
Qed.

(** C1: a PROMPT_AUTHENTICATION or END_AUTHENTICATION packet whose
    sequence number differs from the session's
    [authenticate_sequence_number] is dropped: the callback returns, the
    fields of the session (in_authentication, is_authenticated,
    authentication_user, cancelling_authentication, sequence number) are
    what they were, and no signal is emitted. *)
Theorem stale_message_dropped (packet : list byte) (greeter : LdmGreeter) :
  complete_packet packet ->
  packet_id packet = SERVER_MESSAGE_PROMPT_AUTHENTICATION
  \/ packet_id packet = SERVER_MESSAGE_END_AUTHENTICATION ->
  packet_sequence_number packet <> authenticate_sequence_number (priv greeter) ->
  exists greeter',
    from_server_cb packet greeter = Some greeter'
    /\ same_session (priv greeter') (priv greeter)
    /\ emitted greeter' = emitted greeter.
Proof.
  intros Hc Hid Hseq.
  rewrite (from_server_cb_complete packet greeter Hc). cbv zeta.
  unfold packet_sequence_number, packet_field in Hseq.
  rewrite (read_int_receive packet ldm_greeter_init greeter) in Hseq.
  destruct Hid as [-> | ->]; cbn [Z.eqb SERVER_MESSAGE_CONNECTED
    SERVER_MESSAGE_PROMPT_AUTHENTICATION SERVER_MESSAGE_END_AUTHENTICATION Pos.eqb].
  - rewrite handle_prompt_authentication_stale by exact Hseq.
    eexists. split; [reflexivity|]. split; [repeat split|reflexivity].
  - rewrite handle_end_authentication_stale by exact Hseq.
    eexists. split; [reflexivity|]. split; [repeat split|reflexivity].
Qed.

Lemma stale_message_dropped_witness :
  exists greeter',
    from_server_cb (end_packet 1 0) (ldm_greeter_login (ldm_greeter_login ldm_greeter_init None) None)
    = Some greeter'
    /\ same_session (priv greeter')
                    (priv (ldm_greeter_login (ldm_greeter_login ldm_greeter_init None) None))
    /\ emitted greeter' = emitted (ldm_greeter_login (ldm_greeter_login ldm_greeter_init None) None).
Proof.
  apply (stale_message_dropped (end_packet 1 0)
           (ldm_greeter_login (ldm_greeter_login ldm_greeter_init None) None)).
  - vm_compute. reflexivity.
  - right. vm_compute. reflexivity.
  - vm_compute. discriminate.
Defined.

(** C2: in a state where cancelling_authentication is set (a cancel was
    requested and not yet answered), a PROMPT_AUTHENTICATION packet with
    the current sequence number emits no signal (no prompt, no message);
    an END_AUTHENTICATION packet with the current sequence number still
    emits authentication-complete and clears in_authentication. *)
Theorem cancelling_drops_prompt_not_end (packet : list byte) (greeter : LdmGreeter) :
  complete_packet packet ->
  cancelling_authentication (priv greeter) = true ->
  packet_sequence_number packet = authenticate_sequence_number (priv greeter) ->
  (packet_id packet = SERVER_MESSAGE_PROMPT_AUTHENTICATION ->
   exists greeter',
     from_server_cb packet greeter = Some greeter'
     /\ emitted greeter' = emitted greeter
     /\ same_session (priv greeter') (priv greeter))
  /\ (packet_id packet = SERVER_MESSAGE_END_AUTHENTICATION ->
      exists greeter' seen,
        from_server_cb packet greeter = Some greeter'
        /\ emitted greeter' = emitted greeter ++ [mkEmission AUTHENTICATION_COMPLETE seen]
        /\ in_authentication (priv greeter') = false
        /\ cancelling_authentication (priv greeter') = false).
Proof.
  intros Hc Hcancel Hseq. split; intros Hid;
    rewrite (from_server_cb_complete packet greeter Hc); cbv zeta; rewrite Hid;
    cbn [Z.eqb SERVER_MESSAGE_CONNECTED SERVER_MESSAGE_PROMPT_AUTHENTICATION
         SERVER_MESSAGE_END_AUTHENTICATION Pos.eqb].
  - rewrite handle_prompt_authentication_cancelling by exact Hcancel.
    eexists. split; [reflexivity|]. split; [reflexivity|repeat split].
  - unfold packet_sequence_number, packet_field in Hseq.
    rewrite (read_int_receive packet ldm_greeter_init greeter) in Hseq.
    destruct (read_int (receive packet greeter) 8) as [[sn o1] l1] eqn:E1.
    destruct (read_int (receive packet greeter) o1) as [[rc o2] l2] eqn:E2.
    cbn [fst] in Hseq.
    rewrite (handle_end_authentication_current _ 8 sn o1 rc o2 l1 l2 E1 E2 Hseq).
    do 2 eexists. split; [reflexivity|]. split; [reflexivity|]. split; reflexivity.
Qed.


Lemma cancelling_drops_prompt_not_end_witness :
  (exists greeter',
      from_server_cb (prompt_packet 1) cancelled_login = Some greeter'
      /\ emitted greeter' = emitted cancelled_login
      /\ same_session (priv greeter') (priv cancelled_login))
  /\ (exists greeter' seen,
         from_server_cb (end_packet 1 1) cancelled_login = Some greeter'
         /\ emitted greeter' = emitted cancelled_login ++ [mkEmission AUTHENTICATION_COMPLETE seen]
         /\ in_authentication (priv greeter') = false
         /\ cancelling_authentication (priv greeter') = false).
Proof.
  split.
  - apply (cancelling_drops_prompt_not_end (prompt_packet 1) cancelled_login);
      vm_compute; reflexivity.
  - apply (cancelling_drops_prompt_not_end (end_packet 1 1) cancelled_login);
      vm_compute; reflexivity.
Defined.


(** ** The login calls *)

Lemma ldm_greeter_login_priv (greeter : LdmGreeter) (username : option string) :
  priv (ldm_greeter_login greeter username)
  = set_authentication_user (Some (default EmptyString username))
      (set_is_authenticated false
         (set_in_authentication true
            (set_authenticate_sequence_number
               (u32 (authenticate_sequence_number (priv greeter) + 1))
               (set_cancelling_authentication false (priv greeter))))).
Proof.
  unfold ldm_greeter_login.
  repeat match goal with
         | |- context [let '(_, _) := ?x in _] => destruct x
         end.
  destruct username; reflexivity.
Qed.

Lemma ldm_greeter_login_as_guest_priv (greeter : LdmGreeter) :
  priv (ldm_greeter_login_as_guest greeter)
  = set_authentication_user None
      (set_is_authenticated false
         (set_in_authentication true
            (set_authenticate_sequence_number
               (u32 (authenticate_sequence_number (priv greeter) + 1))
               (set_cancelling_authentication false (priv greeter))))).
Proof.
  unfold ldm_greeter_login_as_guest.
  repeat match goal with
         | |- context [let '(_, _) := ?x in _] => destruct x
         end.
  reflexivity.
Qed.

(** C10: after [ldm_greeter_login] with a NULL user name, also through
    [ldm_greeter_login_with_user_prompt], the getter returns the empty
    string and not NULL; after [ldm_greeter_login_as_guest] it returns
    NULL while the authentication is in progress; so there is a
    reachable state with an authentication in progress in which the
    getter returns NULL. *)
Theorem authentication_user_null_while_in_progress :
  (forall greeter,
      ldm_greeter_get_authentication_user (ldm_greeter_login greeter None)
      = Some EmptyString)
  /\ (forall greeter,
         ldm_greeter_get_authentication_user (ldm_greeter_login_with_user_prompt greeter)
         = Some EmptyString)
  /\ (forall greeter,
         ldm_greeter_get_authentication_user (ldm_greeter_login_as_guest greeter) = None
         /\ ldm_greeter_get_in_authentication (ldm_greeter_login_as_guest greeter) = true)
  /\ (exists greeter,
         reachable greeter
         /\ ldm_greeter_get_in_authentication greeter = true
         /\ ldm_greeter_get_authentication_user greeter = None).
Proof.
  unfold ldm_greeter_get_authentication_user, ldm_greeter_get_in_authentication,
    ldm_greeter_login_with_user_prompt.
  repeat apply conj.
  - intros greeter. rewrite ldm_greeter_login_priv. reflexivity.
  - intros greeter. rewrite ldm_greeter_login_priv. reflexivity.
  - intros greeter. rewrite ldm_greeter_login_as_guest_priv. split; reflexivity.
  - exists (ldm_greeter_login_as_guest ldm_greeter_init).
    rewrite ldm_greeter_login_as_guest_priv.
    split; [|split; reflexivity].
    apply reachable_login_as_guest, reachable_init.
Qed.

(** ** Sequence numbers on the wire *)

(** [write_int] and [write_string] leave the bytes before the offset
    alone and never move the offset back. *)
Lemma write_int_keeps (pre rest : list byte) (buffer_length value offset : Z) :
  offset = Z.of_nat (length pre) ->
  offset + 4 < 2 ^ 64 ->
  exists rest' offset',
    write_int (pre ++ rest) buffer_length value offset = (pre ++ rest', offset')
    /\ offset <= offset' <= offset + 4
    /\ length rest' = length rest.
Proof.
  intros Hoff Hsmall. unfold write_int, poke.
  destruct (usize buffer_length <=? usize (offset + 4)).
  - exists rest, offset. repeat split; lia.
  - subst offset.
    replace (Z.to_nat (Z.of_nat (length pre))) with (length pre + 0)%nat by lia.
    replace (Z.to_nat (Z.of_nat (length pre) + 1)) with (length pre + 1)%nat by lia.
    replace (Z.to_nat (Z.of_nat (length pre) + 2)) with (length pre + 2)%nat by lia.
    replace (Z.to_nat (Z.of_nat (length pre) + 3)) with (length pre + 3)%nat by lia.
    rewrite !insert_app_r, usize_small by lia.
    eexists _, _. split; [reflexivity|]. split; [lia|].
    rewrite !length_insert. reflexivity.
Qed.

Lemma write_string_keeps (pre rest : list byte) (buffer_length offset : Z) (value : string) :
  offset = Z.of_nat (length pre) ->
  offset + 4 < 2 ^ 32 ->
  strlen value < 2 ^ 31 ->
  exists rest' offset',
    write_string (pre ++ rest) buffer_length value offset = (pre ++ rest', offset')
    /\ offset <= offset'
    /\ length rest' = length rest.
Proof.
  intros Hoff Hsmall Hlen. pose proof (strlen_nonneg value) as Hs.
  unfold write_string. rewrite s32_small by lia.
  destruct (write_int_keeps pre rest buffer_length (u32 (strlen value)) offset Hoff)
    as (rest1 & offset1 & -> & Hoff1 & Hlen1); [lia|].
  destruct (usize buffer_length <=? usize (offset1 + strlen value)).
  - exists rest1, offset1. repeat split; lia.
  - unfold memcpy.
    replace (Z.to_nat offset1) with (length pre + Z.to_nat (offset1 - offset))%nat by lia.
    rewrite list_inserts_app_r, usize_small by lia.
    eexists _, _. split; [reflexivity|]. split; [lia|].
    rewrite length_inserts. exact Hlen1.
Qed.

(** The sequence number field of a message that starts with a header
    and the four bytes of [sequence_number]. *)
Lemma packet_sequence_number_app (id length sequence_number : Z) (tail : list byte) :
  0 <= sequence_number < 2 ^ 32 ->
  Z.of_nat (List.length tail) < 2 ^ 32 ->
  packet_sequence_number (be32 id ++ be32 length ++ be32 sequence_number ++ tail)
  = sequence_number.
Proof.
  intros HN Htail. unfold packet_sequence_number, packet_field.
  rewrite (read_int_app _ (be32 id ++ be32 length) tail sequence_number 8).
  - reflexivity.
  - cbn [receive with_priv priv set_read read_buffer].
    rewrite <- !app_assoc. reflexivity.
  - reflexivity.
  - cbn [receive with_priv priv set_read n_read].
    rewrite !length_app, !length_be32. lia.
  - assumption.
Qed.

Lemma ldm_greeter_login_as_guest_carries (greeter : LdmGreeter) :
  packet_sequence_number (last_message (ldm_greeter_login_as_guest greeter))
  = u32 (authenticate_sequence_number (priv greeter) + 1).
Proof.
  unfold ldm_greeter_login_as_guest, write_header, int_length.
  cbn [with_priv priv authenticate_sequence_number set_authenticate_sequence_number
       set_in_authentication set_is_authenticated set_authentication_user
       set_cancelling_authentication].
  set (N := u32 (authenticate_sequence_number (priv greeter) + 1)).
  rewrite (message_buffer_split 0) by lia.
  unfold MAX_MESSAGE_LENGTH, GREETER_MESSAGE_LOGIN_AS_GUEST.
  rewrite (write_int_0 (replicate 4 x00)) by (reflexivity || lia).
  rewrite (write_int_app (be32 2) (replicate 4 x00)) by (reflexivity || cbn; lia).
  replace (be32 2 ++ be32 4 ++ replicate 4 x00 ++ replicate 4 x00
           ++ replicate 0 x00 ++ replicate (1024 - 16 - 0) x00)
    with ((be32 2 ++ be32 4) ++ replicate 4 x00 ++ replicate 4 x00
          ++ replicate 0 x00 ++ replicate (1024 - 16 - 0) x00)
    by (rewrite <- app_assoc; reflexivity).
  rewrite (write_int_app (be32 2 ++ be32 4) (replicate 4 x00)) by (reflexivity || cbn; lia).
  unfold write_message, last_message. cbn [to_server]. rewrite last_last.
  replace ((be32 2 ++ be32 4) ++ be32 N ++ replicate 4 x00
           ++ replicate 0 x00 ++ replicate (1024 - 16 - 0) x00)
    with ((be32 2 ++ be32 4 ++ be32 N ++ []) ++ replicate 4 x00
          ++ replicate 0 x00 ++ replicate (1024 - 16 - 0) x00)
    by (rewrite app_nil_r, <- !app_assoc; reflexivity).
  rewrite take_app_length' by reflexivity.
  apply packet_sequence_number_app; [apply u32_range|cbn; lia].
Qed.

Lemma ldm_greeter_login_carries (greeter : LdmGreeter) (username : option string) :
  short_name (Login username) ->
  packet_sequence_number (last_message (ldm_greeter_login greeter username))
  = u32 (authenticate_sequence_number (priv greeter) + 1).
Proof.
  intros Hshort.
  assert (Hlen : strlen (default EmptyString username) < 2 ^ 31).
  { destruct username as [u|]; [exact Hshort|]. vm_compute. reflexivity. }
  unfold ldm_greeter_login, write_header, int_length.
  change (match username with Some u => u | None => EmptyString end)
    with (default EmptyString username).
  set (user := default EmptyString username) in *.
  cbn [with_priv priv authenticate_sequence_number set_authenticate_sequence_number
       set_in_authentication set_is_authenticated set_authentication_user
       set_cancelling_authentication].
  set (N := u32 (authenticate_sequence_number (priv greeter) + 1)).
  set (L := u32 (4 + string_length user)).
  rewrite (message_buffer_split 0) by lia.
  unfold MAX_MESSAGE_LENGTH, GREETER_MESSAGE_LOGIN.
  rewrite (write_int_0 (replicate 4 x00)) by (reflexivity || lia).
  rewrite (write_int_app (be32 1) (replicate 4 x00)) by (reflexivity || cbn; lia).
  replace (be32 1 ++ be32 L ++ replicate 4 x00 ++ replicate 4 x00
           ++ replicate 0 x00 ++ replicate (1024 - 16 - 0) x00)
    with ((be32 1 ++ be32 L) ++ replicate 4 x00 ++ replicate 4 x00
          ++ replicate 0 x00 ++ replicate (1024 - 16 - 0) x00)
    by (rewrite <- app_assoc; reflexivity).
  rewrite (write_int_app (be32 1 ++ be32 L) (replicate 4 x00)) by (reflexivity || cbn; lia).
  replace ((be32 1 ++ be32 L) ++ be32 N ++ replicate 4 x00
           ++ replicate 0 x00 ++ replicate (1024 - 16 - 0) x00)
    with ((be32 1 ++ be32 L ++ be32 N) ++ replicate 4 x00
          ++ replicate 0 x00 ++ replicate (1024 - 16 - 0) x00)
    by (rewrite <- !app_assoc; reflexivity).
  destruct (write_string_keeps (be32 1 ++ be32 L ++ be32 N)
              (replicate 4 x00 ++ replicate 0 x00 ++ replicate (1024 - 16 - 0) x00)
              1024 (4 + 4 + 4) user)
    as (rest' & offset' & -> & Hoff & Hrest); [reflexivity|lia|exact Hlen|].
  unfold write_message, last_message. cbn [to_server]. rewrite last_last.
  rewrite take_app_ge by (rewrite !length_app, !length_be32; lia).
  rewrite <- !app_assoc.
  apply packet_sequence_number_app; [apply u32_range|].
  rewrite length_take. rewrite !length_app, !length_replicate in Hrest. lia.
Qed.

Lemma login_call_carries (call : LoginCall) (greeter : LdmGreeter) :
  short_name call ->
  packet_sequence_number (last_message (login_call call greeter))
  = u32 (authenticate_sequence_number (priv greeter) + 1)
  /\ authenticate_sequence_number (priv (login_call call greeter))
     = u32 (authenticate_sequence_number (priv greeter) + 1).
Proof.
  intros Hshort. destruct call as [username|]; cbn [login_call].
  - rewrite ldm_greeter_login_carries, ldm_greeter_login_priv by exact Hshort.
    split; reflexivity.
  - rewrite ldm_greeter_login_as_guest_carries, ldm_greeter_login_as_guest_priv.
    split; reflexivity.
Qed.

(** The number the i-th call of a sequence carries: the counter the
    session started with, plus i + 1, modulo 2^32. *)
Lemma call_numbers_lookup (calls : list LoginCall) (greeter : LdmGreeter) (i : nat) :
  Forall short_name calls ->
  (i < length calls)%nat ->
  call_numbers calls greeter !! i
  = Some (u32 (authenticate_sequence_number (priv greeter) + 1 + Z.of_nat i)).
Proof.
  intros Hshort. revert greeter i.
  induction Hshort as [|call calls Hcall _ IH]; intros greeter i Hi; [cbn in Hi; lia|].
  cbn [call_numbers].
  destruct (login_call_carries call greeter Hcall) as [Hmsg Hseq].
  destruct i as [|i].
  - cbn [lookup list_lookup]. rewrite Hmsg. do 2 f_equal. lia.
  - cbn [lookup list_lookup]. cbn [length] in Hi.
    change (call_numbers calls (login_call call greeter) !! i
            = Some (u32 (authenticate_sequence_number (priv greeter) + 1 + Z.of_nat (S i)))).
    rewrite IH by lia. rewrite Hseq. f_equal. unfold u32.
    rewrite <- Z.add_assoc, Zplus_mod_idemp_l. f_equal. lia.
Qed.

Lemma length_call_numbers (calls : list LoginCall) (greeter : LdmGreeter) :
  length (call_numbers calls greeter) = length calls.
Proof.
  revert greeter. induction calls as [|call calls IH]; intros greeter; [reflexivity|].
  cbn [call_numbers length]. rewrite IH. reflexivity.
Qed.

(** C7, amended: the n-th login or login-as-guest call of a sequence
    carries the session's counter plus n, modulo 2^32 (the counter is a
    32 bit unsigned integer incremented by one per call); as long as the
    calls do not take the counter past 2^32 - 1, the number a call
    carries is strictly greater than the number of every earlier call,
    so that no two of them share a number. *)
Theorem sequence_numbers_increase_until_wrap (calls : list LoginCall) (greeter : LdmGreeter) :
  Forall short_name calls ->
  (forall i : nat,
      (i < length calls)%nat ->
      call_numbers calls greeter !! i
      = Some (u32 (authenticate_sequence_number (priv greeter) + 1 + Z.of_nat i)))
  /\ (0 <= authenticate_sequence_number (priv greeter) ->
      authenticate_sequence_number (priv greeter) + Z.of_nat (length calls) < 2 ^ 32 ->
      strictly_increasing (call_numbers calls greeter)).
Proof.
  intros Hshort. split.
  - intros i Hi. apply call_numbers_lookup; assumption.
  - intros Hpos Hbound i j a b Hij Ha Hb.
    assert (Hj : (j < length calls)%nat).
    { apply lookup_lt_Some in Hb. rewrite length_call_numbers in Hb. exact Hb. }
    rewrite call_numbers_lookup in Ha by (assumption || lia).
    rewrite call_numbers_lookup in Hb by (assumption || lia).
    rewrite u32_small in Ha, Hb by lia.
    injection Ha as <-. injection Hb as <-. lia.
Qed.

Lemma sequence_numbers_increase_until_wrap_witness :
  strictly_increasing
    (call_numbers [Login (Some "bob"%string); LoginAsGuest; Login None] ldm_greeter_init).
Proof.
  apply (sequence_numbers_increase_until_wrap
           [Login (Some "bob"%string); LoginAsGuest; Login None] ldm_greeter_init).
  - repeat constructor; vm_compute; reflexivity.
  - vm_compute. discriminate.
  - vm_compute. reflexivity.
Defined.

(** The claim of C7 as stated fails at the 2^32-th call of a session:
    the counter wraps, and that call carries 0 where the first one
    carried 1. *)
Lemma sequence_number_wraps : ~ sequence_numbers_always_increase.
Proof.
  intros H.
  remember (Z.to_nat (2 ^ 32)) as n eqn:Hn.
  assert (Hn' : Z.of_nat n = 2 ^ 32) by lia.
  assert (Hshort : Forall short_name (replicate n LoginAsGuest))
    by (apply Forall_replicate; exact I).
  specialize (H (replicate n LoginAsGuest) Hshort 0%nat (n - 1)%nat 1 0).
  assert (H01 : 1 < 0); [|lia].
  apply H.
  - lia.
  - rewrite call_numbers_lookup by (assumption || (rewrite length_replicate; lia)).
    reflexivity.
  - rewrite call_numbers_lookup by (assumption || (rewrite length_replicate; lia)).
    f_equal. change (authenticate_sequence_number (priv ldm_greeter_init)) with 0.
    replace (0 + 1 + Z.of_nat (n - 1)) with (2 ^ 32) by lia. reflexivity.
Qed.

(** ** The user list *)

Lemma notify_each_spec (mk : ptr -> Signal) (l : list ptr) (greeter : LdmGreeter) :
  notify_each mk l greeter
  = mkGreeter (priv greeter) (heap greeter) (to_server greeter) (timeouts greeter)
              (emitted greeter ++ map (fun info => mkEmission (mk info) (priv greeter)) l).
Proof.
  unfold notify_each. revert greeter.
  induction l as [|info l IH]; intros greeter; cbn [fold_left map].
  - rewrite app_nil_r. destruct greeter; reflexivity.
  - rewrite IH. unfold g_signal_emit. cbn [priv heap to_server timeouts emitted].
    rewrite <- app_assoc. reflexivity.
Qed.

Lemma notify_removed_spec (old_users : list ptr) (greeter : LdmGreeter) :
  notify_removed old_users greeter
  = mkGreeter (priv greeter) (heap greeter) (to_server greeter) (timeouts greeter)
              (emitted greeter
               ++ map (fun info => mkEmission (USER_REMOVED info) (priv greeter))
                      (removed_users old_users (users (priv greeter)))).
Proof.
  unfold notify_removed, removed_users. revert greeter.
  induction old_users as [|info l IH]; intros greeter; cbn [fold_left List.filter].
  - cbn [map]. rewrite app_nil_r. destruct greeter; reflexivity.
  - destruct (existsb (Nat.eqb info) (users (priv greeter))) eqn:E; cbn [negb].
    + apply IH.
    + rewrite IH. unfold g_signal_emit. cbn [priv heap to_server timeouts emitted map].
      rewrite <- app_assoc. reflexivity.
Qed.

(** The loop allocates and updates user objects and nothing else. *)
Lemma load_entry_frame (sys : System) (uid : Z) (hu hs : list string) (st : Loaded)
    (entry : passwd) :
  ld_greeter (load_entry sys uid hu hs st entry)
  = with_heap (heap (ld_greeter (load_entry sys uid hu hs st entry))) (ld_greeter st).
Proof.
  unfold load_entry.
  destruct (hidden_entry uid hu hs entry); [destruct (ld_greeter st); reflexivity|].
  unfold ldm_user_new, ldm_user_update.
  cbn [with_heap priv heap to_server timeouts emitted].
  match goal with |- context [List.find ?f ?l] => destruct (List.find f l) end.
  - match goal with |- context [unchanged ?a ?b ?c ?d ?e] => destruct (unchanged a b c d e) end;
      reflexivity.
  - reflexivity.
Qed.

Lemma load_entries_frame_from (sys : System) (uid : Z) (hu hs : list string)
    (entries : list passwd) (st : Loaded) :
  let st' := fold_left (load_entry sys uid hu hs) entries st in
  ld_greeter st' = with_heap (heap (ld_greeter st')) (ld_greeter st).
Proof.
  revert st. induction entries as [|entry entries IH]; intros st; cbn [fold_left].
  - destruct (ld_greeter st); reflexivity.
  - cbv zeta in IH. rewrite IH at 1. rewrite (load_entry_frame sys uid hu hs st entry) at 1.
    reflexivity.
Qed.

(** The signals of one run of [load_users]: the new users of the loop,
    then the changed ones, then the old users that are gone; all are
    emitted once the new list is in place. *)
Lemma load_users_spec (sys : System) (greeter : LdmGreeter) :
  let st := load_entries sys greeter in
  let p := set_users (ld_users st) (priv greeter) in
  load_users sys greeter
  = mkGreeter p (heap (ld_greeter st)) (to_server greeter) (timeouts greeter)
      (emitted greeter
       ++ map (fun info => mkEmission (USER_ADDED info) p) (ld_new_users st)
       ++ map (fun info => mkEmission (USER_CHANGED info) p) (ld_changed_users st)
       ++ map (fun info => mkEmission (USER_REMOVED info) p)
              (removed_users (users (priv greeter)) (ld_users st))).
Proof.
  cbv zeta. unfold load_users.
  rewrite notify_removed_spec, !notify_each_spec.
  cbn [priv heap to_server timeouts emitted with_priv].
  pose proof (load_entries_frame_from sys (minimum_uid sys) (hidden_users sys)
                (hidden_shells sys) (getpwent sys) (mkLoaded greeter [] [] [])) as Hf.
  cbv zeta in Hf. fold (load_entries sys greeter) in Hf. cbn [ld_greeter] in Hf.
  rewrite Hf. cbn [with_heap priv heap to_server timeouts emitted set_users users].
  rewrite <- !app_assoc. reflexivity.
Qed.

(** *** Comparing names *)

Lemma string_compare_refl (a : string) : String.compare a a = Eq.
Proof.
  induction a as [|c a IH]; [reflexivity|].
  cbn [String.compare]. unfold Ascii.compare. rewrite N.compare_refl. exact IH.
Qed.

Lemma strcmp_eqb (a b : string) : (strcmp a b =? 0) = String.eqb a b.
Proof.
  unfold strcmp. destruct (String.eqb_spec a b) as [->|Hne].
  - rewrite string_compare_refl. reflexivity.
  - destruct (String.compare a b) eqn:E; try reflexivity.
    apply String.compare_eq_iff in E. contradiction.
Qed.

Lemma strcmp_antisym (a b : string) : 0 < strcmp a b -> strcmp b a <= 0.
Proof.
  unfold strcmp. rewrite (String.compare_antisym a b).
  destruct (String.compare b a); simpl; lia.
Qed.

Lemma compare_display_antisym (h : list LdmUser) (a b : ptr) :
  0 < compare_display h a b -> compare_display h b a <= 0.
Proof. apply strcmp_antisym. Qed.

Lemma compare_user_display (greeter : LdmGreeter) :
  compare_user greeter = compare_display (heap greeter).
Proof. reflexivity. Qed.

(** *** Sorted insertion *)

Section insert_sorted.
Variable func : ptr -> ptr -> Z.
Hypothesis func_antisym : forall a b, 0 < func a b -> func b a <= 0.

Let le (a b : ptr) : Prop := func a b <= 0.

Lemma g_list_insert_sorted_HdRel (l : list ptr) (data x : ptr) :
  le x data -> HdRel le x l -> HdRel le x (g_list_insert_sorted l data func).
Proof.
  intros Hx Hl. destruct l as [|y l]; cbn [g_list_insert_sorted].
  - constructor. exact Hx.
  - destruct (0 <? func data y); constructor.
    + inversion Hl. assumption.
    + exact Hx.
Qed.

Lemma g_list_insert_sorted_Sorted (l : list ptr) (data : ptr) :
  Sorted le l -> Sorted le (g_list_insert_sorted l data func).
Proof.
  induction 1 as [|y l Hsorted IH Hhd]; cbn [g_list_insert_sorted].
  - repeat constructor.
  - destruct (Z.ltb_spec 0 (func data y)) as [Hlt|Hge].
    + constructor; [exact IH|].
      apply g_list_insert_sorted_HdRel; [|exact Hhd].
      apply func_antisym. exact Hlt.
    + constructor; [constructor; assumption|].
      constructor. exact Hge.
Qed.
End insert_sorted.

Lemma g_list_insert_sorted_perm (l : list ptr) (data : ptr) (func : ptr -> ptr -> Z) :
  Permutation (g_list_insert_sorted l data func) (data :: l).
Proof.
  induction l as [|y l IH]; cbn [g_list_insert_sorted]; [reflexivity|].
  destruct (0 <? func data y); [|reflexivity].
  rewrite IH. apply perm_swap.
Qed.

Lemma g_list_insert_sorted_In (l : list ptr) (data x : ptr) (func : ptr -> ptr -> Z) :
  In x (g_list_insert_sorted l data func) <-> x = data \/ In x l.
Proof.
  split.
  - intros H. apply (Permutation_in _ (g_list_insert_sorted_perm l data func)) in H.
    destruct H as [->|H]; [left; reflexivity|right; exact H].
  - intros H. apply (Permutation_in _ (Permutation_sym (g_list_insert_sorted_perm l data func))).
    destruct H as [->|H]; [left; reflexivity|right; exact H].
Qed.

(** Sortedness only looks at the display names of the members. *)
Lemma Sorted_display_ext (h h' : list LdmUser) (l : list ptr) :
  (forall p, In p l -> h' !!! p = h !!! p) ->
  Sorted (fun a b => compare_display h a b <= 0) l ->
  Sorted (fun a b => compare_display h' a b <= 0) l.
Proof.
  intros Hsame Hsorted. induction Hsorted as [|x l Hsorted IH Hhd]; [constructor|].
  constructor.
  - apply IH. intros p Hp. apply Hsame. right. exact Hp.
  - destruct Hhd as [|y l Hxy]; constructor.
    unfold compare_display, display_name in *.
    rewrite (Hsame x), (Hsame y) by (cbn; tauto). exact Hxy.
Qed.

(** *** The loop body *)

Lemma find_ext_eq {A : Type} (f g : A -> bool) (l : list A) :
  (forall x, f x = g x) -> List.find f l = List.find g l.
Proof.
  intros Hfg. induction l as [|x l IH]; [reflexivity|].
  cbn [List.find]. rewrite Hfg, IH. reflexivity.
Qed.

Lemma load_entry_visible (sys : System) (uid : Z) (hu hs : list string) (st : Loaded)
    (entry : passwd) :
  hidden_entry uid hu hs entry = false ->
  load_entry sys uid hu hs st entry = load_visible sys st entry.
Proof.
  intros Hvisible. unfold load_entry, load_visible. rewrite Hvisible.
  unfold ldm_user_new, ldm_user_update, ldm_user_get_name, ldm_user_get_real_name,
    ldm_user_get_home_directory, ldm_user_get_image, ldm_user_get_logged_in.
  cbv zeta. cbn [with_heap priv heap].
  change (mkUser (pw_name entry) (entry_real_name entry) (pw_dir entry)
                 (entry_image sys entry) false) with (candidate sys entry).
  set (h1 := heap (ld_greeter st) ++ [candidate sys entry]).
  assert (Hu : h1 !!! length (heap (ld_greeter st)) = candidate sys entry)
    by (apply list_lookup_total_middle; reflexivity).
  rewrite !Hu.
  rewrite (find_ext_eq _ (fun info => String.eqb (user_name (h1 !!! info)) (pw_name entry)))
    by (intros x; apply strcmp_eqb).
  destruct (List.find _ (users (priv (ld_greeter st)))) as [info|]; [|reflexivity].
  unfold same_fields. cbn [candidate user_real_name user_home_directory user_image user_logged_in].
  destruct (unchanged (h1 !!! info) (entry_real_name entry) (pw_dir entry)
              (entry_image sys entry) false); reflexivity.
Qed.

Lemma load_entries_visible (sys : System) (greeter : LdmGreeter) :
  load_entries sys greeter
  = fold_left (load_visible sys) (visible_entries sys) (mkLoaded greeter [] [] []).
Proof.
  unfold load_entries, visible_entries.
  generalize (mkLoaded greeter [] [] []) as st.
  induction (getpwent sys) as [|entry entries IH]; intros st; [reflexivity|].
  cbn [fold_left List.filter].
  destruct (hidden_entry (minimum_uid sys) (hidden_users sys) (hidden_shells sys) entry) eqn:E;
    cbn [negb].
  - rewrite <- IH. f_equal. unfold load_entry. rewrite E. reflexivity.
  - cbn [fold_left]. rewrite <- IH. f_equal. apply load_entry_visible. exact E.
Qed.

(** *** What the loop keeps, for every account database *)

Lemma scan_ok_priv (g0 : LdmGreeter) (st : Loaded) :
  scan_ok g0 st -> priv (ld_greeter st) = priv g0.
Proof. intros Hok. rewrite (ok_frame _ _ Hok). reflexivity. Qed.

Lemma scan_ok_init (g0 : LdmGreeter) : scan_ok g0 (mkLoaded g0 [] [] []).
Proof.
  constructor; cbn [ld_greeter ld_users ld_new_users ld_changed_users];
    try (constructor; fail); try reflexivity.
  all: try (destruct g0; reflexivity); try lia.
Qed.

Lemma lookup_total_snoc_lt (h : list LdmUser) (c : LdmUser) (p : nat) :
  (p < length h)%nat -> (h ++ [c]) !!! p = h !!! p.
Proof. apply lookup_total_app_l. Qed.

Lemma find_some_valid (g0 : LdmGreeter) (f : nat -> bool) (info : nat) :
  users_valid g0 -> List.find f (users (priv g0)) = Some info ->
  In info (users (priv g0)) /\ (info < length (heap g0))%nat.
Proof.
  intros Hvalid Hfind. apply find_some in Hfind as [Hin _].
  split; [exact Hin|].
  unfold users_valid in Hvalid. rewrite List.Forall_forall in Hvalid. apply Hvalid, Hin.
Qed.

Lemma scan_ok_step (sys : System) (g0 : LdmGreeter) (st : Loaded) (entry : passwd) :
  users_valid g0 -> scan_ok g0 st -> scan_ok g0 (load_visible sys st entry).
Proof.
  intros Hvalid Hok.
  pose proof (scan_ok_priv g0 st Hok) as Hpriv.
  destruct Hok as [Hframe Hgrow Hnames Husers Hfresh Hsilent Hsorted Hold].
  unfold load_visible. cbv zeta. rewrite Hpriv.
  set (H := heap (ld_greeter st)) in *.
  set (c := candidate sys entry).
  set (h1 := H ++ [c]).
  assert (Hlen1 : length h1 = S (length H)) by (unfold h1; rewrite length_app; cbn; lia).
  assert (Hh1 : forall p, (p < length H)%nat -> h1 !!! p = H !!! p)
    by (intros p Hp; apply lookup_total_snoc_lt; exact Hp).
  assert (Hfresh_lt : forall p, In p (ld_new_users st) -> (length (heap g0) <= p < length H)%nat)
    by (rewrite List.Forall_forall in Hfresh; exact Hfresh).
  assert (Husers_lt : forall p, In p (ld_users st) -> (p < length H)%nat)
    by (rewrite List.Forall_forall in Husers; exact Husers).
  assert (Hg : forall h, with_heap h (ld_greeter st) = with_heap h g0)
    by (intros h; rewrite Hframe; reflexivity).
  destruct (List.find _ (users (priv g0))) as [info|] eqn:Hfind.
  - destruct (find_some_valid g0 _ info Hvalid Hfind) as [Hin Hinfo].
    destruct (same_fields (h1 !!! info) c).
    + constructor; cbn [ld_greeter ld_users ld_new_users ld_changed_users with_heap heap].
      * apply Hg.
      * lia.
      * intros p Hp. rewrite Hh1 by lia. apply Hnames, Hp.
      * apply List.Forall_forall. intros p Hp. apply g_list_insert_sorted_In in Hp.
        destruct Hp as [->|Hp]; [lia|]. specialize (Husers_lt p Hp). lia.
      * apply List.Forall_forall. intros p Hp. specialize (Hfresh_lt p Hp). lia.
      * exact Hsilent.
      * apply (Sorted_display_ext H); [|exact Hsorted].
        intros p Hp. apply Hh1. apply (Hfresh_lt p Hp).
      * exact Hold.
    + set (h2 := <[info := updated (h1 !!! info) c]> h1).
      assert (Hlen2 : length h2 = S (length H)) by (unfold h2; rewrite length_insert; exact Hlen1).
      assert (Hh2 : forall p, p <> info -> h2 !!! p = h1 !!! p)
        by (intros p Hp; apply list_lookup_total_insert_ne; congruence).
      constructor; cbn [ld_greeter ld_users ld_new_users ld_changed_users with_heap heap].
      * apply Hg.
      * lia.
      * intros p Hp. destruct (Nat.eq_dec p info) as [->|Hne].
        -- unfold h2. rewrite list_lookup_total_insert_eq by lia.
           cbn [updated user_name]. rewrite Hh1 by lia. apply Hnames, Hp.
        -- rewrite Hh2, Hh1 by (assumption || lia). apply Hnames, Hp.
      * apply List.Forall_forall. intros p Hp. apply g_list_insert_sorted_In in Hp.
        destruct Hp as [->|Hp]; [lia|]. specialize (Husers_lt p Hp). lia.
      * apply List.Forall_forall. intros p Hp. specialize (Hfresh_lt p Hp). lia.
      * exact Hsilent.
      * apply (Sorted_display_ext H); [|exact Hsorted].
        intros p Hp. specialize (Hfresh_lt p Hp).
        rewrite Hh2, Hh1 by lia. reflexivity.
      * apply List.Forall_forall. intros p Hp. apply g_list_insert_sorted_In in Hp.
        destruct Hp as [->|Hp]; [exact Hin|].
        rewrite List.Forall_forall in Hold. apply Hold, Hp.
  - constructor; cbn [ld_greeter ld_users ld_new_users ld_changed_users with_heap heap].
    + apply Hg.
    + lia.
    + intros p Hp. rewrite Hh1 by lia. apply Hnames, Hp.
    + apply List.Forall_forall. intros p Hp. apply g_list_insert_sorted_In in Hp.
      destruct Hp as [->|Hp]; [lia|]. specialize (Husers_lt p Hp). lia.
    + apply List.Forall_forall. intros p Hp.
      destruct (have_users (priv g0)).
      * apply g_list_insert_sorted_In in Hp.
        destruct Hp as [->|Hp]; [lia|]. specialize (Hfresh_lt p Hp). lia.
      * specialize (Hfresh_lt p Hp). lia.
    + intros Hfalse. rewrite Hfalse. apply Hsilent, Hfalse.
    + assert (Hs1 : Sorted (fun a b => compare_display h1 a b <= 0) (ld_new_users st)).
      { apply (Sorted_display_ext H); [|exact Hsorted].
        intros p Hp. apply Hh1. apply (Hfresh_lt p Hp). }
      destruct (have_users (priv g0)); [|exact Hs1].
      apply g_list_insert_sorted_Sorted; [apply compare_display_antisym|exact Hs1].
    + exact Hold.
Qed.

Lemma scan_ok_fold (sys : System) (g0 : LdmGreeter) (entries : list passwd) (st : Loaded) :
  users_valid g0 -> scan_ok g0 st ->
  scan_ok g0 (fold_left (load_visible sys) entries st).
Proof.
  intros Hvalid. revert st.
  induction entries as [|entry entries IH]; intros st Hok; [exact Hok|].
  cbn [fold_left]. apply IH, scan_ok_step; assumption.
Qed.

Lemma load_entries_ok (sys : System) (g0 : LdmGreeter) :
  users_valid g0 -> scan_ok g0 (load_entries sys g0).
Proof.
  intros Hvalid. rewrite load_entries_visible.
  apply scan_ok_fold; [exact Hvalid|apply scan_ok_init].
Qed.

(** *** What the loop computes when no account name is enumerated twice *)

Lemma find_ext_in {A : Type} (f g : A -> bool) (l : list A) :
  (forall x, In x l -> f x = g x) -> List.find f l = List.find g l.
Proof.
  intros Hfg. induction l as [|x l IH]; [reflexivity|].
  cbn [List.find]. rewrite (Hfg x) by (left; reflexivity).
  rewrite IH by (intros y Hy; apply Hfg; right; exact Hy). reflexivity.
Qed.

Lemma get_user_by_name_Some (g0 : LdmGreeter) (name : string) (info : nat) :
  get_user_by_name g0 name = Some info ->
  In info (users (priv g0)) /\ user_name (heap g0 !!! info) = name.
Proof.
  unfold get_user_by_name, ldm_user_get_name. intros Hfind.
  apply find_some in Hfind as [Hin Heq]. split; [exact Hin|].
  rewrite strcmp_eqb in Heq. apply String.eqb_eq, Heq.
Qed.

(** The search of the loop body finds the user that [get_user_by_name]
    finds in the list the loop started from. *)
Lemma load_visible_find (g0 : LdmGreeter) (st : Loaded) (c : LdmUser) (name : string) :
  users_valid g0 -> scan_ok g0 st ->
  List.find (fun info => String.eqb (user_name ((heap (ld_greeter st) ++ [c]) !!! info)) name)
            (users (priv g0))
  = get_user_by_name g0 name.
Proof.
  intros Hvalid Hok. unfold get_user_by_name, ldm_user_get_name.
  apply find_ext_in. intros p Hp.
  assert (Hlt : (p < length (heap g0))%nat).
  { unfold users_valid in Hvalid. rewrite List.Forall_forall in Hvalid. apply Hvalid, Hp. }
  pose proof (ok_grow _ _ Hok).
  rewrite lookup_total_snoc_lt by lia.
  rewrite (ok_names _ _ Hok) by exact Hlt.
  symmetry. apply strcmp_eqb.
Qed.

Lemma option_string_eqb_eq (a b : option string) : option_string_eqb a b = true -> a = b.
Proof.
  destruct a as [x|], b as [y|]; cbn; try discriminate; try reflexivity.
  intros H. apply String.eqb_eq in H. congruence.
Qed.

Lemma same_fields_updated (u c : LdmUser) : same_fields u c = true -> updated u c = u.
Proof.
  unfold same_fields, unchanged, updated. intros H.
  apply andb_prop in H as [H Hlogged]. apply andb_prop in H as [H Himage].
  apply andb_prop in H as [Hreal Hhome].
  apply option_string_eqb_eq in Hreal, Himage.
  apply String.eqb_eq in Hhome. apply Bool.eqb_prop in Hlogged.
  destruct u. cbn in *. congruence.
Qed.

Lemma scan_exact_init (sys : System) (g0 : LdmGreeter) :
  scan_exact sys g0 [] (mkLoaded g0 [] [] []).
Proof.
  constructor; cbn [ld_greeter ld_users ld_new_users ld_changed_users map List.filter omap list_omap];
    try (constructor; fail); try reflexivity.
  - intros q _. split; [intros []|intros (e & [] & _)].
  - intros e q [].
Qed.

Lemma scan_exact_step (sys : System) (g0 : LdmGreeter) (done : list passwd) (st : Loaded)
    (entry : passwd) :
  users_valid g0 -> scan_ok g0 st -> scan_exact sys g0 done st ->
  ~ In (pw_name entry) (map pw_name done) ->
  scan_exact sys g0 (done ++ [entry]) (load_visible sys st entry).
Proof.
  intros Hvalid Hok Hex Hfresh_name.
  pose proof (scan_ok_priv g0 st Hok) as Hpriv.
  pose proof (load_visible_find g0 st (candidate sys entry) (pw_name entry) Hvalid Hok) as Hfind.
  destruct Hok as [Hframe Hgrow Hnames Husers Hfresh Hsilent Hsorted Hold].
  destruct Hex as [Hunt Hnamed Hcsorted Hnewp Hchp Husr Hupd].
  unfold load_visible. cbv zeta. rewrite Hpriv, Hfind. clear Hfind.
  set (H := heap (ld_greeter st)) in *.
  set (c := candidate sys entry).
  set (h1 := H ++ [c]).
  assert (Hlen1 : length h1 = S (length H)) by (unfold h1; rewrite length_app; cbn; lia).
  assert (Hh1 : forall p, (p < length H)%nat -> h1 !!! p = H !!! p)
    by (intros p Hp; apply lookup_total_snoc_lt; exact Hp).
  assert (Hvalid_lt : forall p, In p (users (priv g0)) -> (p < length (heap g0))%nat)
    by (unfold users_valid in Hvalid; rewrite List.Forall_forall in Hvalid; exact Hvalid).
  assert (Hfresh_lt : forall p, In p (ld_new_users st) -> (length (heap g0) <= p < length H)%nat)
    by (rewrite List.Forall_forall in Hfresh; exact Hfresh).
  assert (Hold_in : forall p, In p (ld_changed_users st) -> In p (users (priv g0)))
    by (rewrite List.Forall_forall in Hold; exact Hold).
  assert (Hnamed_in : forall p, In p (ld_changed_users st) ->
                                In (user_name (heap g0 !!! p)) (map pw_name done))
    by (rewrite List.Forall_forall in Hnamed; exact Hnamed).
  assert (Hdone : forall n, In n (map pw_name done) -> In n (map pw_name (done ++ [entry])))
    by (intros n Hn; rewrite map_app; apply in_or_app; left; exact Hn).
  assert (Hlast : In (pw_name entry) (map pw_name (done ++ [entry])))
    by (rewrite map_app; apply in_or_app; right; left; reflexivity).
  assert (Hsplit : forall e, In e (done ++ [entry]) -> In e done \/ e = entry).
  { intros e He. apply in_app_or in He as [He|[He|[]]]; [left; exact He|right; congruence]. }
  destruct (get_user_by_name g0 (pw_name entry)) as [info|] eqn:Hget.
  - destruct (get_user_by_name_Some g0 _ info Hget) as [Hin Hname].
    pose proof (Hvalid_lt info Hin) as Hinfo.
    assert (Hrec : h1 !!! info = heap g0 !!! info).
    { rewrite Hh1 by lia. apply Hunt; [exact Hin|]. rewrite Hname. exact Hfresh_name. }
    rewrite Hrec.
    assert (Hne : new_entry g0 entry = false) by (unfold new_entry; rewrite Hget; reflexivity).
    assert (Hother : forall e q, In e done -> get_user_by_name g0 (pw_name e) = Some q ->
                                 q <> info /\ (q < length (heap g0))%nat).
    { intros e q He Hq. destruct (get_user_by_name_Some g0 _ q Hq) as [Hqin Hqname].
      split; [|apply Hvalid_lt, Hqin].
      intros ->. apply Hfresh_name. rewrite <- Hname, Hqname.
      apply in_map. exact He. }
    assert (Hce : changed_entry sys g0 entry
                  = if same_fields (heap g0 !!! info) c then None else Some info)
      by (unfold changed_entry; rewrite Hget; reflexivity).
    destruct (same_fields (heap g0 !!! info) c) eqn:Hsame.
    + constructor; cbn [ld_greeter ld_users ld_new_users ld_changed_users with_heap heap].
      * intros p Hp Hnot. rewrite Hh1 by (specialize (Hvalid_lt p Hp); lia).
        apply Hunt; [exact Hp|]. intros Hc. apply Hnot, Hdone, Hc.
      * apply List.Forall_forall. intros p Hp. apply Hdone, Hnamed_in, Hp.
      * apply (Sorted_display_ext H); [|exact Hcsorted].
        intros p Hp. apply Hh1. specialize (Hvalid_lt p (Hold_in p Hp)). lia.
      * intros Hhave. rewrite List.filter_app. cbn [List.filter]. rewrite Hne, app_nil_r.
        rewrite <- (Hnewp Hhave). apply Permutation_refl'.
        apply map_ext_in. intros p Hp. apply Hh1. apply (Hfresh_lt p Hp).
      * rewrite omap_app. cbn [omap list_omap]. rewrite Hce, app_nil_r. exact Hchp.
      * intros q Hq. rewrite g_list_insert_sorted_In, (Husr q Hq). split.
        -- intros [->|(e & He & Hg)].
           ++ exists entry. split; [apply in_or_app; right; left; reflexivity|exact Hget].
           ++ exists e. split; [apply in_or_app; left; exact He|exact Hg].
        -- intros (e & He & Hg). destruct (Hsplit e He) as [He' | ->].
           ++ right. exists e. split; assumption.
           ++ left. congruence.
      * intros e q He Hg. destruct (Hsplit e He) as [He' | ->].
        -- destruct (Hother e q He' Hg) as [_ Hq]. rewrite Hh1 by lia. apply (Hupd e q He' Hg).
        -- assert (q = info) by congruence. subst q.
           rewrite Hrec. symmetry. apply same_fields_updated, Hsame.
    + set (h2 := <[info := updated (heap g0 !!! info) c]> h1).
      assert (Hh2 : forall p, p <> info -> h2 !!! p = h1 !!! p)
        by (intros p Hp; apply list_lookup_total_insert_ne; congruence).
      assert (Hh2i : h2 !!! info = updated (heap g0 !!! info) c)
        by (apply list_lookup_total_insert_eq; lia).
      assert (Hnotin : ~ In info (ld_changed_users st)).
      { intros Hc. apply Hfresh_name. rewrite <- Hname. apply Hnamed_in, Hc. }
      constructor; cbn [ld_greeter ld_users ld_new_users ld_changed_users with_heap heap].
      * intros p Hp Hnot.
        assert (p <> info) by (intros ->; apply Hnot; rewrite Hname; exact Hlast).
        rewrite Hh2, Hh1 by (assumption || (specialize (Hvalid_lt p Hp); lia)).
        apply Hunt; [exact Hp|]. intros Hc. apply Hnot, Hdone, Hc.
      * apply List.Forall_forall. intros p Hp. apply g_list_insert_sorted_In in Hp.
        destruct Hp as [->|Hp]; [rewrite Hname; exact Hlast|apply Hdone, Hnamed_in, Hp].
      * apply g_list_insert_sorted_Sorted; [apply compare_display_antisym|].
        apply (Sorted_display_ext H); [|exact Hcsorted].
        intros p Hp.
        assert (p <> info) by (intros ->; contradiction).
        rewrite Hh2, Hh1 by (assumption || (specialize (Hvalid_lt p (Hold_in p Hp)); lia)).
        reflexivity.
      * intros Hhave. rewrite List.filter_app. cbn [List.filter]. rewrite Hne, app_nil_r.
        rewrite <- (Hnewp Hhave). apply Permutation_refl'.
        apply map_ext_in. intros p Hp. specialize (Hfresh_lt p Hp).
        rewrite Hh2, Hh1 by lia. reflexivity.
      * rewrite omap_app. cbn [omap list_omap]. rewrite Hce.
        rewrite g_list_insert_sorted_perm, Hchp. apply Permutation_cons_append.
      * intros q Hq. rewrite g_list_insert_sorted_In, (Husr q Hq). split.
        -- intros [->|(e & He & Hg)].
           ++ exists entry. split; [apply in_or_app; right; left; reflexivity|exact Hget].
           ++ exists e. split; [apply in_or_app; left; exact He|exact Hg].
        -- intros (e & He & Hg). destruct (Hsplit e He) as [He' | ->].
           ++ right. exists e. split; assumption.
           ++ left. congruence.
      * intros e q He Hg. destruct (Hsplit e He) as [He' | ->].
        -- destruct (Hother e q He' Hg) as [Hq1 Hq2].
           rewrite Hh2, Hh1 by (assumption || lia). apply (Hupd e q He' Hg).
        -- assert (q = info) by congruence. subst q. exact Hh2i.
  - assert (Hne : new_entry g0 entry = true) by (unfold new_entry; rewrite Hget; reflexivity).
    assert (Hce : changed_entry sys g0 entry = None)
      by (unfold changed_entry; rewrite Hget; reflexivity).
    constructor; cbn [ld_greeter ld_users ld_new_users ld_changed_users with_heap heap].
    + intros p Hp Hnot. rewrite Hh1 by (specialize (Hvalid_lt p Hp); lia).
      apply Hunt; [exact Hp|]. intros Hc. apply Hnot, Hdone, Hc.
    + apply List.Forall_forall. intros p Hp. apply Hdone, Hnamed_in, Hp.
    + apply (Sorted_display_ext H); [|exact Hcsorted].
      intros p Hp. apply Hh1. specialize (Hvalid_lt p (Hold_in p Hp)). lia.
    + intros Hhave. rewrite Hhave, List.filter_app. cbn [List.filter]. rewrite Hne, map_app.
      cbn [map]. fold c.
      rewrite (Permutation_map _ (g_list_insert_sorted_perm _ _ _)). cbn [map].
      replace (h1 !!! length H) with c
        by (symmetry; apply list_lookup_total_middle; reflexivity).
      rewrite <- Permutation_cons_append. apply perm_skip.
      rewrite <- (Hnewp Hhave). apply Permutation_refl'.
      apply map_ext_in. intros p Hp. apply Hh1. apply (Hfresh_lt p Hp).
    + rewrite omap_app. cbn [omap list_omap]. rewrite Hce, app_nil_r. exact Hchp.
    + intros q Hq. rewrite g_list_insert_sorted_In, (Husr q Hq). split.
      * intros [->|(e & He & Hg)]; [lia|].
        exists e. split; [apply in_or_app; left; exact He|exact Hg].
      * intros (e & He & Hg). destruct (Hsplit e He) as [He' | ->].
        -- right. exists e. split; assumption.
        -- congruence.
    + intros e q He Hg. destruct (Hsplit e He) as [He' | ->]; [|congruence].
      destruct (get_user_by_name_Some g0 _ q Hg) as [Hqin _].
      rewrite Hh1 by (specialize (Hvalid_lt q Hqin); lia). apply (Hupd e q He' Hg).
Qed.

Lemma scan_fold (sys : System) (g0 : LdmGreeter) (entries done : list passwd) (st : Loaded) :
  users_valid g0 ->
  List.NoDup (map pw_name entries) ->
  (forall e, In e entries -> ~ In (pw_name e) (map pw_name done)) ->
  scan_ok g0 st -> scan_exact sys g0 done st ->
  scan_exact sys g0 (done ++ entries) (fold_left (load_visible sys) entries st).
Proof.
  intros Hvalid. revert done st.
  induction entries as [|entry entries IH]; intros done st Hnodup Hdisj Hok Hex.
  - rewrite app_nil_r. exact Hex.
  - cbn [fold_left]. cbn [map] in Hnodup. inversion Hnodup as [|n l Hnotin Hnodup']; subst.
    replace (done ++ entry :: entries) with ((done ++ [entry]) ++ entries)
      by (rewrite <- app_assoc; reflexivity).
    apply IH.
    + exact Hnodup'.
    + intros e He Hin. rewrite map_app in Hin. apply in_app_or in Hin as [Hin|[Hin|[]]].
      * apply (Hdisj e); [right; exact He|exact Hin].
      * apply Hnotin. rewrite Hin. apply in_map, He.
    + apply scan_ok_step; assumption.
    + apply scan_exact_step; try assumption. apply Hdisj. left. reflexivity.
Qed.

Lemma load_entries_exact (sys : System) (g0 : LdmGreeter) :
  users_valid g0 ->
  List.NoDup (map pw_name (visible_entries sys)) ->
  scan_exact sys g0 (visible_entries sys) (load_entries sys g0).
Proof.
  intros Hvalid Hnodup. rewrite load_entries_visible.
  apply (scan_fold sys g0 (visible_entries sys) [] (mkLoaded g0 [] [] []));
    [exact Hvalid|exact Hnodup|intros e _ []|apply scan_ok_init|apply scan_exact_init].
Qed.

Lemma signals_load_users (sys : System) (greeter : LdmGreeter) :
  signals (load_users sys greeter)
  = signals greeter
    ++ map USER_ADDED (ld_new_users (load_entries sys greeter))
    ++ map USER_CHANGED (ld_changed_users (load_entries sys greeter))
    ++ map USER_REMOVED (removed_users (users (priv greeter))
                                       (ld_users (load_entries sys greeter))).
Proof.
  unfold signals. rewrite load_users_spec. cbv zeta. cbn [emitted].
  rewrite !map_app, !map_map. reflexivity.
Qed.

(** C4, amended: the notifications of one run of [load_users] are all
    user-added notifications, sorted by display name, then all
    user-changed notifications, then all user-removed notifications, in
    the order of the list cached before the run; the user-changed ones
    are sorted by display name too when no account name is enumerated
    twice in that run; and a run on a greeter that has not loaded its
    users yet emits no user-added notification (none at all when its
    list is empty, as it is for the baseline load of [update_users]). *)
Theorem load_users_notifications (sys : System) (greeter : LdmGreeter) :
  users_valid greeter ->
  let greeter' := load_users sys greeter in
  (exists added changed removed : list ptr,
      signals greeter'
      = signals greeter ++ map USER_ADDED added ++ map USER_CHANGED changed
        ++ map USER_REMOVED removed
      /\ sorted_by_display_name greeter' added
      /\ (List.NoDup (map pw_name (visible_entries sys)) ->
          sorted_by_display_name greeter' changed)
      /\ removed = removed_users (users (priv greeter)) (users (priv greeter'))
      /\ (have_users (priv greeter) = false -> added = []))
  /\ (have_users (priv greeter) = false -> users (priv greeter) = [] ->
      emitted (update_users sys greeter) = emitted greeter).
Proof.
  intros Hvalid greeter'.
  pose proof (load_entries_ok sys greeter Hvalid) as Hok.
  assert (Hheap : heap greeter' = heap (ld_greeter (load_entries sys greeter)))
    by (unfold greeter'; rewrite load_users_spec; reflexivity).
  assert (Husers : users (priv greeter') = ld_users (load_entries sys greeter))
    by (unfold greeter'; rewrite load_users_spec; reflexivity).
  split.
  - exists (ld_new_users (load_entries sys greeter)),
           (ld_changed_users (load_entries sys greeter)),
           (removed_users (users (priv greeter)) (ld_users (load_entries sys greeter))).
    split; [apply signals_load_users|].
    unfold sorted_by_display_name, display_le. rewrite compare_user_display, Hheap, Husers.
    split; [apply (ok_new_sorted _ _ Hok)|].
    split; [|split; [reflexivity|apply (ok_new_silent _ _ Hok)]].
    intros Hnodup. apply (ex_changed_sorted _ _ _ _ (load_entries_exact sys greeter Hvalid Hnodup)).
  - intros Hfirst Hempty. unfold update_users. rewrite Hfirst.
    cbn [with_priv emitted]. rewrite load_users_spec. cbv zeta. cbn [emitted].
    rewrite (ok_new_silent _ _ Hok Hfirst).
    pose proof (ok_changed_old _ _ Hok) as Hold. rewrite Hempty in Hold.
    destruct (ld_changed_users (load_entries sys greeter)) as [|p l].
    + rewrite Hempty. cbn. apply app_nil_r.
    + inversion Hold as [|? ? []].
Qed.

(** *** The cached list of a reachable greeter *)

Lemma prompt_messages_heap (n : nat) (greeter : LdmGreeter) (offset : Z) :
  heap (fst (prompt_messages n greeter offset)) = heap greeter.
Proof.
  revert greeter offset. induction n as [|n IH]; intros greeter offset; [reflexivity|].
  cbn [prompt_messages].
  destruct (read_int greeter offset) as [[style offset1] loads1].
  destruct (read_string greeter offset1) as [[msg offset2] loads2].
  rewrite IH.
  repeat match goal with
         | |- context [if ?c then _ else _] => destruct c
         end; reflexivity.
Qed.

Lemma handle_prompt_authentication_heap (greeter : LdmGreeter) (offset : Z) :
  heap (fst (handle_prompt_authentication greeter offset)) = heap greeter.
Proof.
  unfold handle_prompt_authentication.
  destruct (read_int greeter offset) as [[sequence_number offset1] loads1].
  destruct (negb (sequence_number =? authenticate_sequence_number (priv greeter)));
    [reflexivity|].
  destruct (cancelling_authentication (priv greeter)); [reflexivity|].
  destruct (read_int greeter offset1) as [[n_messages offset2] loads2].
  apply prompt_messages_heap.
Qed.

Lemma read_hints_directory (fuel : nat) (greeter greeter' : LdmGreeter) (len offset offset' : Z) :
  read_hints fuel greeter len offset = Some (greeter', offset') ->
  heap greeter' = heap greeter /\ users (priv greeter') = users (priv greeter)
  /\ have_users (priv greeter') = have_users (priv greeter).
Proof.
  revert greeter offset. induction fuel as [|fuel IH]; intros greeter offset; cbn [read_hints].
  - destruct (negb (offset <? len)); [|discriminate].
    intros [= <- _]. repeat split.
  - destruct (negb (offset <? len)).
    + intros [= <- _]. repeat split.
    + destruct (read_string greeter offset) as [[name offset1] loads1].
      destruct (read_string greeter offset1) as [[value offset2] loads2].
      intros Hrest. apply IH in Hrest. exact Hrest.
Qed.

Lemma from_server_cb_directory (packet : list byte) (greeter greeter' : LdmGreeter) :
  from_server_cb packet greeter = Some greeter' ->
  heap greeter' = heap greeter /\ users (priv greeter') = users (priv greeter)
  /\ have_users (priv greeter') = have_users (priv greeter).
Proof.
  unfold from_server_cb, dispatch.
  set (g := receive packet greeter).
  destruct (read_int g 0) as [[id offset1] loads1].
  destruct (read_int g offset1) as [[len offset2] loads2].
  destruct (id =? SERVER_MESSAGE_CONNECTED).
  - unfold handle_connected.
    destruct (read_string g offset2) as [[version offset3] loads3].
    destruct (read_hints (Z.to_nat len) g len offset3) as [[g1 offset4]|] eqn:Hhints;
      [|discriminate].
    apply read_hints_directory in Hhints. destruct Hhints as (Hh & Hu & Hv).
    destruct (ldm_greeter_get_autologin_timeout_hint g1 =? 0);
      intros [= <-]; cbn; rewrite Hh, Hu, Hv; repeat split.
  - destruct (id =? SERVER_MESSAGE_PROMPT_AUTHENTICATION).
    { intros [= <-]. cbn [with_priv priv heap set_n_read set_read users have_users].
      rewrite handle_prompt_authentication_priv, handle_prompt_authentication_heap.
      repeat split. }
    destruct (id =? SERVER_MESSAGE_END_AUTHENTICATION).
    { intros [= <-]. unfold handle_end_authentication.
      destruct (read_int g offset2) as [[sn o1] l1].
      destruct (read_int g o1) as [[rc o2] l2].
      destruct (negb (sn =? authenticate_sequence_number (priv g))); [repeat split|].
      cbn. destruct (rc =? 0); repeat split. }
    destruct (id =? SERVER_MESSAGE_SESSION_FAILED); [intros [= <-]; repeat split|].
    destruct (id =? SERVER_MESSAGE_QUIT); intros [= <-]; repeat split.
Qed.

Lemma load_users_valid (sys : System) (greeter : LdmGreeter) :
  users_valid greeter -> users_valid (load_users sys greeter).
Proof.
  intros Hvalid. unfold users_valid. rewrite load_users_spec. cbv zeta.
  cbn [priv heap users set_users].
  apply (ok_users _ _ (load_entries_ok sys greeter Hvalid)).
Qed.

Lemma reachable_users_valid (greeter : LdmGreeter) :
  reachable greeter -> users_valid greeter.
Proof.
  induction 1 as [|g u _ IH|g _ IH|g _ IH|g r _ IH|g _ IH|g session _ IH|g _ IH|g _ IH _
                 |g packet g' _ IH _ Hcb|g sys _ IH|g sys ev _ IH _].
  - constructor.
  - unfold users_valid. rewrite ldm_greeter_login_priv.
    unfold ldm_greeter_login.
    repeat match goal with
           | |- context [let '(_, _) := ?x in _] => destruct x
           end.
    exact IH.
  - unfold users_valid, ldm_greeter_login_with_user_prompt. rewrite ldm_greeter_login_priv.
    unfold ldm_greeter_login.
    repeat match goal with
           | |- context [let '(_, _) := ?x in _] => destruct x
           end.
    exact IH.
  - unfold users_valid. rewrite ldm_greeter_login_as_guest_priv.
    unfold ldm_greeter_login_as_guest.
    repeat match goal with
           | |- context [let '(_, _) := ?x in _] => destruct x
           end.
    exact IH.
  - unfold users_valid, ldm_greeter_respond.
    repeat match goal with
           | |- context [let '(_, _) := ?x in _] => destruct x
           end.
    exact IH.
  - unfold users_valid, ldm_greeter_cancel_authentication.
    repeat match goal with
           | |- context [let '(_, _) := ?x in _] => destruct x
           end.
    exact IH.
  - unfold users_valid, ldm_greeter_start_session.
    repeat match goal with
           | |- context [let '(_, _) := ?x in _] => destruct x
           end.
    exact IH.
  - exact IH.
  - exact IH.
  - apply from_server_cb_directory in Hcb as (Hh & Hu & _).
    unfold users_valid. rewrite Hh, Hu. exact IH.
  - unfold ldm_greeter_get_users, update_users. cbn [fst].
    destruct (have_users (priv g)); [exact IH|].
    apply (load_users_valid sys) in IH. exact IH.
  - unfold passwd_changed_cb.
    destruct (ev =? G_FILE_MONITOR_EVENT_CHANGES_DONE_HINT); [|exact IH].
    apply load_users_valid, IH.
Qed.

Lemma load_users_notifications_witness :
  let greeter' := load_users later_accounts (update_users baseline_accounts ldm_greeter_init) in
  (exists added changed removed : list ptr,
      signals greeter'
      = signals (update_users baseline_accounts ldm_greeter_init)
        ++ map USER_ADDED added ++ map USER_CHANGED changed ++ map USER_REMOVED removed
      /\ sorted_by_display_name greeter' added
      /\ (List.NoDup (map pw_name (visible_entries later_accounts)) ->
          sorted_by_display_name greeter' changed)
      /\ removed = removed_users (users (priv (update_users baseline_accounts ldm_greeter_init)))
                                 (users (priv greeter'))
      /\ (have_users (priv (update_users baseline_accounts ldm_greeter_init)) = false ->
          added = []))
  /\ (have_users (priv (update_users baseline_accounts ldm_greeter_init)) = false ->
      users (priv (update_users baseline_accounts ldm_greeter_init)) = [] ->
      emitted (update_users later_accounts (update_users baseline_accounts ldm_greeter_init))
      = emitted (update_users baseline_accounts ldm_greeter_init)).
Proof.
  apply (load_users_notifications later_accounts
           (update_users baseline_accounts ldm_greeter_init)).
  unfold users_valid. vm_compute. repeat constructor.
Defined.

(** The claim of C4 as stated fails when an account is enumerated
    twice: bob is updated to the real name B, alice to C, and bob again
    to Z; the three user-changed notifications come in the order bob,
    bob, alice, that is Z, Z, C. *)
Lemma changed_out_of_order : ~ resynchronisation_always_ordered.
Proof.
  intros H.
  assert (Hreach : reachable two_cached) by (apply reachable_get_users, reachable_init).
  specialize (H bob_twice two_cached Hreach eq_refl).
  destruct H as (added & changed & removed & Hsig & _ & Hsorted & _).
  assert (E : signals (load_users bob_twice two_cached)
              = [USER_CHANGED 1; USER_CHANGED 1; USER_CHANGED 0]) by (vm_compute; reflexivity).
  rewrite E in Hsig. change (signals two_cached) with (@nil Signal) in Hsig.
  cbn [app] in Hsig.
  destruct added as [|a added]; [|discriminate Hsig]. cbn [map app] in Hsig.
  destruct changed as [|c1 [|c2 [|c3 changed]]]; try discriminate Hsig.
  - destruct removed; discriminate Hsig.
  - destruct removed; discriminate Hsig.
  - destruct removed as [|? [|? ?]]; discriminate Hsig.
  - cbn [map app] in Hsig. injection Hsig as <- <- <- _.
    inversion Hsorted as [|? ? Hrest _]; subst.
    inversion Hrest as [|? ? _ Hhd]; subst.
    inversion Hhd as [|? ? Hle]; subst.
    unfold display_le in Hle. vm_compute in Hle. apply Hle. reflexivity.
Qed.

(** *** The resynchronisation scenario *)

Lemma find_NoDup {A : Type} (name : A -> string) (l : list A) (q : A) :
  List.NoDup (map name l) -> In q l ->
  List.find (fun u => strcmp (name u) (name q) =? 0) l = Some q.
Proof.
  induction l as [|x l IH]; intros Hnodup Hin; [destruct Hin|].
  cbn [map] in Hnodup. inversion Hnodup as [|? ? Hnotin Hnodup']; subst.
  cbn [List.find]. rewrite strcmp_eqb.
  destruct (String.eqb_spec (name x) (name q)) as [Heq|Hne].
  - destruct Hin as [->|Hin]; [reflexivity|].
    exfalso. apply Hnotin. rewrite Heq. apply in_map, Hin.
  - destruct Hin as [->|Hin]; [contradiction|]. apply IH; assumption.
Qed.

Lemma get_user_by_name_NoDup (greeter : LdmGreeter) (q : nat) :
  List.NoDup (map (ldm_user_get_name greeter) (users (priv greeter))) ->
  In q (users (priv greeter)) ->
  get_user_by_name greeter (ldm_user_get_name greeter q) = Some q.
Proof. apply find_NoDup. Qed.

(** With distinct names on both sides, the users reported as removed
    are the cached users that no entry names. *)
Lemma removed_users_gone (sys : System) (greeter : LdmGreeter) (entries : list passwd)
    (st : Loaded) :
  users_valid greeter ->
  List.NoDup (map (ldm_user_get_name greeter) (users (priv greeter))) ->
  scan_exact sys greeter entries st ->
  removed_users (users (priv greeter)) (ld_users st)
  = List.filter (gone greeter entries) (users (priv greeter)).
Proof.
  intros Hvalid Hnodup Hex. unfold removed_users, gone.
  apply filter_ext_in. intros q Hq. f_equal.
  assert (Hlt : (q < length (heap greeter))%nat).
  { unfold users_valid in Hvalid. rewrite List.Forall_forall in Hvalid. apply Hvalid, Hq. }
  apply eq_true_iff_eq. rewrite !existsb_exists. split.
  - intros (x & Hx & Heq). apply Nat.eqb_eq in Heq. subst x.
    apply (ex_users _ _ _ _ Hex q Hlt) in Hx as (e & He & Hget).
    exists e. split; [exact He|].
    apply get_user_by_name_Some in Hget as [_ Hname].
    apply String.eqb_eq. symmetry. exact Hname.
  - intros (e & He & Heq). apply String.eqb_eq in Heq.
    exists q. split; [|apply Nat.eqb_refl].
    apply (ex_users _ _ _ _ Hex q Hlt). exists e. split; [exact He|].
    rewrite Heq. apply get_user_by_name_NoDup; assumption.
Qed.

Lemma update_users_first (sys : System) (g0 : LdmGreeter) :
  have_users (priv g0) = false -> users (priv g0) = [] ->
  emitted (update_users sys g0) = emitted g0
  /\ have_users (priv (update_users sys g0)) = true
  /\ users_valid (update_users sys g0).
Proof.
  intros Hfirst Hempty.
  assert (Hvalid : users_valid g0) by (unfold users_valid; rewrite Hempty; constructor).
  pose proof (load_entries_ok sys g0 Hvalid) as Hok.
  unfold update_users. rewrite Hfirst.
  split; [|split].
  - cbn [with_priv emitted]. rewrite load_users_spec. cbv zeta. cbn [emitted].
    rewrite (ok_new_silent _ _ Hok Hfirst).
    pose proof (ok_changed_old _ _ Hok) as Hold. rewrite Hempty in Hold.
    destruct (ld_changed_users (load_entries sys g0)) as [|p l].
    + rewrite Hempty. cbn. apply app_nil_r.
    + inversion Hold as [|? ? []].
  - reflexivity.
  - apply (load_users_valid sys) in Hvalid. exact Hvalid.
Qed.

(** The signals of a run in which exactly one entry is new, exactly one
    cached user changes and exactly one is gone. *)
Lemma load_users_one_each (sys : System) (greeter : LdmGreeter) (added : passwd)
    (changed removed : nat) :
  users_valid greeter ->
  have_users (priv greeter) = true ->
  List.NoDup (map (ldm_user_get_name greeter) (users (priv greeter))) ->
  List.NoDup (map pw_name (visible_entries sys)) ->
  List.filter (new_entry greeter) (visible_entries sys) = [added] ->
  omap (changed_entry sys greeter) (visible_entries sys) = [changed] ->
  List.filter (gone greeter (visible_entries sys)) (users (priv greeter)) = [removed] ->
  exists new_user : nat,
    signals (load_users sys greeter)
    = signals greeter ++ [USER_ADDED new_user; USER_CHANGED changed; USER_REMOVED removed]
    /\ heap (load_users sys greeter) !!! new_user = candidate sys added
    /\ (forall e, In e (visible_entries sys) ->
                  get_user_by_name greeter (pw_name e) = Some changed ->
                  heap (load_users sys greeter) !!! changed
                  = updated (heap greeter !!! changed) (candidate sys e)).
Proof.
  intros Hvalid Hhave Hnames Hnodup Hnew Hchanged Hgone.
  pose proof (load_entries_exact sys greeter Hvalid Hnodup) as Hex.
  pose proof (ex_new _ _ _ _ Hex Hhave) as Pnew. rewrite Hnew in Pnew. cbn [map] in Pnew.
  pose proof (ex_changed _ _ _ _ Hex) as Pchanged. rewrite Hchanged in Pchanged.
  apply Permutation_singleton_r in Pnew, Pchanged.
  destruct (ld_new_users (load_entries sys greeter)) as [|new_user [|? ?]] eqn:Enew;
    try discriminate Pnew.
  cbn [map] in Pnew. injection Pnew as Hrecord.
  exists new_user.
  assert (Hheap : heap (load_users sys greeter) = heap (ld_greeter (load_entries sys greeter)))
    by (rewrite load_users_spec; reflexivity).
  rewrite Hheap. split; [|split].
  - rewrite signals_load_users, Enew, Pchanged.
    rewrite (removed_users_gone sys greeter (visible_entries sys)) by assumption.
    rewrite Hgone. reflexivity.
  - exact Hrecord.
  - intros e He Hget. apply (ex_updated _ _ _ _ Hex e changed He Hget).
Qed.

(** C5, amended: in the scenario where a baseline is loaded and then
    reloaded with one record's home directory changed, one record
    removed and one record added, the baseline load emits no
    notification and the second load emits exactly three, in this
    order: one user-added, one user-changed, one user-removed.  The
    user-changed one is for the cached object, which now has the new
    home directory; the user-added one is for a new object holding the
    added record. *)
Theorem resynchronisation_added_changed_removed (baseline later : System) (g0 : LdmGreeter)
    (added changed_to : passwd) (changed removed : ptr) :
  resynchronisation_scenario baseline later g0 added changed_to changed removed ->
  let g1 := update_users baseline g0 in
  let g2 := passwd_changed_cb later G_FILE_MONITOR_EVENT_CHANGES_DONE_HINT g1 in
  emitted g1 = emitted g0
  /\ exists new_user : ptr,
       signals g2
       = signals g1 ++ [USER_ADDED new_user; USER_CHANGED changed; USER_REMOVED removed]
       /\ heap g2 !!! new_user = candidate later added
       /\ ldm_user_get_home_directory g2 changed = pw_dir changed_to
       /\ ldm_user_get_name g2 changed = ldm_user_get_name g1 changed.
Proof.
  intros (Hfirst & Hempty & Hnames & Hnodup & Hnew & Hchanged & (Hin & Hget & Hhome) & Hgone).
  cbv zeta.
  destruct (update_users_first baseline g0 Hfirst Hempty) as (Hemitted & Hhave & Hvalid).
  split; [exact Hemitted|].
  unfold passwd_changed_cb. rewrite Z.eqb_refl.
  destruct (load_users_one_each later (update_users baseline g0) added changed removed
              Hvalid Hhave Hnames Hnodup Hnew Hchanged Hgone)
    as (new_user & Hsig & Hrecord & Hupdated).
  exists new_user. split; [exact Hsig|]. split; [exact Hrecord|].
  unfold ldm_user_get_home_directory, ldm_user_get_name.
  rewrite (Hupdated changed_to Hin Hget). split; reflexivity.
Qed.

(** The accounts of the example are an instance of the scenario: dave is
    added, the cached alice (object 0) moves to /srv/alice, the cached
    bob (object 1) is removed. *)
Lemma later_accounts_scenario :
  resynchronisation_scenario baseline_accounts later_accounts ldm_greeter_init
                             dave alice_moved 0%nat 1%nat.
Proof.
  unfold resynchronisation_scenario. cbv zeta.
  split; [reflexivity|]. split; [reflexivity|].
  split; [apply NoDup_ListNoDup, (bool_decide_unpack _); vm_compute; exact I|].
  split; [apply NoDup_ListNoDup, (bool_decide_unpack _); vm_compute; exact I|].
  split; [vm_compute; reflexivity|]. split; [vm_compute; reflexivity|].
  split; [|vm_compute; reflexivity].
  split; [right; left; reflexivity|]. split; [vm_compute; reflexivity|].
  vm_compute. discriminate.
Qed.

Lemma resynchronisation_added_changed_removed_witness :
  let g1 := update_users baseline_accounts ldm_greeter_init in
  let g2 := passwd_changed_cb later_accounts G_FILE_MONITOR_EVENT_CHANGES_DONE_HINT g1 in
  emitted g1 = emitted ldm_greeter_init
  /\ exists new_user : ptr,
       signals g2
       = signals g1 ++ [USER_ADDED new_user; USER_CHANGED 0%nat; USER_REMOVED 1%nat]
       /\ heap g2 !!! new_user = candidate later_accounts dave
       /\ ldm_user_get_home_directory g2 0%nat = pw_dir alice_moved
       /\ ldm_user_get_name g2 0%nat = ldm_user_get_name g1 0%nat.
Proof.
  apply (resynchronisation_added_changed_removed baseline_accounts later_accounts
           ldm_greeter_init dave alice_moved 0%nat 1%nat).
  exact later_accounts_scenario.
Defined.

(** The claim of C5 as stated fails on the accounts of the example: the
    second load emits user-added for dave first, then user-changed for
    alice, then user-removed for bob. *)
Lemma added_comes_first : ~ changed_before_added.
Proof.
  intros H.
  specialize (H baseline_accounts later_accounts ldm_greeter_init dave alice_moved
                0%nat 1%nat later_accounts_scenario).
  cbv zeta in H. destruct H as (_ & new_user & Hsig).
  assert (E : signals (passwd_changed_cb later_accounts G_FILE_MONITOR_EVENT_CHANGES_DONE_HINT
                         (update_users baseline_accounts ldm_greeter_init))
              = [USER_ADDED 3; USER_CHANGED 0; USER_REMOVED 1]) by (vm_compute; reflexivity).
  rewrite E in Hsig.
  change (signals (update_users baseline_accounts ldm_greeter_init)) with (@nil Signal) in Hsig.
  discriminate Hsig.
Qed.

(** ** The callback returns *)

Lemma read_string_bounds (greeter : LdmGreeter) (offset : Z) :
  0 <= offset <= n_read (priv greeter) -> n_read (priv greeter) < 2 ^ 64 ->
  let offset' := snd (fst (read_string greeter offset)) in
  offset <= offset' <= n_read (priv greeter)
  /\ (4 <= remaining greeter offset -> offset + 4 <= offset').
Proof.
  intros Hoff Hn. cbv zeta. unfold read_string.
  destruct (read_int_cases greeter offset Hoff Hn) as [[Hlt E]|[Hge (v & Hv & E)]];
    rewrite E; unfold remaining in *.
  - rewrite usize_small by lia.
    destruct (Z.ltb_spec (n_read (priv greeter) - offset) 0); cbn [fst snd].
    + lia.
    + rewrite usize_small by lia. lia.
  - rewrite usize_small by lia.
    destruct (Z.ltb_spec (n_read (priv greeter) - (offset + 4)) v); cbn [fst snd].
    + lia.
    + rewrite usize_small by lia. lia.
Qed.

(** The hint loop of a complete CONNECTED packet ends: every turn moves
    the offset by 4 bytes at least, since more than 8 bytes remain
    whenever the offset is below the payload length. *)
Lemma read_hints_returns (fuel : nat) (greeter : LdmGreeter) (len offset : Z) :
  n_read (priv greeter) = HEADER_SIZE + len ->
  0 <= len < 2 ^ 32 ->
  0 <= offset <= n_read (priv greeter) ->
  (Z.to_nat (len - offset) <= fuel)%nat ->
  is_Some (read_hints fuel greeter len offset).
Proof.
  unfold HEADER_SIZE. revert greeter offset.
  induction fuel as [|fuel IH]; intros greeter offset Hn Hlen Hoff Hfuel; cbn [read_hints].
  - destruct (Z.ltb_spec offset len); cbn [negb]; [lia|]. eexists. reflexivity.
  - destruct (Z.ltb_spec offset len); cbn [negb]; [|eexists; reflexivity].
    pose proof (read_string_bounds greeter offset Hoff) as H1. cbv zeta in H1.
    destruct (read_string greeter offset) as [[name offset1] loads1]. cbn [fst snd] in H1.
    destruct H1 as [Hb1 Hp1]; [lia|]. unfold remaining in Hp1.
    pose proof (read_string_bounds greeter offset1) as H2. cbv zeta in H2.
    destruct (read_string greeter offset1) as [[value offset2] loads2]. cbn [fst snd] in H2.
    destruct H2 as [Hb2 _]; [lia|lia|].
    apply IH; cbn [with_priv priv n_read set_hints]; lia.
Qed.

Lemma handle_connected_returns (packet : list byte) (greeter : LdmGreeter) :
  complete_packet packet ->
  is_Some (handle_connected (receive packet greeter) (packet_field packet 4) 8).
Proof.
  intros Hc. pose proof (complete_packet_length packet Hc) as Hlen.
  pose proof (read_int_value_range (receive packet ldm_greeter_init) 4) as Hrange.
  fold (packet_field packet 4) in Hrange.
  set (g := receive packet greeter).
  assert (Hn : n_read (priv g) = HEADER_SIZE + packet_field packet 4) by exact Hc.
  unfold handle_connected.
  pose proof (read_string_bounds g 8) as Hb. cbv zeta in Hb.
  destruct (read_string g 8) as [[version offset] loads]. cbn [fst snd] in Hb.
  destruct Hb as [Hb _]; [unfold HEADER_SIZE in Hn; lia..|].
  destruct (read_hints_returns (Z.to_nat (packet_field packet 4)) g (packet_field packet 4)
              offset Hn Hrange) as [[g1 offset1] ->]; [lia|lia|].
  eexists. reflexivity.
Qed.

(** [from_server_cb] returns for every complete packet, whatever its id
    and however short its payload is for the fields the handler reads. *)
Lemma from_server_cb_returns (packet : list byte) (greeter : LdmGreeter) :
  complete_packet packet -> is_Some (from_server_cb packet greeter).
Proof.
  intros Hc. rewrite (from_server_cb_complete packet greeter Hc). cbv zeta.
  destruct (packet_id packet =? SERVER_MESSAGE_CONNECTED).
  - destruct (handle_connected_returns packet greeter Hc) as [[g1 offset1] ->].
    eexists. reflexivity.
  - repeat match goal with
           | |- context [if ?c then _ else _] => destruct c
           end; eexists; reflexivity.
Qed.

(** ** The ordering of the user list is an ordering *)

Lemma string_compare_le_trans (a b c : string) :
  String.compare a b <> Gt -> String.compare b c <> Gt -> String.compare a c <> Gt.
Proof.
  revert b c. induction a as [|x a IH]; intros [|y b] [|z c]; cbn [String.compare];
    try congruence.
  destruct (Ascii.compare x y) eqn:Exy; [| |congruence];
    destruct (Ascii.compare y z) eqn:Eyz; try congruence.
  - apply Ascii.compare_eq_iff in Exy, Eyz. subst y z.
    unfold Ascii.compare. rewrite N.compare_refl. apply IH.
  - apply Ascii.compare_eq_iff in Exy. subst y. rewrite Eyz. congruence.
  - apply Ascii.compare_eq_iff in Eyz. subst z. rewrite Exy. congruence.
  - unfold Ascii.compare in *. rewrite N.compare_lt_iff in Exy, Eyz.
    replace (N_of_ascii x ?= N_of_ascii z)%N with Lt; [congruence|].
    symmetry. apply N.compare_lt_iff. lia.
Qed.

Lemma strcmp_le (a b : string) : strcmp a b <= 0 <-> String.compare a b <> Gt.
Proof. unfold strcmp. destruct (String.compare a b); split; (lia || congruence). Qed.

Lemma display_le_trans (greeter : LdmGreeter) (a b c : nat) :
  display_le greeter a b -> display_le greeter b c -> display_le greeter a c.
Proof.
  unfold display_le, compare_user. rewrite !strcmp_le. apply string_compare_le_trans.
Qed.

(** A list sorted by display name has every member before all the later
    ones, not only before the next one. *)
Lemma sorted_by_display_name_strong (greeter : LdmGreeter) (l : list nat) :
  sorted_by_display_name greeter l -> StronglySorted (display_le greeter) l.
Proof.
  apply Sorted_StronglySorted. intros a b c. apply display_le_trans.
Qed.

(** ** Truncated fields *)

(** C8, amended: at an offset inside the received bytes, [read_int]
    with fewer than 4 bytes remaining returns 0, and [read_string] whose declared
    length exceeds the bytes remaining after the length prefix returns
    the empty string; every byte either of them loads is one of the
    bytes received.  Neither case is an error: both return a value and
    leave the offset inside the received bytes, the caller goes on
    decoding, and [from_server_cb] returns for every complete packet. *)
Theorem read_fails_closed (greeter : LdmGreeter) (offset : Z) :
  0 <= offset <= n_read (priv greeter) ->
  n_read (priv greeter) < 2 ^ 64 ->
  (remaining greeter offset < 4 -> read_int greeter offset = (0, offset, []))
  /\ (forall declared offset' loads,
        read_int greeter offset = (declared, offset', loads) ->
        remaining greeter offset' < declared ->
        read_string greeter offset = (EmptyString, offset', loads))
  /\ (forall value offset' loads,
        read_int greeter offset = (value, offset', loads) ->
        Forall (received greeter) loads /\ offset <= offset' <= n_read (priv greeter))
  /\ (forall value offset' loads,
        read_string greeter offset = (value, offset', loads) ->
        Forall (received greeter) loads /\ offset <= offset' <= n_read (priv greeter))
  /\ (forall packet session,
        complete_packet packet -> is_Some (from_server_cb packet session)).
Proof.
  intros Hoff Hn.
  assert (Hint : forall value offset' loads,
             read_int greeter offset = (value, offset', loads) ->
             0 <= value < 2 ^ 32 /\ Forall (received greeter) loads /\
             offset <= offset' <= n_read (priv greeter)).
  { intros value offset' loads Hread.
    destruct (read_int_cases greeter offset Hoff Hn) as [[Hlt E]|[Hge (v & Hv & E)]];
      rewrite E in Hread; injection Hread as <- <- <-; unfold remaining in *.
    - repeat split; try lia. constructor.
    - repeat split; try lia.
      repeat constructor; unfold received; lia. }
  repeat apply conj.
  - intros Hlt.
    destruct (read_int_cases greeter offset Hoff Hn) as [[_ E]|[Hge _]]; [exact E|lia].
  - intros declared offset' loads Hread Hshort.
    destruct (Hint _ _ _ Hread) as (_ & _ & Hoff').
    unfold read_string. rewrite Hread. unfold remaining in Hshort.
    rewrite usize_small by lia.
    destruct (Z.ltb_spec (n_read (priv greeter) - offset') declared); [reflexivity|lia].
  - intros value offset' loads Hread. apply (Hint _ _ _ Hread).
  - intros value offset' loads Hread. unfold read_string in Hread.
    destruct (read_int greeter offset) as [[declared offset1] loads1] eqn:E.
    destruct (Hint _ _ _ eq_refl) as (Hdecl & Hloads1 & Hoff1).
    rewrite (usize_small (n_read (priv greeter) - offset1)) in Hread by lia.
    destruct (Z.ltb_spec (n_read (priv greeter) - offset1) declared) as [Hlt|Hge].
    + injection Hread as _ <- <-. split; [assumption|lia].
    + rewrite usize_small in Hread by lia.
      injection Hread as _ <- <-. split; [|lia].
      apply Forall_app. split; [assumption|].
      apply span_received; lia.
  - intros packet session. apply from_server_cb_returns.
Qed.

Lemma read_fails_closed_witness :
  read_int short_read 4 = (0, 4, [])
  /\ read_string short_read 0 = (EmptyString, 4, [0; 1; 2; 3]).
Proof.
  split.
  - apply (read_fails_closed short_read 4); vm_compute; (reflexivity || (split; discriminate)).
  - assert (H0 : 0 <= 0 <= n_read (priv short_read)) by (vm_compute; split; discriminate).
    assert (Hn : n_read (priv short_read) < 2 ^ 64) by (vm_compute; reflexivity).
    destruct (read_fails_closed short_read 0 H0 Hn) as (_ & Hstring & _).
    apply (Hstring 5); vm_compute; reflexivity.
Defined.

(** The claim of C8 as stated fails at an offset beyond the bytes
    received: the guard subtracts two unsigned numbers, the difference
    wraps, and [read_int] at offset 4 of a greeter that has received 2
    bytes returns the 4 bytes it finds there, 7 and not 0, none of them
    a byte received. *)
Lemma read_beyond_received : ~ reads_fail_closed_at_every_offset.
Proof.
  intros H.
  destruct (H two_bytes_read 4 ltac:(lia) ltac:(vm_compute; split; [discriminate|reflexivity])
              ltac:(vm_compute; reflexivity) 7 8 [4; 5; 6; 7] ltac:(vm_compute; reflexivity))
    as [Hvalue _].
  discriminate Hvalue.
Qed.

(** * Further properties of the code *)

(** ** The writers stay inside the buffer *)

Lemma usize_range (z : Z) : 0 <= usize z < 2 ^ 64.
Proof. unfold usize. apply Z.mod_pos_bound. lia. Qed.

Lemma poke_lookup_ne (buffer : list byte) (i v : Z) (j : nat) :
  j <> Z.to_nat i -> poke buffer i v !! j = buffer !! j.
Proof. intros H. unfold poke. apply list_lookup_insert_ne. congruence. Qed.

Lemma write_int_inside (buffer : list byte) (buffer_length value offset : Z) :
  0 <= offset < 2 ^ 63 ->
  0 <= buffer_length < 2 ^ 64 ->
  let buffer' := fst (write_int buffer buffer_length value offset) in
  let offset' := snd (write_int buffer buffer_length value offset) in
  length buffer' = length buffer
  /\ (offset' = offset /\ buffer' = buffer \/ offset' = offset + 4 /\ offset + 4 < buffer_length)
  /\ (forall i : nat, (i < Z.to_nat offset \/ Z.to_nat offset' <= i)%nat ->
                      buffer' !! i = buffer !! i).
Proof.
  intros Hoff Hlen. unfold write_int.
  rewrite (usize_small buffer_length), (usize_small (offset + 4)) by lia.
  destruct (Z.leb_spec buffer_length (offset + 4)); cbn.
  - split; [reflexivity|]. split; [left; split; reflexivity|]. reflexivity.
  - split; [unfold poke; rewrite !length_insert; reflexivity|].
    split; [right; lia|].
    intros i Hi. rewrite !poke_lookup_ne by lia. reflexivity.
Qed.

Lemma write_string_inside (buffer : list byte) (buffer_length offset : Z) (value : string) :
  0 <= offset < 2 ^ 62 ->
  0 <= buffer_length < 2 ^ 64 ->
  strlen value < 2 ^ 31 ->
  let buffer' := fst (write_string buffer buffer_length value offset) in
  let offset' := snd (write_string buffer buffer_length value offset) in
  length buffer' = length buffer
  /\ offset <= offset' <= offset + 4 + strlen value
  /\ (offset < buffer_length -> offset' < buffer_length)
  /\ (forall i : nat, (i < Z.to_nat offset \/ Z.to_nat offset' <= i)%nat ->
                      buffer' !! i = buffer !! i).
Proof.
  intros Hoff Hlen Hs. pose proof (strlen_nonneg value) as Hs0.
  unfold write_string. rewrite s32_small by lia.
  pose proof (write_int_inside buffer buffer_length (u32 (strlen value)) offset) as Hint.
  destruct (write_int buffer buffer_length (u32 (strlen value)) offset) as [buffer1 offset1].
  cbn in Hint. destruct Hint as (Hl1 & Hcase & Hsame1); [lia|lia|].
  assert (offset <= offset1 <= offset + 4) as Ho1 by (destruct Hcase as [[-> _]|[-> _]]; lia).
  assert (offset < buffer_length -> offset1 < buffer_length) as Hb1
    by (destruct Hcase as [[-> _]|[-> ?]]; lia).
  rewrite (usize_small buffer_length), (usize_small (offset1 + strlen value)) by lia.
  destruct (Z.leb_spec buffer_length (offset1 + strlen value)); cbn.
  - split; [exact Hl1|]. split; [lia|]. split; [exact Hb1|]. exact Hsame1.
  - split; [unfold memcpy; rewrite length_inserts; exact Hl1|].
    split; [lia|]. split; [lia|].
    intros i Hi. unfold memcpy.
    assert (length (take (Z.to_nat (strlen value)) (c_bytes value)) = Z.to_nat (strlen value)) as Htk
      by (rewrite length_take; unfold strlen; lia).
    destruct Hi as [Hi|Hi].
    + rewrite list_lookup_inserts_lt by lia. apply Hsame1. lia.
    + rewrite list_lookup_inserts_ge by lia. apply Hsame1. lia.
Qed.

(** ** Writing at any offset, and reading it back *)

Lemma split_at (buffer : list byte) (i n : nat) :
  (i + n <= length buffer)%nat ->
  buffer = take i buffer ++ take n (drop i buffer) ++ drop (i + n) buffer
  /\ length (take i buffer) = i /\ length (take n (drop i buffer)) = n.
Proof.
  intros H. split; [|split].
  - rewrite <- drop_drop, take_drop, take_drop. reflexivity.
  - rewrite length_take. lia.
  - rewrite length_take, length_drop. lia.
Qed.

Lemma write_int_at (buffer : list byte) (buffer_length value offset : Z) :
  0 <= offset -> offset + 4 < buffer_length ->
  buffer_length <= Z.of_nat (length buffer) -> buffer_length < 2 ^ 64 ->
  write_int buffer buffer_length value offset
  = (take (Z.to_nat offset) buffer ++ be32 value ++ drop (Z.to_nat offset + 4) buffer,
     offset + 4).
Proof.
  intros Hoff Hfit Hroom Hlen.
  destruct (split_at buffer (Z.to_nat offset) 4) as (Hb & Hpre & Hmid); [lia|].
  rewrite Hb at 1.
  apply write_int_app; [lia|assumption|lia].
Qed.

Lemma write_string_at (buffer : list byte) (buffer_length offset : Z) (value : string) :
  0 <= offset -> offset + 4 + strlen value < buffer_length ->
  buffer_length <= Z.of_nat (length buffer) -> buffer_length < 2 ^ 31 ->
  write_string buffer buffer_length value offset
  = (take (Z.to_nat offset) buffer ++ wire_string value
     ++ drop (Z.to_nat (offset + 4 + strlen value)) buffer,
     offset + 4 + strlen value).
Proof.
  intros Hoff Hfit Hroom Hlen. pose proof (strlen_nonneg value) as Hs.
  destruct (split_at buffer (Z.to_nat offset) 4) as (Hb & Hpre & Hmid); [lia|].
  destruct (split_at (drop (Z.to_nat offset + 4) buffer) 0 (Z.to_nat (strlen value)))
    as (Hb2 & _ & Hroom2); [rewrite length_drop; lia|].
  rewrite drop_0, take_0, app_nil_l, drop_drop in Hb2.
  rewrite Hb2 in Hb. rewrite Hb at 1.
  rewrite drop_0 in Hroom2.
  rewrite (write_string_app _ _ _ _ buffer_length offset value)
    by (rewrite ?Hpre, ?Hmid, ?Hroom2; lia).
  unfold wire_string. rewrite <- !app_assoc.
  repeat f_equal. lia.
Qed.

(** The bytes written so far are the first [offset] bytes of the buffer;
    each writer that finds room extends them by what it encodes. *)
Lemma write_int_written (buffer : list byte) (buffer_length value offset : Z) :
  0 <= offset -> offset + 4 < buffer_length ->
  buffer_length = Z.of_nat (length buffer) -> buffer_length < 2 ^ 64 ->
  let r := write_int buffer buffer_length value offset in
  snd r = offset + 4
  /\ length (fst r) = length buffer
  /\ take (Z.to_nat (offset + 4)) (fst r) = take (Z.to_nat offset) buffer ++ be32 value.
Proof.
  intros Hoff Hfit Hroom Hlen. cbv zeta.
  rewrite write_int_at by lia. cbn [fst snd].
  split; [reflexivity|]. split.
  - rewrite !length_app, length_be32, length_take, length_drop. lia.
  - rewrite app_assoc. apply take_app_length'.
    rewrite length_app, length_be32, length_take. lia.
Qed.

Lemma write_string_written (buffer : list byte) (buffer_length offset : Z) (value : string) :
  0 <= offset -> offset + 4 + strlen value < buffer_length ->
  buffer_length = Z.of_nat (length buffer) -> buffer_length < 2 ^ 31 ->
  let r := write_string buffer buffer_length value offset in
  snd r = offset + 4 + strlen value
  /\ length (fst r) = length buffer
  /\ take (Z.to_nat (offset + 4 + strlen value)) (fst r)
     = take (Z.to_nat offset) buffer ++ wire_string value.
Proof.
  intros Hoff Hfit Hroom Hlen. cbv zeta. pose proof (strlen_nonneg value) as Hs.
  rewrite write_string_at by lia. cbn [fst snd].
  assert (length (wire_string value) = Z.to_nat (4 + strlen value)) as Hw
    by (unfold wire_string; rewrite length_app, length_be32; unfold strlen; lia).
  split; [reflexivity|]. split.
  - rewrite !length_app, Hw, length_take, length_drop. lia.
  - rewrite app_assoc. apply take_app_length'.
    rewrite length_app, Hw, length_take. lia.
Qed.

(** A string that finds no room: the length prefix is written, the
    bytes are not. *)
Lemma write_string_no_room (buffer : list byte) (buffer_length offset : Z) (value : string) :
  0 <= offset -> offset + 4 < buffer_length ->
  buffer_length <= offset + 4 + strlen value ->
  buffer_length = Z.of_nat (length buffer) -> strlen value < 2 ^ 31 ->
  buffer_length < 2 ^ 31 ->
  let r := write_string buffer buffer_length value offset in
  snd r = offset + 4
  /\ length (fst r) = length buffer
  /\ take (Z.to_nat (offset + 4)) (fst r)
     = take (Z.to_nat offset) buffer ++ be32 (strlen value).
Proof.
  intros Hoff Hfit Hno Hroom Hs Hlen. cbv zeta. pose proof (strlen_nonneg value) as Hs0.
  unfold write_string. rewrite s32_small, u32_small by lia.
  pose proof (write_int_written buffer buffer_length (strlen value) offset) as Hw.
  destruct (write_int buffer buffer_length (strlen value) offset) as [buffer1 offset1].
  cbn [fst snd] in Hw. destruct Hw as (-> & Hl & Ht); [lia..|].
  rewrite !usize_small by lia.
  destruct (Z.leb_spec buffer_length (offset + 4 + strlen value)); [|lia].
  cbn [fst snd]. auto.
Qed.

(** ** The codec, in general *)

(** X1: [write_int] and [write_string] never write outside the room they
    are given: the buffer keeps its length, the offset stays below
    [buffer_length], and every byte before the old offset or from the
    new offset on is what it was. *)
Theorem writers_stay_inside (buffer : list byte) (buffer_length value offset : Z)
    (text : string) :
  0 <= offset < buffer_length ->
  buffer_length < 2 ^ 31 ->
  strlen text < 2 ^ 31 ->
  Forall (fun written : list byte * Z =>
            length (fst written) = length buffer
            /\ offset <= snd written < buffer_length
            /\ (forall i : nat, Z.of_nat i < offset \/ snd written <= Z.of_nat i ->
                                fst written !! i = buffer !! i))
         [write_int buffer buffer_length value offset;
          write_string buffer buffer_length text offset].
Proof.
  intros Hoff Hlen Hs. repeat apply List.Forall_cons; [| |apply List.Forall_nil].
  - destruct (write_int_inside buffer buffer_length value offset) as (Hl & Hcase & Hsame);
      [lia..|].
    split; [exact Hl|]. split; [destruct Hcase as [[-> _]|[-> ?]]; lia|].
    intros i Hi. apply Hsame. lia.
  - destruct (write_string_inside buffer buffer_length offset text) as (Hl & Ho & Hb & Hsame);
      [lia..|].
    split; [exact Hl|]. split; [lia|].
    intros i Hi. apply Hsame. lia.
Qed.

Lemma writers_stay_inside_witness :
  Forall (fun written : list byte * Z =>
            length (fst written) = length message_buffer
            /\ 1020 <= snd written < 1024
            /\ (forall i : nat, Z.of_nat i < 1020 \/ snd written <= Z.of_nat i ->
                                fst written !! i = message_buffer !! i))
         [write_int message_buffer 1024 7 1020;
          write_string message_buffer 1024 "ab" 1020].
Proof.
  apply (writers_stay_inside message_buffer 1024 7 1020 "ab").
  - lia.
  - lia.
  - vm_compute. reflexivity.
Defined.

(** X2: what [write_int] and [write_string] encode at an offset of a
    buffer with room for it, [read_int] and [read_string] decode at
    that offset from the bytes written so far: the same 32 bit value,
    the same string without NUL, and the same new offset. *)
Theorem codec_round_trip (buffer : list byte) (offset value : Z) (text : string)
    (greeter : LdmGreeter) :
  let buffer_length := Z.of_nat (length buffer) in
  0 <= offset ->
  buffer_length < 2 ^ 31 ->
  (0 <= value < 2 ^ 32 ->
   offset + 4 < buffer_length ->
   let '(written, offset') := write_int buffer buffer_length value offset in
   offset' = offset + 4
   /\ fst (read_int (receive (take (Z.to_nat offset') written) greeter) offset)
      = (value, offset'))
  /\ (nul_free text ->
      offset + 4 + strlen text < buffer_length ->
      let '(written, offset') := write_string buffer buffer_length text offset in
      offset' = offset + 4 + strlen text
      /\ fst (read_string (receive (take (Z.to_nat offset') written) greeter) offset)
         = (text, offset')).
Proof.
  intros buffer_length Hoff Hlen. pose proof (strlen_nonneg text) as Hs. split.
  - intros Hvalue Hfit.
    pose proof (write_int_written buffer buffer_length value offset) as Hw.
    destruct (write_int buffer buffer_length value offset) as [written offset'].
    cbn [fst snd] in Hw. destruct Hw as (-> & Hl & Ht); [lia|lia|reflexivity|lia|].
    split; [reflexivity|].
    set (g := receive (take (Z.to_nat (offset + 4)) written) greeter).
    assert (Hbuf : read_buffer (priv g) = take (Z.to_nat offset) buffer ++ be32 value ++ [])
      by (rewrite app_nil_r; exact Ht).
    rewrite (read_int_app g _ _ value offset Hbuf).
    + reflexivity.
    + rewrite length_take. unfold buffer_length in *. lia.
    + unfold g. cbn [receive with_priv priv set_read n_read]. rewrite length_take.
      unfold buffer_length in *. lia.
    + exact Hvalue.
  - intros Hnul Hfit.
    pose proof (write_string_written buffer buffer_length offset text) as Hw.
    destruct (write_string buffer buffer_length text offset) as [written offset'].
    cbn [fst snd] in Hw. destruct Hw as (-> & Hl & Ht); [lia|lia|reflexivity|lia|].
    split; [reflexivity|].
    set (g := receive (take (Z.to_nat (offset + 4 + strlen text)) written) greeter).
    assert (Hbuf : read_buffer (priv g)
                   = take (Z.to_nat offset) buffer
                     ++ be32 (Z.of_nat (length (c_bytes text))) ++ c_bytes text ++ [])
      by (rewrite app_nil_r; exact Ht).
    rewrite (read_string_app g _ _ _ offset Hbuf).
    + rewrite c_string_c_bytes by assumption. unfold strlen. reflexivity.
    + rewrite length_take. unfold buffer_length in *. lia.
    + unfold g. cbn [receive with_priv priv set_read n_read]. rewrite length_take.
      unfold buffer_length, strlen in *. lia.
    + unfold strlen in *. lia.
Qed.

Lemma codec_round_trip_witness :
  (0 <= 305419896 < 2 ^ 32 ->
   12 + 4 < Z.of_nat (length message_buffer) ->
   let '(written, offset') :=
     write_int message_buffer (Z.of_nat (length message_buffer)) 305419896 12 in
   offset' = 12 + 4
   /\ fst (read_int (receive (take (Z.to_nat offset') written) ldm_greeter_init) 12)
      = (305419896, offset'))
  /\ (nul_free "gnome" ->
      12 + 4 + strlen "gnome" < Z.of_nat (length message_buffer) ->
      let '(written, offset') :=
        write_string message_buffer (Z.of_nat (length message_buffer)) "gnome" 12 in
      offset' = 12 + 4 + strlen "gnome"
      /\ fst (read_string (receive (take (Z.to_nat offset') written) ldm_greeter_init) 12)
         = ("gnome"%string, offset')).
Proof.
  apply (codec_round_trip message_buffer 12 305419896 "gnome" ldm_greeter_init).
  - lia.
  - vm_compute. reflexivity.
Defined.

(** ** The write to the daemon *)

(** With the status G_IO_STATUS_NORMAL an entry point returns the state
    of the definitions above; with any other status it does not
    return. *)
Lemma write_message_status (status : GIOStatus) (greeter : LdmGreeter) (message : list byte)
    (message_length : Z) :
  Channel.write_message status greeter message message_length
  = match status with
    | G_IO_STATUS_NORMAL => Some (write_message greeter message message_length)
    | _ => None
    end.
Proof. destruct status; reflexivity. Qed.

Ltac entry_point_status :=
  repeat match goal with
         | |- context [let '(_, _) := ?x in _] => destruct x
         end;
  apply write_message_status.

Lemma ldm_greeter_login_status (status : GIOStatus) (greeter : LdmGreeter)
    (username : option string) :
  Channel.ldm_greeter_login status greeter username
  = match status with
    | G_IO_STATUS_NORMAL => Some (ldm_greeter_login greeter username)
    | _ => None
    end.
Proof. unfold Channel.ldm_greeter_login, ldm_greeter_login. entry_point_status. Qed.

Lemma ldm_greeter_login_as_guest_status (status : GIOStatus) (greeter : LdmGreeter) :
  Channel.ldm_greeter_login_as_guest status greeter
  = match status with
    | G_IO_STATUS_NORMAL => Some (ldm_greeter_login_as_guest greeter)
    | _ => None
    end.
Proof.
  unfold Channel.ldm_greeter_login_as_guest, ldm_greeter_login_as_guest. entry_point_status.
Qed.

Lemma ldm_greeter_respond_status (status : GIOStatus) (greeter : LdmGreeter)
    (response : string) :
  Channel.ldm_greeter_respond status greeter response
  = match status with
    | G_IO_STATUS_NORMAL => Some (ldm_greeter_respond greeter response)
    | _ => None
    end.
Proof. unfold Channel.ldm_greeter_respond, ldm_greeter_respond. entry_point_status. Qed.

Lemma ldm_greeter_cancel_authentication_status (status : GIOStatus) (greeter : LdmGreeter) :
  Channel.ldm_greeter_cancel_authentication status greeter
  = match status with
    | G_IO_STATUS_NORMAL => Some (ldm_greeter_cancel_authentication greeter)
    | _ => None
    end.
Proof.
  unfold Channel.ldm_greeter_cancel_authentication, ldm_greeter_cancel_authentication.
  entry_point_status.
Qed.

Lemma ldm_greeter_start_session_status (status : GIOStatus) (greeter : LdmGreeter)
    (session : option string) :
  Channel.ldm_greeter_start_session status greeter session
  = match status with
    | G_IO_STATUS_NORMAL => Some (ldm_greeter_start_session greeter session)
    | _ => None
    end.
Proof.
  unfold Channel.ldm_greeter_start_session, ldm_greeter_start_session. entry_point_status.
Qed.

(** ** The messages of the entry points *)

Lemma message_buffer_length : Z.of_nat (length message_buffer) = MAX_MESSAGE_LENGTH.
Proof. unfold message_buffer. rewrite length_replicate. reflexivity. Qed.

Lemma length_wire_string (value : string) :
  Z.of_nat (length (wire_string value)) = 4 + strlen value.
Proof. unfold wire_string. rewrite length_app, length_be32. unfold strlen. lia. Qed.

(** A header, an integer and a string that all find room. *)
Lemma write_header_int_string (id n : Z) (value : string) :
  16 + strlen value < MAX_MESSAGE_LENGTH ->
  let '(message, offset) :=
    write_header message_buffer MAX_MESSAGE_LENGTH id
                 (u32 (int_length + string_length value)) 0 in
  let '(message, offset) := write_int message MAX_MESSAGE_LENGTH n offset in
  let '(message, offset) := write_string message MAX_MESSAGE_LENGTH value offset in
  take (Z.to_nat offset) message = frame id (be32 n ++ wire_string value).
Proof.
  intros Hfit. pose proof (strlen_nonneg value) as Hs.
  pose proof message_buffer_length as Hm.
  unfold MAX_MESSAGE_LENGTH in *. unfold write_header, string_length, int_length.
  rewrite !u32_small by (rewrite ?u32_small; lia).
  pose proof (write_int_written message_buffer 1024 id 0) as H1.
  destruct (write_int message_buffer 1024 id 0) as [m1 o1].
  cbn [fst snd] in H1. destruct H1 as (-> & Hl1 & Ht1); [lia..|].
  pose proof (write_int_written m1 1024 (4 + (4 + strlen value)) (0 + 4)) as H2.
  destruct (write_int m1 1024 (4 + (4 + strlen value)) (0 + 4)) as [m2 o2].
  cbn [fst snd] in H2. destruct H2 as (-> & Hl2 & Ht2); [lia..|].
  pose proof (write_int_written m2 1024 n (0 + 4 + 4)) as H3.
  destruct (write_int m2 1024 n (0 + 4 + 4)) as [m3 o3].
  cbn [fst snd] in H3. destruct H3 as (-> & Hl3 & Ht3); [lia..|].
  pose proof (write_string_written m3 1024 (0 + 4 + 4 + 4) value) as H4.
  destruct (write_string m3 1024 value (0 + 4 + 4 + 4)) as [m4 o4].
  cbn [fst snd] in H4. destruct H4 as (-> & Hl4 & Ht4); [lia..|].
  rewrite Ht4, Ht3, Ht2, Ht1. cbn [Z.to_nat take app].
  unfold frame. rewrite length_app, length_be32, Nat2Z.inj_add, length_wire_string.
  rewrite <- !app_assoc. repeat f_equal; lia.
Qed.

(** The same when the string finds no room. *)
Lemma write_header_int_string_no_room (id n : Z) (value : string) :
  MAX_MESSAGE_LENGTH <= 16 + strlen value -> strlen value < 2 ^ 31 ->
  let '(message, offset) :=
    write_header message_buffer MAX_MESSAGE_LENGTH id
                 (u32 (int_length + string_length value)) 0 in
  let '(message, offset) := write_int message MAX_MESSAGE_LENGTH n offset in
  let '(message, offset) := write_string message MAX_MESSAGE_LENGTH value offset in
  take (Z.to_nat offset) message
  = be32 id ++ be32 (8 + strlen value) ++ be32 n ++ be32 (strlen value).
Proof.
  intros Hfit Hlen. pose proof (strlen_nonneg value) as Hs.
  pose proof message_buffer_length as Hm.
  unfold MAX_MESSAGE_LENGTH in *. unfold write_header, string_length, int_length.
  rewrite !u32_small by (rewrite ?u32_small; lia).
  pose proof (write_int_written message_buffer 1024 id 0) as H1.
  destruct (write_int message_buffer 1024 id 0) as [m1 o1].
  cbn [fst snd] in H1. destruct H1 as (-> & Hl1 & Ht1); [lia..|].
  pose proof (write_int_written m1 1024 (4 + (4 + strlen value)) (0 + 4)) as H2.
  destruct (write_int m1 1024 (4 + (4 + strlen value)) (0 + 4)) as [m2 o2].
  cbn [fst snd] in H2. destruct H2 as (-> & Hl2 & Ht2); [lia..|].
  pose proof (write_int_written m2 1024 n (0 + 4 + 4)) as H3.
  destruct (write_int m2 1024 n (0 + 4 + 4)) as [m3 o3].
  cbn [fst snd] in H3. destruct H3 as (-> & Hl3 & Ht3); [lia..|].
  pose proof (write_string_no_room m3 1024 (0 + 4 + 4 + 4) value) as H4.
  destruct (write_string m3 1024 value (0 + 4 + 4 + 4)) as [m4 o4].
  cbn [fst snd] in H4. destruct H4 as (-> & Hl4 & Ht4); [lia..|].
  rewrite Ht4, Ht3, Ht2, Ht1. cbn [Z.to_nat take app].
  rewrite <- !app_assoc.
  replace (4 + (4 + strlen value)) with (8 + strlen value) by lia. reflexivity.
Qed.

(** A header and a string that find room. *)
Lemma write_header_string (id : Z) (value : string) :
  12 + strlen value < MAX_MESSAGE_LENGTH ->
  let '(message, offset) :=
    write_header message_buffer MAX_MESSAGE_LENGTH id (string_length value) 0 in
  let '(message, offset) := write_string message MAX_MESSAGE_LENGTH value offset in
  take (Z.to_nat offset) message = frame id (wire_string value).
Proof.
  intros Hfit. pose proof (strlen_nonneg value) as Hs. pose proof message_buffer_length as Hm.
  unfold MAX_MESSAGE_LENGTH in *. unfold write_header, string_length, int_length.
  rewrite !u32_small by lia.
  pose proof (write_int_written message_buffer 1024 id 0) as H1.
  destruct (write_int message_buffer 1024 id 0) as [m1 o1].
  cbn [fst snd] in H1. destruct H1 as (-> & Hl1 & Ht1); [lia..|].
  pose proof (write_int_written m1 1024 (4 + strlen value) (0 + 4)) as H2.
  destruct (write_int m1 1024 (4 + strlen value) (0 + 4)) as [m2 o2].
  cbn [fst snd] in H2. destruct H2 as (-> & Hl2 & Ht2); [lia..|].
  pose proof (write_string_written m2 1024 (0 + 4 + 4) value) as H3.
  destruct (write_string m2 1024 value (0 + 4 + 4)) as [m3 o3].
  cbn [fst snd] in H3. destruct H3 as (-> & Hl3 & Ht3); [lia..|].
  rewrite Ht3, Ht2, Ht1. cbn [Z.to_nat take app].
  unfold frame. rewrite length_wire_string, <- !app_assoc. reflexivity.
Qed.

(** What [ldm_greeter_respond] has written when its write succeeds. *)
Lemma ldm_greeter_respond_written (greeter : LdmGreeter) (response : string) :
  16 + strlen response < MAX_MESSAGE_LENGTH ->
  ldm_greeter_respond greeter response
  = mkGreeter (priv greeter) (heap greeter)
      (to_server greeter
       ++ [frame GREETER_MESSAGE_CONTINUE_AUTHENTICATION (be32 1 ++ wire_string response)])
      (timeouts greeter) (emitted greeter).
Proof.
  intros Hfit.
  pose proof (write_header_int_string GREETER_MESSAGE_CONTINUE_AUTHENTICATION 1 response Hfit)
    as Hw.
  unfold ldm_greeter_respond.
  repeat match goal with
         | |- context [let '(_, _) := ?x in _] => destruct x
         end.
  unfold write_message. rewrite Hw. reflexivity.
Qed.

(** X3: [ldm_greeter_respond] with a response that fits (fewer than 1008
    bytes) returns exactly when its write to the daemon has the status
    G_IO_STATUS_NORMAL.  Then one CONTINUE_AUTHENTICATION frame has
    gone out, holding the count 1 and the length prefixed response, and
    nothing else of the greeter has changed.  With any other status
    [write_message] reads the message of an error that is NULL, and the
    call does not return. *)
Theorem ldm_greeter_respond_sends (status : GIOStatus) (greeter : LdmGreeter)
    (response : string) :
  16 + strlen response < MAX_MESSAGE_LENGTH ->
  Channel.ldm_greeter_respond status greeter response
  = match status with
    | G_IO_STATUS_NORMAL =>
        Some (mkGreeter (priv greeter) (heap greeter)
                (to_server greeter
                 ++ [frame GREETER_MESSAGE_CONTINUE_AUTHENTICATION
                           (be32 1 ++ wire_string response)])
                (timeouts greeter) (emitted greeter))
    | _ => None
    end.
Proof.
  intros Hfit. rewrite ldm_greeter_respond_status.
  destruct status; try reflexivity.
  rewrite (ldm_greeter_respond_written greeter response Hfit). reflexivity.
Qed.

Lemma ldm_greeter_respond_sends_witness :
  Channel.ldm_greeter_respond G_IO_STATUS_NORMAL ldm_greeter_init "secret"
  = Some (mkGreeter (priv ldm_greeter_init) (heap ldm_greeter_init)
            (to_server ldm_greeter_init
             ++ [frame GREETER_MESSAGE_CONTINUE_AUTHENTICATION (be32 1 ++ wire_string "secret")])
            (timeouts ldm_greeter_init) (emitted ldm_greeter_init))
  /\ Channel.ldm_greeter_respond G_IO_STATUS_AGAIN ldm_greeter_init "secret" = None.
Proof.
  split.
  - apply (ldm_greeter_respond_sends G_IO_STATUS_NORMAL ldm_greeter_init "secret").
    vm_compute. reflexivity.
  - apply (ldm_greeter_respond_sends G_IO_STATUS_AGAIN ldm_greeter_init "secret").
    vm_compute. reflexivity.
Defined.

(** X4: a response or user name of 1008 bytes or more does not fit the
    1024 byte message buffer: the header and the length prefix announce
    it, its bytes are left out, so the message ends after 16 bytes. *)
Theorem string_without_room_left_out (greeter : LdmGreeter) (value : string) :
  MAX_MESSAGE_LENGTH <= 16 + strlen value ->
  strlen value < 2 ^ 31 ->
  last_message (ldm_greeter_respond greeter value)
  = be32 GREETER_MESSAGE_CONTINUE_AUTHENTICATION ++ be32 (8 + strlen value)
    ++ be32 1 ++ be32 (strlen value)
  /\ last_message (ldm_greeter_login greeter (Some value))
     = be32 GREETER_MESSAGE_LOGIN ++ be32 (8 + strlen value)
       ++ be32 (u32 (authenticate_sequence_number (priv greeter) + 1)) ++ be32 (strlen value).
Proof.
  intros Hfit Hlen. split.
  - pose proof (write_header_int_string_no_room GREETER_MESSAGE_CONTINUE_AUTHENTICATION 1
                  value Hfit Hlen) as Hw.
    unfold ldm_greeter_respond.
    repeat match goal with
           | |- context [let '(_, _) := ?x in _] => destruct x
           end.
    unfold write_message, last_message. cbn [to_server]. rewrite last_last. exact Hw.
  - pose proof (write_header_int_string_no_room GREETER_MESSAGE_LOGIN
                  (u32 (authenticate_sequence_number (priv greeter) + 1))
                  value Hfit Hlen) as Hw.
    unfold ldm_greeter_login.
    cbn [with_priv priv authenticate_sequence_number set_authenticate_sequence_number
         set_in_authentication set_is_authenticated set_authentication_user
         set_cancelling_authentication].
    repeat match goal with
           | |- context [let '(_, _) := ?x in _] => destruct x
           end.
    unfold write_message, last_message. cbn [to_server]. rewrite last_last. exact Hw.
Qed.

Lemma string_without_room_left_out_witness :
  last_message (ldm_greeter_respond ldm_greeter_init long_username)
  = be32 GREETER_MESSAGE_CONTINUE_AUTHENTICATION ++ be32 (8 + strlen long_username)
    ++ be32 1 ++ be32 (strlen long_username)
  /\ last_message (ldm_greeter_login ldm_greeter_init (Some long_username))
     = be32 GREETER_MESSAGE_LOGIN ++ be32 (8 + strlen long_username)
       ++ be32 (u32 (authenticate_sequence_number (priv ldm_greeter_init) + 1))
       ++ be32 (strlen long_username).
Proof.
  apply (string_without_room_left_out ldm_greeter_init long_username).
  - vm_compute. discriminate.
  - vm_compute. reflexivity.
Defined.

(** What the entry points have written when their write succeeds. *)
Lemma ldm_greeter_start_session_written (greeter : LdmGreeter) (session : option string) :
  12 + strlen (default EmptyString session) < MAX_MESSAGE_LENGTH ->
  ldm_greeter_start_session greeter session
  = mkGreeter (priv greeter) (heap greeter)
      (to_server greeter
       ++ [frame GREETER_MESSAGE_START_SESSION (wire_string (default EmptyString session))])
      (timeouts greeter) (emitted greeter).
Proof.
  intros Hfit. unfold ldm_greeter_start_session.
  replace (match session with Some s => s | None => EmptyString end)
    with (default EmptyString session) by (destruct session; reflexivity).
  pose proof (write_header_string GREETER_MESSAGE_START_SESSION (default EmptyString session)
                Hfit) as Hw.
  repeat match goal with
         | |- context [let '(_, _) := ?x in _] => destruct x
         end.
  unfold write_message. rewrite Hw. reflexivity.
Qed.

Lemma ldm_greeter_cancel_authentication_written (greeter : LdmGreeter) :
  ldm_greeter_cancel_authentication greeter
  = mkGreeter (set_cancelling_authentication true (priv greeter)) (heap greeter)
      (to_server greeter ++ [frame GREETER_MESSAGE_CANCEL_AUTHENTICATION []])
      (timeouts greeter) (emitted greeter).
Proof.
  unfold ldm_greeter_cancel_authentication.
  replace (write_header message_buffer MAX_MESSAGE_LENGTH GREETER_MESSAGE_CANCEL_AUTHENTICATION 0 0)
    with (frame GREETER_MESSAGE_CANCEL_AUTHENTICATION []
          ++ replicate (Z.to_nat MAX_MESSAGE_LENGTH - 8) x00, 8)
    by (vm_compute; reflexivity).
  unfold write_message. cbn [with_priv priv heap to_server timeouts emitted].
  do 2 f_equal.
Qed.

Lemma ldm_greeter_login_as_guest_written (greeter : LdmGreeter) :
  let greeter' := ldm_greeter_login_as_guest greeter in
  to_server greeter'
  = to_server greeter
    ++ [frame GREETER_MESSAGE_LOGIN_AS_GUEST
              (be32 (authenticate_sequence_number (priv greeter')))]
  /\ authenticate_sequence_number (priv greeter')
     = u32 (authenticate_sequence_number (priv greeter) + 1).
Proof.
  cbv zeta. rewrite ldm_greeter_login_as_guest_priv.
  cbn [authenticate_sequence_number set_authentication_user set_is_authenticated
       set_in_authentication set_authenticate_sequence_number].
  split; [|reflexivity].
  unfold ldm_greeter_login_as_guest.
  cbn [with_priv priv authenticate_sequence_number set_authenticate_sequence_number
       set_in_authentication set_is_authenticated set_authentication_user
       set_cancelling_authentication].
  set (N := u32 (authenticate_sequence_number (priv greeter) + 1)).
  pose proof message_buffer_length as Hm.
  unfold MAX_MESSAGE_LENGTH in *. unfold write_header, int_length.
  pose proof (write_int_written message_buffer 1024 GREETER_MESSAGE_LOGIN_AS_GUEST 0) as H1.
  destruct (write_int message_buffer 1024 GREETER_MESSAGE_LOGIN_AS_GUEST 0) as [m1 o1].
  cbn [fst snd] in H1. destruct H1 as (-> & Hl1 & Ht1); [lia..|].
  pose proof (write_int_written m1 1024 4 (0 + 4)) as H2.
  destruct (write_int m1 1024 4 (0 + 4)) as [m2 o2].
  cbn [fst snd] in H2. destruct H2 as (-> & Hl2 & Ht2); [lia..|].
  pose proof (write_int_written m2 1024 N (0 + 4 + 4)) as H3.
  destruct (write_int m2 1024 N (0 + 4 + 4)) as [m3 o3].
  cbn [fst snd] in H3. destruct H3 as (-> & Hl3 & Ht3); [lia..|].
  unfold write_message. cbn [to_server]. rewrite Ht3, Ht2, Ht1. cbn [Z.to_nat take app].
  unfold frame. rewrite <- !app_assoc. reflexivity.
Qed.

(** X5: [ldm_greeter_start_session] with a session name that fits (fewer
    than 1012 bytes) returns exactly when its write to the daemon has
    the status G_IO_STATUS_NORMAL.  Then one START_SESSION frame has
    gone out, holding the length prefixed name, the empty name for a
    NULL session, which is what [ldm_greeter_start_default_session]
    passes; nothing else of the greeter has changed.  With any other
    status the call does not return. *)
Theorem ldm_greeter_start_session_sends (status : GIOStatus) (greeter : LdmGreeter)
    (session : option string) :
  12 + strlen (default EmptyString session) < MAX_MESSAGE_LENGTH ->
  Channel.ldm_greeter_start_session status greeter session
  = match status with
    | G_IO_STATUS_NORMAL =>
        Some (mkGreeter (priv greeter) (heap greeter)
                (to_server greeter
                 ++ [frame GREETER_MESSAGE_START_SESSION
                           (wire_string (default EmptyString session))])
                (timeouts greeter) (emitted greeter))
    | _ => None
    end
  /\ Channel.ldm_greeter_start_default_session status greeter
     = match status with
       | G_IO_STATUS_NORMAL =>
           Some (mkGreeter (priv greeter) (heap greeter)
                   (to_server greeter
                    ++ [frame GREETER_MESSAGE_START_SESSION (wire_string EmptyString)])
                   (timeouts greeter) (emitted greeter))
       | _ => None
       end.
Proof.
  intros Hfit. unfold Channel.ldm_greeter_start_default_session.
  rewrite !ldm_greeter_start_session_status.
  destruct status; try (split; reflexivity).
  rewrite (ldm_greeter_start_session_written greeter session Hfit).
  rewrite (ldm_greeter_start_session_written greeter None) by (vm_compute; reflexivity).
  split; reflexivity.
Qed.

Lemma ldm_greeter_start_session_sends_witness :
  (Channel.ldm_greeter_start_session G_IO_STATUS_NORMAL ldm_greeter_init (Some "gnome"%string)
   = Some (mkGreeter (priv ldm_greeter_init) (heap ldm_greeter_init)
             (to_server ldm_greeter_init
              ++ [frame GREETER_MESSAGE_START_SESSION (wire_string "gnome")])
             (timeouts ldm_greeter_init) (emitted ldm_greeter_init))
   /\ Channel.ldm_greeter_start_default_session G_IO_STATUS_NORMAL ldm_greeter_init
      = Some (mkGreeter (priv ldm_greeter_init) (heap ldm_greeter_init)
                (to_server ldm_greeter_init
                 ++ [frame GREETER_MESSAGE_START_SESSION (wire_string EmptyString)])
                (timeouts ldm_greeter_init) (emitted ldm_greeter_init)))
  /\ Channel.ldm_greeter_start_session G_IO_STATUS_ERROR ldm_greeter_init (Some "gnome"%string)
     = None.
Proof.
  split.
  - apply (ldm_greeter_start_session_sends G_IO_STATUS_NORMAL ldm_greeter_init
             (Some "gnome"%string)).
    vm_compute. reflexivity.
  - apply (ldm_greeter_start_session_sends G_IO_STATUS_ERROR ldm_greeter_init
             (Some "gnome"%string)).
    vm_compute. reflexivity.
Defined.

(** X6: [ldm_greeter_cancel_authentication] returns exactly when its
    write to the daemon has the status G_IO_STATUS_NORMAL.  Then it has
    sent a CANCEL_AUTHENTICATION header with no payload and set the
    cancelling flag; the attempt stays in progress, with its number,
    its user and its result as they were.  With any other status the
    call does not return. *)
Theorem ldm_greeter_cancel_authentication_sends (status : GIOStatus) (greeter : LdmGreeter) :
  Channel.ldm_greeter_cancel_authentication status greeter
  = match status with
    | G_IO_STATUS_NORMAL =>
        Some (mkGreeter (set_cancelling_authentication true (priv greeter)) (heap greeter)
                (to_server greeter ++ [frame GREETER_MESSAGE_CANCEL_AUTHENTICATION []])
                (timeouts greeter) (emitted greeter))
    | _ => None
    end.
Proof.
  rewrite ldm_greeter_cancel_authentication_status.
  destruct status; [reflexivity| |reflexivity|reflexivity].
  rewrite ldm_greeter_cancel_authentication_written. reflexivity.
Qed.

(** X7: [ldm_greeter_login_as_guest] returns exactly when its write to
    the daemon has the status G_IO_STATUS_NORMAL.  Then it has sent one
    LOGIN_AS_GUEST frame that holds the new sequence number and nothing
    else, and the new sequence number is the one before plus 1, cut to
    32 bits.  With any other status the call does not return. *)
Theorem ldm_greeter_login_as_guest_sends (status : GIOStatus) (greeter : LdmGreeter) :
  match Channel.ldm_greeter_login_as_guest status greeter with
  | Some greeter' =>
      status = G_IO_STATUS_NORMAL
      /\ to_server greeter'
         = to_server greeter
           ++ [frame GREETER_MESSAGE_LOGIN_AS_GUEST
                     (be32 (authenticate_sequence_number (priv greeter')))]
      /\ authenticate_sequence_number (priv greeter')
         = u32 (authenticate_sequence_number (priv greeter) + 1)
  | None => status <> G_IO_STATUS_NORMAL
  end.
Proof.
  rewrite ldm_greeter_login_as_guest_status.
  destruct status; try discriminate.
  split; [reflexivity|]. apply ldm_greeter_login_as_guest_written.
Qed.

(** ** No message is longer than the buffer *)

Lemma write_int_below (buffer : list byte) (buffer_length value offset : Z) :
  0 <= offset < buffer_length -> buffer_length < 2 ^ 63 ->
  0 <= snd (write_int buffer buffer_length value offset) < buffer_length.
Proof.
  intros Hoff Hlen.
  destruct (write_int_inside buffer buffer_length value offset) as (_ & Hcase & _); [lia..|].
  destruct Hcase as [[-> _]|[-> ?]]; lia.
Qed.

Lemma write_header_below (buffer : list byte) (buffer_length id length offset : Z) :
  0 <= offset < buffer_length -> buffer_length < 2 ^ 63 ->
  0 <= snd (write_header buffer buffer_length id length offset) < buffer_length.
Proof.
  intros Hoff Hlen. unfold write_header.
  pose proof (write_int_below buffer buffer_length id offset Hoff Hlen) as H1.
  destruct (write_int buffer buffer_length id offset) as [m1 o1]. cbn [snd] in H1.
  apply write_int_below; assumption.
Qed.

Lemma write_string_below (buffer : list byte) (buffer_length offset : Z) (value : string) :
  0 <= offset < buffer_length -> buffer_length < 2 ^ 62 -> strlen value < 2 ^ 31 ->
  0 <= snd (write_string buffer buffer_length value offset) < buffer_length.
Proof.
  intros Hoff Hlen Hs.
  destruct (write_string_inside buffer buffer_length offset value) as (_ & ? & ? & _); lia.
Qed.

Lemma length_write_message (greeter : LdmGreeter) (message : list byte) (offset : Z) :
  0 <= offset < MAX_MESSAGE_LENGTH ->
  Z.of_nat (length (last_message (write_message greeter message offset))) < MAX_MESSAGE_LENGTH.
Proof.
  intros H. unfold last_message, write_message. cbn [to_server].
  rewrite last_last, length_take. lia.
Qed.

(** X8: whatever the strings, no entry point sends a message of 1024
    bytes or more: every writer checks the room left in the message
    buffer before it writes. *)
Theorem message_shorter_than_buffer (greeter : LdmGreeter) (value : option string) :
  strlen (default EmptyString value) < 2 ^ 31 ->
  Forall (fun greeter' => Z.of_nat (length (last_message greeter')) < MAX_MESSAGE_LENGTH)
         [ldm_greeter_login greeter value;
          ldm_greeter_login_as_guest greeter;
          ldm_greeter_respond greeter (default EmptyString value);
          ldm_greeter_cancel_authentication greeter;
          ldm_greeter_start_session greeter value].
Proof.
  intros Hs.
  assert (Hb : 0 <= 0 < MAX_MESSAGE_LENGTH) by (unfold MAX_MESSAGE_LENGTH; lia).
  assert (Hl : MAX_MESSAGE_LENGTH < 2 ^ 62) by (unfold MAX_MESSAGE_LENGTH; lia).
  assert (Hl' : MAX_MESSAGE_LENGTH < 2 ^ 63) by lia.
  repeat apply List.Forall_cons; [| | | | |apply List.Forall_nil].
  - unfold ldm_greeter_login.
    replace (match value with Some u => u | None => EmptyString end)
      with (default EmptyString value) by (destruct value; reflexivity).
    match goal with
    | |- context [write_header ?b ?l ?i ?n ?o] =>
        pose proof (write_header_below b l i n o Hb Hl') as H1;
        destruct (write_header b l i n o) as [m1 o1]
    end. cbn [snd] in H1.
    match goal with
    | |- context [write_int ?b ?l ?v ?o] =>
        pose proof (write_int_below b l v o H1 Hl') as H2;
        destruct (write_int b l v o) as [m2 o2]
    end. cbn [snd] in H2.
    match goal with
    | |- context [write_string ?b ?l ?v ?o] =>
        pose proof (write_string_below b l o v H2 Hl Hs) as H3;
        destruct (write_string b l v o) as [m3 o3]
    end. cbn [snd] in H3.
    apply length_write_message. exact H3.
  - unfold ldm_greeter_login_as_guest.
    match goal with
    | |- context [write_header ?b ?l ?i ?n ?o] =>
        pose proof (write_header_below b l i n o Hb Hl') as H1;
        destruct (write_header b l i n o) as [m1 o1]
    end. cbn [snd] in H1.
    match goal with
    | |- context [write_int ?b ?l ?v ?o] =>
        pose proof (write_int_below b l v o H1 Hl') as H2;
        destruct (write_int b l v o) as [m2 o2]
    end. cbn [snd] in H2.
    apply length_write_message. exact H2.
  - unfold ldm_greeter_respond.
    match goal with
    | |- context [write_header ?b ?l ?i ?n ?o] =>
        pose proof (write_header_below b l i n o Hb Hl') as H1;
        destruct (write_header b l i n o) as [m1 o1]
    end. cbn [snd] in H1.
    match goal with
    | |- context [write_int ?b ?l ?v ?o] =>
        pose proof (write_int_below b l v o H1 Hl') as H2;
        destruct (write_int b l v o) as [m2 o2]
    end. cbn [snd] in H2.
    match goal with
    | |- context [write_string ?b ?l ?v ?o] =>
        pose proof (write_string_below b l o v H2 Hl Hs) as H3;
        destruct (write_string b l v o) as [m3 o3]
    end. cbn [snd] in H3.
    apply length_write_message. exact H3.
  - unfold ldm_greeter_cancel_authentication.
    match goal with
    | |- context [write_header ?b ?l ?i ?n ?o] =>
        pose proof (write_header_below b l i n o Hb Hl') as H1;
        destruct (write_header b l i n o) as [m1 o1]
    end. cbn [snd] in H1.
    apply length_write_message. exact H1.
  - unfold ldm_greeter_start_session.
    replace (match value with Some s => s | None => EmptyString end)
      with (default EmptyString value) by (destruct value; reflexivity).
    match goal with
    | |- context [write_header ?b ?l ?i ?n ?o] =>
        pose proof (write_header_below b l i n o Hb Hl') as H1;
        destruct (write_header b l i n o) as [m1 o1]
    end. cbn [snd] in H1.
    match goal with
    | |- context [write_string ?b ?l ?v ?o] =>
        pose proof (write_string_below b l o v H1 Hl Hs) as H3;
        destruct (write_string b l v o) as [m3 o3]
    end. cbn [snd] in H3.
    apply length_write_message. exact H3.
Qed.

Lemma message_shorter_than_buffer_witness :
  Forall (fun greeter' => Z.of_nat (length (last_message greeter')) < MAX_MESSAGE_LENGTH)
         [ldm_greeter_login ldm_greeter_init (Some long_username);
          ldm_greeter_login_as_guest ldm_greeter_init;
          ldm_greeter_respond ldm_greeter_init (default EmptyString (Some long_username));
          ldm_greeter_cancel_authentication ldm_greeter_init;
          ldm_greeter_start_session ldm_greeter_init (Some long_username)].
Proof.
  apply (message_shorter_than_buffer ldm_greeter_init (Some long_username)).
  vm_compute. reflexivity.
Defined.

(** ** Connecting *)



(** ** Frames of the daemon *)

Lemma frame_fields (id : Z) (payload : list byte) :
  0 <= id < 2 ^ 32 -> Z.of_nat (length payload) < 2 ^ 32 ->
  packet_id (frame id payload) = id
  /\ packet_field (frame id payload) 4 = Z.of_nat (length payload)
  /\ complete_packet (frame id payload).
Proof.
  intros Hid Hlen.
  set (greeter := receive (frame id payload) ldm_greeter_init).
  assert (Hn : n_read (priv greeter) = 8 + Z.of_nat (length payload)).
  { subst greeter. cbn [receive with_priv priv set_read n_read].
    unfold frame. rewrite !length_app, !length_be32. lia. }
  assert (Hbuf : read_buffer (priv greeter) = frame id payload) by reflexivity.
  unfold frame in Hbuf.
  assert (H0 : packet_id (frame id payload) = id).
  { unfold packet_id, packet_field. fold greeter.
    rewrite (read_int_app greeter [] _ id 0 Hbuf) by (reflexivity || lia). reflexivity. }
  assert (H4 : packet_field (frame id payload) 4 = Z.of_nat (length payload)).
  { unfold packet_field. fold greeter.
    rewrite (read_int_app greeter (be32 id) payload (Z.of_nat (length payload)) 4 Hbuf)
      by (reflexivity || lia). reflexivity. }
  split; [exact H0|]. split; [exact H4|].
  unfold complete_packet. rewrite H4. unfold HEADER_SIZE, frame.
  rewrite !length_app, !length_be32. lia.
Qed.

(** ** PROMPT_AUTHENTICATION, decoded *)

Lemma read_int_at_end (greeter : LdmGreeter) (offset : Z) :
  offset = n_read (priv greeter) -> read_int greeter offset = (0, offset, []).
Proof.
  intros ->. unfold read_int. rewrite Z.sub_diag. reflexivity.
Qed.

Lemma read_string_at_end (greeter : LdmGreeter) (offset : Z) :
  offset = n_read (priv greeter) -> 0 <= offset < 2 ^ 64 ->
  read_string greeter offset = (EmptyString, offset, []).
Proof.
  intros Hoff Hr. unfold read_string. rewrite read_int_at_end by assumption.
  subst offset. rewrite Z.sub_diag. cbn [usize Z.ltb Z.compare Z.modulo Z.div_eucl snd].
  change (usize 0 <? 0) with false. cbv iota.
  rewrite Z.add_0_r, usize_small by lia. reflexivity.
Qed.

Lemma prompt_messages_at_end (n : nat) (greeter : LdmGreeter) (offset : Z) :
  offset = n_read (priv greeter) -> 0 <= offset < 2 ^ 64 ->
  prompt_messages n greeter offset = (greeter, offset).
Proof.
  intros Hoff Hr. induction n as [|n IH]; [reflexivity|].
  cbn [prompt_messages].
  rewrite read_int_at_end, read_string_at_end by assumption.
  exact IH.
Qed.

Lemma s32_style (style k : Z) :
  0 <= style < 2 ^ 32 -> 0 <= k < 2 ^ 31 -> (s32 style =? k) = (style =? k).
Proof.
  intros Hs Hk. destruct (Z.ltb_spec style (2 ^ 31)).
  - rewrite s32_small by lia. reflexivity.
  - assert (s32 style = style - 2 ^ 32) as ->.
    { unfold s32. replace (style + 2 ^ 31) with (style - 2 ^ 31 + 1 * 2 ^ 32) by lia.
      rewrite Z.mod_add, Z.mod_small by lia. lia. }
    destruct (Z.eqb_spec (style - 2 ^ 32) k), (Z.eqb_spec style k); lia || reflexivity.
Qed.

Lemma length_wire_prompt (message : Z * string) :
  Z.of_nat (length (wire_prompt message)) = 8 + strlen (snd message).
Proof.
  unfold wire_prompt. rewrite length_app, length_be32, Nat2Z.inj_add, length_wire_string. lia.
Qed.

Lemma prompt_messages_decode (messages : list (Z * string)) :
  forall (n : nat) (greeter : LdmGreeter) (pre : list byte),
    read_buffer (priv greeter) = pre ++ concat (map wire_prompt messages) ->
    n_read (priv greeter) = Z.of_nat (length (read_buffer (priv greeter))) ->
    n_read (priv greeter) < 2 ^ 32 ->
    Forall prompt_ok messages ->
    let greeter' := fst (prompt_messages n greeter (Z.of_nat (length pre))) in
    priv greeter' = priv greeter
    /\ emitted greeter'
       = emitted greeter
         ++ map (fun s => mkEmission s (priv greeter)) (omap prompt_signal (take n messages)).
Proof.
  induction messages as [|[style text] rest IH]; intros n greeter pre Hbuf Hn Hsmall Hok.
  - cbv zeta. rewrite prompt_messages_at_end.
    + rewrite take_nil. cbn. rewrite app_nil_r. auto.
    + rewrite Hn, Hbuf. cbn. rewrite app_nil_r. reflexivity.
    + rewrite Hbuf in Hn. cbn in Hn. rewrite app_nil_r in Hn. lia.
  - destruct n as [|n]; [cbn; rewrite app_nil_r; auto|].
    apply Forall_cons in Hok. destruct Hok as [[Hstyle Hnul] Hok]. cbn [fst snd] in Hstyle, Hnul.
    assert (Hlen : Z.of_nat (length pre) + 4 + 4 + strlen text
                   + Z.of_nat (length (concat (map wire_prompt rest)))
                   = n_read (priv greeter)).
    { rewrite Hn, Hbuf. cbn [map concat].
      pose proof (length_wire_prompt (style, text)) as Hw. cbn [snd] in Hw.
      rewrite !length_app. lia. }
    pose proof (strlen_nonneg text) as Hs.
    cbn [map concat] in Hbuf. unfold wire_prompt at 1 in Hbuf. cbn [fst snd] in Hbuf.
    cbv zeta. cbn [prompt_messages].
    rewrite (read_int_app greeter pre (wire_string text ++ concat (map wire_prompt rest))
               style (Z.of_nat (length pre)))
      by (reflexivity || lia || (rewrite Hbuf, <- !app_assoc; reflexivity)).
    pose proof (read_string_app greeter (pre ++ be32 style) (c_bytes text)
                  (concat (map wire_prompt rest)) (Z.of_nat (length pre) + 4)) as Hstr.
    destruct (read_string greeter (Z.of_nat (length pre) + 4)) as [[msg offset] loads].
    cbn [fst] in Hstr.
    assert (Hv : (msg, offset) = (c_string (c_bytes text),
                                  Z.of_nat (length pre) + 4 + 4 + Z.of_nat (length (c_bytes text)))).
    { apply Hstr.
      - rewrite Hbuf. unfold wire_string, strlen. rewrite <- !app_assoc. reflexivity.
      - rewrite length_app, length_be32. lia.
      - unfold strlen in *. lia.
      - unfold strlen in *. lia. }
    injection Hv as -> ->. rewrite c_string_c_bytes by assumption.
    rewrite !s32_style by (assumption || (unfold PAM_PROMPT_ECHO_OFF, PAM_PROMPT_ECHO_ON,
                                            PAM_ERROR_MSG, PAM_TEXT_INFO; lia)).
    match goal with
    | |- context [prompt_messages n ?g ?o] =>
        specialize (IH n g (pre ++ wire_prompt (style, text)));
        replace o with (Z.of_nat (length (pre ++ wire_prompt (style, text))))
          by (pose proof (length_wire_prompt (style, text)) as Hw; cbn [snd] in Hw;
              rewrite length_app; unfold strlen in *; lia)
    end.
    cbv zeta in IH.
    assert (Hbuf' : read_buffer (priv greeter)
                    = (pre ++ wire_prompt (style, text)) ++ concat (map wire_prompt rest)).
    { rewrite Hbuf. unfold wire_prompt. cbn [fst snd]. rewrite <- !app_assoc. reflexivity. }
    cbn [take].
    change (omap prompt_signal ((style, text) :: take n rest))
      with (match prompt_signal (style, text) with
            | Some s => s :: omap prompt_signal (take n rest)
            | None => omap prompt_signal (take n rest)
            end).
    unfold prompt_signal at 1.
    destruct (style =? PAM_PROMPT_ECHO_OFF);
      [|destruct (style =? PAM_PROMPT_ECHO_ON);
        [|destruct (style =? PAM_ERROR_MSG); [|destruct (style =? PAM_TEXT_INFO)]]];
      (destruct IH as [IHp IHe]; [assumption..|]);
      rewrite IHp, IHe; cbn [g_signal_emit priv emitted map app option_bind];
      rewrite <- ?app_assoc; auto.
Qed.

(** X10: a PROMPT_AUTHENTICATION packet for the current attempt, with no
    cancel pending, raises one signal for each of its first
    [n_messages] messages, in the order of the packet: a secret or an
    open prompt, an error or an information message by the PAM style,
    and nothing for any other style.  A count beyond the messages the
    packet holds adds nothing.  The session and the hints stay as they
    are. *)
Theorem prompt_authentication_decodes (greeter : LdmGreeter) (n_messages : Z)
    (messages : list (Z * string)) :
  let sequence_number := authenticate_sequence_number (priv greeter) in
  let packet := prompt_frame sequence_number n_messages messages in
  0 <= sequence_number < 2 ^ 32 ->
  0 <= n_messages < 2 ^ 32 ->
  Forall prompt_ok messages ->
  Z.of_nat (length packet) < 2 ^ 32 ->
  cancelling_authentication (priv greeter) = false ->
  exists greeter',
    from_server_cb packet greeter = Some greeter'
    /\ signals greeter'
       = signals greeter ++ omap prompt_signal (take (Z.to_nat n_messages) messages)
    /\ same_session (priv greeter') (priv greeter)
    /\ hints (priv greeter') = hints (priv greeter).
Proof.
  intros sequence_number packet Hseq Hcount Hok Hlen Hcancel.
  set (body := concat (map wire_prompt messages)).
  set (payload := be32 sequence_number ++ be32 n_messages ++ body).
  assert (Hpacket : packet = be32 SERVER_MESSAGE_PROMPT_AUTHENTICATION
                             ++ be32 (Z.of_nat (length payload)) ++ payload) by reflexivity.
  assert (Hpl : Z.of_nat (length packet) = 8 + Z.of_nat (length payload))
    by (rewrite Hpacket, !length_app, !length_be32; lia).
  assert (Hpayload : Z.of_nat (length payload) = 8 + Z.of_nat (length body))
    by (unfold payload; rewrite !length_app, !length_be32; lia).
  destruct (frame_fields SERVER_MESSAGE_PROMPT_AUTHENTICATION payload) as (Hid & Hfl & Hc);
    [unfold SERVER_MESSAGE_PROMPT_AUTHENTICATION; lia|lia|].
  change (frame SERVER_MESSAGE_PROMPT_AUTHENTICATION payload) with packet in Hid, Hfl, Hc.
  rewrite (from_server_cb_complete packet greeter Hc), Hid.
  change (SERVER_MESSAGE_PROMPT_AUTHENTICATION =? SERVER_MESSAGE_CONNECTED) with false.
  change (SERVER_MESSAGE_PROMPT_AUTHENTICATION =? SERVER_MESSAGE_PROMPT_AUTHENTICATION) with true.
  cbv iota zeta.
  set (g := receive packet greeter).
  assert (Hbuf : read_buffer (priv g) = packet) by reflexivity.
  assert (Hn : n_read (priv g) = Z.of_nat (length (read_buffer (priv g)))) by reflexivity.
  assert (Hpriv : priv g = set_read packet (Z.of_nat (length packet)) (priv greeter))
    by reflexivity.
  unfold handle_prompt_authentication.
  rewrite (read_int_app g (be32 SERVER_MESSAGE_PROMPT_AUTHENTICATION
                           ++ be32 (Z.of_nat (length payload)))
             (be32 n_messages ++ body) sequence_number 8)
    by (reflexivity || (rewrite ?Hn, ?Hbuf; lia)
        || (rewrite Hbuf, Hpacket; unfold payload; rewrite <- !app_assoc; reflexivity)).
  replace (authenticate_sequence_number (priv g)) with sequence_number by reflexivity.
  replace (sequence_number =? sequence_number) with true by (symmetry; apply Z.eqb_refl).
  cbn [negb].
  replace (cancelling_authentication (priv g)) with false by (symmetry; exact Hcancel).
  rewrite (read_int_app g (be32 SERVER_MESSAGE_PROMPT_AUTHENTICATION
                           ++ be32 (Z.of_nat (length payload)) ++ be32 sequence_number)
             body n_messages (8 + 4))
    by (reflexivity || (rewrite ?Hn, ?Hbuf; lia)
        || (rewrite Hbuf, Hpacket; unfold payload; rewrite <- !app_assoc; reflexivity)).
  destruct (prompt_messages_decode messages (Z.to_nat n_messages) g
              (be32 SERVER_MESSAGE_PROMPT_AUTHENTICATION ++ be32 (Z.of_nat (length payload))
               ++ be32 sequence_number ++ be32 n_messages)) as [Hp He].
  { rewrite Hbuf, Hpacket. unfold payload, body. rewrite <- !app_assoc. reflexivity. }
  { exact Hn. }
  { rewrite Hn, Hbuf. exact Hlen. }
  { exact Hok. }
  change (Z.of_nat (length (be32 SERVER_MESSAGE_PROMPT_AUTHENTICATION
                            ++ be32 (Z.of_nat (length payload))
                            ++ be32 sequence_number ++ be32 n_messages)))
    with (8 + 4 + 4) in Hp, He.
  eexists. split; [reflexivity|].
  cbn [fmap option_fmap option_map with_priv priv emitted].
  split; [|split].
  - unfold signals. cbn [emitted with_priv]. rewrite He, map_app, map_map. cbn [signal].
    rewrite map_id. reflexivity.
  - rewrite Hp, Hpriv. repeat split.
  - rewrite Hp, Hpriv. reflexivity.
Qed.

Lemma prompt_authentication_decodes_witness :
  exists greeter',
    from_server_cb
      (prompt_frame 1 3 [(PAM_TEXT_INFO, "Welcome"%string); (7, "ignored"%string);
                         (PAM_PROMPT_ECHO_OFF, "Password: "%string)])
      (ldm_greeter_login ldm_greeter_init (Some "bob"%string)) = Some greeter'
    /\ signals greeter'
       = signals (ldm_greeter_login ldm_greeter_init (Some "bob"%string))
         ++ omap prompt_signal
              (take (Z.to_nat 3) [(PAM_TEXT_INFO, "Welcome"%string); (7, "ignored"%string);
                                  (PAM_PROMPT_ECHO_OFF, "Password: "%string)])
    /\ same_session (priv greeter') (priv (ldm_greeter_login ldm_greeter_init (Some "bob"%string)))
    /\ hints (priv greeter') = hints (priv (ldm_greeter_login ldm_greeter_init (Some "bob"%string))).
Proof.
  apply (prompt_authentication_decodes (ldm_greeter_login ldm_greeter_init (Some "bob"%string)) 3
           [(PAM_TEXT_INFO, "Welcome"%string); (7, "ignored"%string);
            (PAM_PROMPT_ECHO_OFF, "Password: "%string)]).
  - vm_compute. split; [discriminate|reflexivity].
  - lia.
  - repeat constructor; vm_compute; try discriminate; try reflexivity.
  - vm_compute. reflexivity.
  - reflexivity.
Defined.

(** ** CONNECTED, decoded *)

Lemma with_priv_set_hints_id (greeter : LdmGreeter) :
  with_priv (set_hints (hints (priv greeter))) greeter = greeter.
Proof. destruct greeter as [[] ? ? ? ?]. reflexivity. Qed.

Lemma length_wire_hint (hint : string * string) :
  Z.of_nat (length (wire_hint hint)) = 8 + strlen (fst hint) + strlen (snd hint).
Proof.
  unfold wire_hint. rewrite length_app, Nat2Z.inj_add, !length_wire_string. lia.
Qed.

Lemma strlen_positive (value : string) :
  nul_free value -> value <> EmptyString -> 0 < strlen value.
Proof.
  intros Hnul Hne. unfold strlen. rewrite c_bytes_nul_free by assumption.
  destruct value; [congruence|]. cbn. lia.
Qed.

Lemma length_wire_hints (pairs : list (string * string)) :
  Z.of_nat (length pairs) <= Z.of_nat (length (concat (map wire_hint pairs))).
Proof.
  induction pairs as [|hint rest IH]; [reflexivity|].
  cbn [map concat length]. rewrite length_app.
  pose proof (length_wire_hint hint). pose proof (strlen_nonneg (fst hint)).
  pose proof (strlen_nonneg (snd hint)). lia.
Qed.

(** The loop of [handle_connected] compares the offset, counted from
    the start of the packet, with the length of the payload: it stops
    8 bytes before the end of the packet or later, so that up to 8
    bytes after the last hint, [tail], are not read. *)
Lemma read_hints_decode (pairs : list (string * string)) (tail : list byte) :
  forall (fuel : nat) (greeter : LdmGreeter) (pre : list byte) (len : Z),
    read_buffer (priv greeter) = pre ++ concat (map wire_hint pairs) ++ tail ->
    (length tail <= 8)%nat ->
    n_read (priv greeter) = Z.of_nat (length (read_buffer (priv greeter))) ->
    n_read (priv greeter) < 2 ^ 32 ->
    len = n_read (priv greeter) - HEADER_SIZE ->
    Forall hint_ok pairs ->
    (length pairs <= fuel)%nat ->
    read_hints fuel greeter len (Z.of_nat (length pre))
    = Some (with_priv (set_hints (fold_left set_hint pairs (hints (priv greeter)))) greeter,
            n_read (priv greeter) - Z.of_nat (length tail)).
Proof.
  unfold HEADER_SIZE.
  induction pairs as [|[name value] rest IH];
    intros fuel greeter pre len Hbuf Htail Hn Hsmall Hlen Hok Hfuel.
  - assert (Hend : Z.of_nat (length pre) = n_read (priv greeter) - Z.of_nat (length tail))
      by (rewrite Hn, Hbuf; cbn; rewrite length_app; lia).
    cbn [fold_left]. rewrite with_priv_set_hints_id.
    destruct fuel; cbn [read_hints];
      (destruct (Z.ltb_spec (Z.of_nat (length pre)) len); [lia|]); cbn [negb];
      rewrite Hend; reflexivity.
  - apply Forall_cons in Hok. destruct Hok as [(Hname & Hvalue & Hne) Hok].
    cbn [fst snd] in Hname, Hvalue, Hne.
    pose proof (strlen_positive name Hname Hne) as Hpos.
    pose proof (strlen_nonneg value) as Hv0.
    pose proof (length_wire_hint (name, value)) as Hw. cbn [fst snd] in Hw.
    assert (Htotal : Z.of_nat (length pre) + Z.of_nat (length (wire_hint (name, value)))
                     + Z.of_nat (length (concat (map wire_hint rest)))
                     + Z.of_nat (length tail)
                     = n_read (priv greeter))
      by (rewrite Hn, Hbuf; cbn [map concat]; rewrite !length_app; lia).
    destruct fuel as [|fuel]; [cbn in Hfuel; lia|].
    cbn [read_hints].
    destruct (Z.ltb_spec (Z.of_nat (length pre)) len); [|lia]. cbn [negb].
    cbn [map concat] in Hbuf. unfold wire_hint at 1 in Hbuf. cbn [fst snd] in Hbuf.
    unfold wire_string in Hbuf at 1 2. unfold strlen in Hbuf.
    pose proof (read_string_app greeter pre (c_bytes name)
                  (be32 (Z.of_nat (length (c_bytes value))) ++ c_bytes value
                   ++ concat (map wire_hint rest) ++ tail)
                  (Z.of_nat (length pre))) as Hstr.
    destruct (read_string greeter (Z.of_nat (length pre))) as [[name' offset] loads].
    cbn [fst] in Hstr.
    assert (Hv : (name', offset) = (c_string (c_bytes name),
                                    Z.of_nat (length pre) + 4 + Z.of_nat (length (c_bytes name)))).
    { apply Hstr.
      - rewrite Hbuf, <- !app_assoc. reflexivity.
      - reflexivity.
      - unfold strlen in *. lia.
      - unfold strlen in *. lia. }
    injection Hv as -> ->. rewrite c_string_c_bytes by assumption. clear Hstr.
    pose proof (read_string_app greeter (pre ++ be32 (Z.of_nat (length (c_bytes name)))
                                         ++ c_bytes name)
                  (c_bytes value) (concat (map wire_hint rest) ++ tail)
                  (Z.of_nat (length pre) + 4 + Z.of_nat (length (c_bytes name)))) as Hstr.
    destruct (read_string greeter (Z.of_nat (length pre) + 4 + Z.of_nat (length (c_bytes name))))
      as [[value' offset] loads'].
    cbn [fst] in Hstr.
    assert (Hv : (value', offset)
                 = (c_string (c_bytes value),
                    Z.of_nat (length pre) + 4 + Z.of_nat (length (c_bytes name)) + 4
                    + Z.of_nat (length (c_bytes value)))).
    { apply Hstr.
      - rewrite Hbuf, <- !app_assoc. reflexivity.
      - rewrite !length_app, length_be32. lia.
      - unfold strlen in *. lia.
      - unfold strlen in *. lia. }
    injection Hv as -> ->. rewrite c_string_c_bytes by assumption. clear Hstr.
    match goal with
    | |- read_hints fuel ?g len ?o = _ =>
        specialize (IH fuel g (pre ++ wire_hint (name, value)) len);
        replace o with (Z.of_nat (length (pre ++ wire_hint (name, value))))
          by (rewrite length_app; unfold strlen in *; lia)
    end.
    rewrite IH.
    + reflexivity.
    + cbn [with_priv priv set_hints read_buffer]. rewrite Hbuf.
      unfold wire_hint, wire_string, strlen. cbn [fst snd]. rewrite <- !app_assoc. reflexivity.
    + exact Htail.
    + exact Hn.
    + exact Hsmall.
    + exact Hlen.
    + exact Hok.
    + cbn in Hfuel. lia.
Qed.

(** What [handle_connected] does with the table it has read. *)
Lemma from_server_cb_connected_frame (greeter : LdmGreeter) (version : string)
    (pairs : list (string * string)) (tail : list byte) :
  let packet :=
    frame SERVER_MESSAGE_CONNECTED
          (wire_string version ++ concat (map wire_hint pairs) ++ tail) in
  nul_free version -> Forall hint_ok pairs -> (length tail <= 8)%nat ->
  Z.of_nat (length packet) < 2 ^ 32 ->
  let loaded :=
    with_priv (set_hints (fold_left set_hint pairs (hints (priv greeter))))
              (receive packet greeter) in
  let timeout := ldm_greeter_get_autologin_timeout_hint loaded in
  let armed :=
    if timeout =? 0 then loaded
    else with_priv (set_login_timeout (Z.of_nat (length (timeouts greeter)) + 1))
                   (fst (g_timeout_add (u32 (s32 (timeout * 1000))) loaded)) in
  from_server_cb packet greeter
  = Some (with_priv (set_n_read 0) (g_signal_emit armed CONNECTED)).
Proof.
  intros packet Hversion Hok Htail Hlen loaded timeout armed.
  set (body := concat (map wire_hint pairs) ++ tail).
  set (payload := wire_string version ++ body).
  assert (Hpacket : packet = be32 SERVER_MESSAGE_CONNECTED
                             ++ be32 (Z.of_nat (length payload)) ++ payload) by reflexivity.
  assert (Hpl : Z.of_nat (length packet) = 8 + Z.of_nat (length payload))
    by (rewrite Hpacket, !length_app, !length_be32; lia).
  assert (Hpayload : Z.of_nat (length payload) = 4 + strlen version + Z.of_nat (length body))
    by (unfold payload; rewrite length_app, Nat2Z.inj_add, length_wire_string; lia).
  pose proof (strlen_nonneg version) as Hv0.
  destruct (frame_fields SERVER_MESSAGE_CONNECTED payload) as (Hid & Hfl & Hc);
    [unfold SERVER_MESSAGE_CONNECTED; lia|lia|].
  change (frame SERVER_MESSAGE_CONNECTED payload) with packet in Hid, Hfl, Hc.
  rewrite (from_server_cb_complete packet greeter Hc), Hid, Hfl.
  change (SERVER_MESSAGE_CONNECTED =? SERVER_MESSAGE_CONNECTED) with true.
  cbv iota zeta.
  set (g := receive packet greeter).
  assert (Hbuf : read_buffer (priv g) = packet) by reflexivity.
  assert (Hn : n_read (priv g) = Z.of_nat (length (read_buffer (priv g)))) by reflexivity.
  unfold handle_connected.
  pose proof (read_string_app g (be32 SERVER_MESSAGE_CONNECTED ++ be32 (Z.of_nat (length payload)))
                (c_bytes version) body 8) as Hstr.
  destruct (read_string g 8) as [[version' offset] loads].
  cbn [fst] in Hstr.
  assert (Hv : (version', offset) = (c_string (c_bytes version),
                                     8 + 4 + Z.of_nat (length (c_bytes version)))).
  { apply Hstr.
    - rewrite Hbuf, Hpacket. unfold payload, wire_string, strlen.
      rewrite <- !app_assoc. reflexivity.
    - reflexivity.
    - rewrite Hn, Hbuf. unfold strlen in *. lia.
    - unfold strlen in *. lia. }
  injection Hv as -> ->. clear Hstr.
  replace (8 + 4 + Z.of_nat (length (c_bytes version)))
    with (Z.of_nat (length (be32 SERVER_MESSAGE_CONNECTED ++ be32 (Z.of_nat (length payload))
                            ++ wire_string version)))
    by (rewrite !length_app, !length_be32; unfold wire_string;
        rewrite length_app, length_be32; lia).
  rewrite (read_hints_decode pairs tail (Z.to_nat (Z.of_nat (length payload))) g
             (be32 SERVER_MESSAGE_CONNECTED ++ be32 (Z.of_nat (length payload))
              ++ wire_string version) (Z.of_nat (length payload))).
  - reflexivity.
  - rewrite Hbuf, Hpacket. unfold payload, body. rewrite <- !app_assoc. reflexivity.
  - exact Htail.
  - exact Hn.
  - rewrite Hn, Hbuf. exact Hlen.
  - rewrite Hn, Hbuf. unfold HEADER_SIZE. lia.
  - exact Hok.
  - pose proof (length_wire_hints pairs) as Hp. unfold body in Hpayload.
    rewrite length_app in Hpayload. lia.
Qed.

Lemma fold_set_hint_absent (pairs : list (string * string)) (table : gmap string string)
    (name : string) :
  ~ In name (map fst pairs) -> fold_left set_hint pairs table !! name = table !! name.
Proof.
  revert table. induction pairs as [|[k v] rest IH]; intros table Hin; [reflexivity|].
  cbn [fold_left]. rewrite IH by (intros ?; apply Hin; right; assumption).
  unfold set_hint. cbn [fst snd]. apply lookup_insert_ne.
  intros ->. apply Hin. left. reflexivity.
Qed.

Lemma fold_set_hint_last (before after : list (string * string)) (table : gmap string string)
    (name value : string) :
  ~ In name (map fst after) ->
  fold_left set_hint (before ++ (name, value) :: after) table !! name = Some value.
Proof.
  intros Hin. rewrite fold_left_app. cbn [fold_left].
  rewrite fold_set_hint_absent by assumption.
  unfold set_hint at 1. cbn [fst snd]. apply lookup_insert_eq.
Qed.

(** X11: a CONNECTED packet, a version and (name, value) hints with
    names that are not empty, is decoded in full: every hint is stored,
    in the order of the packet, over the table as it was, so that
    [ldm_greeter_get_hint] returns for a name the value of the last
    hint of that name, and what it returned before for a name the
    packet does not hold.  The CONNECTED signal is raised once, when
    the table is complete; the authentication session is not touched. *)
Theorem connected_fills_hints (greeter : LdmGreeter) (version : string)
    (pairs : list (string * string)) :
  let packet := connected_frame version pairs in
  nul_free version -> Forall hint_ok pairs -> Z.of_nat (length packet) < 2 ^ 32 ->
  exists greeter' seen,
    from_server_cb packet greeter = Some greeter'
    /\ hints (priv greeter') = fold_left set_hint pairs (hints (priv greeter))
    /\ (forall name, ~ In name (map fst pairs) ->
                     ldm_greeter_get_hint greeter' name = ldm_greeter_get_hint greeter name)
    /\ (forall before name value after,
           pairs = before ++ (name, value) :: after -> ~ In name (map fst after) ->
           ldm_greeter_get_hint greeter' name = Some value)
    /\ emitted greeter' = emitted greeter ++ [mkEmission CONNECTED seen]
    /\ hints seen = hints (priv greeter')
    /\ same_session (priv greeter') (priv greeter).
Proof.
  intros packet Hversion Hok Hlen.
  pose proof (from_server_cb_connected_frame greeter version pairs [] Hversion Hok) as Hcb.
  cbv zeta in Hcb. rewrite app_nil_r in Hcb. fold (connected_frame version pairs) in Hcb.
  fold packet in Hcb. specialize (Hcb ltac:(cbn; lia) Hlen).
  set (table := fold_left set_hint pairs (hints (priv greeter))) in *.
  set (loaded := with_priv (set_hints table) (receive packet greeter)) in *.
  assert (Hres : exists greeter' seen,
             from_server_cb packet greeter = Some greeter'
             /\ hints (priv greeter') = table
             /\ emitted greeter' = emitted greeter ++ [mkEmission CONNECTED seen]
             /\ hints seen = table
             /\ same_session (priv greeter') (priv greeter)).
  { rewrite Hcb.
    destruct (ldm_greeter_get_autologin_timeout_hint loaded =? 0);
      eexists _, _; (split; [reflexivity|]); cbn; repeat split. }
  destruct Hres as (greeter' & seen & Hsome & Hhints & Hemit & Hseen & Hsession).
  exists greeter', seen. split; [exact Hsome|]. split; [exact Hhints|].
  split; [|split; [|split; [exact Hemit|split; [congruence|exact Hsession]]]].
  - intros name Hin. unfold ldm_greeter_get_hint. rewrite Hhints.
    apply fold_set_hint_absent. exact Hin.
  - intros before name value after -> Hin. unfold ldm_greeter_get_hint. rewrite Hhints.
    apply fold_set_hint_last. exact Hin.
Qed.

Lemma connected_fills_hints_witness :
  exists greeter' seen,
    from_server_cb (connected_frame "0.3.2" [("default-session", "gnome"); ("hide-users", "true");
                                              ("default-session", "kde")]%string)
                   ldm_greeter_init = Some greeter'
    /\ hints (priv greeter')
       = fold_left set_hint [("default-session", "gnome"); ("hide-users", "true");
                             ("default-session", "kde")]%string (hints (priv ldm_greeter_init))
    /\ (forall name, ~ In name (map fst [("default-session", "gnome"); ("hide-users", "true");
                                         ("default-session", "kde")]%string) ->
                     ldm_greeter_get_hint greeter' name
                     = ldm_greeter_get_hint ldm_greeter_init name)
    /\ (forall before name value after,
           [("default-session", "gnome"); ("hide-users", "true");
            ("default-session", "kde")]%string = before ++ (name, value) :: after ->
           ~ In name (map fst after) ->
           ldm_greeter_get_hint greeter' name = Some value)
    /\ emitted greeter' = emitted ldm_greeter_init ++ [mkEmission CONNECTED seen]
    /\ hints seen = hints (priv greeter')
    /\ same_session (priv greeter') (priv ldm_greeter_init).
Proof.
  apply (connected_fills_hints ldm_greeter_init "0.3.2"
           [("default-session", "gnome"); ("hide-users", "true");
            ("default-session", "kde")]%string).
  - unfold nul_free. cbn. repeat constructor; discriminate.
  - repeat constructor; cbn; try discriminate; repeat constructor; discriminate.
  - vm_compute. reflexivity.
Defined.

(** X12: the loop that reads the hints stops as soon as the offset,
    counted from the start of the packet, reaches the length of the
    payload, that is 8 bytes before the end of the packet: a last hint
    with an empty name and an empty value, 8 bytes on the wire, is not
    read and not stored. *)
Theorem connected_last_empty_hint_dropped (greeter : LdmGreeter) (version : string)
    (pairs : list (string * string)) :
  let packet := connected_frame version (pairs ++ [(EmptyString, EmptyString)]) in
  nul_free version -> Forall hint_ok pairs -> Z.of_nat (length packet) < 2 ^ 32 ->
  exists greeter',
    from_server_cb packet greeter = Some greeter'
    /\ hints (priv greeter') = fold_left set_hint pairs (hints (priv greeter))
    /\ ldm_greeter_get_hint greeter' EmptyString = ldm_greeter_get_hint greeter EmptyString.
Proof.
  intros packet Hversion Hok Hlen.
  pose proof (from_server_cb_connected_frame greeter version pairs
                (wire_hint (EmptyString, EmptyString)) Hversion Hok) as Hcb.
  cbv zeta in Hcb.
  assert (Hp : packet = frame SERVER_MESSAGE_CONNECTED
                          (wire_string version ++ concat (map wire_hint pairs)
                           ++ wire_hint (EmptyString, EmptyString))).
  { unfold packet, connected_frame. rewrite map_app, concat_app. cbn [map concat].
    rewrite app_nil_r. reflexivity. }
  rewrite <- Hp in Hcb. specialize (Hcb ltac:(cbn; lia) Hlen).
  set (table := fold_left set_hint pairs (hints (priv greeter))) in *.
  set (loaded := with_priv (set_hints table) (receive packet greeter)) in *.
  assert (Hres : exists greeter',
             from_server_cb packet greeter = Some greeter' /\ hints (priv greeter') = table).
  { rewrite Hcb.
    destruct (ldm_greeter_get_autologin_timeout_hint loaded =? 0);
      eexists; (split; [reflexivity|]); reflexivity. }
  destruct Hres as (greeter' & Hsome & Hhints).
  exists greeter'. split; [exact Hsome|]. split; [exact Hhints|].
  unfold ldm_greeter_get_hint. rewrite Hhints. apply fold_set_hint_absent.
  intros Hin. apply in_map_iff in Hin. destruct Hin as ([k v] & Hk & Hin).
  cbn [fst] in Hk. subst k.
  rewrite List.Forall_forall in Hok. destruct (Hok _ Hin) as (_ & _ & Hne).
  apply Hne. reflexivity.
Qed.

Lemma connected_last_empty_hint_dropped_witness :
  exists greeter',
    from_server_cb (connected_frame "0.3.2" ([("hide-users", "true")]%string
                                             ++ [(EmptyString, EmptyString)]))
                   ldm_greeter_init = Some greeter'
    /\ hints (priv greeter')
       = fold_left set_hint [("hide-users", "true")]%string (hints (priv ldm_greeter_init))
    /\ ldm_greeter_get_hint greeter' EmptyString
       = ldm_greeter_get_hint ldm_greeter_init EmptyString.
Proof.
  apply (connected_last_empty_hint_dropped ldm_greeter_init "0.3.2"
           [("hide-users", "true")]%string).
  - unfold nul_free. cbn. repeat constructor; discriminate.
  - repeat constructor; cbn; try discriminate; repeat constructor; discriminate.
  - vm_compute. reflexivity.
Defined.

(** X13: after the hints of a CONNECTED packet are stored, the autologin
    timer is started exactly when [ldm_greeter_get_autologin_timeout_hint]
    is not 0 for the new table: its interval is that number of seconds
    in milliseconds and its id is kept in [login_timeout].  A timer
    started for an earlier CONNECTED packet is left as it is. *)
Theorem connected_starts_autologin_timer (greeter : LdmGreeter) (version : string)
    (pairs : list (string * string)) :
  let packet := connected_frame version pairs in
  nul_free version -> Forall hint_ok pairs -> Z.of_nat (length packet) < 2 ^ 32 ->
  exists greeter',
    from_server_cb packet greeter = Some greeter'
    /\ let timeout := ldm_greeter_get_autologin_timeout_hint greeter' in
       (timeout = 0 ->
        timeouts greeter' = timeouts greeter
        /\ login_timeout (priv greeter') = login_timeout (priv greeter))
       /\ (0 < timeout -> timeout * 1000 < 2 ^ 31 ->
           timeouts greeter' = timeouts greeter ++ [timeout * 1000]
           /\ login_timeout (priv greeter') = Z.of_nat (length (timeouts greeter)) + 1).
Proof.
  intros packet Hversion Hok Hlen.
  pose proof (from_server_cb_connected_frame greeter version pairs [] Hversion Hok) as Hcb.
  cbv zeta in Hcb. rewrite app_nil_r in Hcb. fold (connected_frame version pairs) in Hcb.
  fold packet in Hcb. specialize (Hcb ltac:(cbn; lia) Hlen).
  set (table := fold_left set_hint pairs (hints (priv greeter))) in *.
  set (loaded := with_priv (set_hints table) (receive packet greeter)) in *.
  rewrite Hcb. clear Hcb.
  set (t := ldm_greeter_get_autologin_timeout_hint loaded).
  destruct (Z.eqb_spec t 0) as [Hz|Hnz].
  - eexists. split; [reflexivity|].
    change (ldm_greeter_get_autologin_timeout_hint
              (with_priv (set_n_read 0) (g_signal_emit loaded CONNECTED))) with t.
    cbv zeta. split; [intros _; split; reflexivity|]. lia.
  - eexists. split; [reflexivity|].
    change (ldm_greeter_get_autologin_timeout_hint
              (with_priv (set_n_read 0)
                 (g_signal_emit
                    (with_priv (set_login_timeout (Z.of_nat (length (timeouts greeter)) + 1))
                       (fst (g_timeout_add (u32 (s32 (t * 1000))) loaded))) CONNECTED)))
      with t.
    cbv zeta. split; [intros H0; contradiction|].
    intros Hpos Hsmall. cbn [timeouts login_timeout with_priv priv g_signal_emit g_timeout_add fst
                             set_n_read set_read set_login_timeout].
    rewrite s32_small, u32_small by lia. split; reflexivity.
Qed.

Lemma connected_starts_autologin_timer_witness :
  exists greeter',
    from_server_cb (connected_frame "0.3.2" [("default-session", "gnome");
                                              ("autologin-timeout", "5")]%string)
                   ldm_greeter_init = Some greeter'
    /\ let timeout := ldm_greeter_get_autologin_timeout_hint greeter' in
       (timeout = 0 ->
        timeouts greeter' = timeouts ldm_greeter_init
        /\ login_timeout (priv greeter') = login_timeout (priv ldm_greeter_init))
       /\ (0 < timeout -> timeout * 1000 < 2 ^ 31 ->
           timeouts greeter' = timeouts ldm_greeter_init ++ [timeout * 1000]
           /\ login_timeout (priv greeter')
              = Z.of_nat (length (timeouts ldm_greeter_init)) + 1).
Proof.
  apply (connected_starts_autologin_timer ldm_greeter_init "0.3.2"
           [("default-session", "gnome"); ("autologin-timeout", "5")]%string).
  - unfold nul_free. cbn. repeat constructor; discriminate.
  - repeat constructor; cbn; try discriminate; repeat constructor; discriminate.
  - vm_compute. reflexivity.
Defined.

(** ** The hint table after the handshake *)

(** C6, amended: once the hint table has been filled from the handshake,
    every later message other than a CONNECTED message leaves every hint
    key and value unchanged and adds no entry: after any sequence of
    such messages the table is the same.  A later CONNECTED message is
    handled like the first one: a well formed one, whose hint names are
    not empty, inserts its name/value pairs into the table in the order
    of the packet, a pair taking the place of the value the table held
    for its name, and leaves every other entry as it was. *)
Theorem hints_kept_by_later_messages (later : list (list byte)) (greeter : LdmGreeter)
    (version : string) (pairs : list (string * string)) :
  (Forall (fun packet => packet_id packet <> SERVER_MESSAGE_CONNECTED) later ->
   exists greeter', process later greeter = Some greeter'
                    /\ hints (priv greeter') = hints (priv greeter))
  /\ (nul_free version -> Forall hint_ok pairs ->
      Z.of_nat (length (connected_frame version pairs)) < 2 ^ 32 ->
      exists greeter',
        from_server_cb (connected_frame version pairs) greeter = Some greeter'
        /\ hints (priv greeter') = fold_left set_hint pairs (hints (priv greeter))
        /\ (forall name, ~ In name (map fst pairs) ->
                         hints (priv greeter') !! name = hints (priv greeter) !! name)
        /\ (forall before name value after,
              pairs = before ++ (name, value) :: after -> ~ In name (map fst after) ->
              hints (priv greeter') !! name = Some value)).
Proof.
  split.
  - intros Hlater. revert greeter.
    induction Hlater as [|packet later Hid _ IH]; intros greeter.
    + exists greeter. split; reflexivity.
    + destruct (from_server_cb_hints packet greeter Hid) as (g1 & E1 & H1).
      destruct (IH g1) as (g2 & E2 & H2).
      exists g2. cbn [process]. rewrite E1. split; [exact E2|congruence].
  - intros Hversion Hok Hlen.
    pose proof (from_server_cb_connected_frame greeter version pairs [] Hversion Hok) as Hcb.
    cbv zeta in Hcb. rewrite app_nil_r in Hcb. fold (connected_frame version pairs) in Hcb.
    specialize (Hcb ltac:(cbn; lia) Hlen).
    set (table := fold_left set_hint pairs (hints (priv greeter))) in *.
    assert (Hres : exists greeter',
               from_server_cb (connected_frame version pairs) greeter = Some greeter'
               /\ hints (priv greeter') = table).
    { rewrite Hcb.
      destruct (ldm_greeter_get_autologin_timeout_hint _ =? 0);
        eexists; (split; [reflexivity|]); reflexivity. }
    destruct Hres as (greeter' & Hsome & Hhints).
    exists greeter'. split; [exact Hsome|]. split; [exact Hhints|]. split.
    + intros name Hin. rewrite Hhints. apply fold_set_hint_absent. exact Hin.
    + intros before name value after -> Hin. rewrite Hhints.
      apply fold_set_hint_last. exact Hin.
Qed.

Lemma hints_kept_by_later_messages_witness :
  (exists greeter',
     process [prompt_packet 0; end_packet 0 0] after_handshake = Some greeter'
     /\ hints (priv greeter') = hints (priv after_handshake))
  /\ (exists greeter',
        from_server_cb (connected_frame "0.3.2" [("default-session", "kde")]%string)
                       after_handshake = Some greeter'
        /\ hints (priv greeter') !! "default-session"%string = Some "kde"%string).
Proof.
  destruct (hints_kept_by_later_messages [prompt_packet 0; end_packet 0 0] after_handshake
              "0.3.2" [("default-session", "kde")]%string) as [Hother Hconnected].
  split.
  - apply Hother. repeat constructor; vm_compute; discriminate.
  - destruct Hconnected as (greeter' & Hsome & _ & _ & Hlast).
    + unfold nul_free. cbn. repeat constructor; discriminate.
    + repeat constructor; cbn; try discriminate; repeat constructor; discriminate.
    + vm_compute. reflexivity.
    + exists greeter'. split; [exact Hsome|].
      apply (Hlast [] "default-session"%string "kde"%string []); [reflexivity|].
      intros [].
Defined.

(** ** The other messages of the daemon *)

(** X14: SESSION_FAILED and QUIT packets raise their signal, whatever
    their payload; a packet with any other id apart from CONNECTED,
    PROMPT_AUTHENTICATION and END_AUTHENTICATION is skipped.  None of
    them changes the session, the hints or the user list, and the
    greeter is ready for the next packet. *)
Theorem signal_only_messages (packet : list byte) (greeter : LdmGreeter) :
  complete_packet packet ->
  packet_id packet <> SERVER_MESSAGE_CONNECTED ->
  packet_id packet <> SERVER_MESSAGE_PROMPT_AUTHENTICATION ->
  packet_id packet <> SERVER_MESSAGE_END_AUTHENTICATION ->
  exists greeter',
    from_server_cb packet greeter = Some greeter'
    /\ signals greeter'
       = signals greeter
         ++ (if packet_id packet =? SERVER_MESSAGE_SESSION_FAILED then [SESSION_FAILED]
             else if packet_id packet =? SERVER_MESSAGE_QUIT then [QUIT]
             else [])
    /\ priv greeter' = set_read packet 0 (priv greeter)
    /\ heap greeter' = heap greeter
    /\ to_server greeter' = to_server greeter
    /\ timeouts greeter' = timeouts greeter.
Proof.
  intros Hc H0 H2 H3.
  rewrite (from_server_cb_complete packet greeter Hc). cbv zeta.
  destruct (Z.eqb_spec (packet_id packet) SERVER_MESSAGE_CONNECTED); [contradiction|].
  destruct (Z.eqb_spec (packet_id packet) SERVER_MESSAGE_PROMPT_AUTHENTICATION); [contradiction|].
  destruct (Z.eqb_spec (packet_id packet) SERVER_MESSAGE_END_AUTHENTICATION); [contradiction|].
  destruct (packet_id packet =? SERVER_MESSAGE_SESSION_FAILED);
    [|destruct (packet_id packet =? SERVER_MESSAGE_QUIT)];
    (eexists; split; [reflexivity|]);
    unfold signals; cbn; rewrite ?map_app, ?app_nil_r; repeat split.
Qed.

Lemma signal_only_messages_witness :
  exists greeter',
    from_server_cb (frame SERVER_MESSAGE_QUIT []) ldm_greeter_init = Some greeter'
    /\ signals greeter'
       = signals ldm_greeter_init
         ++ (if packet_id (frame SERVER_MESSAGE_QUIT []) =? SERVER_MESSAGE_SESSION_FAILED
             then [SESSION_FAILED]
             else if packet_id (frame SERVER_MESSAGE_QUIT []) =? SERVER_MESSAGE_QUIT then [QUIT]
             else [])
    /\ priv greeter' = set_read (frame SERVER_MESSAGE_QUIT []) 0 (priv ldm_greeter_init)
    /\ heap greeter' = heap ldm_greeter_init
    /\ to_server greeter' = to_server ldm_greeter_init
    /\ timeouts greeter' = timeouts ldm_greeter_init.
Proof.
  apply (signal_only_messages (frame SERVER_MESSAGE_QUIT []) ldm_greeter_init).
  - vm_compute. reflexivity.
  - vm_compute. discriminate.
  - vm_compute. discriminate.
  - vm_compute. discriminate.
Defined.

(** ** Invariants of the session *)

Lemma read_hints_session (fuel : nat) (greeter greeter' : LdmGreeter) (len offset offset' : Z) :
  read_hints fuel greeter len offset = Some (greeter', offset') ->
  same_session (priv greeter') (priv greeter).
Proof.
  revert greeter offset. induction fuel as [|fuel IH]; intros greeter offset H;
    cbn [read_hints] in H; destruct (negb (offset <? len)).
  - injection H as <- _. repeat split.
  - discriminate.
  - injection H as <- _. repeat split.
  - destruct (read_string greeter offset) as [[name offset1] loads1].
    destruct (read_string greeter offset1) as [[value offset2] loads2].
    apply IH in H. exact H.
Qed.

Lemma handle_connected_session (greeter greeter' : LdmGreeter) (len offset offset' : Z) :
  handle_connected greeter len offset = Some (greeter', offset') ->
  same_session (priv greeter') (priv greeter).
Proof.
  unfold handle_connected. intros H.
  destruct (read_string greeter offset) as [[version offset1] loads1].
  destruct (read_hints (Z.to_nat len) greeter len offset1) as [[g1 offset2]|] eqn:E;
    [|discriminate].
  apply read_hints_session in E.
  destruct (ldm_greeter_get_autologin_timeout_hint g1 =? 0);
    injection H as <- _; exact E.
Qed.

Lemma handle_end_authentication_session (greeter : LdmGreeter) (offset : Z) :
  let greeter' := fst (handle_end_authentication greeter offset) in
  greeter' = greeter
  \/ (in_authentication (priv greeter') = false
      /\ authenticate_sequence_number (priv greeter')
         = authenticate_sequence_number (priv greeter)).
Proof.
  cbv zeta. unfold handle_end_authentication.
  destruct (read_int greeter offset) as [[sequence_number offset1] loads1].
  destruct (read_int greeter offset1) as [[return_code offset2] loads2].
  destruct (negb (sequence_number =? authenticate_sequence_number (priv greeter)));
    [left; reflexivity|right].
  cbn. destruct (return_code =? 0); cbn; split; reflexivity.
Qed.

Lemma from_server_cb_session_ok (packet : list byte) (greeter greeter' : LdmGreeter) :
  from_server_cb packet greeter = Some greeter' ->
  session_ok (priv greeter) -> session_ok (priv greeter').
Proof.
  unfold from_server_cb, dispatch. set (g := receive packet greeter).
  assert (Hg : same_session (priv g) (priv greeter)) by (repeat split).
  destruct (read_int g 0) as [[id offset1] loads1].
  destruct (read_int g offset1) as [[len offset2] loads2].
  intros H [Hrange Hauth].
  assert (Hcase : exists g', greeter' = with_priv (set_n_read 0) g'
                             /\ (same_session (priv g') (priv g)
                                 \/ (in_authentication (priv g') = false
                                     /\ authenticate_sequence_number (priv g')
                                        = authenticate_sequence_number (priv g)))).
  { destruct (id =? SERVER_MESSAGE_CONNECTED).
    { destruct (handle_connected g len offset2) as [[g1 o1]|] eqn:E; [|discriminate].
      injection H as <-. exists g1. split; [reflexivity|left].
      apply handle_connected_session in E. exact E. }
    destruct (id =? SERVER_MESSAGE_PROMPT_AUTHENTICATION).
    { injection H as <-. eexists. split; [reflexivity|left].
      rewrite handle_prompt_authentication_priv. repeat split. }
    destruct (id =? SERVER_MESSAGE_END_AUTHENTICATION).
    { injection H as <-. eexists. split; [reflexivity|].
      destruct (handle_end_authentication_session g offset2) as [->|Hend];
        [left; repeat split|right; exact Hend]. }
    destruct (id =? SERVER_MESSAGE_SESSION_FAILED).
    { injection H as <-. eexists. split; [reflexivity|left]. repeat split. }
    destruct (id =? SERVER_MESSAGE_QUIT).
    { injection H as <-. eexists. split; [reflexivity|left]. repeat split. }
    injection H as <-. eexists. split; [reflexivity|left]. repeat split. }
  destruct Hcase as (g' & -> & Hcase).
  destruct Hg as (Hg1 & Hg2 & _ & _ & Hg5).
  unfold session_ok. cbn [with_priv priv set_n_read set_read authenticate_sequence_number
                          is_authenticated in_authentication].
  destruct Hcase as [(H1 & H2 & _ & _ & H5)|[H1 H5]].
  - rewrite H1, H2, H5, Hg1, Hg2, Hg5. split; assumption.
  - rewrite H1, H5, Hg5. split; [assumption|reflexivity].
Qed.

Lemma load_users_priv (sys : System) (greeter : LdmGreeter) :
  priv (load_users sys greeter)
  = set_users (ld_users (load_entries sys greeter)) (priv greeter).
Proof. rewrite load_users_spec. reflexivity. Qed.

Lemma reachable_session_ok (greeter : LdmGreeter) :
  reachable greeter -> session_ok (priv greeter).
Proof.
  induction 1 as [|g u _ [Hr Ha]|g _ [Hr Ha]|g _ [Hr Ha]|g r _ IH|g _ IH|g s _ IH|g _ IH|g _ IH _
                  |g packet g' _ IH _ Hcb|g sys _ IH|g sys ev _ IH _].
  - split; cbn; [lia|discriminate].
  - rewrite ldm_greeter_login_priv. split; cbn; [apply u32_range|discriminate].
  - unfold ldm_greeter_login_with_user_prompt. rewrite ldm_greeter_login_priv.
    split; cbn; [apply u32_range|discriminate].
  - rewrite ldm_greeter_login_as_guest_priv. split; cbn; [apply u32_range|discriminate].
  - unfold ldm_greeter_respond.
    repeat match goal with
           | |- context [let '(_, _) := ?x in _] => destruct x
           end.
    exact IH.
  - unfold ldm_greeter_cancel_authentication.
    repeat match goal with
           | |- context [let '(_, _) := ?x in _] => destruct x
           end.
    exact IH.
  - unfold ldm_greeter_start_session.
    repeat match goal with
           | |- context [let '(_, _) := ?x in _] => destruct x
           end.
    exact IH.
  - exact IH.
  - exact IH.
  - eapply from_server_cb_session_ok; eassumption.
  - unfold ldm_greeter_get_users, update_users. cbn [fst].
    destruct (have_users (priv g)); [exact IH|].
    cbn [with_priv priv]. rewrite load_users_priv. exact IH.
  - unfold passwd_changed_cb.
    destruct (ev =? G_FILE_MONITOR_EVENT_CHANGES_DONE_HINT); [|exact IH].
    rewrite load_users_priv. exact IH.
Qed.

(** X15: in every state the greeter gets into by calls of the
    application and packets of the daemon, the sequence number is a 32
    bit number, and a session that is authenticated is not in
    authentication: a result is only ever recorded by the end of an
    attempt, and every new attempt clears it. *)
Theorem session_invariant (greeter : LdmGreeter) :
  reachable greeter ->
  0 <= authenticate_sequence_number (priv greeter) < 2 ^ 32
  /\ (ldm_greeter_get_is_authenticated greeter = true ->
      ldm_greeter_get_in_authentication greeter = false).
Proof. intros H. exact (reachable_session_ok greeter H). Qed.

Lemma session_invariant_witness :
  0 <= authenticate_sequence_number
         (priv (ldm_greeter_login_as_guest (ldm_greeter_login ldm_greeter_init None))) < 2 ^ 32
  /\ (ldm_greeter_get_is_authenticated
        (ldm_greeter_login_as_guest (ldm_greeter_login ldm_greeter_init None)) = true ->
      ldm_greeter_get_in_authentication
        (ldm_greeter_login_as_guest (ldm_greeter_login ldm_greeter_init None)) = false).
Proof.
  apply (session_invariant (ldm_greeter_login_as_guest (ldm_greeter_login ldm_greeter_init None))).
  apply reachable_login_as_guest, reachable_login, reachable_init.
Defined.

(** X16: a new attempt supersedes the one before: once
    [ldm_greeter_login] or [ldm_greeter_login_as_guest] has returned, a
    PROMPT_AUTHENTICATION or END_AUTHENTICATION packet that carries the
    sequence number of the attempt before is dropped. *)
Theorem new_attempt_supersedes (call : LoginCall) (packet : list byte) (greeter : LdmGreeter) :
  0 <= authenticate_sequence_number (priv greeter) < 2 ^ 32 ->
  complete_packet packet ->
  packet_id packet = SERVER_MESSAGE_PROMPT_AUTHENTICATION
  \/ packet_id packet = SERVER_MESSAGE_END_AUTHENTICATION ->
  packet_sequence_number packet = authenticate_sequence_number (priv greeter) ->
  let current := login_call call greeter in
  exists greeter',
    from_server_cb packet current = Some greeter'
    /\ same_session (priv greeter') (priv current)
    /\ emitted greeter' = emitted current.
Proof.
  intros Hrange Hc Hid Hseq current.
  assert (Hnew : authenticate_sequence_number (priv current)
                 = u32 (authenticate_sequence_number (priv greeter) + 1)).
  { unfold current. destruct call as [username|]; cbn [login_call].
    - rewrite ldm_greeter_login_priv. reflexivity.
    - rewrite ldm_greeter_login_as_guest_priv. reflexivity. }
  assert (Hstale : packet_sequence_number packet <> authenticate_sequence_number (priv current)).
  { rewrite Hnew, Hseq. unfold u32.
    destruct (Z.eq_dec (authenticate_sequence_number (priv greeter) + 1) (2 ^ 32)) as [E|E].
    - rewrite E, Z.mod_same by lia. lia.
    - rewrite Z.mod_small by lia. lia. }
  rewrite (from_server_cb_complete packet current Hc). cbv zeta.
  unfold packet_sequence_number, packet_field in Hstale.
  rewrite (read_int_receive packet ldm_greeter_init current) in Hstale.
  destruct Hid as [-> | ->]; cbn [Z.eqb SERVER_MESSAGE_CONNECTED
    SERVER_MESSAGE_PROMPT_AUTHENTICATION SERVER_MESSAGE_END_AUTHENTICATION Pos.eqb].
  - rewrite handle_prompt_authentication_stale by exact Hstale.
    eexists. split; [reflexivity|]. split; [repeat split|reflexivity].
  - rewrite handle_end_authentication_stale by exact Hstale.
    eexists. split; [reflexivity|]. split; [repeat split|reflexivity].
Qed.

Lemma new_attempt_supersedes_witness :
  exists greeter',
    from_server_cb (end_packet 1 0)
                   (login_call LoginAsGuest (ldm_greeter_login ldm_greeter_init (Some "bob"%string)))
    = Some greeter'
    /\ same_session (priv greeter')
                    (priv (login_call LoginAsGuest
                             (ldm_greeter_login ldm_greeter_init (Some "bob"%string))))
    /\ emitted greeter'
       = emitted (login_call LoginAsGuest
                    (ldm_greeter_login ldm_greeter_init (Some "bob"%string))).
Proof.
  apply (new_attempt_supersedes LoginAsGuest (end_packet 1 0)
           (ldm_greeter_login ldm_greeter_init (Some "bob"%string))).
  - vm_compute. split; [discriminate|reflexivity].
  - vm_compute. reflexivity.
  - right. vm_compute. reflexivity.
  - vm_compute. reflexivity.
Defined.

(** ** The hint getters *)

Lemma g_strcmp0_true (value : option string) :
  (g_strcmp0 value (Some "true"%string) =? 0) = true <-> value = Some "true"%string.
Proof.
  destruct value as [v|]; cbn [g_strcmp0].
  - rewrite strcmp_eqb, String.eqb_eq. split; congruence.
  - split; discriminate.
Qed.

Lemma s32_range (z : Z) : - 2 ^ 31 <= s32 z < 2 ^ 31.
Proof. unfold s32. pose proof (Z.mod_pos_bound (z + 2 ^ 31) (2 ^ 32)). lia. Qed.

Lemma atoi_range (s : string) : - 2 ^ 31 <= atoi s < 2 ^ 31.
Proof. unfold atoi. apply s32_range. Qed.

(** X17: the hint getters read the table of the last CONNECTED packets:
    the string getters return the value stored under their name, NULL
    when there is none; a boolean getter is TRUE exactly when the
    value stored is the four characters of the word true, FALSE for
    any other value and for a missing hint; the autologin timeout is
    never negative and is 0 for a missing hint. *)
Theorem hint_getters (greeter : LdmGreeter) :
  let table := hints (priv greeter) in
  ldm_greeter_get_default_session_hint greeter = table !! "default-session"%string
  /\ ldm_greeter_get_select_user_hint greeter = table !! "select-user"%string
  /\ ldm_greeter_get_autologin_user_hint greeter = table !! "autologin-user"%string
  /\ (ldm_greeter_get_hide_users_hint greeter = true
      <-> table !! "hide-users"%string = Some "true"%string)
  /\ (ldm_greeter_get_has_guest_account_hint greeter = true
      <-> table !! "has-guest-account"%string = Some "true"%string)
  /\ (ldm_greeter_get_select_guest_hint greeter = true
      <-> table !! "select-guest"%string = Some "true"%string)
  /\ (ldm_greeter_get_autologin_guest_hint greeter = true
      <-> table !! "autologin-guest"%string = Some "true"%string)
  /\ 0 <= ldm_greeter_get_autologin_timeout_hint greeter < 2 ^ 31
  /\ (table !! "autologin-timeout"%string = None ->
      ldm_greeter_get_autologin_timeout_hint greeter = 0).
Proof.
  cbv zeta.
  split; [reflexivity|]. split; [reflexivity|]. split; [reflexivity|].
  split; [apply g_strcmp0_true|]. split; [apply g_strcmp0_true|].
  split; [apply g_strcmp0_true|]. split; [apply g_strcmp0_true|].
  unfold ldm_greeter_get_autologin_timeout_hint, ldm_greeter_get_hint. split.
  - destruct (hints (priv greeter) !! "autologin-timeout"%string) as [v|].
    + pose proof (atoi_range v). destruct (Z.ltb_spec (atoi v) 0); lia.
    + cbn. lia.
  - intros ->. reflexivity.
Qed.

Lemma hint_getters_witness :
  ldm_greeter_get_autologin_timeout_hint ldm_greeter_init = 0.
Proof.
  apply (hint_getters ldm_greeter_init). reflexivity.
Defined.

(** ** Only the bytes received are read *)

Lemma peek_take (buffer : list byte) (n : nat) (i : Z) :
  0 <= i -> (Z.to_nat i < n)%nat -> peek (take n buffer) i = peek buffer i.
Proof.
  intros Hi Hlt. unfold peek. rewrite !nth_lookup, lookup_take_lt by lia. reflexivity.
Qed.

Lemma read_int_received (a b : LdmGreeter) (offset : Z) :
  n_read (priv a) = n_read (priv b) ->
  received_bytes a = received_bytes b ->
  0 <= offset <= n_read (priv a) -> n_read (priv a) < 2 ^ 64 ->
  read_int a offset = read_int b offset.
Proof.
  intros Hn Hrec Hoff Hsmall. unfold read_int. rewrite <- Hn.
  rewrite usize_small by lia. unfold int_length.
  destruct (Z.ltb_spec (n_read (priv a) - offset) 4); [reflexivity|].
  unfold received_bytes in Hrec. rewrite <- Hn in Hrec.
  assert (Hpeek : forall i, 0 <= i < 4 ->
            peek (read_buffer (priv a)) (offset + i) = peek (read_buffer (priv b)) (offset + i)).
  { intros i Hi.
    rewrite <- (peek_take (read_buffer (priv a)) (Z.to_nat (n_read (priv a)))) by lia.
    rewrite <- (peek_take (read_buffer (priv b)) (Z.to_nat (n_read (priv a)))) by lia.
    rewrite Hrec. reflexivity. }
  rewrite !Hpeek by lia. reflexivity.
Qed.

Lemma take_drop_take {A : Type} (l : list A) (n m k : nat) :
  (m + k <= n)%nat -> take k (drop m (take n l)) = take k (drop m l).
Proof.
  intros H. rewrite !take_drop_commute, take_take.
  replace (Nat.min (m + k) n) with (m + k)%nat by lia. reflexivity.
Qed.

Lemma read_string_received (a b : LdmGreeter) (offset : Z) :
  n_read (priv a) = n_read (priv b) ->
  received_bytes a = received_bytes b ->
  0 <= offset <= n_read (priv a) -> n_read (priv a) < 2 ^ 64 ->
  read_string a offset = read_string b offset.
Proof.
  intros Hn Hrec Hoff Hsmall. unfold read_string.
  rewrite <- (read_int_received a b offset Hn Hrec Hoff Hsmall).
  destruct (read_int_cases a offset Hoff Hsmall) as [[_ ->]|[Hrem (len & Hlen & ->)]].
  - rewrite <- Hn. rewrite usize_small by lia.
    destruct (Z.ltb_spec (n_read (priv a) - offset) 0); [reflexivity|].
    cbn [Z.to_nat take]. reflexivity.
  - unfold remaining in Hrem. rewrite <- Hn. rewrite usize_small by lia.
    destruct (Z.ltb_spec (n_read (priv a) - (offset + 4)) len); [reflexivity|].
    unfold received_bytes in Hrec. rewrite <- Hn in Hrec.
    rewrite <- (take_drop_take (read_buffer (priv a)) (Z.to_nat (n_read (priv a)))) by lia.
    rewrite <- (take_drop_take (read_buffer (priv b)) (Z.to_nat (n_read (priv a)))) by lia.
    rewrite Hrec. reflexivity.
Qed.

Lemma set_read_forget (p : LdmGreeterPrivate) :
  set_read (read_buffer p) (n_read p) (forget_read p) = p.
Proof. destruct p. reflexivity. Qed.

Lemma observable_inv (a b : LdmGreeter) :
  observable a = observable b ->
  forget_read (priv a) = forget_read (priv b)
  /\ heap a = heap b /\ to_server a = to_server b /\ timeouts a = timeouts b
  /\ map (fun e => mkEmission (signal e) (forget_read (seen e))) (emitted a)
     = map (fun e => mkEmission (signal e) (forget_read (seen e))) (emitted b).
Proof.
  intros H. repeat split.
  - apply (f_equal priv) in H. exact H.
  - apply (f_equal heap) in H. exact H.
  - apply (f_equal to_server) in H. exact H.
  - apply (f_equal timeouts) in H. exact H.
  - apply (f_equal emitted) in H. exact H.
Qed.

Lemma same_received_emit (a b : LdmGreeter) (s : Signal) :
  same_received a b -> same_received (g_signal_emit a s) (g_signal_emit b s).
Proof.
  intros (Hobs & Hn & Hrec). split; [|split; assumption].
  apply observable_inv in Hobs as (Hp & Hh & Hs & Ht & He).
  unfold observable. cbn [g_signal_emit priv heap to_server timeouts emitted].
  rewrite !map_app. cbn [map signal seen]. rewrite Hp, Hh, Hs, Ht, He. reflexivity.
Qed.

Lemma same_received_with_priv (f : LdmGreeterPrivate -> LdmGreeterPrivate) (a b : LdmGreeter) :
  (forall buffer n p, f (set_read buffer n p) = set_read buffer n (f p)) ->
  same_received a b -> same_received (with_priv f a) (with_priv f b).
Proof.
  intros Hf (Hobs & Hn & Hrec).
  assert (Ha : f (priv a) = set_read (read_buffer (priv a)) (n_read (priv a))
                                     (f (forget_read (priv a))))
    by (rewrite <- Hf, set_read_forget; reflexivity).
  assert (Hb : f (priv b) = set_read (read_buffer (priv b)) (n_read (priv b))
                                     (f (forget_read (priv b))))
    by (rewrite <- Hf, set_read_forget; reflexivity).
  apply observable_inv in Hobs as (Hp & Hh & Hs & Ht & He).
  unfold same_received, observable, received_bytes.
  cbn [with_priv priv heap to_server timeouts emitted].
  rewrite Ha, Hb, Hp, Hh, Hs, Ht, He. cbn [set_read n_read read_buffer forget_read].
  split; [reflexivity|]. split; [exact Hn|exact Hrec].
Qed.

Lemma read_int_bounds (greeter : LdmGreeter) (offset : Z) :
  0 <= offset <= n_read (priv greeter) -> n_read (priv greeter) < 2 ^ 64 ->
  offset <= snd (fst (read_int greeter offset)) <= n_read (priv greeter).
Proof.
  intros Hoff Hsmall.
  destruct (read_int_cases greeter offset Hoff Hsmall) as [[_ ->]|[Hrem (v & _ & ->)]];
    unfold remaining in *; cbn [fst snd]; lia.
Qed.

Lemma prompt_messages_received (n : nat) :
  forall (a b : LdmGreeter) (offset : Z),
    same_received a b ->
    0 <= offset <= n_read (priv a) -> n_read (priv a) < 2 ^ 64 ->
    same_received (fst (prompt_messages n a offset)) (fst (prompt_messages n b offset))
    /\ snd (prompt_messages n a offset) = snd (prompt_messages n b offset).
Proof.
  induction n as [|n IH]; intros a b offset Hab Hoff Hsmall; [split; [exact Hab|reflexivity]|].
  cbn [prompt_messages].
  destruct Hab as (Hobs & Hn & Hrec).
  rewrite <- (read_int_received a b offset Hn Hrec Hoff Hsmall).
  pose proof (read_int_bounds a offset Hoff Hsmall) as Hb1.
  destruct (read_int a offset) as [[style offset1] loads1]. cbn [fst snd] in Hb1.
  rewrite <- (read_string_received a b offset1 Hn Hrec) by lia.
  pose proof (read_string_bounds a offset1) as Hb2. cbv zeta in Hb2.
  destruct (read_string a offset1) as [[msg offset2] loads2]. cbn [fst snd] in Hb2.
  assert (Hab : same_received a b) by (split; [|split]; assumption).
  assert (Hoff2 : 0 <= offset2 <= n_read (priv a)) by (destruct Hb2; lia).
  destruct (s32 style =? PAM_PROMPT_ECHO_OFF);
    [|destruct (s32 style =? PAM_PROMPT_ECHO_ON);
      [|destruct (s32 style =? PAM_ERROR_MSG); [|destruct (s32 style =? PAM_TEXT_INFO)]]];
    apply IH; try apply same_received_emit; assumption.
Qed.

Lemma read_hints_received (fuel : nat) :
  forall (a b : LdmGreeter) (len offset : Z),
    same_received a b ->
    0 <= offset <= n_read (priv a) -> n_read (priv a) < 2 ^ 64 ->
    match read_hints fuel a len offset, read_hints fuel b len offset with
    | Some (a', offset1), Some (b', offset2) => same_received a' b' /\ offset1 = offset2
    | None, None => True
    | _, _ => False
    end.
Proof.
  induction fuel as [|fuel IH]; intros a b len offset Hab Hoff Hsmall; cbn [read_hints];
    destruct (negb (offset <? len)); try (split; [exact Hab|reflexivity]); [exact I|].
  destruct Hab as (Hobs & Hn & Hrec).
  rewrite <- (read_string_received a b offset Hn Hrec Hoff Hsmall).
  pose proof (read_string_bounds a offset Hoff Hsmall) as Hb1. cbv zeta in Hb1.
  destruct (read_string a offset) as [[name offset1] loads1]. cbn [fst snd] in Hb1.
  rewrite <- (read_string_received a b offset1 Hn Hrec) by lia.
  pose proof (read_string_bounds a offset1) as Hb2. cbv zeta in Hb2.
  destruct (read_string a offset1) as [[value offset2] loads2]. cbn [fst snd] in Hb2.
  assert (Hab : same_received a b) by (split; [|split]; assumption).
  assert (Hstep : same_received
                    (with_priv (fun p => set_hints (<[name := value]> (hints p)) p) a)
                    (with_priv (fun p => set_hints (<[name := value]> (hints p)) p) b))
    by (apply same_received_with_priv; [reflexivity|exact Hab]).
  apply IH; [exact Hstep| |exact Hsmall].
  cbn [with_priv priv set_hints n_read]. destruct Hb2; lia.
Qed.

Lemma same_received_hints (a b : LdmGreeter) :
  same_received a b -> hints (priv a) = hints (priv b).
Proof.
  intros (Hobs & _ & _). apply observable_inv in Hobs as (Hp & _).
  apply (f_equal hints) in Hp. exact Hp.
Qed.

Lemma same_received_session (a b : LdmGreeter) :
  same_received a b -> same_session (priv a) (priv b).
Proof.
  intros (Hobs & _ & _). apply observable_inv in Hobs as (Hp & _).
  repeat split.
  - apply (f_equal in_authentication) in Hp. exact Hp.
  - apply (f_equal is_authenticated) in Hp. exact Hp.
  - apply (f_equal authentication_user) in Hp. exact Hp.
  - apply (f_equal cancelling_authentication) in Hp. exact Hp.
  - apply (f_equal authenticate_sequence_number) in Hp. exact Hp.
Qed.

Lemma same_received_timeouts (a b : LdmGreeter) :
  same_received a b -> timeouts a = timeouts b.
Proof.
  intros (Hobs & _ & _). apply observable_inv in Hobs as (_ & _ & _ & Ht & _). exact Ht.
Qed.

Lemma same_received_timeout_add (a b : LdmGreeter) (interval : Z) :
  same_received a b ->
  same_received (fst (g_timeout_add interval a)) (fst (g_timeout_add interval b))
  /\ snd (g_timeout_add interval a) = snd (g_timeout_add interval b).
Proof.
  intros Hab. pose proof (same_received_timeouts a b Hab) as Ht.
  destruct Hab as (Hobs & Hn & Hrec). unfold g_timeout_add. cbn [fst snd].
  split; [|rewrite Ht; reflexivity].
  split; [|split; assumption].
  apply observable_inv in Hobs as (Hp & Hh & Hs & _ & He).
  unfold observable. cbn [priv heap to_server timeouts emitted].
  rewrite Hp, Hh, Hs, Ht, He. reflexivity.
Qed.

Lemma handle_connected_received (a b : LdmGreeter) (len offset : Z) :
  same_received a b ->
  0 <= offset <= n_read (priv a) -> n_read (priv a) < 2 ^ 64 ->
  match handle_connected a len offset, handle_connected b len offset with
  | Some (a', _), Some (b', _) => same_received a' b'
  | None, None => True
  | _, _ => False
  end.
Proof.
  intros Hab Hoff Hsmall. unfold handle_connected.
  destruct Hab as (Hobs & Hn & Hrec).
  rewrite <- (read_string_received a b offset Hn Hrec Hoff Hsmall).
  pose proof (read_string_bounds a offset Hoff Hsmall) as Hb1. cbv zeta in Hb1.
  destruct (read_string a offset) as [[version offset1] loads1]. cbn [fst snd] in Hb1.
  assert (Hab : same_received a b) by (split; [|split]; assumption).
  pose proof (read_hints_received (Z.to_nat len) a b len offset1 Hab) as Hh.
  destruct (read_hints (Z.to_nat len) a len offset1) as [[a1 o1]|],
           (read_hints (Z.to_nat len) b len offset1) as [[b1 o2]|];
    try (apply Hh; [destruct Hb1; lia|exact Hsmall]).
  destruct Hh as [Hab1 _]; [destruct Hb1; lia|exact Hsmall|].
  assert (Ht : ldm_greeter_get_autologin_timeout_hint a1
               = ldm_greeter_get_autologin_timeout_hint b1).
  { unfold ldm_greeter_get_autologin_timeout_hint, ldm_greeter_get_hint.
    rewrite (same_received_hints a1 b1 Hab1). reflexivity. }
  rewrite <- Ht.
  destruct (ldm_greeter_get_autologin_timeout_hint a1 =? 0).
  - apply same_received_emit. exact Hab1.
  - destruct (same_received_timeout_add a1 b1
                (u32 (s32 (ldm_greeter_get_autologin_timeout_hint a1 * 1000))) Hab1)
      as [Hadd Hid].
    destruct (g_timeout_add _ a1) as [a2 ida], (g_timeout_add _ b1) as [b2 idb].
    cbn [fst snd] in Hadd, Hid. subst idb.
    apply same_received_emit, same_received_with_priv; [reflexivity|exact Hadd].
Qed.

Lemma handle_prompt_authentication_received (a b : LdmGreeter) (offset : Z) :
  same_received a b ->
  0 <= offset <= n_read (priv a) -> n_read (priv a) < 2 ^ 64 ->
  same_received (fst (handle_prompt_authentication a offset))
                (fst (handle_prompt_authentication b offset)).
Proof.
  intros Hab Hoff Hsmall. unfold handle_prompt_authentication.
  pose proof (same_received_session a b Hab) as (_ & _ & _ & Hcancel & Hseq).
  destruct Hab as (Hobs & Hn & Hrec).
  rewrite <- (read_int_received a b offset Hn Hrec Hoff Hsmall).
  pose proof (read_int_bounds a offset Hoff Hsmall) as Hb1.
  destruct (read_int a offset) as [[sequence_number offset1] loads1]. cbn [fst snd] in Hb1.
  assert (Hab : same_received a b) by (split; [|split]; assumption).
  rewrite <- Hseq, <- Hcancel.
  destruct (negb (sequence_number =? authenticate_sequence_number (priv a))); [exact Hab|].
  destruct (cancelling_authentication (priv a)); [exact Hab|].
  rewrite <- (read_int_received a b offset1 Hn Hrec) by lia.
  pose proof (read_int_bounds a offset1) as Hb2.
  destruct (read_int a offset1) as [[n_messages offset2] loads2]. cbn [fst snd] in Hb2.
  apply prompt_messages_received; [exact Hab| |exact Hsmall]. lia.
Qed.

Lemma handle_end_authentication_received (a b : LdmGreeter) (offset : Z) :
  same_received a b ->
  0 <= offset <= n_read (priv a) -> n_read (priv a) < 2 ^ 64 ->
  same_received (fst (handle_end_authentication a offset))
                (fst (handle_end_authentication b offset)).
Proof.
  intros Hab Hoff Hsmall. unfold handle_end_authentication.
  pose proof (same_received_session a b Hab) as (_ & _ & _ & _ & Hseq).
  destruct Hab as (Hobs & Hn & Hrec).
  rewrite <- (read_int_received a b offset Hn Hrec Hoff Hsmall).
  pose proof (read_int_bounds a offset Hoff Hsmall) as Hb1.
  destruct (read_int a offset) as [[sequence_number offset1] loads1]. cbn [fst snd] in Hb1.
  rewrite <- (read_int_received a b offset1 Hn Hrec) by lia.
  destruct (read_int a offset1) as [[return_code offset2] loads2].
  assert (Hab : same_received a b) by (split; [|split]; assumption).
  rewrite <- Hseq.
  destruct (negb (sequence_number =? authenticate_sequence_number (priv a))); [exact Hab|].
  cbn [fst].
  assert (H1 : same_received
                 (with_priv (set_is_authenticated (return_code =? 0))
                    (with_priv (set_cancelling_authentication false) a))
                 (with_priv (set_is_authenticated (return_code =? 0))
                    (with_priv (set_cancelling_authentication false) b)))
    by (do 2 (apply same_received_with_priv; [reflexivity|]); exact Hab).
  cbn [with_priv priv set_is_authenticated is_authenticated] in *.
  destruct (return_code =? 0); cbn [negb].
  - apply (same_received_with_priv (set_in_authentication false)); [reflexivity|].
    apply same_received_emit. exact H1.
  - apply (same_received_with_priv (set_in_authentication false)); [reflexivity|].
    apply same_received_emit.
    apply (same_received_with_priv (set_authentication_user None)) in H1; [|reflexivity].
    exact H1.
Qed.

Lemma same_received_observable (a b : LdmGreeter) :
  same_received a b ->
  observable (with_priv (set_n_read 0) a) = observable (with_priv (set_n_read 0) b).
Proof.
  intros (Hobs & _ & _). apply observable_inv in Hobs as (Hp & Hh & Hs & Ht & He).
  unfold observable. cbn [with_priv priv heap to_server timeouts emitted].
  rewrite Hh, Hs, Ht, He. f_equal.
  change (forget_read (set_n_read 0 (priv a))) with (forget_read (priv a)).
  change (forget_read (set_n_read 0 (priv b))) with (forget_read (priv b)).
  exact Hp.
Qed.

(** The dispatch of two greeters that have received the same bytes. *)
Lemma dispatch_received (a b : LdmGreeter) :
  same_received a b ->
  0 <= n_read (priv a) < 2 ^ 64 ->
  observable <$> dispatch a = observable <$> dispatch b.
Proof.
  intros Hab Hsmall. unfold dispatch.
  pose proof Hab as (Hobs & Hn & Hrec).
  rewrite <- (read_int_received a b 0 Hn Hrec) by lia.
  pose proof (read_int_bounds a 0) as Hb1.
  destruct (read_int a 0) as [[id offset1] loads1]. cbn [fst snd] in Hb1.
  rewrite <- (read_int_received a b offset1 Hn Hrec) by lia.
  pose proof (read_int_bounds a offset1) as Hb2.
  destruct (read_int a offset1) as [[len offset2] loads2]. cbn [fst snd] in Hb2.
  assert (Hoff2 : 0 <= offset2 <= n_read (priv a)) by lia.
  destruct (id =? SERVER_MESSAGE_CONNECTED).
  { pose proof (handle_connected_received a b len offset2 Hab Hoff2 ltac:(lia)) as Hc.
    destruct (handle_connected a len offset2) as [[a1 o1]|],
             (handle_connected b len offset2) as [[b1 o2]|]; try contradiction.
    - cbn. f_equal. apply same_received_observable. exact Hc.
    - reflexivity. }
  destruct (id =? SERVER_MESSAGE_PROMPT_AUTHENTICATION).
  { cbn. f_equal. apply same_received_observable.
    apply handle_prompt_authentication_received; [exact Hab|exact Hoff2|lia]. }
  destruct (id =? SERVER_MESSAGE_END_AUTHENTICATION).
  { cbn. f_equal. apply same_received_observable.
    apply handle_end_authentication_received; [exact Hab|exact Hoff2|lia]. }
  destruct (id =? SERVER_MESSAGE_SESSION_FAILED).
  { cbn. f_equal. apply same_received_observable. apply same_received_emit. exact Hab. }
  destruct (id =? SERVER_MESSAGE_QUIT).
  { cbn. f_equal. apply same_received_observable. apply same_received_emit. exact Hab. }
  cbn. f_equal. apply same_received_observable. exact Hab.
Qed.

(** ** Reading from the channel *)

Lemma pending_cons (status : GIOStatus) (ready : list byte) (channel : GIOChannel) :
  pending ((status, ready) :: channel)
  = match status with G_IO_STATUS_NORMAL => ready | _ => [] end ++ pending channel.
Proof. reflexivity. Qed.

(** One read: the bytes returned are the next bytes of the channel, at
    most [count] of them; a read that returns fewer than [count] bytes
    has used up one entry of the channel. *)
Lemma g_io_channel_read_chars_spec (channel : GIOChannel) (count : Z) :
  0 <= count ->
  let channel' := fst (fst (g_io_channel_read_chars channel count)) in
  let status := snd (fst (g_io_channel_read_chars channel count)) in
  let bytes := snd (g_io_channel_read_chars channel count) in
  pending channel = bytes ++ pending channel'
  /\ Z.of_nat (length bytes) <= count
  /\ (status <> G_IO_STATUS_NORMAL -> bytes = [])
  /\ (length channel' <= length channel)%nat
  /\ (channel = [] /\ status <> G_IO_STATUS_NORMAL
      \/ (length channel' < length channel)%nat
      \/ status = G_IO_STATUS_NORMAL /\ Z.of_nat (length bytes) = count).
Proof.
  intros Hcount. cbv zeta.
  destruct channel as [|[status ready] rest].
  - cbn. repeat split; try lia. left. split; [reflexivity|discriminate].
  - unfold g_io_channel_read_chars.
    destruct status; cbn [fst snd];
      try (rewrite pending_cons; cbn [app length]; repeat split; try lia; try reflexivity;
           right; left; lia).
    destruct (Nat.leb_spec (length ready) (Z.to_nat count)).
    + rewrite pending_cons, take_ge by lia. cbn [length].
      split; [reflexivity|]. split; [lia|]. split; [congruence|]. split; [lia|].
      right. left. lia.
    + rewrite !pending_cons, app_assoc, take_drop. cbn [length].
      split; [reflexivity|]. rewrite length_take.
      split; [lia|]. split; [congruence|]. split; [lia|].
      right. right. split; [reflexivity|lia].
Qed.

Lemma memcpy_received (buffer bytes : list byte) (n : Z) :
  0 <= n -> n + Z.of_nat (length bytes) <= Z.of_nat (length buffer) ->
  let buffer' := memcpy buffer n bytes (Z.of_nat (length bytes)) in
  length buffer' = length buffer
  /\ take (Z.to_nat (n + Z.of_nat (length bytes))) buffer' = take (Z.to_nat n) buffer ++ bytes.
Proof.
  intros Hn Hroom. cbv zeta. unfold memcpy.
  rewrite Nat2Z.id, take_ge by lia.
  split; [apply length_inserts|].
  destruct (split_at buffer (Z.to_nat n) (length bytes)) as (Hb & Hpre & Hmid); [lia|].
  rewrite Hb at 1.
  replace (Z.to_nat n) with (length (take (Z.to_nat n) buffer) + 0)%nat at 1 by lia.
  rewrite list_inserts_app_r, list_inserts_0_r by lia.
  rewrite app_assoc. apply take_app_length'.
  rewrite length_app, Hpre. lia.
Qed.

Lemma read_int_prefix (a b : LdmGreeter) (offset : Z) :
  0 <= offset ->
  offset + 4 <= n_read (priv a) < 2 ^ 64 ->
  offset + 4 <= n_read (priv b) < 2 ^ 64 ->
  take (Z.to_nat (offset + 4)) (read_buffer (priv a))
  = take (Z.to_nat (offset + 4)) (read_buffer (priv b)) ->
  read_int a offset = read_int b offset.
Proof.
  intros Hoff Ha Hb Htake. unfold read_int, int_length.
  rewrite !usize_small by lia.
  destruct (Z.ltb_spec (n_read (priv a) - offset) 4); [lia|].
  destruct (Z.ltb_spec (n_read (priv b) - offset) 4); [lia|].
  assert (Hpeek : forall i, 0 <= i < 4 ->
            peek (read_buffer (priv a)) (offset + i) = peek (read_buffer (priv b)) (offset + i)).
  { intros i Hi.
    rewrite <- (peek_take (read_buffer (priv a)) (Z.to_nat (offset + 4))) by lia.
    rewrite <- (peek_take (read_buffer (priv b)) (Z.to_nat (offset + 4))) by lia.
    rewrite Htake. reflexivity. }
  rewrite !Hpeek by lia. reflexivity.
Qed.

(** Once the header is received, the length it announces depends on
    the first 8 bytes received only. *)
Lemma get_packet_length_prefix (a b : LdmGreeter) :
  HEADER_SIZE <= n_read (priv a) < 2 ^ 64 ->
  HEADER_SIZE <= n_read (priv b) < 2 ^ 64 ->
  take 8 (received_bytes a) = take 8 (received_bytes b) ->
  get_packet_length a = get_packet_length b.
Proof.
  unfold HEADER_SIZE, received_bytes. intros Ha Hb Htake.
  rewrite !take_take in Htake.
  replace (Nat.min 8 (Z.to_nat (n_read (priv a)))) with 8%nat in Htake by lia.
  replace (Nat.min 8 (Z.to_nat (n_read (priv b)))) with 8%nat in Htake by lia.
  unfold get_packet_length.
  rewrite (read_int_prefix a b 4); [reflexivity|lia|lia|lia|exact Htake].
Qed.

Lemma get_packet_length_range (greeter : LdmGreeter) :
  0 <= get_packet_length greeter < 2 ^ 32.
Proof.
  unfold get_packet_length. pose proof (read_int_value_range greeter 4) as H.
  destruct (read_int greeter 4) as [[v o] l]. exact H.
Qed.

(** The loop of [read_packet]: it returns when it has enough fuel; what
    it has read is appended to the bytes received, and nothing else of
    the greeter changes. *)
Lemma read_chars_spec (fuel : nat) :
  forall (channel : GIOChannel) (greeter : LdmGreeter) (n_to_read : Z) (block : bool),
    0 <= n_read (priv greeter) <= n_to_read ->
    n_to_read <= Z.of_nat (length (read_buffer (priv greeter))) < 2 ^ 63 ->
    (1 + (if block then length channel else 0) <= fuel)%nat ->
    exists channel' buffer' bytes,
      read_chars fuel channel greeter n_to_read block
      = Some (channel',
              with_priv (set_read buffer' (n_read (priv greeter) + Z.of_nat (length bytes)))
                        greeter)
      /\ pending channel = bytes ++ pending channel'
      /\ n_read (priv greeter) + Z.of_nat (length bytes) <= n_to_read
      /\ length buffer' = length (read_buffer (priv greeter))
      /\ take (Z.to_nat (n_read (priv greeter) + Z.of_nat (length bytes))) buffer'
         = received_bytes greeter ++ bytes
      /\ (length channel' <= length channel)%nat
      /\ (n_read (priv greeter) + Z.of_nat (length bytes) < n_to_read ->
          channel = [] \/ (length channel' < length channel)%nat).
Proof.
  induction fuel as [|fuel IH]; intros channel greeter n_to_read block Hn Hroom Hfuel; [lia|].
  cbn [read_chars].
  rewrite (usize_small (n_to_read - n_read (priv greeter))) by lia.
  pose proof (g_io_channel_read_chars_spec channel (n_to_read - n_read (priv greeter)))
    as Hread.
  destruct (g_io_channel_read_chars channel (n_to_read - n_read (priv greeter)))
    as [[channel1 status] bytes].
  cbn [fst snd] in Hread.
  destruct Hread as (Hpending & Hcount & Hnone & Hle & Hprogress); [lia|].
  assert (Hstop : status <> G_IO_STATUS_NORMAL ->
            exists channel' buffer' bytes',
              Some (channel1, greeter)
              = Some (channel',
                      with_priv (set_read buffer'
                                   (n_read (priv greeter) + Z.of_nat (length bytes')))
                                greeter)
              /\ pending channel = bytes' ++ pending channel'
              /\ n_read (priv greeter) + Z.of_nat (length bytes') <= n_to_read
              /\ length buffer' = length (read_buffer (priv greeter))
              /\ take (Z.to_nat (n_read (priv greeter) + Z.of_nat (length bytes'))) buffer'
                 = received_bytes greeter ++ bytes'
              /\ (length channel' <= length channel)%nat
              /\ (n_read (priv greeter) + Z.of_nat (length bytes') < n_to_read ->
                  channel = [] \/ (length channel' < length channel)%nat)).
  { intros Hs. specialize (Hnone Hs). subst bytes.
    exists channel1, (read_buffer (priv greeter)), [].
    cbn [length]. rewrite Z.add_0_r, app_nil_r.
    split; [destruct greeter as [[] ? ? ? ?]; reflexivity|].
    split; [exact Hpending|]. split; [lia|]. split; [reflexivity|].
    split; [reflexivity|]. split; [exact Hle|].
    intros _. destruct Hprogress as [[? _]|[?|[? _]]]; [left; assumption|right; assumption|].
    contradiction. }
  destruct status; try (apply Hstop; discriminate). clear Hstop Hnone.
  destruct (memcpy_received (read_buffer (priv greeter)) bytes (n_read (priv greeter)))
    as [Hlen Htake]; [lia|lia|].
  set (buffer1 := memcpy (read_buffer (priv greeter)) (n_read (priv greeter)) bytes
                         (Z.of_nat (length bytes))) in *.
  rewrite (usize_small (n_read (priv greeter) + Z.of_nat (length bytes))) by lia.
  set (n1 := n_read (priv greeter) + Z.of_nat (length bytes)) in *.
  set (greeter1 := with_priv (set_read buffer1 n1) greeter).
  change (n_read (priv greeter1)) with n1.
  destruct (Z.ltb_spec n1 n_to_read) as [Hmore|Hdone]; cbn [andb];
    [destruct block|]; cbn [andb].
  - (* the loop goes on *)
    assert (Hpop : (length channel1 < length channel)%nat).
    { destruct Hprogress as [[_ Hs]|[?|[_ ?]]]; [congruence|assumption|lia]. }
    destruct (IH channel1 greeter1 n_to_read true) as (channel2 & buffer2 & bytes2 & Hrun
              & Hpending2 & Hcount2 & Hlen2 & Htake2 & Hle2 & Hprogress2).
    + change (n_read (priv greeter1)) with n1. lia.
    + change (read_buffer (priv greeter1)) with buffer1. rewrite Hlen. exact Hroom.
    + lia.
    + change (n_read (priv greeter1)) with n1 in *.
      change (read_buffer (priv greeter1)) with buffer1 in *.
      exists channel2, buffer2, (bytes ++ bytes2).
      rewrite length_app, Nat2Z.inj_add.
      replace (n_read (priv greeter) + (Z.of_nat (length bytes) + Z.of_nat (length bytes2)))
        with (n1 + Z.of_nat (length bytes2)) by (unfold n1; lia).
      split; [exact Hrun|]. split; [rewrite Hpending, Hpending2, app_assoc; reflexivity|].
      split; [lia|]. split; [lia|].
      split; [rewrite Htake2; unfold received_bytes;
              change (read_buffer (priv greeter1)) with buffer1;
              change (n_read (priv greeter1)) with n1;
              rewrite Htake, app_assoc; reflexivity|].
      split; [lia|]. intros _. right. lia.
  - exists channel1, buffer1, bytes. fold n1.
    split; [reflexivity|]. split; [exact Hpending|]. split; [lia|]. split; [exact Hlen|].
    split; [exact Htake|]. split; [exact Hle|].
    intros _. destruct Hprogress as [[_ Hs]|[?|[_ ?]]]; [congruence|right; assumption|lia].
  - exists channel1, buffer1, bytes. fold n1.
    split; [reflexivity|]. split; [exact Hpending|]. split; [lia|]. split; [exact Hlen|].
    split; [exact Htake|]. split; [exact Hle|].
    intros ?. lia.
Qed.

Lemma length_g_realloc (mem : list byte) (n_bytes : Z) :
  length (g_realloc mem n_bytes) = Z.to_nat n_bytes.
Proof. unfold g_realloc. rewrite length_app, length_take, length_replicate. lia. Qed.

Lemma take_g_realloc (mem : list byte) (n_bytes : Z) (n : nat) :
  (n <= Z.to_nat n_bytes)%nat -> (n <= length mem)%nat ->
  take n (g_realloc mem n_bytes) = take n mem.
Proof.
  intros Hn Hmem. unfold g_realloc.
  rewrite take_app_le by (rewrite length_take; lia).
  rewrite take_take. f_equal. lia.
Qed.

Lemma received_bytes_set_read (greeter : LdmGreeter) (buffer : list byte) (n : Z) :
  received_bytes (with_priv (set_read buffer n) greeter) = take (Z.to_nat n) buffer.
Proof. reflexivity. Qed.

Lemma take_8_app (l bytes : list byte) :
  (8 <= length l)%nat -> take 8 (l ++ bytes) = take 8 l.
Proof. intros H. apply take_app_le. exact H. Qed.

(** [read_packet] with the header received and the payload not yet
    complete: there is no recursive call. *)
Lemma read_packet_payload (fuel : nat) (channel : GIOChannel) (greeter : LdmGreeter)
    (block : bool) :
  HEADER_SIZE <= n_read (priv greeter) < HEADER_SIZE + get_packet_length greeter ->
  HEADER_SIZE + get_packet_length greeter
  <= Z.of_nat (length (read_buffer (priv greeter))) < 2 ^ 63 ->
  (1 + (if block then length channel else 0) <= fuel)%nat ->
  exists channel' buffer' bytes,
    let greeter' :=
      with_priv (set_read buffer' (n_read (priv greeter) + Z.of_nat (length bytes))) greeter in
    read_packet fuel channel greeter block
    = Some (channel', greeter',
            n_read (priv greeter') =? HEADER_SIZE + get_packet_length greeter)
    /\ pending channel = bytes ++ pending channel'
    /\ n_read (priv greeter') <= HEADER_SIZE + get_packet_length greeter
    /\ get_packet_length greeter' = get_packet_length greeter
    /\ length buffer' = length (read_buffer (priv greeter))
    /\ received_bytes greeter' = received_bytes greeter ++ bytes
    /\ (length channel' <= length channel)%nat
    /\ (n_read (priv greeter') < HEADER_SIZE + get_packet_length greeter ->
        channel = [] \/ (length channel' < length channel)%nat).
Proof.
  unfold HEADER_SIZE. intros Hn Hroom Hfuel.
  pose proof (get_packet_length_range greeter) as Hlen.
  destruct fuel as [|fuel']; [lia|].
  cbn [read_packet]. unfold HEADER_SIZE.
  destruct (Z.leb_spec 8 (n_read (priv greeter))); [|lia].
  rewrite (usize_small (8 + get_packet_length greeter)) by lia.
  destruct (read_chars_spec (S fuel') channel greeter (8 + get_packet_length greeter) block)
    as (channel' & buffer' & bytes & Hrun & Hpending & Hcount & Hblen & Htake & Hle & Hprogress);
    [lia|lia|lia|].
  rewrite Hrun. exists channel', buffer', bytes. cbv zeta.
  set (n1 := n_read (priv greeter) + Z.of_nat (length bytes)) in *.
  set (greeter' := with_priv (set_read buffer' n1) greeter).
  change (n_read (priv greeter')) with n1.
  assert (Hrec : received_bytes greeter' = received_bytes greeter ++ bytes) by exact Htake.
  assert (Hsame : get_packet_length greeter' = get_packet_length greeter).
  { apply get_packet_length_prefix.
    - change (n_read (priv greeter')) with n1. unfold HEADER_SIZE. lia.
    - unfold HEADER_SIZE. lia.
    - rewrite Hrec. apply take_8_app. unfold received_bytes. rewrite length_take. lia. }
  split.
  - destruct (Z.eqb_spec n1 (8 + get_packet_length greeter)) as [Heq|Hne]; cbn [negb];
      [|reflexivity].
    destruct (Z.eqb_spec n1 8); [lia|reflexivity].
  - repeat split; try assumption; lia.
Qed.

(** [read_packet] in general, from a state between two calls of
    [from_server_cb]. *)
Lemma read_packet_spec (fuel : nat) (channel : GIOChannel) (greeter : LdmGreeter)
    (block : bool) :
  transport_ok greeter ->
  (2 + (if block then length channel else 0) <= fuel)%nat ->
  exists channel' buffer' bytes result,
    let greeter' :=
      with_priv (set_read buffer' (n_read (priv greeter) + Z.of_nat (length bytes))) greeter in
    read_packet fuel channel greeter block = Some (channel', greeter', result)
    /\ pending channel = bytes ++ pending channel'
    /\ received_bytes greeter' = received_bytes greeter ++ bytes
    /\ HEADER_SIZE <= Z.of_nat (length buffer') < 2 ^ 63
    /\ (length channel' <= length channel)%nat
    /\ (result = true ->
        n_read (priv greeter') = HEADER_SIZE + get_packet_length greeter'
        /\ n_read (priv greeter') <= Z.of_nat (length buffer'))
    /\ (result = false ->
        transport_ok greeter'
        /\ (channel = [] \/ (length channel' < length channel)%nat)).
Proof.
  unfold transport_ok, HEADER_SIZE. intros (Hn0 & Hroom & Hheader) Hfuel.
  destruct (Z.le_gt_cases 8 (n_read (priv greeter))) as [Hhave|Hshort].
  - (* the header is there *)
    specialize (Hheader Hhave). destruct Hheader as [Hn Hfit].
    destruct (read_packet_payload fuel channel greeter block)
      as (channel' & buffer' & bytes & Hrun & Hpending & Hcount & Hsame & Hblen & Hrec
          & Hle & Hprogress); [unfold HEADER_SIZE; lia..|].
    cbv zeta in *. unfold HEADER_SIZE in *.
    exists channel', buffer', bytes. eexists. cbv zeta.
    split; [exact Hrun|]. split; [exact Hpending|]. split; [exact Hrec|].
    split; [rewrite Hblen; exact Hroom|]. split; [exact Hle|].
    cbn [with_priv priv set_read n_read read_buffer] in *.
    split.
    + intros Htrue. apply Z.eqb_eq in Htrue. rewrite Hsame. split; [exact Htrue|]. lia.
    + intros Hfalse. apply Z.eqb_neq in Hfalse.
      split; [|apply Hprogress; lia].
      split; [lia|]. split; [rewrite Hblen; exact Hroom|].
      intros _. rewrite Hsame, Hblen. split; lia.
  - (* the header is not complete *)
    destruct fuel as [|fuel']; [lia|].
    cbn [read_packet]. unfold HEADER_SIZE.
    destruct (Z.leb_spec 8 (n_read (priv greeter))); [lia|].
    destruct (read_chars_spec (S fuel') channel greeter 8 block)
      as (channel1 & buffer1 & bytes1 & Hrun & Hpending & Hcount & Hblen & Htake & Hle
          & Hprogress); [lia|lia|lia|].
    rewrite Hrun.
    set (n1 := n_read (priv greeter) + Z.of_nat (length bytes1)) in *.
    set (greeter1 := with_priv (set_read buffer1 n1) greeter).
    change (n_read (priv greeter1)) with n1.
    destruct (Z.eqb_spec n1 8) as [Hfull|Hpart]; cbn [negb].
    + (* the header is complete now *)
      pose proof (get_packet_length_range greeter1) as Hrange.
      destruct (Z.ltb_spec 0 (get_packet_length greeter1)) as [Hpayload|Hempty].
      * (* rerun for content *)
        rewrite (usize_small (8 + get_packet_length greeter1)) by lia.
        set (len := get_packet_length greeter1) in *.
        set (buffer2 := g_realloc buffer1 (8 + len)).
        set (greeter2 := with_priv (fun p => set_read (g_realloc (read_buffer p) (8 + len))
                                                      (n_read p) p) greeter1).
        assert (Hg2 : greeter2 = with_priv (set_read buffer2 n1) greeter) by reflexivity.
        assert (Hlen2 : get_packet_length greeter2 = len).
        { apply get_packet_length_prefix.
          - rewrite Hg2. cbn [with_priv priv set_read n_read]. unfold HEADER_SIZE. lia.
          - change (n_read (priv greeter1)) with n1. unfold HEADER_SIZE. lia.
          - rewrite Hg2. unfold greeter1. rewrite !received_bytes_set_read.
            unfold buffer2. rewrite take_g_realloc by lia. reflexivity. }
        destruct (read_packet_payload fuel' channel1 greeter2 block)
          as (channel' & buffer' & bytes & Hrun2 & Hpending2 & Hcount2 & Hsame2 & Hblen2
              & Hrec2 & Hle2 & Hprogress2).
        { rewrite Hlen2, Hg2. cbn [with_priv priv set_read n_read]. unfold HEADER_SIZE. lia. }
        { rewrite Hlen2, Hg2. cbn [with_priv priv set_read read_buffer].
          unfold buffer2. rewrite length_g_realloc. unfold HEADER_SIZE. lia. }
        { destruct block; lia. }
        cbv zeta in *. rewrite Hrun2. rewrite Hlen2 in *. unfold HEADER_SIZE in *.
        rewrite Hg2 in *. cbn [with_priv priv set_read n_read read_buffer] in *.
        change (with_priv (set_read buffer' (n1 + Z.of_nat (length bytes)))
                          (with_priv (set_read buffer2 n1) greeter))
          with (with_priv (set_read buffer' (n1 + Z.of_nat (length bytes))) greeter) in *.
        exists channel', buffer', (bytes1 ++ bytes). eexists. cbv zeta.
        rewrite length_app, Nat2Z.inj_add.
        replace (n_read (priv greeter) + (Z.of_nat (length bytes1) + Z.of_nat (length bytes)))
          with (n1 + Z.of_nat (length bytes)) by (unfold n1; lia).
        split; [reflexivity|].
        split; [rewrite Hpending, Hpending2, app_assoc; reflexivity|].
        split.
        { rewrite received_bytes_set_read in *. rewrite Hrec2, received_bytes_set_read.
          unfold buffer2. rewrite take_g_realloc by lia.
          rewrite Htake, app_assoc. reflexivity. }
        split; [rewrite Hblen2; unfold buffer2; rewrite length_g_realloc; lia|].
        split; [lia|].
        cbn [with_priv priv set_read n_read read_buffer].
        split.
        { intros Htrue. apply Z.eqb_eq in Htrue. rewrite Hsame2. split; [exact Htrue|].
          rewrite Hblen2. unfold buffer2. rewrite length_g_realloc. lia. }
        { intros Hfalse. apply Z.eqb_neq in Hfalse.
          split.
          - split; [lia|].
            split; [rewrite Hblen2; unfold buffer2; rewrite length_g_realloc; lia|].
            intros _. rewrite Hsame2, Hblen2. unfold buffer2. rewrite length_g_realloc. lia.
          - destruct channel as [|entry channel0]; [left; reflexivity|right].
            destruct Hprogress2 as [->|Hlt]; [lia| |cbn [length] in *; lia].
            cbn [length] in *. lia. }
      * (* a packet without payload *)
        exists channel1, buffer1, bytes1, true. cbv zeta. fold n1. fold greeter1.
        split; [reflexivity|]. split; [exact Hpending|]. split; [exact Htake|].
        split; [rewrite Hblen; exact Hroom|]. split; [exact Hle|].
        change (n_read (priv greeter1)) with n1. unfold HEADER_SIZE.
        split; [intros _; split; lia|discriminate].
    + (* the header is still not complete *)
      exists channel1, buffer1, bytes1, false. cbv zeta. fold n1. fold greeter1.
      split; [reflexivity|]. split; [exact Hpending|]. split; [exact Htake|].
      split; [rewrite Hblen; exact Hroom|]. split; [exact Hle|].
      split; [discriminate|]. intros _.
      split; [|apply Hprogress; lia].
      change (n_read (priv greeter1)) with n1. change (read_buffer (priv greeter1)) with buffer1.
      split; [lia|]. split; [rewrite Hblen; exact Hroom|]. intros ?. lia.
Qed.

(** ** One call of [from_server_cb] *)

Lemma read_hints_read (fuel : nat) (greeter greeter' : LdmGreeter) (len offset offset' : Z) :
  read_hints fuel greeter len offset = Some (greeter', offset') ->
  read_buffer (priv greeter') = read_buffer (priv greeter).
Proof.
  revert greeter offset. induction fuel as [|fuel IH]; intros greeter offset H;
    cbn [read_hints] in H; destruct (negb (offset <? len)).
  - injection H as <- _. reflexivity.
  - discriminate.
  - injection H as <- _. reflexivity.
  - destruct (read_string greeter offset) as [[name offset1] loads1].
    destruct (read_string greeter offset1) as [[value offset2] loads2].
    apply IH in H. exact H.
Qed.

Lemma dispatch_read (greeter greeter' : LdmGreeter) :
  dispatch greeter = Some greeter' ->
  read_buffer (priv greeter') = read_buffer (priv greeter) /\ n_read (priv greeter') = 0.
Proof.
  unfold dispatch.
  destruct (read_int greeter 0) as [[id offset1] loads1].
  destruct (read_int greeter offset1) as [[len offset2] loads2].
  intros H.
  assert (Hcase : exists g', greeter' = with_priv (set_n_read 0) g'
                             /\ read_buffer (priv g') = read_buffer (priv greeter)).
  { destruct (id =? SERVER_MESSAGE_CONNECTED).
    { unfold handle_connected in H.
      destruct (read_string greeter offset2) as [[version offset3] loads3].
      destruct (read_hints (Z.to_nat len) greeter len offset3) as [[g1 o1]|] eqn:E;
        [|discriminate].
      apply read_hints_read in E.
      destruct (ldm_greeter_get_autologin_timeout_hint g1 =? 0);
        injection H as <-; eexists; (split; [reflexivity|]); exact E. }
    destruct (id =? SERVER_MESSAGE_PROMPT_AUTHENTICATION).
    { injection H as <-. eexists. split; [reflexivity|].
      rewrite handle_prompt_authentication_priv. reflexivity. }
    destruct (id =? SERVER_MESSAGE_END_AUTHENTICATION).
    { injection H as <-. eexists. split; [reflexivity|].
      unfold handle_end_authentication.
      destruct (read_int greeter offset2) as [[sequence_number offset3] loads3].
      destruct (read_int greeter offset3) as [[return_code offset4] loads4].
      destruct (negb (sequence_number =? authenticate_sequence_number (priv greeter)));
        [reflexivity|].
      cbn. destruct (return_code =? 0); reflexivity. }
    destruct (id =? SERVER_MESSAGE_SESSION_FAILED).
    { injection H as <-. eexists. split; reflexivity. }
    destruct (id =? SERVER_MESSAGE_QUIT).
    { injection H as <-. eexists. split; reflexivity. }
    injection H as <-. eexists. split; reflexivity. }
  destruct Hcase as (g' & -> & Hbuf). split; [exact Hbuf|reflexivity].
Qed.

Lemma packet_field_prefix (a b : list byte) :
  8 <= Z.of_nat (length a) < 2 ^ 64 -> 8 <= Z.of_nat (length b) < 2 ^ 64 ->
  take 8 a = take 8 b -> packet_field a 4 = packet_field b 4.
Proof.
  intros Ha Hb Htake. unfold packet_field.
  rewrite (read_int_prefix (receive a ldm_greeter_init) (receive b ldm_greeter_init) 4);
    [reflexivity|lia| | |exact Htake];
    cbn [receive with_priv priv set_read n_read]; lia.
Qed.

Lemma get_packet_length_received (greeter : LdmGreeter) :
  8 <= n_read (priv greeter) <= Z.of_nat (length (read_buffer (priv greeter))) ->
  n_read (priv greeter) < 2 ^ 64 ->
  get_packet_length greeter = packet_field (received_bytes greeter) 4.
Proof.
  intros Hn Hsmall. unfold get_packet_length, packet_field.
  assert (Hl : Z.of_nat (length (received_bytes greeter)) = n_read (priv greeter))
    by (unfold received_bytes; rewrite length_take; lia).
  rewrite (read_int_prefix greeter (receive (received_bytes greeter) ldm_greeter_init) 4);
    [destruct (read_int (receive (received_bytes greeter) ldm_greeter_init) 4) as [[v o] l];
     reflexivity|lia|lia| |].
  - cbn [receive with_priv priv set_read n_read]. lia.
  - cbn [receive with_priv priv set_read read_buffer]. unfold received_bytes.
    rewrite take_take. f_equal. lia.
Qed.

Lemma app_prefix {A : Type} (a b c d : list A) :
  a ++ b = c ++ d -> (length a <= length c)%nat ->
  c = a ++ drop (length a) c /\ b = drop (length a) c ++ d.
Proof.
  intros H Hle.
  assert (Ha : a = take (length a) c).
  { apply (f_equal (take (length a))) in H.
    rewrite take_app_length, take_app_le in H by lia. exact H. }
  split.
  - rewrite Ha at 1. symmetry. apply take_drop.
  - apply (f_equal (drop (length a))) in H.
    rewrite drop_app_length, drop_app_le in H by lia. exact H.
Qed.

(** Two complete packets at the head of the same stream are the same
    packet. *)
Lemma complete_packet_unique (a b s t : list byte) :
  complete_packet a -> complete_packet b -> a ++ s = b ++ t -> a = b /\ s = t.
Proof.
  intros Ha Hb H.
  pose proof (complete_packet_length a Ha) as Hla.
  pose proof (complete_packet_length b Hb) as Hlb.
  assert (Htake : take 8 a = take 8 b).
  { apply (f_equal (take 8)) in H. rewrite !take_app_le in H by lia. exact H. }
  pose proof (packet_field_prefix a b Hla Hlb Htake) as Hfield.
  unfold complete_packet in Ha, Hb.
  apply app_inj_1 in H; [exact H|]. lia.
Qed.

(** What one call of [from_server_cb] does: it takes the next bytes of
    the channel; either they do not complete a packet, and the greeter
    keeps them for the next call, or the bytes received make a complete
    packet, and the greeter is, up to its read buffer, what the
    dispatch of this packet makes of it. *)
Lemma from_server_cb_channel_spec (channel : GIOChannel) (greeter : LdmGreeter) :
  transport_ok greeter ->
  exists channel' greeter' bytes,
    from_server_cb_channel channel greeter = Some (channel', greeter')
    /\ pending channel = bytes ++ pending channel'
    /\ transport_ok greeter'
    /\ (length channel' <= length channel)%nat
    /\ ((observable greeter' = observable greeter
         /\ received_bytes greeter' = received_bytes greeter ++ bytes
         /\ n_read (priv greeter') = n_read (priv greeter) + Z.of_nat (length bytes)
         /\ (channel = [] \/ (length channel' < length channel)%nat))
        \/ (complete_packet (received_bytes greeter ++ bytes)
            /\ Some (observable greeter')
               = observable <$> from_server_cb (received_bytes greeter ++ bytes) greeter
            /\ n_read (priv greeter') = 0)).
Proof.
  intros Hok. unfold from_server_cb_channel.
  destruct (read_packet_spec (2 + length channel) channel greeter false Hok)
    as (channel' & buffer' & bytes & result & Hrun & Hpending & Hrec & Hblen & Hle
        & Htrue & Hfalse); [cbn; lia|].
  cbv zeta in *. rewrite Hrun.
  set (n' := n_read (priv greeter) + Z.of_nat (length bytes)) in *.
  set (mid := with_priv (set_read buffer' n') greeter) in *.
  destruct result.
  - (* a packet is complete *)
    destruct (Htrue eq_refl) as [Hn Hfit]. clear Htrue Hfalse.
    change (n_read (priv mid)) with n' in Hn, Hfit.
    pose proof (get_packet_length_range mid) as Hrange.
    set (packet := received_bytes greeter ++ bytes) in *.
    assert (Hlp : Z.of_nat (length packet) = n').
    { rewrite <- Hrec. unfold received_bytes.
      change (n_read (priv mid)) with n'. change (read_buffer (priv mid)) with buffer'.
      rewrite length_take. unfold HEADER_SIZE in *. lia. }
    assert (Hcomplete : complete_packet packet).
    { unfold complete_packet. rewrite Hlp, Hn. f_equal.
      rewrite <- Hrec. apply get_packet_length_received.
      - change (n_read (priv mid)) with n'. change (read_buffer (priv mid)) with buffer'.
        unfold HEADER_SIZE in *. lia.
      - change (n_read (priv mid)) with n'. unfold HEADER_SIZE in *. lia. }
    assert (Hsame : same_received mid (receive packet greeter)).
    { split; [reflexivity|]. split.
      - change (n_read (priv mid)) with n'.
        cbn [receive with_priv priv set_read n_read]. lia.
      - rewrite Hrec. unfold received_bytes.
        cbn [receive with_priv priv set_read n_read read_buffer].
        rewrite Nat2Z.id, firstn_all. reflexivity. }
    pose proof (dispatch_received mid (receive packet greeter) Hsame) as Hd.
    change (dispatch (receive packet greeter)) with (from_server_cb packet greeter) in Hd.
    destruct (from_server_cb_returns packet greeter Hcomplete) as [model Hmodel].
    rewrite Hmodel in Hd.
    destruct (dispatch mid) as [greeter'|] eqn:Hdispatch.
    + apply dispatch_read in Hdispatch as [Hbuf Hzero].
      exists channel', greeter', bytes. fold packet. rewrite Hmodel.
      split; [reflexivity|]. split; [exact Hpending|].
      split.
      { unfold transport_ok. rewrite Hzero, Hbuf.
        change (read_buffer (priv mid)) with buffer'. unfold HEADER_SIZE in *.
        split; [lia|]. split; [exact Hblen|]. intros ?. lia. }
      split; [exact Hle|]. right.
      split; [exact Hcomplete|]. split; [|exact Hzero].
      cbn [fmap option_fmap option_map] in Hd |- *. apply Hd.
      change (n_read (priv mid)) with n'. unfold HEADER_SIZE in *. lia.
    + exfalso. cbn [fmap option_fmap option_map] in Hd.
      assert (Hr : 0 <= n_read (priv mid) < 2 ^ 64)
        by (change (n_read (priv mid)) with n'; unfold HEADER_SIZE in *; lia).
      specialize (Hd Hr). discriminate Hd.
  - (* not yet *)
    destruct (Hfalse eq_refl) as [Hok' Hprogress]. clear Htrue Hfalse.
    exists channel', mid, bytes.
    split; [reflexivity|]. split; [exact Hpending|]. split; [exact Hok'|].
    split; [exact Hle|]. left.
    split; [reflexivity|]. split; [exact Hrec|]. split; [reflexivity|exact Hprogress].
Qed.

(** ** A packet that arrives in pieces *)

Lemma from_server_cb_observable (packet : list byte) (a b : LdmGreeter) :
  observable a = observable b ->
  Z.of_nat (length packet) < 2 ^ 64 ->
  observable <$> from_server_cb packet a = observable <$> from_server_cb packet b.
Proof.
  intros Hobs Hsmall. unfold from_server_cb.
  apply dispatch_received.
  - apply observable_inv in Hobs as (Hp & Hh & Hs & Ht & He).
    split; [|split; reflexivity].
    unfold observable. cbn [receive with_priv priv heap to_server timeouts emitted].
    rewrite Hh, Hs, Ht, He. f_equal.
    change (forget_read (set_read packet (Z.of_nat (length packet)) (priv a)))
      with (forget_read (priv a)).
    change (forget_read (set_read packet (Z.of_nat (length packet)) (priv b)))
      with (forget_read (priv b)).
    exact Hp.
  - cbn [receive with_priv priv set_read n_read]. lia.
Qed.

Lemma transport_ok_received (greeter : LdmGreeter) :
  transport_ok greeter ->
  Z.of_nat (length (received_bytes greeter)) = n_read (priv greeter)
  /\ n_read (priv greeter) < 2 ^ 63.
Proof.
  unfold transport_ok, HEADER_SIZE, received_bytes. intros (H0 & Hroom & Hheader).
  rewrite length_take.
  destruct (Z.le_gt_cases 8 (n_read (priv greeter))) as [Hhave|Hshort].
  - specialize (Hheader Hhave). lia.
  - lia.
Qed.

(** Between two calls, the bytes received are less than a packet. *)
Lemma transport_ok_incomplete (greeter : LdmGreeter) (packet tail : list byte) :
  transport_ok greeter -> complete_packet packet ->
  received_bytes greeter = packet ++ tail -> False.
Proof.
  intros Hok Hc Hrec.
  destruct (transport_ok_received greeter Hok) as [Hl Hsmall].
  pose proof (complete_packet_length packet Hc) as Hlp.
  destruct Hok as (H0 & Hroom & Hheader). unfold HEADER_SIZE in *.
  assert (Hn : 8 <= n_read (priv greeter))
    by (rewrite <- Hl, Hrec, length_app; lia).
  specialize (Hheader Hn).
  rewrite get_packet_length_received in Hheader by lia.
  rewrite (packet_field_prefix (received_bytes greeter) packet) in Hheader.
  - unfold complete_packet, HEADER_SIZE in Hc.
    rewrite <- Hl, Hrec, length_app in Hheader. lia.
  - lia.
  - lia.
  - rewrite Hrec. apply take_app_le. lia.
Qed.

Lemma callbacks_deliver (k : nat) :
  forall (channel : GIOChannel) (greeter : LdmGreeter) (packet rest more : list byte),
    (length channel <= k)%nat ->
    transport_ok greeter ->
    complete_packet packet ->
    received_bytes greeter ++ rest = packet ->
    pending channel = rest ++ more ->
    exists (n : nat) (channel' : GIOChannel) (greeter' : LdmGreeter),
      (n <= length channel)%nat
      /\ callbacks n channel greeter = Some (channel', greeter')
      /\ pending channel' = more
      /\ Some (observable greeter') = observable <$> from_server_cb packet greeter
      /\ transport_ok greeter'
      /\ n_read (priv greeter') = 0.
Proof.
  induction k as [|k IH]; intros channel greeter packet rest more Hk Hok Hc Hrec Hpending.
  - (* an empty channel holds no byte *)
    destruct channel; [|cbn in Hk; lia]. cbn in Hpending.
    symmetry in Hpending. apply app_eq_nil in Hpending as [-> ->].
    exfalso. rewrite app_nil_r in Hrec.
    apply (transport_ok_incomplete greeter packet [] Hok Hc). rewrite app_nil_r. exact Hrec.
  - pose proof (complete_packet_length packet Hc) as Hlp.
    assert (Hrest : rest <> []).
    { intros ->. rewrite app_nil_r in Hrec.
      apply (transport_ok_incomplete greeter packet [] Hok Hc). rewrite app_nil_r. exact Hrec. }
    assert (Hchannel : channel <> []).
    { intros ->. cbn in Hpending. destruct rest; [congruence|discriminate]. }
    destruct (from_server_cb_channel_spec channel greeter Hok)
      as (channel1 & greeter1 & bytes & Hrun & Hpending1 & Hok1 & Hle & Hcase).
    destruct Hcase as [(Hobs & Hrec1 & Hn1 & Hprogress)|(Hc1 & Hmodel & Hzero)].
    + (* the packet is not complete yet *)
      destruct Hprogress as [?|Hlt]; [contradiction|].
      assert (Hshort : (length bytes <= length rest)%nat).
      { destruct (Nat.le_gt_cases (length bytes) (length rest)) as [?|Hlong]; [assumption|].
        exfalso.
        destruct (app_prefix rest more bytes (pending channel1)) as [Hb Hm];
          [congruence|lia|].
        apply (transport_ok_incomplete greeter1 packet (drop (length rest) bytes) Hok1 Hc).
        rewrite Hrec1, <- Hrec, <- app_assoc. f_equal. exact Hb. }
      destruct (app_prefix bytes (pending channel1) rest more) as [Hr Hm];
        [congruence|exact Hshort|].
      destruct (IH channel1 greeter1 packet (drop (length bytes) rest) more)
        as (n & channel' & greeter' & Hn & Hcalls & Hmore & Hmodel & Hok' & Hzero).
      * lia.
      * exact Hok1.
      * exact Hc.
      * rewrite Hrec1, <- Hrec, <- app_assoc. f_equal. symmetry. exact Hr.
      * exact Hm.
      * exists (S n), channel', greeter'.
        split; [lia|]. split; [cbn [callbacks]; rewrite Hrun; exact Hcalls|].
        split; [exact Hmore|]. split; [|split; assumption].
        rewrite Hmodel. apply from_server_cb_observable; [exact Hobs|lia].
    + (* the packet is complete *)
      destruct (complete_packet_unique (received_bytes greeter ++ bytes) packet
                  (pending channel1) more Hc1 Hc) as [Hsame Hmore].
      { rewrite <- app_assoc, <- Hpending1, Hpending, <- Hrec, <- app_assoc. reflexivity. }
      exists 1%nat, channel1, greeter1.
      split; [destruct channel; [contradiction|cbn; lia]|].
      split; [cbn [callbacks]; rewrite Hrun; reflexivity|].
      split; [exact Hmore|]. split; [rewrite <- Hsame; exact Hmodel|].
      split; assumption.
Qed.

(** X18: a packet reaches its handler whatever the pieces it arrives in.
    When the channel holds the bytes of a complete packet, in any
    number of reads and with reads in between that find nothing, then
    after some calls of [from_server_cb], at most one for each entry of
    the channel, the bytes of the packet and no others have been taken
    from the channel, and the greeter is, up to the content of its
    read buffer, what the dispatch of the packet makes of it; it is
    ready for the next packet. *)
Theorem channel_delivers_packet (channel : GIOChannel) (greeter : LdmGreeter)
    (packet more : list byte) :
  transport_ok greeter ->
  n_read (priv greeter) = 0 ->
  complete_packet packet ->
  pending channel = packet ++ more ->
  exists (n : nat) (channel' : GIOChannel) (greeter' : LdmGreeter),
    (n <= length channel)%nat
    /\ callbacks n channel greeter = Some (channel', greeter')
    /\ pending channel' = more
    /\ Some (observable greeter') = observable <$> from_server_cb packet greeter
    /\ transport_ok greeter'
    /\ n_read (priv greeter') = 0.
Proof.
  intros Hok Hidle Hc Hpending.
  apply (callbacks_deliver (length channel) channel greeter packet packet more);
    [lia|exact Hok|exact Hc| |exact Hpending].
  unfold received_bytes. rewrite Hidle. reflexivity.
Qed.

Lemma channel_delivers_packet_witness :
  exists (n : nat) (channel' : GIOChannel) (greeter' : LdmGreeter),
    (n <= length [(G_IO_STATUS_NORMAL, take 5 (end_packet 1 0)); (G_IO_STATUS_AGAIN, []);
                  (G_IO_STATUS_NORMAL, drop 5 (end_packet 1 0) ++ take 3 (prompt_packet 2))])%nat
    /\ callbacks n [(G_IO_STATUS_NORMAL, take 5 (end_packet 1 0)); (G_IO_STATUS_AGAIN, []);
                    (G_IO_STATUS_NORMAL, drop 5 (end_packet 1 0) ++ take 3 (prompt_packet 2))]
                 (ldm_greeter_login ldm_greeter_init (Some "bob"%string))
       = Some (channel', greeter')
    /\ pending channel' = take 3 (prompt_packet 2)
    /\ Some (observable greeter')
       = observable <$> from_server_cb (end_packet 1 0)
                          (ldm_greeter_login ldm_greeter_init (Some "bob"%string))
    /\ transport_ok greeter'
    /\ n_read (priv greeter') = 0.
Proof.
  apply (channel_delivers_packet
           [(G_IO_STATUS_NORMAL, take 5 (end_packet 1 0)); (G_IO_STATUS_AGAIN, []);
            (G_IO_STATUS_NORMAL, drop 5 (end_packet 1 0) ++ take 3 (prompt_packet 2))]
           (ldm_greeter_login ldm_greeter_init (Some "bob"%string))
           (end_packet 1 0) (take 3 (prompt_packet 2))).
  - unfold transport_ok. split; [vm_compute; discriminate|].
    split; [vm_compute; split; [discriminate|reflexivity]|].
    intros H. exfalso. vm_compute in H. apply H. reflexivity.
  - reflexivity.
  - vm_compute. reflexivity.
  - vm_compute. reflexivity.
Defined.

(** X19: [read_packet] returns, given fuel for its reads and its one
    recursive call.  It takes the next bytes of the channel, in their
    order, and appends them to the bytes received, inside the read
    buffer; nothing else of the greeter changes.  It returns TRUE only
    when the bytes received are one complete packet, the header and
    exactly the payload the header announces; when it returns FALSE,
    the greeter keeps the bytes for the next call. *)
Theorem read_packet_reads_one_packet (fuel : nat) (channel : GIOChannel) (greeter : LdmGreeter)
    (block : bool) :
  transport_ok greeter ->
  (2 + (if block then length channel else 0) <= fuel)%nat ->
  exists channel' greeter' result bytes,
    read_packet fuel channel greeter block = Some (channel', greeter', result)
    /\ pending channel = bytes ++ pending channel'
    /\ received_bytes greeter' = received_bytes greeter ++ bytes
    /\ n_read (priv greeter') <= Z.of_nat (length (read_buffer (priv greeter')))
    /\ observable greeter' = observable greeter
    /\ (result = true -> complete_packet (received_bytes greeter'))
    /\ (result = false -> transport_ok greeter').
Proof.
  intros Hok Hfuel.
  destruct (read_packet_spec fuel channel greeter block Hok Hfuel)
    as (channel' & buffer' & bytes & result & Hrun & Hpending & Hrec & Hblen & Hle
        & Htrue & Hfalse).
  cbv zeta in *.
  set (greeter' := with_priv (set_read buffer' (n_read (priv greeter)
                                                + Z.of_nat (length bytes))) greeter) in *.
  exists channel', greeter', result, bytes.
  split; [exact Hrun|]. split; [exact Hpending|]. split; [exact Hrec|].
  split; [|split; [reflexivity|split]].
  - destruct result.
    + apply Htrue. reflexivity.
    + destruct (Hfalse eq_refl) as [Hok' _].
      destruct (transport_ok_received greeter' Hok') as [Hl _].
      rewrite <- Hl. unfold received_bytes. rewrite length_take. lia.
  - intros Hr. destruct (Htrue Hr) as [Hn Hfit].
    pose proof (get_packet_length_range greeter') as Hrange.
    assert (Hb : Z.of_nat (length (read_buffer (priv greeter'))) = Z.of_nat (length buffer'))
      by reflexivity.
    unfold complete_packet.
    rewrite <- get_packet_length_received by (unfold HEADER_SIZE in *; lia).
    rewrite <- Hn. unfold received_bytes. rewrite length_take.
    unfold HEADER_SIZE in *. lia.
  - intros Hr. apply Hfalse. exact Hr.
Qed.

Lemma read_packet_reads_one_packet_witness :
  exists channel' greeter' result bytes,
    read_packet 2 [(G_IO_STATUS_NORMAL, end_packet 1 0 ++ take 3 (prompt_packet 2))]
                ldm_greeter_init false
    = Some (channel', greeter', result)
    /\ pending [(G_IO_STATUS_NORMAL, end_packet 1 0 ++ take 3 (prompt_packet 2))]
       = bytes ++ pending channel'
    /\ received_bytes greeter' = received_bytes ldm_greeter_init ++ bytes
    /\ n_read (priv greeter') <= Z.of_nat (length (read_buffer (priv greeter')))
    /\ observable greeter' = observable ldm_greeter_init
    /\ (result = true -> complete_packet (received_bytes greeter'))
    /\ (result = false -> transport_ok greeter').
Proof.
  apply (read_packet_reads_one_packet 2
           [(G_IO_STATUS_NORMAL, end_packet 1 0 ++ take 3 (prompt_packet 2))]
           ldm_greeter_init false).
  - unfold transport_ok. split; [vm_compute; discriminate|].
    split; [vm_compute; split; [discriminate|reflexivity]|].
    intros H. exfalso. vm_compute in H. apply H. reflexivity.
  - cbn. lia.
Defined.

(** X20: the handlers read the bytes received and no others: bytes that
    an earlier, longer packet has left in the read buffer after the
    [n_read] bytes of the packet at hand change nothing of what the
    dispatch does, signals and their arguments included. *)
Theorem stale_bytes_not_read (packet stale : list byte) (greeter : LdmGreeter) :
  Z.of_nat (length packet) < 2 ^ 64 ->
  observable <$> dispatch (with_priv (set_read (packet ++ stale) (Z.of_nat (length packet)))
                                     greeter)
  = observable <$> from_server_cb packet greeter.
Proof.
  intros Hsmall. unfold from_server_cb. apply dispatch_received.
  - split; [reflexivity|]. split; [reflexivity|].
    unfold received_bytes. cbn [receive with_priv priv set_read n_read read_buffer].
    rewrite Nat2Z.id, take_app_length, firstn_all. reflexivity.
  - cbn [with_priv priv set_read n_read]. lia.
Qed.

Lemma stale_bytes_not_read_witness :
  observable <$> dispatch (with_priv (set_read (frame SERVER_MESSAGE_QUIT [] ++ end_packet 1 0)
                                               (Z.of_nat (length (frame SERVER_MESSAGE_QUIT []))))
                                     ldm_greeter_init)
  = observable <$> from_server_cb (frame SERVER_MESSAGE_QUIT []) ldm_greeter_init.
Proof.
  apply (stale_bytes_not_read (frame SERVER_MESSAGE_QUIT []) (end_packet 1 0) ldm_greeter_init).
  vm_compute. reflexivity.
Defined.

(** ** A stream of packets *)

Lemma callbacks_add (n m : nat) (channel : GIOChannel) (greeter : LdmGreeter) :
  callbacks (n + m) channel greeter
  = match callbacks n channel greeter with
    | Some (channel', greeter') => callbacks m channel' greeter'
    | None => None
    end.
Proof.
  revert channel greeter. induction n as [|n IH]; intros channel greeter; [reflexivity|].
  cbn [Nat.add callbacks].
  destruct (from_server_cb_channel channel greeter) as [[channel1 greeter1]|]; [|reflexivity].
  apply IH.
Qed.

Lemma process_observable (packets : list (list byte)) :
  forall a b : LdmGreeter,
    Forall complete_packet packets ->
    observable a = observable b ->
    observable <$> process packets a = observable <$> process packets b.
Proof.
  induction packets as [|packet packets IH]; intros a b Hc Hobs.
  - cbn. f_equal. exact Hobs.
  - apply Forall_cons in Hc as [Hc Hcs]. cbn [process].
    pose proof (complete_packet_length packet Hc) as Hl.
    pose proof (from_server_cb_observable packet a b Hobs ltac:(lia)) as Hstep.
    destruct (from_server_cb packet a) as [a1|], (from_server_cb packet b) as [b1|];
      try discriminate Hstep; [|reflexivity].
    apply IH; [exact Hcs|]. cbn [fmap option_fmap option_map] in Hstep. congruence.
Qed.

(** X21: the calls of [from_server_cb] on the channel do what the
    packets do one after the other: when the channel holds the bytes
    of complete packets, however they are cut into reads, then after
    some calls the bytes of these packets and no others have been
    taken, and the greeter is, up to the content of its read buffer,
    the greeter that has handled the packets in their order. *)
Theorem channel_delivers_packets (packets : list (list byte)) :
  forall (channel : GIOChannel) (greeter : LdmGreeter) (more : list byte),
    transport_ok greeter ->
    n_read (priv greeter) = 0 ->
    Forall complete_packet packets ->
    pending channel = concat packets ++ more ->
    exists (n : nat) (channel' : GIOChannel) (greeter' : LdmGreeter),
      callbacks n channel greeter = Some (channel', greeter')
      /\ pending channel' = more
      /\ Some (observable greeter') = observable <$> process packets greeter
      /\ transport_ok greeter'
      /\ n_read (priv greeter') = 0.
Proof.
  induction packets as [|packet packets IH]; intros channel greeter more Hok Hidle Hc Hpending.
  - exists 0%nat, channel, greeter. cbn in *. auto.
  - apply Forall_cons in Hc as [Hc Hcs]. cbn [concat] in Hpending.
    rewrite <- app_assoc in Hpending.
    destruct (callbacks_deliver (length channel) channel greeter packet packet
                (concat packets ++ more))
      as (n1 & channel1 & greeter1 & _ & Hcalls1 & Hpending1 & Hmodel1 & Hok1 & Hidle1);
      [lia|exact Hok|exact Hc| |exact Hpending|].
    { unfold received_bytes. rewrite Hidle. reflexivity. }
    destruct (IH channel1 greeter1 more Hok1 Hidle1 Hcs Hpending1)
      as (n2 & channel2 & greeter2 & Hcalls2 & Hpending2 & Hmodel2 & Hok2 & Hidle2).
    exists (n1 + n2)%nat, channel2, greeter2.
    split; [rewrite callbacks_add, Hcalls1; exact Hcalls2|].
    split; [exact Hpending2|]. split; [|split; assumption].
    cbn [process].
    destruct (from_server_cb packet greeter) as [model1|]; [|discriminate Hmodel1].
    cbn [fmap option_fmap option_map] in Hmodel1.
    rewrite Hmodel2. apply process_observable; [assumption|congruence].
Qed.

Lemma channel_delivers_packets_witness :
  exists (n : nat) (channel' : GIOChannel) (greeter' : LdmGreeter),
    callbacks n [(G_IO_STATUS_NORMAL, prompt_packet 1 ++ take 9 (end_packet 1 0));
                 (G_IO_STATUS_AGAIN, []);
                 (G_IO_STATUS_NORMAL, drop 9 (end_packet 1 0))]
              (ldm_greeter_login ldm_greeter_init (Some "bob"%string))
    = Some (channel', greeter')
    /\ pending channel' = []
    /\ Some (observable greeter')
       = observable <$> process [prompt_packet 1; end_packet 1 0]
                          (ldm_greeter_login ldm_greeter_init (Some "bob"%string))
    /\ transport_ok greeter'
    /\ n_read (priv greeter') = 0.
Proof.
  apply (channel_delivers_packets [prompt_packet 1; end_packet 1 0]
           [(G_IO_STATUS_NORMAL, prompt_packet 1 ++ take 9 (end_packet 1 0));
            (G_IO_STATUS_AGAIN, []);
            (G_IO_STATUS_NORMAL, drop 9 (end_packet 1 0))]
           (ldm_greeter_login ldm_greeter_init (Some "bob"%string)) []).
  - unfold transport_ok. split; [vm_compute; discriminate|].
    split; [vm_compute; split; [discriminate|reflexivity]|].
    intros H. exfalso. vm_compute in H. apply H. reflexivity.
  - reflexivity.
  - repeat constructor; vm_compute; reflexivity.
  - vm_compute. reflexivity.
Defined.

(** ** The first load of the user list *)

Lemma load_visible_first (sys : System) (st : Loaded) (entry : passwd) :
  users (priv (ld_greeter st)) = [] ->
  let g := ld_greeter st in
  let h1 := heap g ++ [candidate sys entry] in
  load_visible sys st entry
  = mkLoaded (with_heap h1 g)
             (g_list_insert_sorted (ld_users st) (length (heap g)) (compare_display h1))
             (if have_users (priv g)
              then g_list_insert_sorted (ld_new_users st) (length (heap g)) (compare_display h1)
              else ld_new_users st)
             (ld_changed_users st).
Proof. intros Hempty. unfold load_visible. rewrite Hempty. reflexivity. Qed.

(** The loop of [load_users] when no user is cached yet: every entry
    makes a new object, and the list stays sorted. *)
Lemma first_scan (sys : System) (entries : list passwd) :
  forall st : Loaded,
    users (priv (ld_greeter st)) = [] ->
    Sorted (fun a b => compare_display (heap (ld_greeter st)) a b <= 0) (ld_users st) ->
    Forall (fun p => (p < length (heap (ld_greeter st)))%nat) (ld_users st) ->
    let st' := fold_left (load_visible sys) entries st in
    heap (ld_greeter st') = heap (ld_greeter st) ++ map (candidate sys) entries
    /\ priv (ld_greeter st') = priv (ld_greeter st)
    /\ Permutation (ld_users st')
                   (ld_users st ++ seq (length (heap (ld_greeter st))) (length entries))
    /\ Sorted (fun a b => compare_display (heap (ld_greeter st')) a b <= 0) (ld_users st').
Proof.
  induction entries as [|entry entries IH]; intros st Hempty Hsorted Hvalid.
  - cbn. rewrite !app_nil_r. auto.
  - cbn [fold_left]. rewrite load_visible_first by assumption. cbv zeta.
    set (g := ld_greeter st) in *.
    set (h1 := heap g ++ [candidate sys entry]).
    match goal with
    | |- context [fold_left _ entries ?s] => set (st1 := s)
    end.
    assert (Hsorted1 : Sorted (fun a b => compare_display h1 a b <= 0) (ld_users st)).
    { apply (Sorted_display_ext (heap g)); [|exact Hsorted].
      intros p Hp. rewrite List.Forall_forall in Hvalid.
      apply lookup_total_snoc_lt, Hvalid, Hp. }
    destruct (IH st1) as (Hheap & Hpriv & Hperm & Hs).
    + exact Hempty.
    + cbn [st1 ld_greeter ld_users with_heap heap].
      apply g_list_insert_sorted_Sorted; [apply compare_display_antisym|exact Hsorted1].
    + cbn [st1 ld_greeter ld_users with_heap heap]. rewrite List.Forall_forall in *.
      intros p Hp. apply g_list_insert_sorted_In in Hp. unfold h1. rewrite length_app. cbn.
      destruct Hp as [->|Hp]; [lia|]. specialize (Hvalid p Hp). lia.
    + cbn [st1 ld_greeter ld_users with_heap heap priv] in Hheap, Hpriv, Hperm.
      split; [|split; [|split]].
      * rewrite Hheap. unfold h1. rewrite <- app_assoc. reflexivity.
      * exact Hpriv.
      * rewrite Hperm, g_list_insert_sorted_perm. unfold h1. rewrite length_app.
        cbn [length seq]. rewrite Nat.add_1_r.
        rewrite <- Permutation_middle. reflexivity.
      * exact Hs.
Qed.

Lemma load_entries_first (sys : System) (greeter : LdmGreeter) :
  users (priv greeter) = [] ->
  let st := load_entries sys greeter in
  heap (ld_greeter st) = heap greeter ++ map (candidate sys) (visible_entries sys)
  /\ Permutation (ld_users st) (seq (length (heap greeter)) (length (visible_entries sys)))
  /\ Sorted (fun a b => compare_display (heap (ld_greeter st)) a b <= 0) (ld_users st).
Proof.
  intros Hempty. cbv zeta. rewrite load_entries_visible.
  destruct (first_scan sys (visible_entries sys) (mkLoaded greeter [] [] []))
    as (Hheap & _ & Hperm & Hsorted); [exact Hempty|constructor|constructor|].
  auto.
Qed.

Lemma map_lookup_seq (h : list LdmUser) (l : list LdmUser) :
  map (fun p => (h ++ l) !!! p) (seq (length h) (length l)) = l.
Proof.
  revert h. induction l as [|x l IH]; intros h; [reflexivity|].
  cbn [length seq map]. f_equal.
  - apply list_lookup_total_middle. reflexivity.
  - specialize (IH (h ++ [x])). rewrite <- app_assoc, length_app in IH. cbn in IH.
    rewrite Nat.add_1_r in IH. exact IH.
Qed.

(** The greeter after the first load. *)
Lemma update_users_loaded (sys : System) (greeter : LdmGreeter) :
  have_users (priv greeter) = false -> users (priv greeter) = [] ->
  let greeter' := update_users sys greeter in
  heap greeter' = heap greeter ++ map (candidate sys) (visible_entries sys)
  /\ Permutation (users (priv greeter'))
                 (seq (length (heap greeter)) (length (visible_entries sys)))
  /\ Permutation (map (fun p => heap greeter' !!! p) (users (priv greeter')))
                 (map (candidate sys) (visible_entries sys))
  /\ sorted_by_display_name greeter' (users (priv greeter')).
Proof.
  intros Hfirst Hempty. cbv zeta.
  destruct (load_entries_first sys greeter Hempty) as (Hheap & Hperm & Hsorted).
  unfold update_users. rewrite Hfirst.
  assert (Hh : heap (with_priv (set_have_users true) (load_users sys greeter))
               = heap (ld_greeter (load_entries sys greeter)))
    by (rewrite load_users_spec; reflexivity).
  assert (Hu : users (priv (with_priv (set_have_users true) (load_users sys greeter)))
               = ld_users (load_entries sys greeter))
    by (rewrite load_users_spec; reflexivity).
  rewrite Hu. split; [rewrite Hh; exact Hheap|]. split; [exact Hperm|]. split.
  - rewrite Hh, Hheap, Hperm. rewrite <- (length_map (candidate sys)).
    rewrite map_lookup_seq. reflexivity.
  - unfold sorted_by_display_name, display_le. rewrite compare_user_display, Hh.
    exact Hsorted.
Qed.

(** X22: the first [ldm_greeter_get_users] of a greeter lists one user
    object for every account that passes the three filters, and no
    other: the records of the list are, in some order, the records made
    from these accounts, an account that is enumerated twice being
    listed twice.  The list is sorted by display name, and the call
    raises no signal. *)
Theorem first_load_lists_visible_accounts (sys : System) (greeter : LdmGreeter) :
  have_users (priv greeter) = false ->
  users (priv greeter) = [] ->
  let greeter' := fst (ldm_greeter_get_users sys greeter) in
  let cached := snd (ldm_greeter_get_users sys greeter) in
  Permutation (map (fun user => heap greeter' !!! user) cached)
              (map (candidate sys) (visible_entries sys))
  /\ sorted_by_display_name greeter' cached
  /\ List.NoDup cached
  /\ have_users (priv greeter') = true
  /\ emitted greeter' = emitted greeter.
Proof.
  intros Hfirst Hempty. cbv zeta. unfold ldm_greeter_get_users. cbn [fst snd].
  destruct (update_users_loaded sys greeter Hfirst Hempty) as (_ & Hperm & Hrec & Hsorted).
  destruct (update_users_first sys greeter Hfirst Hempty) as (Hemit & Hhave & _).
  split; [exact Hrec|]. split; [exact Hsorted|]. split; [|split; assumption].
  apply (Permutation_NoDup (Permutation_sym Hperm)). apply List.seq_NoDup.
Qed.

Lemma first_load_lists_visible_accounts_witness :
  let greeter' := fst (ldm_greeter_get_users baseline_accounts ldm_greeter_init) in
  let cached := snd (ldm_greeter_get_users baseline_accounts ldm_greeter_init) in
  Permutation (map (fun user => heap greeter' !!! user) cached)
              (map (candidate baseline_accounts) (visible_entries baseline_accounts))
  /\ sorted_by_display_name greeter' cached
  /\ List.NoDup cached
  /\ have_users (priv greeter') = true
  /\ emitted greeter' = emitted ldm_greeter_init.
Proof.
  apply (first_load_lists_visible_accounts baseline_accounts ldm_greeter_init); reflexivity.
Defined.

(** X23: the first [ldm_greeter_get_num_users] returns the number of
    accounts that pass the filters; once the list is loaded, the number
    is that of the cached list and the account database is not read
    again. *)
Theorem ldm_greeter_get_num_users_counts (sys : System) (greeter : LdmGreeter) :
  Z.of_nat (length (visible_entries sys)) < 2 ^ 31 ->
  Z.of_nat (length (users (priv greeter))) < 2 ^ 31 ->
  (have_users (priv greeter) = false -> users (priv greeter) = [] ->
   snd (ldm_greeter_get_num_users sys greeter) = Z.of_nat (length (visible_entries sys)))
  /\ (have_users (priv greeter) = true ->
      ldm_greeter_get_num_users sys greeter
      = (greeter, Z.of_nat (length (users (priv greeter))))).
Proof.
  intros Hsmall Hsmall'. unfold ldm_greeter_get_num_users. split.
  - intros Hfirst Hempty. cbn [snd].
    destruct (update_users_loaded sys greeter Hfirst Hempty) as (_ & Hperm & _).
    rewrite (Permutation_length Hperm), length_seq.
    rewrite u32_small, s32_small by lia. reflexivity.
  - intros Hhave. unfold update_users. rewrite Hhave.
    rewrite u32_small, s32_small by lia. reflexivity.
Qed.

Lemma ldm_greeter_get_num_users_counts_witness :
  (have_users (priv ldm_greeter_init) = false -> users (priv ldm_greeter_init) = [] ->
   snd (ldm_greeter_get_num_users baseline_accounts ldm_greeter_init)
   = Z.of_nat (length (visible_entries baseline_accounts)))
  /\ (have_users (priv ldm_greeter_init) = true ->
      ldm_greeter_get_num_users baseline_accounts ldm_greeter_init
      = (ldm_greeter_init, Z.of_nat (length (users (priv ldm_greeter_init))))).
Proof.
  apply (ldm_greeter_get_num_users_counts baseline_accounts ldm_greeter_init).
  - vm_compute. reflexivity.
  - vm_compute. reflexivity.
Defined.

(** ** Lookups and reloads after the first load *)

Lemma update_users_names (sys : System) (greeter : LdmGreeter) :
  have_users (priv greeter) = false -> users (priv greeter) = [] ->
  let greeter' := update_users sys greeter in
  Permutation (map (ldm_user_get_name greeter') (users (priv greeter')))
              (map pw_name (visible_entries sys)).
Proof.
  intros Hfirst Hempty. cbv zeta.
  destruct (update_users_loaded sys greeter Hfirst Hempty) as (_ & _ & Hrec & _).
  apply (Permutation_map user_name) in Hrec. rewrite !map_map in Hrec.
  exact Hrec.
Qed.

Lemma find_none_iff {A : Type} (f : A -> bool) (l : list A) :
  List.find f l = None <-> forall x, In x l -> f x = false.
Proof.
  split; [apply List.find_none|].
  induction l as [|x l IH]; intros H; [reflexivity|].
  cbn [List.find]. rewrite (H x) by (left; reflexivity).
  apply IH. intros y Hy. apply H. right. exact Hy.
Qed.

Lemma get_user_by_name_None (greeter : LdmGreeter) (name : string) :
  get_user_by_name greeter name = None
  <-> ~ In name (map (ldm_user_get_name greeter) (users (priv greeter))).
Proof.
  unfold get_user_by_name. rewrite find_none_iff. split.
  - intros H Hin. apply in_map_iff in Hin as (p & Hname & Hp).
    specialize (H p Hp). cbv beta in H. rewrite strcmp_eqb, Hname, String.eqb_refl in H.
    discriminate.
  - intros H p Hp. rewrite strcmp_eqb. apply String.eqb_neq. intros Hname.
    apply H. rewrite <- Hname. apply in_map, Hp.
Qed.

(** X24: [ldm_greeter_get_user_by_name] returns a user of the list that
    has the name asked for, or NULL when no user of the list has it; on
    a greeter that has not loaded its list yet, a user is found exactly
    for the names of the accounts that pass the filters.  A NULL name
    gives NULL and leaves the list unloaded. *)
Theorem ldm_greeter_get_user_by_name_finds (sys : System) (greeter : LdmGreeter)
    (username : string) :
  let greeter' := fst (ldm_greeter_get_user_by_name sys greeter (Some username)) in
  let found := snd (ldm_greeter_get_user_by_name sys greeter (Some username)) in
  (forall user, found = Some user ->
                In user (users (priv greeter')) /\ ldm_user_get_name greeter' user = username)
  /\ (found = None ->
      ~ In username (map (ldm_user_get_name greeter') (users (priv greeter'))))
  /\ (have_users (priv greeter) = false -> users (priv greeter) = [] ->
      (is_Some found <-> In username (map pw_name (visible_entries sys))))
  /\ ldm_greeter_get_user_by_name sys greeter None = (greeter, None).
Proof.
  cbv zeta. unfold ldm_greeter_get_user_by_name. cbn [fst snd].
  split; [|split; [|split; [|reflexivity]]].
  - intros user Hfound. apply get_user_by_name_Some in Hfound. exact Hfound.
  - intros Hfound. apply get_user_by_name_None. exact Hfound.
  - intros Hfirst Hempty.
    pose proof (update_users_names sys greeter Hfirst Hempty) as Hnames. cbv zeta in Hnames.
    destruct (get_user_by_name (update_users sys greeter) username) as [user|] eqn:E.
    + split; [intros _|intros _; eexists; reflexivity].
      apply get_user_by_name_Some in E as [Hin Hname].
      apply (Permutation_in _ Hnames). rewrite <- Hname.
      apply (in_map (ldm_user_get_name (update_users sys greeter))), Hin.
    + split; [intros [? H]; discriminate H|].
      intros Hin. exfalso. apply get_user_by_name_None in E. apply E.
      apply (Permutation_in _ (Permutation_sym Hnames)), Hin.
Qed.

Lemma ldm_greeter_get_user_by_name_finds_witness :
  is_Some (snd (ldm_greeter_get_user_by_name baseline_accounts ldm_greeter_init
                  (Some "bob"%string)))
  <-> In "bob"%string (map pw_name (visible_entries baseline_accounts)).
Proof.
  apply (ldm_greeter_get_user_by_name_finds baseline_accounts ldm_greeter_init "bob");
    reflexivity.
Defined.

Lemma same_fields_refl (c : LdmUser) : same_fields c c = true.
Proof.
  unfold same_fields, unchanged.
  assert (Ho : forall o, option_string_eqb o o = true)
    by (intros [x|]; [apply String.eqb_refl|reflexivity]).
  rewrite !Ho, String.eqb_refl, Bool.eqb_reflx. reflexivity.
Qed.

Lemma NoDup_map_eq {A : Type} (f : A -> string) (l : list A) (x y : A) :
  List.NoDup (map f l) -> In x l -> In y l -> f x = f y -> x = y.
Proof.
  induction l as [|a l IH]; intros Hnd Hx Hy Hf; [destruct Hx|].
  cbn [map] in Hnd. inversion Hnd as [|? ? Hnotin Hnd']; subst.
  destruct Hx as [->|Hx], Hy as [->|Hy].
  - reflexivity.
  - exfalso. apply Hnotin. rewrite Hf. apply in_map, Hy.
  - exfalso. apply Hnotin. rewrite <- Hf. apply in_map, Hx.
  - apply IH; assumption.
Qed.

(** After the first load of accounts with distinct names, the entry of
    a name finds the cached user made from it. *)
Lemma update_users_finds (sys : System) (greeter : LdmGreeter) (entry : passwd) :
  have_users (priv greeter) = false -> users (priv greeter) = [] ->
  List.NoDup (map pw_name (visible_entries sys)) ->
  In entry (visible_entries sys) ->
  let greeter' := update_users sys greeter in
  exists user, get_user_by_name greeter' (pw_name entry) = Some user
               /\ heap greeter' !!! user = candidate sys entry.
Proof.
  intros Hfirst Hempty Hnodup Hin. cbv zeta.
  destruct (update_users_loaded sys greeter Hfirst Hempty) as (_ & _ & Hrec & _).
  pose proof (update_users_names sys greeter Hfirst Hempty) as Hnames. cbv zeta in Hnames.
  set (g1 := update_users sys greeter) in *.
  assert (Hc : In (candidate sys entry) (map (fun p => heap g1 !!! p) (users (priv g1))))
    by (apply (Permutation_in _ (Permutation_sym Hrec)), in_map, Hin).
  apply in_map_iff in Hc as (user & Huser & Hu).
  exists user. split; [|exact Huser].
  replace (pw_name entry) with (ldm_user_get_name g1 user)
    by (unfold ldm_user_get_name; rewrite Huser; reflexivity).
  apply get_user_by_name_NoDup; [|exact Hu].
  apply (Permutation_NoDup (Permutation_sym Hnames)). exact Hnodup.
Qed.

Lemma filter_all_false {A : Type} (f : A -> bool) (l : list A) :
  (forall x, In x l -> f x = false) -> List.filter f l = [].
Proof.
  intros H. rewrite (filter_ext_in f (fun _ => false)) by exact H. apply filter_false.
Qed.

Lemma omap_all_none {A B : Type} (f : A -> option B) (l : list A) :
  (forall x, In x l -> f x = None) -> omap f l = [].
Proof.
  induction l as [|x l IH]; intros H; [reflexivity|].
  change (omap f (x :: l)) with (match f x with Some y => y :: omap f l | None => omap f l end).
  rewrite (H x) by (left; reflexivity). apply IH. intros y Hy. apply H. right. exact Hy.
Qed.

(** X25: when the accounts that pass the filters have distinct names and
    are what they were at the first load, a reload raises no signal:
    every user of the list is still listed, the same object with the
    same record. *)
Theorem reload_of_unchanged_accounts_is_silent (sys : System) (greeter : LdmGreeter) :
  have_users (priv greeter) = false ->
  users (priv greeter) = [] ->
  List.NoDup (map pw_name (visible_entries sys)) ->
  let loaded := update_users sys greeter in
  let reloaded := passwd_changed_cb sys G_FILE_MONITOR_EVENT_CHANGES_DONE_HINT loaded in
  signals reloaded = signals loaded
  /\ (forall user, In user (users (priv loaded)) ->
                   In user (users (priv reloaded))
                   /\ heap reloaded !!! user = heap loaded !!! user).
Proof.
  intros Hfirst Hempty Hnodup loaded reloaded.
  destruct (update_users_first sys greeter Hfirst Hempty) as (_ & Hhave & Hvalid).
  pose proof (update_users_names sys greeter Hfirst Hempty) as Hnames. cbv zeta in Hnames.
  fold loaded in Hhave, Hvalid, Hnames.
  assert (Hnd : List.NoDup (map (ldm_user_get_name loaded) (users (priv loaded))))
    by (apply (Permutation_NoDup (Permutation_sym Hnames)); exact Hnodup).
  pose proof (load_entries_exact sys loaded Hvalid Hnodup) as Hex.
  assert (Hfind : forall e, In e (visible_entries sys) ->
            exists user, get_user_by_name loaded (pw_name e) = Some user
                         /\ heap loaded !!! user = candidate sys e)
    by (intros e He; apply (update_users_finds sys greeter e Hfirst Hempty Hnodup He)).
  assert (Hentry : forall user, In user (users (priv loaded)) ->
            exists e, In e (visible_entries sys)
                      /\ get_user_by_name loaded (pw_name e) = Some user).
  { intros user Hu.
    assert (Hn : In (ldm_user_get_name loaded user) (map pw_name (visible_entries sys)))
      by (apply (Permutation_in _ Hnames), in_map, Hu).
    apply in_map_iff in Hn as (e & Hname & He).
    exists e. split; [exact He|]. rewrite Hname.
    apply get_user_by_name_NoDup; assumption. }
  assert (Hreloaded : reloaded = load_users sys loaded) by reflexivity.
  rewrite Hreloaded. split.
  - rewrite signals_load_users.
    assert (Hnew : ld_new_users (load_entries sys loaded) = []).
    { pose proof (ex_new _ _ _ _ Hex Hhave) as Pnew.
      rewrite filter_all_false in Pnew.
      - apply Permutation_sym, Permutation_nil in Pnew.
        destruct (ld_new_users (load_entries sys loaded)); [reflexivity|discriminate Pnew].
      - intros e He. unfold new_entry. destruct (Hfind e He) as (user & -> & _). reflexivity. }
    assert (Hchanged : ld_changed_users (load_entries sys loaded) = []).
    { pose proof (ex_changed _ _ _ _ Hex) as Pchanged.
      rewrite omap_all_none in Pchanged.
      - apply Permutation_sym, Permutation_nil in Pchanged. exact Pchanged.
      - intros e He. unfold changed_entry. destruct (Hfind e He) as (user & -> & ->).
        rewrite same_fields_refl. reflexivity. }
    assert (Hremoved : removed_users (users (priv loaded)) (ld_users (load_entries sys loaded))
                       = []).
    { rewrite (removed_users_gone sys loaded (visible_entries sys)) by assumption.
      apply filter_all_false. intros user Hu. unfold gone.
      destruct (Hentry user Hu) as (e & He & Hget).
      apply get_user_by_name_Some in Hget as [_ Hname].
      apply negb_false_iff, existsb_exists. exists e. split; [exact He|].
      apply String.eqb_eq. symmetry. exact Hname. }
    rewrite Hnew, Hchanged, Hremoved. cbn. apply app_nil_r.
  - intros user Hu. destruct (Hentry user Hu) as (e & He & Hget).
    assert (Hlt : (user < length (heap loaded))%nat).
    { unfold users_valid in Hvalid. rewrite List.Forall_forall in Hvalid. apply Hvalid, Hu. }
    rewrite load_users_spec. cbv zeta. cbn [priv users set_users heap]. split.
    + apply (ex_users _ _ _ _ Hex user Hlt). exists e. split; assumption.
    + rewrite (ex_updated _ _ _ _ Hex e user He Hget).
      destruct (Hfind e He) as (user' & Hget' & Hrecord).
      rewrite Hget in Hget'. injection Hget' as <-.
      apply same_fields_updated. rewrite Hrecord. apply same_fields_refl.
Qed.

Lemma reload_of_unchanged_accounts_is_silent_witness :
  let loaded := update_users baseline_accounts ldm_greeter_init in
  let reloaded :=
    passwd_changed_cb baseline_accounts G_FILE_MONITOR_EVENT_CHANGES_DONE_HINT loaded in
  signals reloaded = signals loaded
  /\ (forall user, In user (users (priv loaded)) ->
                   In user (users (priv reloaded))
                   /\ heap reloaded !!! user = heap loaded !!! user).
Proof.
  apply (reload_of_unchanged_accounts_is_silent baseline_accounts ldm_greeter_init).
  - reflexivity.
  - reflexivity.
  - apply NoDup_ListNoDup, (bool_decide_unpack _). vm_compute. exact I.
Defined.

(** ** Languages and sessions *)

Lemma string_app_cons (x : ascii) (a b : string) :
  (String x a ++ b)%string = String x (a ++ b)%string.
Proof. reflexivity. Qed.

Lemma string_app_nil (b : string) : (EmptyString ++ b)%string = b.
Proof. reflexivity. Qed.

Lemma string_app_assoc (a b c : string) : ((a ++ b) ++ c)%string = (a ++ (b ++ c))%string.
Proof.
  induction a as [|x a IH]; [reflexivity|].
  rewrite !string_app_cons, IH. reflexivity.
Qed.

Lemma string_app_empty (a : string) : (a ++ EmptyString)%string = a.
Proof.
  induction a as [|x a IH]; [reflexivity|].
  rewrite string_app_cons, IH. reflexivity.
Qed.

Lemma split_tokens_set_line (delimiters : list ascii) (line rest token : string) (d : ascii) :
  Forall (fun c => existsb (Ascii.eqb c) delimiters = false) (list_ascii_of_string line) ->
  existsb (Ascii.eqb d) delimiters = true ->
  split_tokens_set delimiters (line ++ String d rest) token
  = (token ++ line)%string :: split_tokens_set delimiters rest EmptyString.
Proof.
  revert token. induction line as [|x line IH]; intros token Hline Hd.
  - rewrite string_app_nil. cbn [split_tokens_set]. rewrite Hd, string_app_empty. reflexivity.
  - cbn [list_ascii_of_string] in Hline. apply Forall_cons_1 in Hline as [Hx Hline].
    rewrite string_app_cons. cbn [split_tokens_set]. rewrite Hx, (IH _ Hline Hd).
    rewrite string_app_assoc. reflexivity.
Qed.

Lemma line_break_free (code : string) :
  Forall (fun c => c <> "010"%char /\ c <> "013"%char) (list_ascii_of_string code) ->
  Forall (fun c => existsb (Ascii.eqb c) ["010"%char; "013"%char] = false)
         (list_ascii_of_string code).
Proof.
  apply List.Forall_impl. intros c [Hn Hr]. cbn [existsb].
  destruct (Ascii.eqb_spec c "010"%char); [contradiction|].
  destruct (Ascii.eqb_spec c "013"%char); [contradiction|]. reflexivity.
Qed.

Lemma split_tokens_set_unlines (codes : list string) :
  Forall locale_name codes ->
  split_tokens_set ["010"%char; "013"%char] (unlines codes) EmptyString
  = codes ++ [EmptyString].
Proof.
  induction 1 as [|code codes (_ & _ & Hcode) _ IH]; [reflexivity|].
  cbn [unlines fold_right]. rewrite split_tokens_set_line;
    [|apply line_break_free, Hcode|reflexivity].
  rewrite string_app_nil. cbn [app]. f_equal. exact IH.
Qed.

Lemma g_strsplit_set_unlines (codes : list string) (l : list string) :
  Forall locale_name codes ->
  fold_left add_language (g_strsplit_set (unlines codes) ["010"%char; "013"%char]) l =
  fold_left add_language codes l.
Proof.
  intros Hcodes. destruct codes as [|code codes]; [reflexivity|].
  assert (Hsplit : g_strsplit_set (unlines (code :: codes)) ["010"%char; "013"%char]
                   = split_tokens_set ["010"%char; "013"%char] (unlines (code :: codes))
                                      EmptyString).
  { cbn [unlines fold_right]. destruct code; reflexivity. }
  rewrite Hsplit, split_tokens_set_unlines by exact Hcodes.
  rewrite fold_left_app. reflexivity.
Qed.

Lemma add_language_locale (l : list string) (code : string) :
  locale_name code ->
  add_language l code = l ++ List.filter interesting [code].
Proof.
  intros (Hne & Hchug & _). unfold add_language. rewrite Hchug.
  destruct code as [|c code]; [contradiction|].
  rewrite !strcmp_eqb. cbn [List.filter]. unfold interesting.
  destruct (_ || _); cbn [negb]; [rewrite app_nil_r|]; reflexivity.
Qed.

Lemma fold_add_language (codes l : list string) :
  Forall locale_name codes ->
  fold_left add_language codes l = l ++ List.filter interesting codes.
Proof.
  intros Hcodes. revert l. induction Hcodes as [|code codes Hcode _ IH]; intros l.
  - cbn. rewrite app_nil_r. reflexivity.
  - cbn [fold_left]. rewrite IH, (add_language_locale _ _ Hcode), <- app_assoc.
    f_equal. cbn [List.filter]. destruct (interesting code); reflexivity.
Qed.

(** X26: when "locale -a" exits with status 0 and prints one locale name
    a line, the first call of [ldm_greeter_get_languages] returns the
    names in the order printed, without "C" and "POSIX", appended to the
    list held before, and marks the languages as loaded. *)
Theorem ldm_greeter_get_languages_lists (codes : list string) (c : Catalogues) :
  have_languages c = false ->
  Forall locale_name codes ->
  ldm_greeter_get_languages (SpawnExited 0 (unlines codes)) c
  = Some (mkCatalogues true (languages c ++ List.filter interesting codes)
                       (have_sessions c) (sessions c),
          languages c ++ List.filter interesting codes).
Proof.
  intros Hhave Hcodes. unfold ldm_greeter_get_languages, update_languages.
  rewrite Hhave. cbn [Z.eqb negb].
  rewrite g_strsplit_set_unlines, fold_add_language by exact Hcodes. reflexivity.
Qed.

Lemma ldm_greeter_get_languages_lists_witness :
  ldm_greeter_get_languages
    (SpawnExited 0 (unlines ["C"; "POSIX"; "de_DE.utf8"; "en_GB"]%string))
    (mkCatalogues false [] false [])
  = Some (mkCatalogues true ["de_DE.utf8"; "en_GB"]%string false [],
          ["de_DE.utf8"; "en_GB"]%string).
Proof.
  apply (ldm_greeter_get_languages_lists ["C"; "POSIX"; "de_DE.utf8"; "en_GB"]%string
           (mkCatalogues false [] false [])); [reflexivity|].
  repeat (apply List.Forall_cons;
          [split; [discriminate|split; [reflexivity|]];
           repeat (apply List.Forall_cons; [split; discriminate|]); apply List.Forall_nil|]).
  apply List.Forall_nil.
Defined.

(** X27: each catalogue is read once.  After a call of
    [update_languages] that returns, whether the command ran or not, a
    later call leaves the catalogue as it is whatever the command would
    print; the same holds for [update_sessions] once the directory could
    be opened. *)
Theorem catalogues_read_once (c c' : Catalogues) (first again : Spawned)
    (directory directory' : SessionDirectory) :
  (update_languages first c = Some c' ->
   have_languages c' = true /\ update_languages again c' = Some c')
  /\ (update_sessions directory c = Some c' ->
      is_Some (g_dir_open directory) ->
      have_sessions c' = true /\ update_sessions directory' c' = Some c').
Proof.
  split.
  - intros Hfirst.
    assert (Hhave : have_languages c' = true).
    { unfold update_languages in Hfirst.
      destruct (have_languages c) eqn:Hc; [congruence|].
      destruct first as [|exit_status stdout_text].
      - injection Hfirst as <-. reflexivity.
      - destruct (negb _); [discriminate|]. injection Hfirst as <-. reflexivity. }
    split; [exact Hhave|]. unfold update_languages. rewrite Hhave. reflexivity.
  - intros Hfirst [filenames Hopen].
    assert (Hhave : have_sessions c' = true).
    { unfold update_sessions in Hfirst.
      destruct (have_sessions c) eqn:Hc; [congruence|]. rewrite Hopen in Hfirst.
      destruct (load_sessions _ _ _); [|discriminate].
      injection Hfirst as <-. reflexivity. }
    split; [exact Hhave|]. unfold update_sessions. rewrite Hhave. reflexivity.
Qed.

Lemma catalogues_read_once_witness :
  (have_languages (mkCatalogues true [] false []) = true
   /\ update_languages (SpawnExited 0 "en_GB") (mkCatalogues true [] false [])
      = Some (mkCatalogues true [] false []))
  /\ (have_sessions (mkCatalogues false [] true []) = true
      /\ update_sessions (mkSessionDirectory (Some ["gnome.desktop"%string]) (fun _ => None))
                         (mkCatalogues false [] true [])
         = Some (mkCatalogues false [] true [])).
Proof.
  split.
  - apply (catalogues_read_once (mkCatalogues false [] false [])
             (mkCatalogues true [] false []) SpawnFailed (SpawnExited 0 "en_GB")
             (mkSessionDirectory None (fun _ => None))
             (mkSessionDirectory None (fun _ => None))).
    reflexivity.
  - apply (catalogues_read_once (mkCatalogues false [] false [])
             (mkCatalogues false [] true []) SpawnFailed SpawnFailed
             (mkSessionDirectory (Some []) (fun _ => None))
             (mkSessionDirectory (Some ["gnome.desktop"%string]) (fun _ => None))).
    + reflexivity.
    + eexists. reflexivity.
Defined.

Lemma string_of_list_ascii_app (a b : list ascii) :
  string_of_list_ascii (a ++ b)
  = (string_of_list_ascii a ++ string_of_list_ascii b)%string.
Proof.
  induction a as [|x a IH]; [reflexivity|].
  cbn [app string_of_list_ascii]. rewrite string_app_cons, IH. reflexivity.
Qed.

Lemma length_list_ascii_of_string (s : string) :
  length (list_ascii_of_string s) = String.length s.
Proof. induction s as [|x s IH]; [reflexivity|]. cbn. rewrite IH. reflexivity. Qed.

(** The key of a session with its suffix is the file name. *)
Lemma g_strndup_suffix (filename suffix : string) :
  g_str_has_suffix filename suffix = true ->
  (g_strndup filename (String.length filename - String.length suffix) ++ suffix)%string
  = filename.
Proof.
  unfold g_str_has_suffix, g_strndup. intros H.
  apply andb_prop in H as [_ H]. apply bool_decide_eq_true in H.
  rewrite !length_list_ascii_of_string in H.
  rewrite <- (string_of_list_ascii_of_string suffix) at 2.
  rewrite <- (string_of_list_ascii_of_string filename) at 3.
  rewrite <- H, <- string_of_list_ascii_app, take_drop. reflexivity.
Qed.

Lemma list_ascii_of_string_app (a b : string) :
  list_ascii_of_string (a ++ b) = list_ascii_of_string a ++ list_ascii_of_string b.
Proof.
  induction a as [|x a IH]; [reflexivity|].
  rewrite string_app_cons. cbn [list_ascii_of_string app]. rewrite IH. reflexivity.
Qed.

Lemma string_app_inv_tail (a b suffix : string) :
  (a ++ suffix)%string = (b ++ suffix)%string -> a = b.
Proof.
  intros H. apply (f_equal list_ascii_of_string) in H.
  rewrite !list_ascii_of_string_app in H. apply List.app_inv_tail in H.
  rewrite <- (string_of_list_ascii_of_string a), H.
  apply string_of_list_ascii_of_string.
Qed.

Lemma g_str_has_suffix_app (str suffix : string) :
  g_str_has_suffix (str ++ suffix) suffix = true.
Proof.
  unfold g_str_has_suffix. rewrite list_ascii_of_string_app, length_app.
  apply andb_true_intro. split.
  - apply Nat.leb_le. lia.
  - apply bool_decide_eq_true.
    replace (length (list_ascii_of_string str) + length (list_ascii_of_string suffix)
             - length (list_ascii_of_string suffix))%nat
      with (length (list_ascii_of_string str)) by lia.
    apply drop_app_length.
Qed.

Lemma load_session_session_of (directory : SessionDirectory) (sessions : list LdmSession)
    (filename : string) :
  (forall key_file,
     g_str_has_suffix filename ".desktop" = true ->
     g_key_file_load_from_file directory filename = Some key_file ->
     NoDisplay key_file = false ->
     is_Some (Name key_file)) ->
  load_session directory sessions filename
  = Some (sessions ++ omap (session_of directory) [filename]).
Proof.
  intros Hname. unfold load_session, session_of.
  change (omap ?f [filename]) with (match f filename with Some y => [y] | None => [] end).
  cbv beta.
  destruct (g_str_has_suffix filename ".desktop") eqn:Hsuffix; cbn [negb];
    [|rewrite app_nil_r; reflexivity].
  destruct (g_key_file_load_from_file directory filename) as [key_file|] eqn:Hload;
    [|rewrite app_nil_r; reflexivity].
  destruct (NoDisplay key_file) eqn:Hhidden; cbn [negb];
    [rewrite app_nil_r; reflexivity|].
  destruct (Hname key_file eq_refl eq_refl Hhidden) as [name ->]. reflexivity.
Qed.

Lemma load_sessions_session_of (directory : SessionDirectory) (filenames : list string) :
  forall sessions,
  names_given directory filenames ->
  load_sessions directory sessions filenames
  = Some (sessions ++ omap (session_of directory) filenames).
Proof.
  induction filenames as [|filename filenames IH]; intros sessions Hnames.
  - cbn. rewrite app_nil_r. reflexivity.
  - cbn [load_sessions]. rewrite load_session_session_of.
    + rewrite IH.
      * rewrite <- app_assoc. do 2 f_equal.
        change (filename :: filenames) with ([filename] ++ filenames).
        rewrite omap_app. reflexivity.
      * intros f k Hin. apply Hnames. right. exact Hin.
    + intros key_file. apply Hnames. left. reflexivity.
Qed.

Lemma session_of_Some (directory : SessionDirectory) (filename : string) (s : LdmSession) :
  session_of directory filename = Some s <->
  exists key_file,
    filename = (session_key s ++ ".desktop")%string
    /\ g_key_file_load_from_file directory filename = Some key_file
    /\ NoDisplay key_file = false
    /\ Name key_file = Some (session_name s)
    /\ session_comment s = default EmptyString (Comment key_file).
Proof.
  unfold session_of. split.
  - destruct (g_str_has_suffix filename ".desktop") eqn:Hsuffix; [|discriminate].
    destruct (g_key_file_load_from_file directory filename) as [key_file|]; [|discriminate].
    destruct (NoDisplay key_file) eqn:Hhidden; [discriminate|].
    destruct (Name key_file) as [name|] eqn:Hname; [|discriminate].
    intros [= <-]. exists key_file.
    split; [symmetry; apply (g_strndup_suffix _ _ Hsuffix)|]. auto.
  - intros (key_file & Hfile & Hload & Hhidden & Hname & Hcomment).
    assert (Hsuffix : g_str_has_suffix filename ".desktop" = true).
    { subst filename. apply g_str_has_suffix_app. }
    rewrite Hsuffix, Hload, Hhidden, Hname. f_equal.
    destruct s as [key name comment].
    cbn [session_key session_name session_comment] in *. f_equal.
    + apply (string_app_inv_tail _ _ ".desktop").
      rewrite (g_strndup_suffix _ _ Hsuffix). exact Hfile.
    + symmetry. exact Hcomment.
Qed.

(** X28: when the session directory can be opened and no visible desktop
    entry lacks a name, the first call of [ldm_greeter_get_sessions]
    appends, in directory order, one session for each file whose name
    ends in ".desktop", whose key file loads and is not marked
    NoDisplay: its key is the file name without the suffix, its name
    the entry's Name, its comment the entry's Comment or the empty
    string. *)
Theorem ldm_greeter_get_sessions_lists (directory : SessionDirectory) (c : Catalogues)
    (filenames : list string) :
  have_sessions c = false ->
  g_dir_open directory = Some filenames ->
  names_given directory filenames ->
  let found := omap (session_of directory) filenames in
  ldm_greeter_get_sessions directory c
  = Some (mkCatalogues (have_languages c) (languages c) true (sessions c ++ found),
          sessions c ++ found)
  /\ forall s,
       In s found <->
       exists filename key_file,
         In filename filenames
         /\ filename = (session_key s ++ ".desktop")%string
         /\ g_key_file_load_from_file directory filename = Some key_file
         /\ NoDisplay key_file = false
         /\ Name key_file = Some (session_name s)
         /\ session_comment s = default EmptyString (Comment key_file).
Proof.
  intros Hhave Hopen Hnames found. split.
  - unfold ldm_greeter_get_sessions, update_sessions.
    rewrite Hhave, Hopen, (load_sessions_session_of _ _ _ Hnames). reflexivity.
  - intros s. unfold found. rewrite <- list_elem_of_In, list_elem_of_omap. split.
    + intros (filename & Hin & Hs). apply session_of_Some in Hs as (key_file & Hs).
      exists filename, key_file. split; [apply list_elem_of_In, Hin|exact Hs].
    + intros (filename & key_file & Hin & Hs). exists filename.
      split; [apply list_elem_of_In, Hin|]. apply session_of_Some. exists key_file. exact Hs.
Qed.

Lemma ldm_greeter_get_sessions_lists_witness :
  ldm_greeter_get_sessions
    (mkSessionDirectory
       (Some ["gnome.desktop"; "README"; "hidden.desktop"; "broken.desktop"]%string)
       (fun filename =>
          if String.eqb filename "gnome.desktop"
          then Some (mkDesktopEntry false (Some "GNOME"%string) None)
          else if String.eqb filename "hidden.desktop"
               then Some (mkDesktopEntry true None None)
               else None))
    (mkCatalogues false [] false [])
  = Some (mkCatalogues false [] true [mkSession "gnome" "GNOME" EmptyString],
          [mkSession "gnome" "GNOME" EmptyString]).
Proof.
  refine (proj1 (ldm_greeter_get_sessions_lists
                   (mkSessionDirectory
                      (Some ["gnome.desktop"; "README"; "hidden.desktop";
                             "broken.desktop"]%string)
                      (fun filename =>
                         if String.eqb filename "gnome.desktop"
                         then Some (mkDesktopEntry false (Some "GNOME"%string) None)
                         else if String.eqb filename "hidden.desktop"
                              then Some (mkDesktopEntry true None None)
                              else None))
                   (mkCatalogues false [] false [])
                   ["gnome.desktop"; "README"; "hidden.desktop"; "broken.desktop"]%string
                   eq_refl eq_refl _)).
  intros filename key_file Hin _ Hload Hhidden.
  destruct Hin as [<-|[<-|[<-|[<-|[]]]]]; vm_compute in Hload;
    try discriminate Hload; injection Hload as <-;
    [eexists; reflexivity|discriminate Hhidden].
Defined.
